(* ===== verification/_CoqProject ===== *)
-Q . S2P
Prelude.v
SmackLabels.v
SmackAccess.v
MaliSearch.v
MaliDfs.v
InputBridge.v
FuelGauge.v
HeadsetCore.v
HeadsetProbe.v
UEtherLink.v
UEtherRndis.v
SensorDrv.v
SensorPower.v
SensorI2c.v
SensorBurst.v
SensorIoctl.v
