(* ===== verification/Prelude.v ===== *)
(** * A verification library for a slice of the kernel-samsung-kiran tree

    ** The program

    The repository is a slice of a Linux 3.10 kernel tree for a Samsung
    phone (Spreadtrum SC8830 SoC).  Its parts share no architecture:
    each is a kernel module that talks to the rest of the kernel only
    through kernel interfaces (LSM hooks, workqueues, clocks, regulators,
    interrupts, input handlers, power-supply properties).  The parts, by
    source file, are:

    - Smack access core, [src/security/smack/smack_access.c]: the label
      registry (label strings interned in a hash table and a list,
      secids), label parsing, the access decision [smk_access] with its
      hard-coded labels, the task check [smk_tskacc] and the audit record
      [smack_log].
    - Mali GPU frequency scaling,
      [src/drivers/gpu/mali/platform/sc8830/mali_platform.c]: frequency
      table generation, binary searches over the table, the utilization
      governor, the frequency-change work item and the power modes.
    - Samsung input bridge, [src/drivers/input/sec-input-bridge.c]: key
      sequences that raise uevents (log dump, safe mode).
    - SC2723 headset driver, [src/drivers/input/misc/headset_sprd_sc2723.c]:
      plug detection and button reports driven by two GPIO interrupts,
      ADC readings and delayed works, and its probe.
    - Samsung fuel gauge, [src/drivers/power/sec_fuelgauge.c]: the
      state-of-charge pipeline, the fuel-alert interrupt, sysfs and the
      probes.
    - USB gadget Ethernet, [src/drivers/usb/gadget/u_ether.c]: the
      MAC-address parameters, the pools of USB requests, the receive
      path, the transmit path with its CDC filter, the link
      connect/disconnect, and (with [CONFIG_USB_SPRD_DWC]) the RNDIS
      ring that gathers several socket buffers into one transfer.
    - Camera sensor driver,
      [src/drivers/media/sprd_sensor/sensor_drv_k.c] (the KIRAN build):
      the module state [s_p_sensor_mod], the four camera supplies with
      their use counts, the master clock and its source choice, I2C
      register reads and writes with retries, register tables and the
      burst writer, the misc-device file operations and [ioctl], the
      platform driver, the sysfs attributes, the cpuidle notifier and
      module init and exit.
    - The SPRD framebuffer, SWAP instrumentation glue and three headers
      (not modelled, below).

    ** Layout of the library (files in dependency order)

    - [Prelude] (this file): the notation scope [kernel_scope] for C
      integer operations, the errno values, the hint database [kmodel],
      the tactics [bits] and [inv_star], and the lemmas on masks, C
      division, [zlookup] (array reads that fail out of bounds) and
      reachability ([star], [star_invariant]) the components share.
    - [SmackLabels]: the label registry ([smk_insert_entry],
      [smk_find_entry], [smk_import_entry], [smk_parse_smack],
      [smk_netlbl_mls], [smack_from_secid], [smack_to_secid]) over a
      heap, the list and the hash index, with the invariant
      [registry_wf] and the abstract map it refines.
    - [SmackAccess]: [smk_access_entry], [smk_access], [smk_tskacc] and
      the audit record, against the typeclass [SmackRuleSource] that the
      registry instantiates; the inductive [smack_grants] is the
      abstract decision.
    - [MaliSearch]: the clock tables of the three build variants,
      [gpu_dfs_full_list_generate], [freq_search], [get_next_freq] and
      their reference functions.
    - [MaliDfs]: [struct gpu_dfs_context], the governor, the work item
      [gpu_change_freq_div] and the power modes, as the step relations
      [mali_step] (the work split at [down(sem)]) and [mali_step_atomic].
    - [InputBridge]: the bridge record, [input_bridge_event] with the
      log-dump and safe-mode matchers, the timer, the work and the
      probe, as the step relation [bridge_step].
    - [FuelGauge]: the power-supply callbacks, the capacity pipeline,
      the interrupt, the sysfs files and both probes.
    - [HeadsetCore]: the headset driver's state ([world]: static
      variables, analog registers, the two IRQ lines with the core's
      disable depth, the regulators, switches, input events and queued
      works) and every helper, handler and work function in the state
      monad [M]; the step relation [hs_step] runs one interrupt handler,
      work item or [debug_level] write to its end, and [hs_split_step]
      also runs the interrupt handlers and [button_press_verify_func],
      which takes no lock, between the two halves of the plug-out
      ([detect_plug_out_front], [detect_plug_out_back]).
    - [HeadsetProbe]: [sprd_headset_power_get/init],
      [headset_detect_parse_dt], [headset_debug_sysfs_init] and
      [headset_detect_probe] with all its error labels, recording the
      resources held and the releases of resources not held.
    - [UEtherLink]: [struct eth_dev] with its request pools as lists
      of request numbers, [prealloc], [alloc_requests], [rx_submit],
      [rx_complete], [rx_fill], [eth_work], the plain
      [eth_start_xmit] and [tx_complete], [gether_connect] and
      [gether_disconnect], [get_ether_addr] and its printer, as the
      step relation [link_step] (each operation whole) and
      [link_split_step], in which [rx_fill] ([rx_fill_take],
      [rx_fill_submit]) and [eth_start_xmit] ([xmit_take],
      [xmit_finish]) are cut where they drop [req_lock] holding a
      request, and [gether_disconnect] and the completions run in
      between.
    - [UEtherRndis]: the RNDIS ring ([struct rndis_msg], [struct
      pkt_msg]) over a transmit-side [sdev], with [eth_alloc_req],
      [save_to_queue], [update_sbks_in_queue], [pkt_msg_send],
      [tx_complete] and [eth_start_xmit] of that build, as the step
      relation [ring_step]; it uses [UEtherLink]'s statistics, CDC
      filter and transfer length.
    - [SensorDrv]: [struct sensor_module] behind [s_p_sensor_mod], the
      regulator and clock frameworks (use counts per supply and clock,
      unbalanced disables, handles that are NULL, [ERR_PTR] or objects),
      GPIO and I2C traffic and the kernel's answers as an oracle, in the
      state monad [M] of [sn_scope]; the frame lemmas ([preserves] with
      the preorders [fault_kept] and [reg_kept], hint database [pres]);
      [_sensor_k_kmalloc], [sensor_probe] and the pin functions.
    - [SensorPower]: [_sensor_regulator_enable/disable], the four
      [sensor_k_set_voltage_*], [_select_sensor_mclk], the MIPI clock
      and [sensor_k_set_mclk], with the invariants [supply_inv] (each
      supply's use count is the sum of the rail counts naming it) and
      [mclk_inv].
    - [SensorI2c]: [_Sensor_K_ReadReg], [_Sensor_K_WriteReg],
      [_sensor_k_wr_regtab], [_sensor_burst_write_init], [_sensor_k_wr_i2c]
      and [sensor_k_write] over the module buffer.
    - [SensorBurst]: what the sensor receives ([dev_write], [dev_apply])
      and the reference [burst_ref] the burst writer refines.
    - [SensorIoctl]: open, release, read, [sensor_k_ioctl] with every
      command, probe and remove, the sysfs methods, the cpuidle
      notifier, [sensor_k_init] with its error labels and
      [sensor_k_exit]; registrations are held kernel objects.

    Every operation is a Rocq function of the code's state; what comes
    from outside the file (hardware reads, allocations, registrations,
    device-tree properties, chip answers) is an argument or an oracle,
    so the theorems hold for every answer.  C array reads return
    [option]; machine integers are [Z] with their width written out
    where it matters (the 32-bit analog registers, the u32 secid).

    ** What the theorems show

    - Refinement: the hash lookup refines the abstract label map, and
      [smk_access] decides the grant rules of the spec.
    - Invariants preserved by every step: the Smack registry, the Mali
      clock state and limits, the input bridge's indices, and the
      headset's balanced IRQ enables, regulator counts and alternating
      key events, from the state a successful probe leaves, when each
      handler runs to its end ([hs_step]).
    - Races, where the code drops a lock in the middle of an operation:
      the Mali work reads its frequencies before [down(sem)]; the USB
      [rx_fill] loses a request and [eth_start_xmit] dereferences a
      NULL [port_usb] when [gether_disconnect] runs in between
      ([ueth_disconnect_races]); the headset's press verification
      reports a press inside the plug-out, leaving the key pressed with
      the jack out ([headset_unplug_verify_race]).  Each comes with the
      lemmas that the split halves compose to the whole operation.
    - Equivalence of the binary searches with reference scans, and
      termination of [freq_search] in log2 len + 1 iterations (its loop
      returns [None] when the fuel runs out, and never does).
    - Conservation of the USB requests when every operation runs to
      its end: every request [alloc_requests] made is, in every state
      [link_step] reaches, in exactly one place (a free list, the
      endpoint queue, the receive queue or freed), and
      [gether_disconnect] frees each one exactly once; with the
      interleavings of [link_split_step] this fails (above).  The receive
      loop's statistics count exactly the frames it accepts.
    - The RNDIS ring without wrapping stalls for good once a slot is
      gathering and no transfer is in flight; a NULL from the wrap
      hook frees the buffer but leaves its number in the slot and the
      slot's request on the free list; a one-buffer transfer is not
      counted in [tx_bytes].
    - Camera sensor: the burst writer refines a one-write-per-entry
      reference on well-formed tables, and overflows its 255-byte
      array on a longer burst; the supply and master-clock invariants
      hold across the set-voltage and set-clock calls, except where
      the shared KIRAN DVDD count, a failed enable or a failed clock
      rate break them; [_select_sensor_mclk] returns the source and
      divider that minimise its measure |clock - clk_set * div| (which is
      not the output nearest the clock asked); a table size that wraps
      to 0 reuses a buffer already held and reads past it; the write command round-trips its address and value
      and the retry loops stop after 4 tries; the release path leaves
      the sub camera's supply on; exit leaves the cpuidle notifier on a
      NULL module.
    - Liveness of plug detection: from every reachable state the queued
      detect work re-enables the detect interrupt.
    - Functional behaviour on every branch and the error paths, and the
      defects the modelling found (the manifest's findings), each as a
      theorem with a concrete witness.

    ** Bounds and fuel

    Loops are [Fixpoint]s with the bound of the C loop: [len + 1]
    iterations for the Mali searches (enough: [freq_search_correct],
    [freq_search_gen_iterations], [get_next_freq_correct]), 50 ADC
    samples in [wrap_sci_adc_get_value], 20 debug reads, and
    [NO_MIC_RETRY_COUNT] retries of [headset_type_detect].  In
    [UEtherLink], [rx_fill] runs at most [length rx_reqs] times (each
    pass takes a request off the list) and the flushes of the queues
    at most their length; [get_ether_addr] reads 6 bytes.  In
    [UEtherRndis], [RNDIS_MSG_MAX_NUM] is a section variable (its
    header is outside the slice); the stall theorem needs it to be at
    least 2, the build's value is larger.  The sensor's I2C loops make
    [SENSOR_I2C_OP_TRY_NUM] = 4 tries, the burst loop one pass per
    table entry (the overflow needs the opening marker and 255 entries
    of one burst, 256 bytes), [_select_sensor_mclk] 4 dividers by 4 sources for a
    [clk_set] of at most 96, and the register-table size is a
    [uint32_t] product.  No result
    of the development is an artefact of fuel.

    ** Not modelled

    [sprdfb_main.c] is framebuffer and panel plumbing; of
    [sensor_drv_k.c], the build variants other than KIRAN (another
    DVDD function and burst writer), the CSI-2 library behind
    [SENSOR_IO_IF_CFG] (its calls are events), [sensor_power_on/off]
    (outside [src/]) and the SM5701 flash code; of [u_ether.c], the netdev registration
    ([gether_setup_name], [gether_cleanup]), the ethtool and open/close
    callbacks and the [memcpy] of frame contents (the model keeps
    lengths, not bytes); [sec_battery.h] and [zinitix_ts.h]
    declare data only; the SWAP files call modules outside the slice.
    In the modelled files: RCU, and the locks except where an
    operation drops one holding state (the Mali work at its semaphore,
    [rx_fill] and [eth_start_xmit] at [req_lock], the headset plug-out
    against the unlocked press verification); other interleavings are
    not modelled.  Also printk, msleep
    and wake locks, the headset's class/device sysfs nodes (their
    failures only print) and the code under [#if 0].
*)

From stdpp Require Export base list strings gmap sorting.
From Stdlib Require Export Ascii.
From Stdlib Require String.
Export String.StringSyntax.
From Stdlib Require Export ZArith Lia.

(** ** Notation for C integer operations *)

Declare Scope kernel_scope.
Delimit Scope kernel_scope with k.

Notation "a .& b" := (Z.land a b) (at level 40, left associativity) : kernel_scope.
Notation "a .| b" := (Z.lor a b) (at level 50, left associativity) : kernel_scope.
Notation "a .^ b" := (Z.lxor a b) (at level 50, left associativity) : kernel_scope.
Notation "a << n" := (Z.shiftl a n) (at level 30, no associativity) : kernel_scope.
Notation "a >> n" := (Z.shiftr a n) (at level 30, no associativity) : kernel_scope.
Notation "~~ a" := (Z.lnot a) (at level 35, right associativity) : kernel_scope.

Open Scope kernel_scope.

(** [BIT(n)] of [include/linux/bitops.h]. *)
Definition BIT (n : Z) : Z := 1 << n.

(** C's [/] on [int]: truncation toward zero. *)
Definition c_div (a b : Z) : Z := Z.quot a b.

(** C's "(x & m) == x": every bit of [x] is a bit of [m]. *)
Definition mask_within (x m : Z) : bool := Z.eqb (x .& m)%Z x.

(** C's "(x & b) != 0" for a test of one or several bits. *)
Definition bits_any (x b : Z) : bool := negb (Z.eqb (x .& b)%Z 0).

(** ** Error numbers of [include/uapi/asm-generic/errno-base.h] *)

Definition ENOENT : Z := 2%Z.
Definition EIO : Z := 5%Z.
Definition ENOMEM : Z := 12%Z.
Definition EACCES : Z := 13%Z.
Definition EFAULT : Z := 14%Z.
Definition ENODEV : Z := 19%Z.
Definition EINVAL : Z := 22%Z.
Definition ENODATA : Z := 61%Z.

(** ** Hint database of the development *)

Create HintDb kmodel discriminated.

(** ** Lemmas on C division *)

Lemma c_div_nonneg a b : (0 <= a)%Z -> (0 < b)%Z -> c_div a b = (a / b)%Z.
Proof. intros. unfold c_div. apply Z.quot_div_nonneg; lia. Qed.

Lemma c_div_bounds a b :
  (0 <= a)%Z -> (0 < b)%Z -> (0 <= c_div a b <= a)%Z.
Proof.
  intros Ha Hb. rewrite c_div_nonneg by lia. split.
  - apply Z.div_pos; lia.
  - apply Z.div_le_upper_bound; nia.
Qed.

Lemma c_div_mono a a' b :
  (0 <= a <= a')%Z -> (0 < b)%Z -> (c_div a b <= c_div a' b)%Z.
Proof.
  intros. rewrite !c_div_nonneg by lia. apply Z.div_le_mono; lia.
Qed.

(** ** Lemmas on masks *)

(** The bitwise tactic: reduce an equation between bit expressions to
    one boolean equation per bit position. *)
Ltac bits :=
  apply Z.bits_inj'; intros ?n ?Hn;
  repeat rewrite ?Z.land_spec, ?Z.lor_spec, ?Z.lxor_spec,
    ?Z.lnot_spec, ?Z.testbit_0_l by lia.

Lemma mask_within_spec x m :
  mask_within x m = true <-> (x .& m)%Z = x.
Proof. unfold mask_within. apply Z.eqb_eq. Qed.

Lemma mask_within_refl x : mask_within x x = true.
Proof. apply mask_within_spec. apply Z.land_diag. Qed.

Lemma mask_within_0 m : mask_within 0 m = true.
Proof. apply mask_within_spec. apply Z.land_0_l. Qed.

Lemma mask_within_lor x y m :
  mask_within x m = true -> mask_within y m = true ->
  mask_within (x .| y) m = true.
Proof.
  rewrite !mask_within_spec. intros Hx Hy.
  rewrite Z.land_lor_distr_l, Hx, Hy. reflexivity.
Qed.

Lemma mask_within_lor_r x m y :
  mask_within x m = true -> mask_within x (m .| y) = true.
Proof.
  rewrite !mask_within_spec. intros Hx.
  rewrite Z.land_lor_distr_r, Hx. bits. destruct (Z.testbit x n); reflexivity.
Qed.

Lemma mask_within_trans x m m' :
  mask_within x m = true -> mask_within m m' = true ->
  mask_within x m' = true.
Proof.
  rewrite !mask_within_spec. intros Hx Hm.
  rewrite <- Hx at 1. rewrite <- Z.land_assoc, Hm. exact Hx.
Qed.

Lemma mask_within_land x m : mask_within (x .& m) m = true.
Proof. apply mask_within_spec. rewrite <- Z.land_assoc, Z.land_diag. reflexivity. Qed.

#[export] Hint Resolve mask_within_refl mask_within_0 mask_within_land : kmodel.
#[export] Hint Resolve mask_within_lor mask_within_lor_r : kmodel.

(** ** Options and lists *)

Lemma list_find_Some_In {A} (P : A -> Prop) `{!forall x, Decision (P x)}
    (l : list A) i x :
  list_find P l = Some (i, x) -> x ∈ l /\ P x.
Proof.
  intros Hf. apply list_find_Some in Hf as (Hl & HP & _).
  split; [by eapply list_elem_of_lookup_2 | done].
Qed.

(** ** Reachability of a transition system *)

Section Reach.
Context {S : Type} (step : S -> S -> Prop).

(** Zero or more steps. *)
Inductive star : S -> S -> Prop :=
| star_refl s : star s s
| star_step s s' s'' : step s s' -> star s' s'' -> star s s''.

Lemma star_one s s' : step s s' -> star s s'.
Proof. eauto using star. Qed.

Lemma star_trans s s' s'' : star s s' -> star s' s'' -> star s s''.
Proof. induction 1; eauto using star. Qed.

(** An inductive invariant holds in every reachable state. *)
Lemma star_invariant (I : S -> Prop) :
  (forall s s', I s -> step s s' -> I s') ->
  forall s s', star s s' -> I s -> I s'.
Proof. intros Hpres s s' Hs. induction Hs; eauto. Qed.
End Reach.

#[export] Hint Constructors star : kmodel.

(** [inv_star H] proves an invariant along [H : star step s s'] from
    the one-step preservation lemma [pres]. *)
Ltac inv_star pres H :=
  eapply (star_invariant _ _ pres); [exact H|].

(** ** The first element of a list satisfying a test (a C list walk
    that returns at the first match) *)

Fixpoint find_first {A} (p : A -> bool) (l : list A) : option A :=
  match l with
  | [] => None
  | x :: rest => if p x then Some x else find_first p rest
  end.

Lemma find_first_Some {A} (p : A -> bool) l x :
  find_first p l = Some x -> x ∈ l /\ p x = true.
Proof.
  induction l as [|y l IH]; simpl; [done|].
  destruct (p y) eqn:Hy; intros H.
  - injection H as <-. split; [left|]; done.
  - destruct (IH H). split; [right|]; done.
Qed.

Lemma find_first_None {A} (p : A -> bool) l :
  find_first p l = None <-> forall x, x ∈ l -> p x = false.
Proof.
  induction l as [|y l IH]; simpl.
  - split; [intros _ x Hx; inversion Hx | done].
  - destruct (p y) eqn:Hy; split.
    + done.
    + intros H. rewrite (H y) in Hy; [done | left].
    + intros H x Hx. inversion Hx; subst; [done | by apply IH].
    + intros H. apply IH. intros x Hx. apply H. by right.
Qed.

(** [filter] only looks at the elements of the list. *)
Lemma filter_ext_in {A} (P Q : A -> Prop) `{!forall x, Decision (P x)}
    `{!forall x, Decision (Q x)} (l : list A) :
  (forall x, x ∈ l -> P x <-> Q x) -> filter P l = filter Q l.
Proof.
  induction l as [|y l IH]; intros Hext; [done|].
  rewrite !filter_cons.
  assert (IH' : filter P l = filter Q l) by (apply IH; intros x Hx; apply Hext; by right).
  rewrite IH'. destruct (decide (P y)) as [Hp|Hp], (decide (Q y)) as [Hq|Hq]; try done.
  - exfalso. apply Hq, Hext; [left|]; done.
  - exfalso. apply Hp, Hext; [left|]; done.
Qed.

(** [omap] only looks at the elements of the list. *)
Lemma omap_ext_in {A B} (f g : A -> option B) (l : list A) :
  (forall x, x ∈ l -> f x = g x) -> omap f l = omap g l.
Proof.
  intros Hext. apply list_omap_ext. apply Forall_Forall2_diag.
  apply Forall_forall. intros x Hx. by apply Hext.
Qed.

(** ** C arrays indexed by an [int] *)

(** [a[i]] for an [int] index: [None] outside the array (a negative
    index included), which the models treat as an error. *)
Definition zlookup {A} (l : list A) (i : Z) : option A :=
  if (0 <=? i)%Z then l !! Z.to_nat i else None.

Lemma zlookup_lt {A} (l : list A) i :
  (0 <= i < Z.of_nat (length l))%Z -> is_Some (zlookup l i).
Proof.
  intros Hi. unfold zlookup. destruct (Z.leb_spec 0 i); [|lia].
  apply lookup_lt_is_Some_2. lia.
Qed.

Lemma zlookup_Some {A} (l : list A) i x :
  zlookup l i = Some x -> (0 <= i < Z.of_nat (length l))%Z /\ l !! Z.to_nat i = Some x.
Proof.
  unfold zlookup. destruct (Z.leb_spec 0 i); [|done]. intros Hl.
  split; [|done]. apply lookup_lt_Some in Hl. lia.
Qed.

Lemma zlookup_elem {A} (l : list A) x p : zlookup l x = Some p -> p ∈ l.
Proof. intros Hx. apply zlookup_Some in Hx as [_ Hx]. by eapply list_elem_of_lookup_2. Qed.

#[export] Hint Resolve zlookup_elem : kmodel.

(** The midpoint of a binary search, [(low + high) / 2] in C. *)
Lemma c_div2_between low high :
  (0 <= low <= high)%Z -> (low <= c_div (low + high) 2 <= high)%Z.
Proof.
  intros H. rewrite c_div_nonneg by lia.
  pose proof (Z.div_mod (low + high) 2 ltac:(lia)).
  pose proof (Z.mod_pos_bound (low + high) 2 ltac:(lia)). lia.
Qed.

(** A list sorted by a strict order, read at two positions. *)
Lemma StronglySorted_lookup_lt {A} (R : A -> A -> Prop) (l : list A) i j x y :
  StronglySorted R l -> l !! i = Some x -> l !! j = Some y -> (i < j)%nat -> R x y.
Proof.
  intros Hs. revert i j. induction Hs as [|z l Hs IH Hall]; intros i j Hi Hj Hij;
    [done|].
  destruct i as [|i], j as [|j]; simpl in *; try lia.
  - injection Hi as <-. rewrite Forall_forall in Hall.
    apply Hall. by eapply list_elem_of_lookup_2.
  - eapply IH; [done | done | lia].
Qed.

(** Strictly decreasing, as the DFS tables are. *)
Definition Zdesc (l : list Z) : Prop := Sorted (fun x y => (y < x)%Z) l.

Lemma Zdesc_lookup l i j x y :
  Zdesc l -> l !! i = Some x -> l !! j = Some y -> (i < j)%nat -> (y < x)%Z.
Proof.
  intros Hs. apply (StronglySorted_lookup_lt (fun a b => (b < a)%Z)).
  apply Sorted_StronglySorted; [|done]. intros a b c; lia.
Qed.

#[export] Instance Zdesc_dec l : Decision (Zdesc l).
Proof. unfold Zdesc. apply _. Defined.

(** ** Arrays updated by index *)

(** [a[i] = x; ... a[i]] within the array. *)
Lemma lookup_total_insert_same {A} `{Inhabited A} (l : list A) i x :
  (i < length l)%nat -> <[i:=x]> l !!! i = x.
Proof. intros Hi. rewrite list_lookup_total_insert. case_decide; [done|lia]. Qed.

(** The first [n] elements of [l] padded with [n] copies of [x]. *)
Lemma take_pad {A} (l : list A) n x :
  (length l <= n)%nat -> take n (l ++ replicate n x) = l ++ replicate (n - length l) x.
Proof.
  intros H. rewrite take_app, take_ge by lia. f_equal.
  rewrite take_replicate. f_equal. lia.
Qed.
