(* ===== verification/SmackLabels.v ===== *)
(** * The Smack label registry ([src/security/smack/smack_access.c])

    Smack interns every label text into one [struct smack_known], so that
    label identity is pointer identity.  The registry is three pieces of
    global state: the heap of [smack_known] entries, the list
    [smack_known_list] (new entries at the head, [list_add_rcu]) and the
    hash index [smack_known_hash] (new entries at the head of their
    chain, [hlist_add_head_rcu]), plus the counter [smack_next_secid].

    A pointer to a [smack_known] (and to its [smk_known] string, which is
    the label as the rest of Smack sees it) is modelled as an address
    [label : nat] into [known_heap].  The kernel's [full_name_hash] is a
    section variable: every theorem holds for every hash function.

    This file holds the data, [smk_parse_smack], [smk_netlbl_mls],
    [smk_insert_entry], [smk_find_entry], [smk_import_entry],
    [smk_import], [smack_from_secid], [smack_to_secid]; the registry
    invariant [registry_wf]; its preservation by [smk_import_entry]; the
    refinement of the hash lookup by the abstract map [registry_abs]; the
    interning property; and the properties of the label parser. *)

From S2P Require Import Prelude.

Open Scope Z_scope.

(** ** Constants of [security/smack/smack.h] (outside the slice) *)

Definition SMK_LONGLABEL : Z := 256.
Definition SMK_CIPSOLEN : Z := 24.
Definition SMACK_HASH_SLOTS : Z := 16.

(** ** Data *)

(** The address of a [struct smack_known]; [smk_known] pointers are
    compared by address, so the same number stands for both. *)
Abbreviation label := nat (only parsing).

(** [struct smack_rule]: subject entry, object label, access mask. *)
Record smack_rule := mk_rule {
  smk_subject : label;
  smk_object : label;
  smk_rule_access : Z  (* the field smk_access *)
}.

(** [struct netlbl_lsm_secattr] as [smk_netlbl_mls] fills it: the MLS
    level and the category bitmap, as the ascending list of set bits. *)
Record smk_netlabel := mk_netlabel {
  mls_lvl : Z;
  mls_cat : list Z
}.

(** [struct smack_known]. *)
Record smack_known := mk_known {
  smk_known : string;
  smk_secid : Z;
  smk_rules : list smack_rule;
  smk_netlbl : smk_netlabel
}.

(** The global state of the file: heap, [smack_known_list],
    [smack_known_hash], [smack_next_secid], and the allocator's next
    free address. *)
Record smack_registry := mk_registry {
  known_heap : gmap label smack_known;
  smack_known_list : list label;
  smack_known_hash : gmap Z (list label);
  smack_next_secid : Z;
  next_alloc : label
}.

(** The six static entries, at fixed addresses. *)
Definition smack_known_huh : label := 0%nat.
Definition smack_known_hat : label := 1%nat.
Definition smack_known_star : label := 2%nat.
Definition smack_known_floor : label := 3%nat.
Definition smack_known_invalid : label := 4%nat.
Definition smack_known_web : label := 5%nat.

Definition no_netlabel : smk_netlabel := mk_netlabel 0 [].

Definition static_known : list (label * smack_known) :=
  [(smack_known_huh, mk_known "?" 2 [] no_netlabel);
   (smack_known_hat, mk_known "^" 3 [] no_netlabel);
   (smack_known_star, mk_known "*" 4 [] no_netlabel);
   (smack_known_floor, mk_known "_" 5 [] no_netlabel);
   (smack_known_invalid, mk_known String.EmptyString 6 [] no_netlabel);
   (smack_known_web, mk_known "@" 7 [] no_netlabel)].

(** ** Label parsing: [smk_parse_smack] *)

(** The loop condition of [smk_parse_smack]: a character ends the
    label when it is above the tilde (126), at or below the space (32),
    or one of slash (47), double quote (34), backslash (92) and single
    quote (39). *)
Definition smk_char_ok (c : ascii) : bool :=
  let n := Z.of_nat (Ascii.nat_of_ascii c) in
  negb (126 <? n) && (32 <? n) &&
  negb (n =? 47) && negb (n =? 34) && negb (n =? 92) && negb (n =? 39).

(** [for (i = 0; i < len; i++) if (bad(string[i])) break;] over the
    NUL-terminated string; the terminator is a bad character. *)
Fixpoint smk_scan (s : string) (i len : Z) : Z :=
  match s with
  | String.EmptyString => i
  | String.String c s' =>
      if i <? len then (if smk_char_ok c then smk_scan s' (i + 1) len else i)
      else i
  end.

Definition first_char_is (s : string) (c : ascii) : bool :=
  match s with String.String c0 _ => bool_decide (c0 = c) | String.EmptyString => false end.

(** [smk_parse_smack(string, len)]; [kz_ok] is the outcome of its
    [kzalloc]. *)
Definition smk_parse_smack (s : string) (len : Z) (kz_ok : bool) : option string :=
  let len := if len <=? 0 then Z.of_nat (String.length s) + 1 else len in
  if first_char_is s "-"%char then None
  else
    let i := smk_scan s 0 len in
    if (i =? 0) || (SMK_LONGLABEL <=? i) then None
    else if kz_ok then Some (String.substring 0 (Z.to_nat i) s) else None.

(** ** Category bitmap: [smk_netlbl_mls] *)

(** The categories of one byte [b] of the catset, numbered from [cat]:
    the inner loop [for (m = 0x80; m != 0; m >>= 1, cat++)]. *)
Definition byte_cats (b : Z) (cat : Z) : list Z :=
  (fun k => cat + k) <$>
    filter (fun k => bits_any b (0x80 >> k) = true) [0; 1; 2; 3; 4; 5; 6; 7].

(** The outer loop over the [len] bytes of [catset], categories from 1. *)
Fixpoint catset_cats (catset : list Z) (cat : Z) : list Z :=
  match catset with
  | [] => []
  | b :: rest => byte_cats b cat ++ catset_cats rest (cat + 8)
  end.

(** [smk_netlbl_mls(level, catset, sap, len)]: [None] is [-ENOMEM]
    (the catmap allocation or a [setbit] failed, outcome [cat_ok]). *)
Definition smk_netlbl_mls (level : Z) (catset : list Z) (cat_ok : bool)
    : option smk_netlabel :=
  if cat_ok then Some (mk_netlabel level (catset_cats catset 1)) else None.

(** The bytes of a label text, and of a [u32] in memory (little endian). *)
Definition string_bytes (s : string) : list Z :=
  (fun c => Z.of_nat (Ascii.nat_of_ascii c)) <$> String.list_ascii_of_string s.

Definition u32_bytes (x : Z) : list Z :=
  [x .& 255; (x >> 8) .& 255; (x >> 16) .& 255; (x >> 24) .& 255].

(** The outcomes of the allocations of [smk_import_entry]: the label
    copy in [smk_parse_smack], the entry, and the category map. *)
Record alloc_outcome := mk_alloc {
  kz_label : bool;
  kz_known : bool;
  kz_catmap : bool
}.

Definition alloc_all_ok : alloc_outcome := mk_alloc true true true.

Section Registry.
(** [full_name_hash] of [fs/dcache.c] and the levels [smack_cipso_direct]
    and [smack_cipso_mapped] of [smackfs.c]. *)
Context (full_name_hash : string -> Z).
Context (smack_cipso_direct smack_cipso_mapped : Z).

(** [hash & (SMACK_HASH_SLOTS - 1)]. *)
Definition hash_bucket (s : string) : Z :=
  full_name_hash s .& (SMACK_HASH_SLOTS - 1).

Definition bucket (r : smack_registry) (b : Z) : list label :=
  default [] (smack_known_hash r !! b).

Definition label_text (r : smack_registry) (l : label) : option string :=
  smk_known <$> known_heap r !! l.

(** [smk_insert_entry(skp)], called with [smack_known_lock] held. *)
Definition smk_insert_entry (r : smack_registry) (skp : label) (s : string)
    : smack_registry :=
  let b := hash_bucket s in
  mk_registry (known_heap r) (skp :: smack_known_list r)
    (<[b := skp :: bucket r b]> (smack_known_hash r))
    (smack_next_secid r) (next_alloc r).

(** The chain walk of [smk_find_entry]: the first entry whose text
    [strcmp]s equal. *)
Fixpoint chain_find (h : gmap label smack_known) (s : string) (chain : list label)
    : option label :=
  match chain with
  | [] => None
  | l :: rest =>
      match h !! l with
      | Some k => if bool_decide (smk_known k = s) then Some l else chain_find h s rest
      | None => chain_find h s rest
      end
  end.

(** [smk_find_entry(string)]. *)
Definition smk_find_entry (r : smack_registry) (s : string) : option label :=
  chain_find (known_heap r) s (bucket r (hash_bucket s)).

(** [smk_import_entry(string, len)]: the registry after the call and
    the returned entry ([None] is [NULL]). *)
Definition smk_import_entry (r : smack_registry) (s : string) (len : Z)
    (ao : alloc_outcome) : smack_registry * option label :=
  match smk_parse_smack s len (kz_label ao) with
  | None => (r, None)
  | Some smack =>
      match smk_find_entry r smack with
      | Some skp => (r, Some skp)
      | None =>
          if negb (kz_known ao) then (r, None)
          else
            let secid := smack_next_secid r in
            let r1 := mk_registry (known_heap r) (smack_known_list r)
                        (smack_known_hash r) ((secid + 1) mod 2 ^ 32)
                        (next_alloc r) in
            let slen := Z.of_nat (String.length smack) in
            let nl := if slen <? SMK_CIPSOLEN
                      then smk_netlbl_mls smack_cipso_direct (string_bytes smack) (kz_catmap ao)
                      else smk_netlbl_mls smack_cipso_mapped (u32_bytes secid) (kz_catmap ao) in
            match nl with
            | None => (r1, None)
            | Some n =>
                let skp := next_alloc r in
                let r2 := mk_registry
                            (<[skp := mk_known smack secid [] n]> (known_heap r1))
                            (smack_known_list r1) (smack_known_hash r1)
                            (smack_next_secid r1) (S skp) in
                (smk_insert_entry r2 skp smack, Some skp)
            end
      end
  end.

(** [smk_import(string, len)]: the [smk_known] pointer of the entry. *)
Definition smk_import (r : smack_registry) (s : string) (len : Z)
    (ao : alloc_outcome) : smack_registry * option label :=
  if first_char_is s "-"%char then (r, None) else smk_import_entry r s len ao.

(** [smack_from_secid(secid)]: a walk of [smack_known_list]. *)
Definition smack_from_secid (r : smack_registry) (secid : Z) : label :=
  default smack_known_invalid
    (find_first (fun l => match known_heap r !! l with
                               | Some k => bool_decide (smk_secid k = secid)
                               | None => false end) (smack_known_list r)).

(** [smack_to_secid(smack)]. *)
Definition smack_to_secid (r : smack_registry) (s : string) : Z :=
  match smk_find_entry r s with
  | Some skp => default 0 (smk_secid <$> known_heap r !! skp)
  | None => 0
  end.

End Registry.

(** ** The registry at boot

    [init_smack_known_list] of [smack_lsm.c] (outside the slice) inserts
    the six static entries in this order; [smack_next_secid] starts at
    10 ("bigger than any of the known values above"). *)
Definition smack_init_registry (full_name_hash : string -> Z) : smack_registry :=
  foldl (fun r lk => smk_insert_entry full_name_hash r lk.1 (smk_known lk.2))
    (mk_registry (list_to_map static_known) [] ∅ 10 6) static_known.

(** A concrete [full_name_hash] for the examples: the classic
    [partial_name_hash] fold, [(h + (c << 4) + (c >> 4)) * 11], on
    32 bits. *)
Definition example_name_hash (s : string) : Z :=
  foldl (fun h c => ((h + (c << 4) + (c >> 4)) * 11) mod 2 ^ 32) 0 (string_bytes s).

(** ** The registry invariant *)

Section Invariant.
Context (full_name_hash : string -> Z).

(** Does entry [l] hash to chain [b]? *)
Definition label_in_bucket (r : smack_registry) (b : Z) (l : label) : bool :=
  match known_heap r !! l with
  | Some k => bool_decide (hash_bucket full_name_hash (smk_known k) = b)
  | None => false
  end.

(** The abstract registry: label text to entry, over the list. *)
Definition registry_abs (r : smack_registry) : gmap string label :=
  list_to_map (omap (fun l => (fun k => (smk_known k, l)) <$> known_heap r !! l)
                    (smack_known_list r)).

Record registry_wf (r : smack_registry) : Prop := {
  wf_nodup : NoDup (smack_known_list r);
  wf_alloc : forall l, l ∈ smack_known_list r -> is_Some (known_heap r !! l);
  wf_fresh : forall l, is_Some (known_heap r !! l) -> (l < next_alloc r)%nat;
  wf_intern : forall l1 l2 k1 k2,
    l1 ∈ smack_known_list r -> l2 ∈ smack_known_list r ->
    known_heap r !! l1 = Some k1 -> known_heap r !! l2 = Some k2 ->
    smk_known k1 = smk_known k2 -> l1 = l2;
  wf_hash : forall b,
    bucket r b = filter (fun l => label_in_bucket r b l = true) (smack_known_list r);
  wf_secid_inj : forall l1 l2 k1 k2,
    l1 ∈ smack_known_list r -> l2 ∈ smack_known_list r ->
    known_heap r !! l1 = Some k1 -> known_heap r !! l2 = Some k2 ->
    smk_secid k1 = smk_secid k2 -> l1 = l2;
  wf_secid_bound : forall l k,
    l ∈ smack_known_list r -> known_heap r !! l = Some k ->
    0 <= smk_secid k < smack_next_secid r;
  wf_next_secid : 0 <= smack_next_secid r < 2 ^ 32
}.
End Invariant.

Example smack_init_find_star :
  smk_find_entry example_name_hash (smack_init_registry example_name_hash) "*"
  = Some smack_known_star.
Proof. vm_compute. reflexivity. Qed.

Example smack_import_app1 :
  snd (smk_import_entry example_name_hash 250 251
         (smack_init_registry example_name_hash) "app1 rest" 0 alloc_all_ok)
  = Some 6%nat.
Proof. vm_compute. reflexivity. Qed.

(** ** The hash lookup refines the abstract registry *)

Section Lookup.
Context (full_name_hash : string -> Z).

Lemma chain_find_abs (h : gmap label smack_known) s (chain : list label) :
  chain_find h s chain =
  (list_to_map (omap (fun l => (fun k => (smk_known k, l)) <$> h !! l) chain)
     : gmap string label) !! s.
Proof.
  induction chain as [|l rest IH]; simpl; [by rewrite lookup_empty|].
  destruct (h !! l) as [k|]; simpl; [|exact IH].
  case_bool_decide as Hs.
  - subst. by rewrite lookup_insert_eq.
  - by rewrite lookup_insert_ne.
Qed.

Lemma chain_find_filter (h : gmap label smack_known) s (P : label -> bool)
    (chain : list label) :
  (forall x k, h !! x = Some k -> smk_known k = s -> P x = true) ->
  chain_find h s (filter (fun x => P x = true) chain) = chain_find h s chain.
Proof.
  intros HP. induction chain as [|l rest IH]; [done|].
  rewrite filter_cons. simpl.
  destruct (h !! l) as [k|] eqn:Hl.
  - case_bool_decide as Hs.
    + rewrite (HP l k Hl Hs). simpl. rewrite Hl. by rewrite bool_decide_true.
    + destruct (decide (P l = true)); simpl; rewrite ?Hl, ?bool_decide_false; done.
  - destruct (decide (P l = true)); simpl; rewrite ?Hl; done.
Qed.

Lemma smk_find_entry_abs (r : smack_registry) (s : string) :
  registry_wf full_name_hash r ->
  smk_find_entry full_name_hash r s = registry_abs r !! s.
Proof.
  intros Hwf. unfold smk_find_entry. rewrite (wf_hash _ _ Hwf).
  rewrite chain_find_filter; [apply chain_find_abs|].
  intros x k Hx <-. unfold label_in_bucket. rewrite Hx. by apply bool_decide_true.
Qed.

(** C2: On a well-formed registry, the hash-chain lookup smk_find_entry
    returns what the abstract map from label text to entry returns. *)
Theorem smk_find_entry_refines (r : smack_registry) (s : string) :
  registry_wf full_name_hash r ->
  smk_find_entry full_name_hash r s = registry_abs r !! s.
Proof. apply smk_find_entry_abs. Qed.
End Lookup.

(** ** Lemmas on the abstract registry *)

Section Abs.
Context (full_name_hash : string -> Z).

Lemma chain_find_Some h s chain l :
  chain_find h s chain = Some l ->
  l ∈ chain /\ exists k, h !! l = Some k /\ smk_known k = s.
Proof.
  induction chain as [|x rest IH]; simpl; [done|].
  destruct (h !! x) as [k|] eqn:Hx; [case_bool_decide as Hs|].
  - intros [= <-]. split; [left | eauto].
  - intros Hr. destruct (IH Hr) as [? ?]. split; [right|]; done.
  - intros Hr. destruct (IH Hr) as [? ?]. split; [right|]; done.
Qed.

Lemma chain_find_None h s chain :
  chain_find h s chain = None ->
  forall l k, l ∈ chain -> h !! l = Some k -> smk_known k <> s.
Proof.
  induction chain as [|x rest IH]; simpl; intros Hn l k Hl Hk.
  - inversion Hl.
  - destruct (h !! x) as [k'|] eqn:Hx; [case_bool_decide as Hs; [done|]|];
      (inversion Hl; subst; [congruence | eauto]).
Qed.

Lemma registry_abs_Some r s l :
  registry_abs r !! s = Some l ->
  l ∈ smack_known_list r /\ exists k, known_heap r !! l = Some k /\ smk_known k = s.
Proof. unfold registry_abs. rewrite <- chain_find_abs. apply chain_find_Some. Qed.

Lemma registry_abs_None r s :
  registry_abs r !! s = None ->
  forall l k, l ∈ smack_known_list r -> known_heap r !! l = Some k -> smk_known k <> s.
Proof. unfold registry_abs. rewrite <- chain_find_abs. apply chain_find_None. Qed.

(** An entry of the list is not the next free address. *)
Lemma wf_list_fresh r l :
  registry_wf full_name_hash r -> l ∈ smack_known_list r -> l <> next_alloc r.
Proof.
  intros Hwf Hl ->. pose proof (wf_fresh _ _ Hwf _ (wf_alloc _ _ Hwf _ Hl)). lia.
Qed.

(** The registry after [smk_insert_entry] of a fresh entry. *)
Definition registry_add (r : smack_registry) (e : smack_known) (nsec : Z) :=
  smk_insert_entry full_name_hash
    (mk_registry (<[next_alloc r := e]> (known_heap r)) (smack_known_list r)
       (smack_known_hash r) nsec (S (next_alloc r)))
    (next_alloc r) (smk_known e).

Lemma registry_add_heap_old r e nsec l :
  registry_wf full_name_hash r -> l ∈ smack_known_list r ->
  known_heap (registry_add r e nsec) !! l = known_heap r !! l.
Proof.
  intros Hwf Hl. simpl. apply lookup_insert_ne. intros Heq.
  by apply (wf_list_fresh r l Hwf Hl).
Qed.

Lemma registry_add_abs r e nsec :
  registry_wf full_name_hash r ->
  registry_abs (registry_add r e nsec) = <[smk_known e := next_alloc r]> (registry_abs r).
Proof.
  intros Hwf. unfold registry_abs at 1. simpl. rewrite lookup_insert_eq. simpl.
  f_equal. unfold registry_abs. f_equal. apply omap_ext_in.
  intros l Hl. by rewrite lookup_insert_ne by (apply not_eq_sym, wf_list_fresh; done).
Qed.
End Abs.

(** ** [smk_import_entry] preserves the registry invariant *)

Section Preservation.
Context (full_name_hash : string -> Z).

Lemma label_in_bucket_heap r r' b l :
  known_heap r' !! l = known_heap r !! l ->
  label_in_bucket full_name_hash r' b l = label_in_bucket full_name_hash r b l.
Proof. unfold label_in_bucket. by intros ->. Qed.

(** [smk_insert_entry] keeps every chain equal to the entries of the
    list that hash to it. *)
Lemma smk_insert_entry_hash r skp k b :
  (forall b, bucket r b =
     filter (fun l => label_in_bucket full_name_hash r b l = true) (smack_known_list r)) ->
  known_heap r !! skp = Some k ->
  bucket (smk_insert_entry full_name_hash r skp (smk_known k)) b =
  filter (fun l => label_in_bucket full_name_hash r b l = true) (skp :: smack_known_list r).
Proof.
  intros Hh Hk.
  assert (Hskp : label_in_bucket full_name_hash r b skp
                 = bool_decide (hash_bucket full_name_hash (smk_known k) = b))
    by (unfold label_in_bucket; by rewrite Hk).
  unfold bucket at 1. simpl. rewrite lookup_insert. case_decide as Hb; simpl.
  - subst b. rewrite filter_cons_True by (rewrite Hskp; by apply bool_decide_true).
    by rewrite <- Hh.
  - rewrite filter_cons_False by (rewrite Hskp; by rewrite bool_decide_false).
    by rewrite <- Hh.
Qed.

Lemma registry_add_wf r e nsec :
  registry_wf full_name_hash r ->
  registry_abs r !! smk_known e = None ->
  smk_secid e = smack_next_secid r ->
  smack_next_secid r < nsec < 2 ^ 32 ->
  registry_wf full_name_hash (registry_add full_name_hash r e nsec).
Proof.
  intros Hwf Habs Hsec Hn.
  pose proof (fun l => registry_add_heap_old full_name_hash r e nsec l Hwf) as Hold.
  simpl in Hold.
  pose proof (wf_list_fresh full_name_hash r) as Hfr.
  assert (Hnew : <[next_alloc r := e]> (known_heap r) !! next_alloc r = Some e)
    by apply lookup_insert_eq.
  constructor; simpl.
  - constructor; [intros Hin; by apply (Hfr _ Hwf Hin) | apply Hwf].
  - intros l [->|Hl]%elem_of_cons; [by rewrite lookup_insert_eq|].
    rewrite lookup_insert_ne by (apply not_eq_sym, Hfr; done). by apply Hwf.
  - intros l. destruct (decide (l = next_alloc r)) as [->|Hne]; [lia|].
    rewrite lookup_insert_ne by done. intros Hs. pose proof (wf_fresh _ _ Hwf l Hs). lia.
  - intros l1 l2 k1 k2 Hl1 Hl2 Hk1 Hk2 Htxt.
    apply elem_of_cons in Hl1 as [->|Hl1], Hl2 as [->|Hl2]; [done| | |].
    + rewrite Hold in Hk2 by done. rewrite Hnew in Hk1. injection Hk1 as <-.
      exfalso. by apply (registry_abs_None r _ Habs l2 k2).
    + rewrite Hold in Hk1 by done. rewrite Hnew in Hk2. injection Hk2 as <-.
      exfalso. by apply (registry_abs_None r _ Habs l1 k1).
    + rewrite Hold in Hk1, Hk2 by done. by apply (wf_intern _ _ Hwf l1 l2 k1 k2).
  - intros b.
    set (rm := mk_registry (<[next_alloc r := e]> (known_heap r)) (smack_known_list r)
                 (smack_known_hash r) nsec (S (next_alloc r))).
    apply (smk_insert_entry_hash rm (next_alloc r) e b); [|done].
    intros b'. change (bucket rm b') with (bucket r b').
    change (smack_known_list rm) with (smack_known_list r).
    rewrite (wf_hash _ _ Hwf b'). apply filter_ext_in. intros l Hl.
    by rewrite (label_in_bucket_heap r rm) by (apply Hold; done).
  - intros l1 l2 k1 k2 Hl1 Hl2 Hk1 Hk2 Hs.
    apply elem_of_cons in Hl1 as [->|Hl1], Hl2 as [->|Hl2]; [done| | |].
    + rewrite Hold in Hk2 by done. rewrite Hnew in Hk1. injection Hk1 as <-.
      pose proof (wf_secid_bound _ _ Hwf l2 k2 Hl2 Hk2). lia.
    + rewrite Hold in Hk1 by done. rewrite Hnew in Hk2. injection Hk2 as <-.
      pose proof (wf_secid_bound _ _ Hwf l1 k1 Hl1 Hk1). lia.
    + rewrite Hold in Hk1, Hk2 by done. by apply (wf_secid_inj _ _ Hwf l1 l2 k1 k2).
  - intros l k [->|Hl]%elem_of_cons Hk.
    + rewrite Hnew in Hk. injection Hk as <-. pose proof (wf_next_secid _ _ Hwf). lia.
    + rewrite Hold in Hk by done. pose proof (wf_secid_bound _ _ Hwf l k Hl Hk). lia.
  - pose proof (wf_next_secid _ _ Hwf). lia.
Qed.

Lemma registry_bump_wf r nsec :
  registry_wf full_name_hash r -> smack_next_secid r <= nsec < 2 ^ 32 ->
  registry_wf full_name_hash
    (mk_registry (known_heap r) (smack_known_list r) (smack_known_hash r) nsec (next_alloc r)).
Proof.
  intros Hwf Hn. destruct Hwf as [H1 H2 H3 H4 H5 H6 H7 H8].
  constructor; simpl; try done.
  - intros l k Hl Hk. pose proof (H7 l k Hl Hk). lia.
  - lia.
Qed.
End Preservation.

(** ** Behaviour of [smk_import_entry] *)

Section ImportEntry.
Context (full_name_hash : string -> Z) (cipso_direct cipso_mapped : Z).

Definition registry_bump (r : smack_registry) : smack_registry :=
  mk_registry (known_heap r) (smack_known_list r) (smack_known_hash r)
    ((smack_next_secid r + 1) mod 2 ^ 32) (next_alloc r).

(** The three outcomes of the function: failure (with or without the
    secid consumed), an existing entry, a new entry. *)
Lemma smk_import_entry_cases r s len ao :
  registry_wf full_name_hash r ->
  (snd (smk_import_entry full_name_hash cipso_direct cipso_mapped r s len ao) = None /\
   (fst (smk_import_entry full_name_hash cipso_direct cipso_mapped r s len ao) = r \/
    fst (smk_import_entry full_name_hash cipso_direct cipso_mapped r s len ao)
      = registry_bump r)) \/
  (exists t l, smk_parse_smack s len (kz_label ao) = Some t /\
     registry_abs r !! t = Some l /\
     smk_import_entry full_name_hash cipso_direct cipso_mapped r s len ao = (r, Some l)) \/
  (exists t n, smk_parse_smack s len (kz_label ao) = Some t /\
     registry_abs r !! t = None /\
     smk_import_entry full_name_hash cipso_direct cipso_mapped r s len ao =
       (registry_add full_name_hash r (mk_known t (smack_next_secid r) [] n)
          ((smack_next_secid r + 1) mod 2 ^ 32), Some (next_alloc r))).
Proof.
  intros Hwf. unfold smk_import_entry.
  destruct (smk_parse_smack s len (kz_label ao)) as [t|] eqn:Hp; [|left; auto].
  rewrite (smk_find_entry_abs full_name_hash r t Hwf).
  destruct (registry_abs r !! t) as [l|] eqn:Ha; [right; left; eauto|].
  destruct (kz_known ao); simpl; [|left; auto].
  match goal with |- context [match ?nl with Some _ => _ | None => _ end] =>
    destruct nl as [n|] eqn:Hn end; [right; right; eauto | left; auto].
Qed.

Lemma smk_parse_smack_kz s len b t :
  smk_parse_smack s len b = Some t -> smk_parse_smack s len true = Some t.
Proof.
  unfold smk_parse_smack. destruct b; [done|]. repeat case_match; congruence.
Qed.

Lemma registry_bump_wf' r :
  registry_wf full_name_hash r -> smack_next_secid r + 1 < 2 ^ 32 ->
  registry_wf full_name_hash (registry_bump r).
Proof.
  intros Hwf Hb. apply registry_bump_wf; [done|].
  pose proof (wf_next_secid _ _ Hwf). rewrite Z.mod_small; lia.
Qed.

Lemma smk_import_entry_wf_pres r s len ao :
  registry_wf full_name_hash r -> smack_next_secid r + 1 < 2 ^ 32 ->
  registry_wf full_name_hash
    (fst (smk_import_entry full_name_hash cipso_direct cipso_mapped r s len ao)).
Proof.
  intros Hwf Hb.
  destruct (smk_import_entry_cases r s len ao Hwf)
    as [[_ [-> | ->]] | [(t & l & _ & _ & ->) | (t & n & _ & Habs & ->)]];
    simpl; auto using registry_bump_wf'.
  pose proof (wf_next_secid _ _ Hwf).
  apply registry_add_wf; simpl; auto. rewrite Z.mod_small; lia.
Qed.

(** C4: smk_import_entry keeps the registry well formed (distinct
    entries, distinct texts, hash chains that index exactly the list,
    distinct secids below the counter), as long as the secid counter
    does not wrap. *)
Theorem smk_import_entry_wf r s len ao :
  registry_wf full_name_hash r -> smack_next_secid r + 1 < 2 ^ 32 ->
  registry_wf full_name_hash
    (fst (smk_import_entry full_name_hash cipso_direct cipso_mapped r s len ao)).
Proof. apply smk_import_entry_wf_pres. Qed.

(** Importing only adds to the abstract registry. *)
Lemma smk_import_entry_abs_mono r s len ao :
  registry_wf full_name_hash r ->
  registry_abs r ⊆
    registry_abs (fst (smk_import_entry full_name_hash cipso_direct cipso_mapped r s len ao)).
Proof.
  intros Hwf.
  destruct (smk_import_entry_cases r s len ao Hwf)
    as [[_ [-> | ->]] | [(t & l & _ & _ & ->) | (t & n & _ & Habs & ->)]]; simpl; try done.
  rewrite registry_add_abs by done. by apply insert_subseteq.
Qed.

(** The returned entry is the one the abstract registry maps the parsed
    label to, after the call. *)
Lemma smk_import_entry_result r s len ao r' l :
  registry_wf full_name_hash r ->
  smk_import_entry full_name_hash cipso_direct cipso_mapped r s len ao = (r', Some l) ->
  exists t, smk_parse_smack s len true = Some t /\ registry_abs r' !! t = Some l.
Proof.
  intros Hwf Hi.
  destruct (smk_import_entry_cases r s len ao Hwf)
    as [[Hn _] | [(t & l' & Hp & Ha & Hi') | (t & n & Hp & Habs & Hi')]];
    rewrite Hi in *; [done| |].
  - injection Hi' as -> ->. exists t. split; [eapply smk_parse_smack_kz|]; done.
  - injection Hi' as -> ->. exists t. split; [eapply smk_parse_smack_kz; done|].
    rewrite registry_add_abs by done. apply lookup_insert_eq.
Qed.
End ImportEntry.

(** ** The registry at boot satisfies the invariant, for every hash *)

Section Boot.
Context (full_name_hash : string -> Z).

Definition hash_inv (r : smack_registry) : Prop :=
  forall b, bucket r b =
    filter (fun l => label_in_bucket full_name_hash r b l = true) (smack_known_list r).

Lemma foldl_insert_entry r (lks : list (label * smack_known)) :
  hash_inv r -> (forall lk, lk ∈ lks -> known_heap r !! lk.1 = Some lk.2) ->
  let r' := foldl (fun r lk => smk_insert_entry full_name_hash r lk.1 (smk_known lk.2)) r lks in
  hash_inv r' /\ known_heap r' = known_heap r /\
  smack_known_list r' = reverse (fst <$> lks) ++ smack_known_list r /\
  smack_next_secid r' = smack_next_secid r /\ next_alloc r' = next_alloc r.
Proof.
  revert r. induction lks as [|lk lks IH]; intros r Hh Hk; simpl; [done|].
  destruct (IH (smk_insert_entry full_name_hash r lk.1 (smk_known lk.2)))
    as (Hh' & Hheap & Hl & Hs & Ha).
  - intros b. apply (smk_insert_entry_hash full_name_hash r lk.1 lk.2 b Hh).
    apply Hk. by left.
  - intros lk' Hlk'. apply Hk. by right.
  - split; [done|]. rewrite Hheap, Hl, Hs, Ha. simpl.
    rewrite reverse_cons, <- app_assoc. done.
Qed.

(** Every pair of entries of the boot list, by computation. *)
Ltac boot_cases H :=
  try unfold static_known in H;
  repeat (apply elem_of_cons in H as [H|H]; [try injection H as -> ->; try subst|]);
  [..|by apply elem_of_nil in H].

Lemma smack_init_registry_wf : registry_wf full_name_hash (smack_init_registry full_name_hash).
Proof.
  unfold smack_init_registry.
  destruct (foldl_insert_entry (mk_registry (list_to_map static_known) [] ∅ 10 6) static_known)
    as (Hh & Hheap & Hl & Hs & Ha).
  - intros b. unfold bucket. simpl. by rewrite lookup_empty.
  - intros lk Hlk. boot_cases Hlk; by vm_compute.
  - simpl in Hheap, Hl, Hs, Ha.
    constructor; rewrite ?Hheap, ?Hl, ?Hs, ?Ha; try exact Hh.
    + apply (bool_decide_unpack _). by vm_compute.
    + intros l Hl'. boot_cases Hl'; eexists; by vm_compute.
    + intros l [k Hk]. apply elem_of_list_to_map_2 in Hk. boot_cases Hk; cbv; lia.
    + intros l1 l2 k1 k2 H1 H2 Hk1 Hk2 Ht.
      boot_cases H1; boot_cases H2; vm_compute in Hk1, Hk2;
        injection Hk1 as <-; injection Hk2 as <-; simpl in Ht; congruence.
    + intros l1 l2 k1 k2 H1 H2 Hk1 Hk2 Ht.
      boot_cases H1; boot_cases H2; vm_compute in Hk1, Hk2;
        injection Hk1 as <-; injection Hk2 as <-; simpl in Ht; congruence.
    + intros l k H1 Hk. boot_cases H1; vm_compute in Hk; injection Hk as <-; simpl; lia.
    + simpl. lia.
Qed.
End Boot.

(** ** Interning, secids *)

Section Interning.
Context (full_name_hash : string -> Z) (cipso_direct cipso_mapped : Z).

(** The abstract registry is injective: one text per entry. *)
Lemma registry_abs_inj r t1 t2 l :
  registry_abs r !! t1 = Some l -> registry_abs r !! t2 = Some l -> t1 = t2.
Proof.
  intros (_ & k1 & Hk1 & <-)%registry_abs_Some (_ & k2 & Hk2 & <-)%registry_abs_Some.
  congruence.
Qed.

(** C3: Two successful imports into a well-formed registry return the
    same label exactly when the two inputs parse to the same label text
    (label identity is interning by text). *)
Theorem smk_import_entry_interning r s1 len1 ao1 s2 len2 ao2 r1 r2 l1 l2 :
  registry_wf full_name_hash r -> smack_next_secid r + 2 < 2 ^ 32 ->
  smk_import_entry full_name_hash cipso_direct cipso_mapped r s1 len1 ao1 = (r1, Some l1) ->
  smk_import_entry full_name_hash cipso_direct cipso_mapped r1 s2 len2 ao2 = (r2, Some l2) ->
  (l1 = l2 <-> smk_parse_smack s1 len1 true = smk_parse_smack s2 len2 true).
Proof.
  intros Hwf Hb Hi1 Hi2.
  pose proof (smk_import_entry_wf_pres full_name_hash cipso_direct cipso_mapped r s1 len1 ao1 Hwf)
    as Hwf1. rewrite Hi1 in Hwf1. simpl in Hwf1.
  destruct (smk_import_entry_result _ _ _ _ _ _ _ _ _ Hwf Hi1) as (t1 & Hp1 & Ha1).
  destruct (smk_import_entry_result _ _ _ _ _ _ _ _ _ (Hwf1 ltac:(lia)) Hi2)
    as (t2 & Hp2 & Ha2).
  pose proof (smk_import_entry_abs_mono full_name_hash cipso_direct cipso_mapped
                r1 s2 len2 ao2 (Hwf1 ltac:(lia))) as Hmono.
  rewrite Hi2 in Hmono. simpl in Hmono.
  pose proof (lookup_weaken _ _ _ _ Ha1 Hmono) as Ha1'.
  rewrite Hp1, Hp2. split.
  - intros <-. f_equal. by apply (registry_abs_inj r2 t1 t2 l1).
  - intros [= <-]. congruence.
Qed.

(** Importing a new label text into a well-formed registry adds one
    entry: the abstract map gains the text, its secid is the old
    counter, the counter grows by one and the registry stays well
    formed. *)
Theorem smk_import_entry_creates r s len t :
  registry_wf full_name_hash r -> smack_next_secid r + 1 < 2 ^ 32 ->
  smk_parse_smack s len true = Some t -> registry_abs r !! t = None ->
  exists r',
    smk_import_entry full_name_hash cipso_direct cipso_mapped r s len alloc_all_ok
      = (r', Some (next_alloc r)) /\
    registry_abs r' = <[t := next_alloc r]> (registry_abs r) /\
    smack_to_secid full_name_hash r' t = smack_next_secid r /\
    smack_next_secid r' = smack_next_secid r + 1 /\
    registry_wf full_name_hash r'.
Proof.
  intros Hwf Hb Hp Habs. pose proof (wf_next_secid _ _ Hwf) as Hn.
  set (e n := mk_known t (smack_next_secid r) [] n).
  assert (Hr : forall n, exists r',
    registry_add full_name_hash r (e n) ((smack_next_secid r + 1) mod 2 ^ 32) = r' /\
    registry_abs r' = <[t := next_alloc r]> (registry_abs r) /\
    smack_to_secid full_name_hash r' t = smack_next_secid r /\
    smack_next_secid r' = smack_next_secid r + 1 /\ registry_wf full_name_hash r').
  { intros n. eexists; split; [reflexivity|].
    assert (Hwf' : registry_wf full_name_hash
                     (registry_add full_name_hash r (e n) ((smack_next_secid r + 1) mod 2 ^ 32)))
      by (apply registry_add_wf; simpl; auto; rewrite Z.mod_small; lia).
    rewrite registry_add_abs by done. simpl (smk_known (e n)).
    split; [done|]. split; [|split; [simpl; rewrite Z.mod_small; lia | done]].
    unfold smack_to_secid. rewrite smk_find_entry_abs by done.
    rewrite registry_add_abs by done. simpl. rewrite !lookup_insert_eq. done. }
  unfold smk_import_entry. change (kz_label alloc_all_ok) with true. rewrite Hp.
  rewrite smk_find_entry_abs, Habs by done.
  change (kz_known alloc_all_ok) with true. change (kz_catmap alloc_all_ok) with true.
  unfold smk_netlbl_mls. cbn [negb]. cbn beta iota zeta.
  destruct (Z.of_nat (String.length t) <? SMK_CIPSOLEN).
  - destruct (Hr (mk_netlabel cipso_direct (catset_cats (string_bytes t) 1)))
      as (r' & Heq & Hrest).
    exists r'. rewrite <- Heq. split; [reflexivity|]. rewrite Heq. exact Hrest.
  - destruct (Hr (mk_netlabel cipso_mapped (catset_cats (u32_bytes (smack_next_secid r)) 1)))
      as (r' & Heq & Hrest).
    exists r'. rewrite <- Heq. split; [reflexivity|]. rewrite Heq. exact Hrest.
Qed.

(** On a well-formed registry, smack_from_secid of smack_to_secid
    of a known label text gives back its entry. *)
Theorem smack_secid_roundtrip r s l :
  registry_wf full_name_hash r ->
  smk_find_entry full_name_hash r s = Some l ->
  smack_from_secid r (smack_to_secid full_name_hash r s) = l.
Proof.
  intros Hwf Hf. unfold smack_to_secid. rewrite Hf.
  rewrite smk_find_entry_abs in Hf by done.
  destruct (registry_abs_Some r s l Hf) as (Hl & k & Hk & _). rewrite Hk. simpl.
  unfold smack_from_secid.
  destruct (find_first _ (smack_known_list r)) as [l'|] eqn:Hff.
  - apply find_first_Some in Hff as [Hl' Hs'].
    destruct (known_heap r !! l') as [k'|] eqn:Hk'; [|done].
    apply bool_decide_eq_true in Hs'. simpl.
    by apply (wf_secid_inj _ _ Hwf l' l k' k).
  - exfalso. apply find_first_None with (x := l) in Hff; [|done].
    rewrite Hk, bool_decide_true in Hff by done. discriminate.
Qed.

(** [smack_to_secid] of a text with no entry is 0. *)
Lemma smack_to_secid_unknown r s :
  smk_find_entry full_name_hash r s = None -> smack_to_secid full_name_hash r s = 0.
Proof. unfold smack_to_secid. by intros ->. Qed.
End Interning.

(** ** The label parser *)

(** The number of leading label characters of a text. *)
Fixpoint smk_leading (s : string) : nat :=
  match s with
  | String.EmptyString => 0
  | String.String c s' => if smk_char_ok c then S (smk_leading s') else 0
  end.

Lemma smk_scan_leading s i len :
  smk_scan s i len = Z.max i (Z.min len (i + Z.of_nat (smk_leading s))).
Proof.
  revert i. induction s as [|c s IH]; intros i; simpl; [lia|].
  destruct (Z.ltb_spec i len); [|lia].
  destruct (smk_char_ok c); [rewrite IH|]; lia.
Qed.

Lemma smk_leading_le_length s : (smk_leading s <= String.length s)%nat.
Proof. induction s as [|c s IH]; simpl; [lia|]. destruct (smk_char_ok c); lia. Qed.

Lemma substring_0_length n s :
  (n <= String.length s)%nat -> String.length (String.substring 0 n s) = n.
Proof.
  revert n. induction s as [|c s IH]; intros [|n] Hn; simpl in *; try lia.
  rewrite IH; lia.
Qed.

Lemma smk_leading_substring n s :
  (n <= smk_leading s)%nat -> smk_leading (String.substring 0 n s) = n.
Proof.
  revert n. induction s as [|c s IH]; intros [|n] Hn; simpl in *; try lia.
  destruct (smk_char_ok c); [|lia]. rewrite IH; lia.
Qed.

Lemma substring_0_full s : String.substring 0 (String.length s) s = s.
Proof. induction s as [|c s IH]; simpl; [done|]. by rewrite IH. Qed.

Lemma substring_0_app n s :
  exists rest, s = (String.substring 0 n s ++ rest)%string.
Proof.
  revert n. induction s as [|c s IH]; intros [|n]; simpl.
  - by exists String.EmptyString.
  - by exists String.EmptyString.
  - by exists (String.String c s).
  - destruct (IH n) as [rest Hr]. exists rest. exact (f_equal (String.String c) Hr).
Qed.

Lemma first_char_substring n s c :
  (0 < n)%nat -> first_char_is (String.substring 0 n s) c = first_char_is s c.
Proof. destruct s, n; simpl; try lia; done. Qed.

(** The scan of [smk_parse_smack] with its length argument resolved. *)
Lemma smk_parse_smack_Some_inv s len b t :
  smk_parse_smack s len b = Some t ->
  let n := Z.to_nat (smk_scan s 0 (if len <=? 0 then Z.of_nat (String.length s) + 1 else len)) in
  first_char_is s "-"%char = false /\ (0 < n < 256)%nat /\ (n <= smk_leading s)%nat /\
  t = String.substring 0 n s.
Proof.
  unfold smk_parse_smack. cbv zeta.
  set (len' := if len <=? 0 then Z.of_nat (String.length s) + 1 else len).
  destruct (first_char_is s "-"%char); [done|].
  pose proof (smk_leading_le_length s).
  rewrite smk_scan_leading. unfold SMK_LONGLABEL.
  destruct (Z.eqb_spec (Z.max 0 (Z.min len' (0 + Z.of_nat (smk_leading s)))) 0); [done|].
  destruct (Z.leb_spec 256 (Z.max 0 (Z.min len' (0 + Z.of_nat (smk_leading s))))); [done|].
  destruct b; [|done]. intros [= <-]. repeat split; lia.
Qed.

(** a parsed label is a nonempty prefix of the input, shorter than
    [SMK_LONGLABEL], made of label characters, and not starting with a
    dash. *)
Lemma smk_parse_smack_Some_valid s len b t :
  smk_parse_smack s len b = Some t ->
  (0 < String.length t < 256)%nat /\ smk_leading t = String.length t /\
  first_char_is t "-"%char = false /\ exists rest, s = (t ++ rest)%string.
Proof.
  intros (Hd & Hn & Hl & ->)%smk_parse_smack_Some_inv.
  pose proof (smk_leading_le_length s).
  rewrite substring_0_length by lia. rewrite smk_leading_substring by lia.
  rewrite first_char_substring by lia. split; [lia|]. split; [done|]. split; [done|].
  apply substring_0_app.
Qed.

(** C40: A label produced by smk_parse_smack is a nonempty prefix of the
    input, shorter than SMK_LONGLABEL, made of label characters only and
    not starting with a dash. *)
Theorem smk_parse_smack_valid s len b t :
  smk_parse_smack s len b = Some t ->
  (0 < String.length t < 256)%nat /\ smk_leading t = String.length t /\
  first_char_is t "-"%char = false /\ exists rest, s = (t ++ rest)%string.
Proof. apply smk_parse_smack_Some_valid. Qed.

(** Parsing the text smk_parse_smack produced gives the same text
    back. *)
Theorem smk_parse_smack_idem s len t :
  smk_parse_smack s len true = Some t -> smk_parse_smack t 0 true = Some t.
Proof.
  intros Hp. destruct (smk_parse_smack_Some_valid _ _ _ _ Hp) as (Hlen & Hlead & Hd & _).
  unfold smk_parse_smack. rewrite Hd, Z.leb_refl. cbv beta iota zeta.
  rewrite smk_scan_leading, Hlead. unfold SMK_LONGLABEL.
  assert (Hi : Z.max 0 (Z.min (Z.of_nat (String.length t) + 1) (0 + Z.of_nat (String.length t)))
               = Z.of_nat (String.length t)) by lia.
  rewrite !Hi.
  destruct (Z.eqb_spec (Z.of_nat (String.length t)) 0); [lia|].
  destruct (Z.leb_spec 256 (Z.of_nat (String.length t))); [lia|].
  simpl. rewrite Nat2Z.id, substring_0_full. done.
Qed.

Lemma smk_parse_smack_reject s b :
  (s = String.EmptyString \/ first_char_is s "-"%char = true \/ (256 <= smk_leading s)%nat) ->
  smk_parse_smack s 0 b = None.
Proof.
  intros Hs. unfold smk_parse_smack. rewrite Z.leb_refl. cbv beta iota zeta.
  destruct (first_char_is s "-"%char) eqn:Hd; [done|].
  rewrite smk_scan_leading. pose proof (smk_leading_le_length s).
  replace (Z.max 0 (Z.min (Z.of_nat (String.length s) + 1) (0 + Z.of_nat (smk_leading s))))
    with (Z.of_nat (smk_leading s)) by lia.
  unfold SMK_LONGLABEL.
  destruct Hs as [->|[Hs|Hs]]; [done|congruence|].
  destruct (Z.leb_spec 256 (Z.of_nat (smk_leading s))); [|lia].
  by rewrite orb_true_r.
Qed.

(** smk_import_entry of the empty text, of a text starting with a
    dash, or of a text whose label part is 256 characters or longer
    fails and leaves the registry unchanged. *)
Theorem smk_import_entry_rejects full_name_hash cd cm r s ao :
  (s = String.EmptyString \/ first_char_is s "-"%char = true \/ (256 <= smk_leading s)%nat) ->
  smk_import_entry full_name_hash cd cm r s 0 ao = (r, None).
Proof. intros Hs. unfold smk_import_entry. by rewrite smk_parse_smack_reject. Qed.

(** ** The category bitmap of [smk_netlbl_mls] *)

Lemma bits_any_pow2 b j : 0 <= j -> bits_any b (2 ^ j) = Z.testbit b j.
Proof.
  intros Hj. unfold bits_any. destruct (Z.testbit b j) eqn:Hb.
  - destruct (Z.eqb_spec (b .& 2 ^ j) 0) as [H0|]; [|done].
    exfalso. assert (Ht : Z.testbit (b .& 2 ^ j) j = true)
      by (rewrite Z.land_spec, Hb, Z.pow2_bits_true; done).
    rewrite H0, Z.testbit_0_l in Ht. discriminate.
  - apply negb_false_iff, Z.eqb_eq. bits. rewrite Z.pow2_bits_eqb by done.
    destruct (Z.eqb_spec j n); subst; [rewrite Hb|]; by rewrite ?andb_false_r, ?andb_true_r.
Qed.

Lemma shiftr_0x80 k : 0 <= k <= 7 -> 0x80 >> k = 2 ^ (7 - k).
Proof.
  intros Hk. rewrite Z.shiftr_div_pow2 by lia. change 0x80 with (2 ^ 7).
  rewrite <- Z.pow_sub_r by lia. done.
Qed.

Lemma byte_cats_spec b cat c :
  c ∈ byte_cats b cat <-> cat <= c < cat + 8 /\ Z.testbit b (7 - (c - cat)) = true.
Proof.
  unfold byte_cats. rewrite list_elem_of_fmap. split.
  - intros (k & -> & Hk). apply list_elem_of_filter in Hk as [Hb Hk].
    assert (Hk' : 0 <= k <= 7) by (repeat (apply elem_of_cons in Hk as [->|Hk]; [lia|]);
                                   by apply elem_of_nil in Hk).
    rewrite shiftr_0x80 in Hb by lia.
    rewrite bits_any_pow2 in Hb by lia. split; [lia|]. by replace (cat + k - cat) with k by lia.
  - intros [Hc Hb]. exists (c - cat). split; [lia|]. apply list_elem_of_filter. split.
    + rewrite shiftr_0x80, bits_any_pow2 by lia. done.
    + apply list_elem_of_In. simpl. lia.
Qed.

Lemma catset_cats_spec bytes cat c :
  c ∈ catset_cats bytes cat <->
  cat <= c < cat + 8 * Z.of_nat (length bytes) /\
  exists b, bytes !! Z.to_nat ((c - cat) / 8) = Some b /\
            Z.testbit b (7 - (c - cat) mod 8) = true.
Proof.
  revert cat. induction bytes as [|b rest IH]; intros cat; simpl.
  - split; [by intros ?%elem_of_nil | lia].
  - rewrite elem_of_app, byte_cats_spec, IH.
    destruct (Z.ltb_spec c (cat + 8)) as [Hlt|Hge].
    + split.
      * intros [[Hc Hb] | [Hc _]]; [|lia]. split; [lia|]. exists b.
        rewrite Z.div_small, Z.mod_small by lia. done.
      * intros [Hc (b' & Hb' & Ht)]. left. rewrite Z.div_small in Hb' by lia.
        rewrite Z.mod_small in Ht by lia. injection Hb' as <-. split; [lia | done].
    + assert (Hd : (c - cat) / 8 = (c - (cat + 8)) / 8 + 1)
        by (replace (c - cat) with ((c - (cat + 8)) + 1 * 8) by lia; by rewrite Z.div_add).
      assert (Hm : (c - cat) mod 8 = (c - (cat + 8)) mod 8)
        by (replace (c - cat) with ((c - (cat + 8)) + 1 * 8) by lia; by rewrite Z.mod_add).
      assert (Hn : Z.to_nat ((c - cat) / 8) = S (Z.to_nat ((c - (cat + 8)) / 8))).
      { rewrite Hd. pose proof (Z.div_pos (c - (cat + 8)) 8 ltac:(lia) ltac:(lia)). lia. }
      rewrite Hn, Hm. simpl. split.
      * intros [[Hc _] | [Hc Hb]]; [lia|]. split; [lia | done].
      * intros [Hc Hb]. right. split; [lia | done].
Qed.

(** smk_netlbl_mls sets category c (from 1, most significant bit of
    the first byte first) exactly when that bit of the catset is set. *)
Theorem smk_netlbl_mls_cats level catset n c :
  smk_netlbl_mls level catset true = Some n ->
  c ∈ mls_cat n <->
  1 <= c <= 8 * Z.of_nat (length catset) /\
  exists b, catset !! Z.to_nat ((c - 1) / 8) = Some b /\
            Z.testbit b (7 - (c - 1) mod 8) = true.
Proof.
  intros [= <-]. simpl. rewrite catset_cats_spec.
  split; intros [Hc Hb]; split; [lia | done | lia | done].
Qed.

(** ** Witnesses: the theorems applied to the boot registry *)

(** The registry at boot with the example hash, and its invariant. *)
Definition boot_registry : smack_registry := smack_init_registry example_name_hash.

Lemma boot_registry_wf : registry_wf example_name_hash boot_registry.
Proof. apply smack_init_registry_wf. Qed.

Lemma smk_find_entry_refines_witness :
  registry_wf example_name_hash boot_registry /\
  smk_find_entry example_name_hash boot_registry "_" = registry_abs boot_registry !! "_".
Proof.
  split; [apply boot_registry_wf|].
  apply smk_find_entry_refines. apply boot_registry_wf.
Defined.

Lemma smk_import_entry_wf_witness :
  smack_next_secid boot_registry + 1 < 2 ^ 32 /\
  registry_wf example_name_hash
    (fst (smk_import_entry example_name_hash 0 0 boot_registry "app1" 0 alloc_all_ok)).
Proof.
  split; [vm_compute; reflexivity|].
  apply smk_import_entry_wf; [apply boot_registry_wf | vm_compute; reflexivity].
Defined.

Lemma smk_import_entry_interning_witness :
  let i1 := smk_import_entry example_name_hash 0 0 boot_registry "app1" 0 alloc_all_ok in
  let i2 := smk_import_entry example_name_hash 0 0 (fst i1) "app1 x" 0 alloc_all_ok in
  (6%nat = 6%nat <-> smk_parse_smack "app1" 0 true = smk_parse_smack "app1 x" 0 true).
Proof.
  intros i1 i2.
  apply (smk_import_entry_interning example_name_hash 0 0 boot_registry "app1" 0 alloc_all_ok
           "app1 x" 0 alloc_all_ok (fst i1) (fst i2));
    [apply boot_registry_wf | vm_compute; reflexivity | vm_compute; reflexivity
    | vm_compute; reflexivity].
Defined.

Lemma smk_import_entry_creates_witness :
  exists r',
    smk_import_entry example_name_hash 0 0 boot_registry "app1" 0 alloc_all_ok
      = (r', Some (next_alloc boot_registry)) /\
    registry_abs r' = <["app1" := next_alloc boot_registry]> (registry_abs boot_registry) /\
    smack_to_secid example_name_hash r' "app1" = smack_next_secid boot_registry /\
    smack_next_secid r' = smack_next_secid boot_registry + 1 /\
    registry_wf example_name_hash r'.
Proof.
  apply smk_import_entry_creates;
    [apply boot_registry_wf | vm_compute; reflexivity | vm_compute; reflexivity
    | vm_compute; reflexivity].
Defined.

Lemma smack_secid_roundtrip_witness :
  smk_find_entry example_name_hash boot_registry "*" = Some smack_known_star /\
  smack_from_secid boot_registry (smack_to_secid example_name_hash boot_registry "*")
    = smack_known_star.
Proof.
  split; [vm_compute; reflexivity|].
  apply (smack_secid_roundtrip example_name_hash);
    [apply boot_registry_wf | vm_compute; reflexivity].
Defined.

Lemma smk_parse_smack_valid_witness :
  smk_parse_smack "app1 rest" 0 true = Some "app1" /\
  ((0 < String.length "app1" < 256)%nat /\ smk_leading "app1" = String.length "app1" /\
   first_char_is "app1" "-"%char = false /\ exists rest, "app1 rest" = ("app1" ++ rest)%string).
Proof.
  split; [vm_compute; reflexivity|].
  apply (smk_parse_smack_valid "app1 rest" 0 true). vm_compute. reflexivity.
Defined.

Lemma smk_parse_smack_idem_witness :
  smk_parse_smack "app1 rest" 0 true = Some "app1" /\ smk_parse_smack "app1" 0 true = Some "app1".
Proof.
  split; [vm_compute; reflexivity|].
  apply (smk_parse_smack_idem "app1 rest" 0). vm_compute. reflexivity.
Defined.

Lemma smk_import_entry_rejects_witness :
  smk_import_entry example_name_hash 0 0 boot_registry "-app" 0 alloc_all_ok = (boot_registry, None).
Proof. apply smk_import_entry_rejects. right. left. vm_compute. reflexivity. Defined.

Lemma smk_netlbl_mls_cats_witness :
  smk_netlbl_mls 3 [64] true = Some (mk_netlabel 3 [2]) /\
  (2 ∈ mls_cat (mk_netlabel 3 [2]) <->
   1 <= 2 <= 8 * Z.of_nat (length [64]) /\
   exists b, [64] !! Z.to_nat ((2 - 1) / 8) = Some b /\
             Z.testbit b (7 - (2 - 1) mod 8) = true).
Proof.
  split; [vm_compute; reflexivity|].
  apply (smk_netlbl_mls_cats 3 [64]). vm_compute. reflexivity.
Defined.
