(* ===== verification/SmackAccess.v ===== *)
(** * The Smack access decision ([src/security/smack/smack_access.c])

    [smk_access_entry] walks a rule list; [smk_access] applies the
    hard-coded labels and then the subject's rules; [smk_tskacc] adds the
    task's private rules and the [CAP_MAC_OVERRIDE] override;
    [smack_log] and [smack_str_from_perm] build the audit record.

    The decision reads the rules of the subject entry through the class
    [SmackRuleSource], the interface between the registry ([SmackLabels])
    and the decision: the theorems hold for any source of rules, and the
    registry is one instance.  The abstract specification of the decision
    is the inductive [smack_grants] (one constructor per grant rule of the
    spec, in the spec's words); [smk_access_decision] shows the nested
    conditionals of [smk_access] decide it.

    Rule insertion lives in [smackfs.c], outside the slice; [smk_set_access]
    models it from the spec (4.2: replace the mask of a matching rule or
    append a new one). *)

From S2P Require Import Prelude SmackLabels.

Open Scope Z_scope.

(** ** Access bits ([include/linux/fs.h], [smack.h], outside the slice) *)

Definition MAY_EXEC : Z := 0x1.
Definition MAY_WRITE : Z := 0x2.
Definition MAY_READ : Z := 0x4.
Definition MAY_APPEND : Z := 0x8.
Definition MAY_TRANSMUTE : Z := 0x1000.
Definition MAY_LOCK : Z := 0x2000.
Definition MAY_ANYREAD : Z := MAY_READ .| MAY_EXEC.
Definition MAY_NOT : Z := 0.
Definition SMACK_AUDIT_DENIED : Z := 0x1.
Definition SMACK_AUDIT_ACCEPT : Z := 0x2.
Definition SMK_NUM_ACCESS_TYPE : Z := 6.

(** ** The interface between the registry and the decision *)

(** What the decision needs from the label store: the rule list
    [smk_rules] of a subject entry. *)
Class SmackRuleSource (R : Type) := {
  subject_rules : R -> label -> list smack_rule
}.

#[export] Instance registry_rule_source : SmackRuleSource smack_registry := {
  subject_rules r l := default [] (smk_rules <$> known_heap r !! l)
}.

(** ** [smk_access_entry] *)

(** The walk [list_for_each_entry_rcu]: the first rule whose object is
    [object_label] and whose subject's label is [subject_label]. *)
Definition rule_match (subject_label object_label : label) (srp : smack_rule) : bool :=
  bool_decide (smk_object srp = object_label) && bool_decide (smk_subject srp = subject_label).

Definition smk_access_entry (subject_label object_label : label)
    (rule_list : list smack_rule) : Z :=
  let may := match find_first (rule_match subject_label object_label) rule_list with
             | Some srp => smk_rule_access srp
             | None => - ENOENT
             end in
  if Z.eqb (may .& MAY_WRITE) MAY_WRITE then may .| MAY_LOCK else may.

(** ** [smk_access] *)

(** [struct smk_audit_info]: the function name of the caller, which may
    be [NULL]. *)
Record smk_audit_info := mk_audit_info {
  ai_function : option string
}.

(** The record [smack_log] hands to [common_lsm_audit]. *)
Record smack_audit_data := mk_audit_data {
  sad_function : string;
  sad_subject : label;
  sad_object : label;
  sad_request : string;
  sad_result : Z
}.

(** [smack_str_from_perm]: one letter per bit, in the order r w x a t l. *)
Definition smack_str_from_perm (access : Z) : string :=
  (if bits_any access MAY_READ then "r" else String.EmptyString) ++
  (if bits_any access MAY_WRITE then "w" else String.EmptyString) ++
  (if bits_any access MAY_EXEC then "x" else String.EmptyString) ++
  (if bits_any access MAY_APPEND then "a" else String.EmptyString) ++
  (if bits_any access MAY_TRANSMUTE then "t" else String.EmptyString) ++
  (if bits_any access MAY_LOCK then "l" else String.EmptyString).

(** [smack_log(subject_label, object_label, request, result, ad)] with
    the run-time [log_policy]: the record it emits, if any. *)
Definition smack_log (log_policy : Z) (subject_label object_label : label)
    (request result : Z) (ad : smk_audit_info) : option smack_audit_data :=
  if negb (result =? 0) && ((log_policy .& SMACK_AUDIT_DENIED) =? 0) then None
  else if (result =? 0) && ((log_policy .& SMACK_AUDIT_ACCEPT) =? 0) then None
  else Some (mk_audit_data (default "unknown" (ai_function ad))
               subject_label object_label (smack_str_from_perm request) result).

(** [struct task_smack]: the task's label entry and its private rules. *)
Record task_smack := mk_task {
  smk_task : label;
  task_rules : list smack_rule
}.

Section Access.
Context {R : Type} `{SmackRuleSource R}.

(** The return code of [smk_access(subject_known, object_label,
    request, a)]. *)
Definition smk_access_rc (st : R) (subject_known object_label : label) (request : Z) : Z :=
  if bool_decide (subject_known = smack_known_star) then - EACCES
  else if bool_decide (object_label = smack_known_web) ||
          bool_decide (subject_known = smack_known_web) then 0
  else if bool_decide (object_label = smack_known_star) then 0
  else if bool_decide (subject_known = object_label) then 0
  else
    (* Beyond here an explicit relationship is required. *)
    let rule_check :=
      let may := smk_access_entry subject_known object_label
                   (subject_rules st subject_known) in
      if (0 <? may) && Z.eqb (request .& may) request then 0 else - EACCES in
    if Z.eqb (request .& MAY_ANYREAD) request || Z.eqb (request .& MAY_LOCK) request
    then (if bool_decide (object_label = smack_known_floor) then 0
          else if bool_decide (subject_known = smack_known_hat) then 0
          else rule_check)
    else rule_check.

(** [smk_access] with its audit: the return code and the record
    logged when [a] is not [NULL]. *)
Definition smk_access (log_policy : Z) (st : R) (subject_known object_label : label)
    (request : Z) (a : option smk_audit_info) : Z * option smack_audit_data :=
  let rc := smk_access_rc st subject_known object_label request in
  (rc, match a with
       | Some ad => smack_log log_policy subject_known object_label request rc ad
       | None => None
       end).

(** [smk_tskacc(subject, obj_label, mode, a)]; [privileged] is the
    answer of [smack_privileged(CAP_MAC_OVERRIDE)]. *)
Definition smk_tskacc_rc (st : R) (subject : task_smack) (obj_label : label)
    (mode : Z) (privileged : bool) : Z :=
  let skp := smk_task subject in
  let rc := smk_access_rc st skp obj_label mode in
  if rc =? 0 then
    let may := smk_access_entry skp obj_label (task_rules subject) in
    if may <? 0 then 0
    else if Z.eqb (mode .& may) mode then 0
    else if privileged then 0 else - EACCES
  else if privileged then 0 else rc.

Definition smk_tskacc (log_policy : Z) (st : R) (subject : task_smack) (obj_label : label)
    (mode : Z) (privileged : bool) (a : option smk_audit_info)
    : Z * option smack_audit_data :=
  let rc := smk_tskacc_rc st subject obj_label mode privileged in
  (rc, match a with
       | Some ad => smack_log log_policy (smk_task subject) obj_label mode rc ad
       | None => None
       end).
End Access.

(** ** Rule insertion (modelled from the spec) *)

(** Replace the access of the rule for ([subject], [object]) if there is
    one, or append a new rule. *)
Definition smk_set_access (rules : list smack_rule) (subject object : label) (access : Z)
    : list smack_rule :=
  if existsb (rule_match subject object) rules
  then (fun srp => if rule_match subject object srp then mk_rule subject object access else srp)
         <$> rules
  else rules ++ [mk_rule subject object access].

(** Store a rule in the subject's entry of the registry. *)
Definition smk_registry_set_rule (r : smack_registry) (subject object : label) (access : Z)
    : smack_registry :=
  mk_registry
    (alter (fun k => mk_known (smk_known k) (smk_secid k)
                       (smk_set_access (smk_rules k) subject object access) (smk_netlbl k))
       subject (known_heap r))
    (smack_known_list r) (smack_known_hash r) (smack_next_secid r) (next_alloc r).

(** ** The end-to-end scenario of the spec (section 8), executed *)

Definition scenario_boot : smack_registry := smack_init_registry example_name_hash.

Definition scenario_import (r : smack_registry) (s : string) : smack_registry * option label :=
  smk_import_entry example_name_hash 250 251 r s 0 alloc_all_ok.

Example scenario_run :
  let '(r1, app1) := scenario_import scenario_boot "app1" in
  let '(r2, app2) := scenario_import r1 "app2" in
  match app1, app2 with
  | Some a1, Some a2 =>
      let r3 := smk_registry_set_rule r2 a1 a2 (MAY_READ .| MAY_WRITE) in
      a1 <> a2 /\
      smk_access_rc r2 a1 a2 MAY_READ = - EACCES /\
      smk_access_rc r3 a1 a2 MAY_READ = 0 /\
      smk_access_rc r3 a1 a2 MAY_LOCK = 0 /\
      smk_access_rc r3 a1 a2 MAY_EXEC = - EACCES
  | _, _ => False
  end.
Proof. vm_compute. repeat split; discriminate. Qed.

(** ** The abstract decision *)

Section Decision.
Context {R : Type} `{SmackRuleSource R}.

(** The access mask of the rule for ([s], [o]) in the rules of [s]. *)
Definition rule_for (st : R) (s o : label) : option Z :=
  smk_rule_access <$> find_first (rule_match s o) (subject_rules st s).

(** Write access implies lock access. *)
Definition smk_effective (m : Z) : Z :=
  if mask_within MAY_WRITE m then m .| MAY_LOCK else m.

(** A read-like request: within read|exec, or within lock. *)
Definition readish (request : Z) : Prop :=
  mask_within request MAY_ANYREAD = true \/ mask_within request MAY_LOCK = true.

(** The grant rules of the spec (4.3), as a declarative relation. *)
Inductive smack_grants (st : R) (s o : label) (request : Z) : Prop :=
| grant_web_object : s <> smack_known_star -> o = smack_known_web ->
    smack_grants st s o request
| grant_web_subject : s = smack_known_web -> smack_grants st s o request
| grant_star_object : s <> smack_known_star -> o = smack_known_star ->
    smack_grants st s o request
| grant_self : s <> smack_known_star -> s = o -> smack_grants st s o request
| grant_floor : s <> smack_known_star -> readish request -> o = smack_known_floor ->
    smack_grants st s o request
| grant_hat : readish request -> s = smack_known_hat -> smack_grants st s o request
| grant_rule m : s <> smack_known_star -> rule_for st s o = Some m ->
    0 < smk_effective m -> mask_within request (smk_effective m) = true ->
    smack_grants st s o request.

Lemma smk_access_entry_spec s o rules :
  smk_access_entry s o rules =
  match smk_rule_access <$> find_first (rule_match s o) rules with
  | Some m => smk_effective m
  | None => - ENOENT
  end.
Proof.
  unfold smk_access_entry, smk_effective, mask_within.
  destruct (find_first (rule_match s o) rules); simpl; [|done].
  by rewrite Z.land_comm.
Qed.

Lemma rule_check_spec st s o request :
  (let may := smk_access_entry s o (subject_rules st s) in
   if (0 <? may) && Z.eqb (request .& may) request then 0 else - EACCES) = 0 <->
  exists m, rule_for st s o = Some m /\ 0 < smk_effective m /\
            mask_within request (smk_effective m) = true.
Proof.
  cbv zeta. rewrite smk_access_entry_spec. unfold rule_for.
  destruct (smk_rule_access <$> _) as [m|]; simpl.
  - destruct (Z.ltb_spec 0 (smk_effective m)), (Z.eqb_spec (request .& smk_effective m) request);
      simpl; split; try (intros (m' & [= <-] & ? & ?%mask_within_spec)); try done; try lia.
    intros _. exists m. rewrite mask_within_spec. done.
  - split; [done|]. by intros (m & ? & _).
Qed.

(** the nested conditionals of [smk_access] decide the grant rules,
    and a refusal is always [-EACCES]. *)
Lemma smk_access_decision st s o request :
  (smk_access_rc st s o request = 0 <-> smack_grants st s o request) /\
  (smk_access_rc st s o request = 0 \/ smk_access_rc st s o request = - EACCES).
Proof.
  pose proof (rule_check_spec st s o request) as Hrule. cbv zeta in Hrule.
  assert (Hrd : readish request <->
    (Z.eqb (request .& MAY_ANYREAD) request || Z.eqb (request .& MAY_LOCK) request) = true)
    by (unfold readish, mask_within; by rewrite orb_true_iff).
  unfold smk_access_rc. cbv zeta.
  set (chk := if (0 <? smk_access_entry s o (subject_rules st s)) &&
                 Z.eqb (request .& smk_access_entry s o (subject_rules st s)) request
              then 0 else - EACCES) in *.
  assert (Hchk : chk = 0 \/ chk = - EACCES) by (unfold chk; destruct (_ && _); auto).
  destruct (_ || _) eqn:Erd;
    repeat case_bool_decide; subst; simpl in *;
    (split; [split|]); try (left; done); try (right; done); try done;
    try (intros Hc; apply Hrule in Hc as (m & ? & ? & ?); eapply grant_rule; eauto);
    try (intros _; first [by apply grant_web_object | by apply grant_web_subject
                          | by apply grant_star_object | by apply grant_self
                          | apply grant_floor; try apply Hrd; done
                          | apply grant_hat; try apply Hrd; done]);
    try (intros Hg; destruct Hg as [| | | | ? Hr ?| Hr ?| m ? ? ? ?];
         unfold smack_known_star, smack_known_web, smack_known_hat,
           smack_known_floor in *;
         try congruence; try lia;
         try (apply Hrd in Hr; congruence);
         try (apply Hrule; eexists; repeat split; eauto)).
Qed.

(** C1: The return code of smk_access is 0 exactly when one of the grant
    rules of the spec holds (web object or subject, star object, self
    access, floor and hat for read-like requests, a rule of the subject
    whose access, write implying lock, covers the request, never for the
    star subject), and it is -EACCES otherwise. *)
Theorem smk_access_refines st s o request :
  (smk_access_rc st s o request = 0 <-> smack_grants st s o request) /\
  (smk_access_rc st s o request = 0 \/ smk_access_rc st s o request = - EACCES).
Proof. apply smk_access_decision. Qed.
End Decision.

(** ** Properties of the decision *)

Section DecisionProps.
Context {R : Type} `{SmackRuleSource R}.

Lemma smk_access_grant st s o request :
  smack_grants st s o request -> smk_access_rc st s o request = 0.
Proof. apply smk_access_decision. Qed.

(** The hard-coded labels: the star subject is refused everything
    (even the star object), self access, the web object and the web
    subject are always granted, the hat subject reads anything and
    anything is read on the floor. *)
Theorem smk_access_fixed_labels st s o request :
  smk_access_rc st smack_known_star o request = - EACCES /\
  (s <> smack_known_star -> smk_access_rc st s s request = 0) /\
  (s <> smack_known_star -> smk_access_rc st s smack_known_web request = 0) /\
  smk_access_rc st smack_known_web o request = 0 /\
  smk_access_rc st smack_known_hat o MAY_READ = 0 /\
  (s <> smack_known_star -> smk_access_rc st s smack_known_floor MAY_READ = 0).
Proof.
  assert (Hr : readish MAY_READ) by (left; reflexivity).
  split; [unfold smk_access_rc; by rewrite bool_decide_true|].
  repeat split; intros; apply smk_access_grant.
  - by apply grant_self.
  - by apply grant_web_object.
  - by apply grant_web_subject.
  - by apply grant_hat.
  - by apply grant_floor.
Qed.

(** A rule that grants write also grants lock. *)
Theorem smk_access_write_implies_lock st s o m :
  s <> smack_known_star -> rule_for st s o = Some m -> 0 <= m ->
  mask_within MAY_WRITE m = true -> smk_access_rc st s o MAY_LOCK = 0.
Proof.
  intros Hs Hm Hpos Hw. apply smk_access_grant.
  apply (grant_rule _ _ _ _ m); [done|done| |];
    unfold smk_effective; rewrite Hw.
  - assert (0 <= m .| MAY_LOCK) by (apply Z.lor_nonneg; unfold MAY_LOCK; lia).
    assert (m .| MAY_LOCK <> 0) by (intros Hz; apply Z.lor_eq_0_iff in Hz; unfold MAY_LOCK in Hz; lia).
    lia.
  - apply mask_within_spec. rewrite Z.land_comm, Z.land_lor_distr_l, Z.land_diag.
    bits. destruct (Z.testbit MAY_LOCK n), (Z.testbit m n); reflexivity.
Qed.

(** The hat subject is granted execute on every object, since
    MAY_ANYREAD is read|exec, although the spec lists read and lock
    only. *)
Theorem smk_access_hat_exec st o :
  smk_access_rc st smack_known_hat o MAY_EXEC = 0.
Proof. apply smk_access_grant. apply grant_hat; [by left | done]. Qed.

(** Without a rule, a combined read|lock request of the hat subject
    to an ordinary object is refused: the hat shortcut tests read-like
    and lock requests separately. *)
Theorem smk_access_hat_read_lock st o :
  rule_for st smack_known_hat o = None ->
  o <> smack_known_web -> o <> smack_known_star -> o <> smack_known_floor ->
  o <> smack_known_hat ->
  smk_access_rc st smack_known_hat o (MAY_READ .| MAY_LOCK) = - EACCES.
Proof.
  intros Hn Hw Hs Hf Hh.
  destruct (smk_access_decision st smack_known_hat o (MAY_READ .| MAY_LOCK)) as [Hiff [Hz|Hd]];
    [|done]. exfalso. apply Hiff in Hz.
  destruct Hz as [| Hw'| | | | Hr _ | m _ Hm _ _]; try done; try congruence.
  destruct Hr as [Hr|Hr]; vm_compute in Hr; discriminate.
Qed.
End DecisionProps.

(** ** The task check and the audit record *)

Section TaskProps.
Context {R : Type} `{SmackRuleSource R}.

(** The private rule of the task for the object. *)
Definition task_rule_for (t : task_smack) (o : label) : option Z :=
  smk_rule_access <$> find_first (rule_match (smk_task t) o) (task_rules t).

(** Without CAP_MAC_OVERRIDE a task's private rules only restrict:
    an access granted by smk_tskacc is granted by smk_access on the
    task's label. *)
Theorem smk_tskacc_restricts st t o mode :
  smk_tskacc_rc st t o mode false = 0 -> smk_access_rc st (smk_task t) o mode = 0.
Proof.
  unfold smk_tskacc_rc. cbv zeta.
  destruct (smk_access_decision st (smk_task t) o mode) as [_ [Hz|Hd]]; [done|].
  rewrite Hd. done.
Qed.

(** With CAP_MAC_OVERRIDE every task access is granted by
    smk_tskacc. *)
Theorem smk_tskacc_override st t o mode :
  smk_tskacc_rc st t o mode true = 0.
Proof.
  unfold smk_tskacc_rc. cbv zeta.
  destruct (_ =? 0); [|done].
  destruct (_ <? 0); [done|]. by destruct (Z.eqb _ _).
Qed.

(** When the global decision grants, smk_tskacc grants if the task
    has no private rule for the object, and otherwise grants exactly the
    requests within the private rule (write implying lock). *)
Theorem smk_tskacc_private st t o mode :
  smk_access_rc st (smk_task t) o mode = 0 ->
  (task_rule_for t o = None -> smk_tskacc_rc st t o mode false = 0) /\
  (forall m, task_rule_for t o = Some m -> 0 <= m ->
     smk_tskacc_rc st t o mode false = 0 <-> mask_within mode (smk_effective m) = true).
Proof.
  intros Hg. unfold smk_tskacc_rc, task_rule_for. cbv zeta. rewrite Hg, Z.eqb_refl.
  rewrite smk_access_entry_spec. split.
  - intros ->. reflexivity.
  - intros m -> Hm. simpl.
    assert (He : 0 <= smk_effective m)
      by (unfold smk_effective; destruct (mask_within _ _); [apply Z.lor_nonneg; unfold MAY_LOCK|]; lia).
    destruct (Z.ltb_spec (smk_effective m) 0); [lia|].
    unfold mask_within. rewrite Z.land_comm.
    destruct (Z.eqb _ _); split; done.
Qed.

(** [smack_log] emits a record exactly when the logging policy selects
    the outcome. *)
Lemma smack_log_spec log_policy s o request result ad :
  smack_log log_policy s o request result ad =
  if (negb (result =? 0) && bits_any log_policy SMACK_AUDIT_DENIED) ||
     ((result =? 0) && bits_any log_policy SMACK_AUDIT_ACCEPT)
  then Some (mk_audit_data (default "unknown" (ai_function ad)) s o
               (smack_str_from_perm request) result)
  else None.
Proof.
  unfold smack_log, bits_any.
  destruct (Z.eqb_spec result 0), (Z.eqb_spec (log_policy .& SMACK_AUDIT_DENIED) 0),
    (Z.eqb_spec (log_policy .& SMACK_AUDIT_ACCEPT) 0); reflexivity.
Qed.

(** With the boot logging policy (denials only), smk_access with
    audit data produces an audit record exactly when it denies, carrying
    the caller's function (or unknown), the labels, the request letters
    and the result. *)
Theorem smk_access_audit_default (st : R) s o request ad :
  (snd (smk_access SMACK_AUDIT_DENIED st s o request (Some ad)) <> None <->
   fst (smk_access SMACK_AUDIT_DENIED st s o request (Some ad)) <> 0) /\
  forall rec, snd (smk_access SMACK_AUDIT_DENIED st s o request (Some ad)) = Some rec ->
    rec = mk_audit_data (default "unknown" (ai_function ad)) s o
            (smack_str_from_perm request)
            (fst (smk_access SMACK_AUDIT_DENIED st s o request (Some ad))).
Proof.
  unfold smk_access. simpl. rewrite smack_log_spec.
  destruct (Z.eqb_spec (smk_access_rc st s o request) 0) as [Hz|Hz]; simpl;
    (split; [split|]); try done; by intros rec [= <-].
Qed.

(** smack_str_from_perm writes at most SMK_NUM_ACCESS_TYPE letters,
    so it never overruns request_buffer. *)
Theorem smack_str_from_perm_bound access :
  (Z.of_nat (String.length (smack_str_from_perm access)) <= SMK_NUM_ACCESS_TYPE)%Z.
Proof.
  unfold smack_str_from_perm, SMK_NUM_ACCESS_TYPE.
  repeat match goal with |- context [if ?b then _ else _] => destruct b end;
    simpl; lia.
Qed.
End TaskProps.

(** ** Witnesses: the scenario's registry, with the rule app1 -> app2 rw *)

Definition witness_registry : smack_registry :=
  let r1 := fst (scenario_import scenario_boot "app1") in
  let r2 := fst (scenario_import r1 "app2") in
  smk_registry_set_rule r2 6 7 (MAY_READ .| MAY_WRITE).

(** The task of app1 with a private rule app1 -> app2 read. *)
Definition witness_task : task_smack := mk_task 6 [mk_rule 6 7 MAY_READ].

Lemma smk_access_write_implies_lock_witness :
  rule_for witness_registry 6 7 = Some 6 /\ smk_access_rc witness_registry 6 7 MAY_LOCK = 0.
Proof.
  split; [vm_compute; reflexivity|].
  apply (smk_access_write_implies_lock witness_registry 6 7 6);
    [discriminate | vm_compute; reflexivity | lia | vm_compute; reflexivity].
Defined.

Lemma smk_access_hat_read_lock_witness :
  rule_for witness_registry smack_known_hat 6 = None /\
  smk_access_rc witness_registry smack_known_hat 6 (MAY_READ .| MAY_LOCK) = - EACCES.
Proof.
  split; [vm_compute; reflexivity|].
  apply smk_access_hat_read_lock; [vm_compute; reflexivity | discriminate..].
Defined.

Lemma smk_tskacc_restricts_witness :
  smk_tskacc_rc witness_registry witness_task 7 MAY_READ false = 0 /\
  smk_access_rc witness_registry (smk_task witness_task) 7 MAY_READ = 0.
Proof.
  split; [vm_compute; reflexivity|].
  apply (smk_tskacc_restricts _ _ _ _). vm_compute. reflexivity.
Defined.

Lemma smk_tskacc_private_witness :
  smk_access_rc witness_registry (smk_task witness_task) 7 MAY_WRITE = 0 /\
  (task_rule_for witness_task 7 = None -> smk_tskacc_rc witness_registry witness_task 7 MAY_WRITE false = 0) /\
  (forall m, task_rule_for witness_task 7 = Some m -> 0 <= m ->
     smk_tskacc_rc witness_registry witness_task 7 MAY_WRITE false = 0 <->
     mask_within MAY_WRITE (smk_effective m) = true).
Proof.
  split; [vm_compute; reflexivity|].
  apply smk_tskacc_private. vm_compute. reflexivity.
Defined.
