(* ===== verification/MaliSearch.v ===== *)
(** * Mali DFS: frequency tables and the two binary searches

    Models the data and the pure routines of
    [src/drivers/gpu/mali/platform/sc8830/mali_platform.c]: the structs
    [gpu_clock_source] and [gpu_freq_info], the three build variants of
    the clock-source table (shark 40nm, tshark [CONFIG_ARCH_SCX30G],
    sharkl [CONFIG_ARCH_SCX35L]), [gpu_dfs_full_list_generate],
    [freq_search] and [get_next_freq].

    A [struct gpu_freq_info *] into the static array
    [dfs_freq_full_list[32]] is its index in that array (a [nat]); an
    array read [freq_list[mid]->f] is [dfs_read], which is [None] when
    the index is outside the array: a C out-of-bounds read is an error
    value of the model, never a default.  The loops are [Fixpoint]s
    with fuel; the theorems show that the fuel given by the C callers
    ([len + 1] iterations for a search over [len] entries) is always
    enough, so no result is an artefact of the fuel. *)

From S2P Require Import Prelude.

Module Mali.

Local Open Scope Z_scope.

(** ** The structs *)

(** [struct gpu_clock_source]; [clk_src] is the clock handle that
    [clk_get] returned ([None] for NULL), named by the source's
    position in [gpu_clk_src]. *)
Record gpu_clock_source := mk_clock_source {
  src_name : string;
  src_freq : Z;
  src_freq_select : Z;
  src_clk : option nat
}.

(** [struct gpu_freq_info]. *)
Record gpu_freq_info := mk_freq_info {
  index : Z;
  freq : Z;
  freq_select : Z;
  div_select : Z;
  up_threshold : Z;
  down_threshold : Z;
  clk_src : option nat
}.

(** A zero-initialised element of a static array. *)
Definition freq_info_zero : gpu_freq_info := mk_freq_info 0 0 0 0 0 0 None.

#[export] Instance gpu_freq_info_inhabited : Inhabited gpu_freq_info :=
  populate freq_info_zero.

#[export] Instance gpu_clock_source_inhabited : Inhabited gpu_clock_source :=
  populate (mk_clock_source String.EmptyString 0 0 None).

(** [GPU_HARDWARE_MAX_DIVISION], the size of [dfs_freq_full_list], and
    the macros [UP_THRESHOLD] (textually [9/10]) and [256 * UP_THRESHOLD]. *)
Definition GPU_HARDWARE_MAX_DIVISION : Z := 4.
Definition FULL_LIST_SIZE : nat := 32%nat.
Definition up_threshold_of (f : Z) : Z := c_div (f * 9) 10.
Definition LOAD_UP_THRESHOLD : Z := c_div (256 * 9) 10.

(** ** The build variants *)

(** What the preprocessor selects: the clock sources, [DFS_FREQ_NUM],
    [GPU_MAX_FREQ], [GPU_MIN_FREQ], [GPU_150M_FREQ_INDEX] and the
    initialiser of [gpu_dfs_ctx.dfs_freq_list] (as indices into
    [dfs_freq_full_list]). *)
Record gpu_platform := mk_platform {
  gpu_clk_src : list gpu_clock_source;
  DFS_FREQ_NUM : Z;
  GPU_MAX_FREQ : Z;
  GPU_MIN_FREQ : Z;
  GPU_150M_FREQ_INDEX : Z;
  static_dfs_freq_list : list nat
}.

(** The clock handles as the non-OF [mali_power_initialize] obtains
    them: [clk_get] of every source succeeds. *)
Definition with_clocks (l : list (string * Z * Z)) : list gpu_clock_source :=
  imap (fun i '(n, f, s) => mk_clock_source n f s (Some i)) l.

(** shark 40nm (the [#else] branch). *)
Definition platform_shark : gpu_platform := mk_platform
  (with_clocks [("clk_312m", 312000, 3); ("clk_256m", 256000, 1);
                ("clk_208m", 208000, 0)]%Z)
  6 312000 64000 3 [0; 4; 8; 1; 9; 7]%nat.

(** tshark 28nm, [CONFIG_ARCH_SCX30G]. *)
Definition platform_tshark : gpu_platform := mk_platform
  (with_clocks [("clk_460m8", 460800, 6); ("clk_384m", 384000, 5);
                ("clk_312m", 312000, 4); ("clk_256m", 256000, 2);
                ("clk_208m", 208000, 1); ("clk_153m6", 153600, 0)]%Z)
  8 460800 64000 5 [0; 4; 8; 12; 16; 20; 17; 15]%nat.

(** sharkl 28nm, [CONFIG_ARCH_SCX35L]. *)
Definition platform_sharkl : gpu_platform := mk_platform
  (with_clocks [("clk_512m", 512000, 5); ("clk_384m", 384000, 4);
                ("clk_307m2", 307200, 3); ("clk_256m", 256000, 2);
                ("clk_192m", 192000, 1); ("clk_153m6", 153600, 0)]%Z)
  8 512000 64000 5 [0; 4; 8; 12; 16; 20; 10; 15]%nat.

(** ** [gpu_dfs_full_list_generate] *)

(** The body of the inner loop for [i], [j]: every field but
    [down_threshold] is written; that one keeps what the array held. *)
Definition full_list_entry (src : gpu_clock_source) (i j : nat)
    (old : gpu_freq_info) : gpu_freq_info :=
  {| index := Z.of_nat (i * 4 + j)%nat;
     freq := c_div (src_freq src) (Z.of_nat j + 1);
     freq_select := src_freq_select src;
     div_select := Z.of_nat j + 1;
     up_threshold := c_div (up_threshold_of (src_freq src)) (Z.of_nat j + 1);
     down_threshold := down_threshold old;
     clk_src := src_clk src |}.

(** One iteration of the inner loop, [(i, j)]: the write to
    [dfs_freq_full_list[i*4+j]]. *)
Definition full_pos (ij : nat * nat) : nat := (ij.1 * 4 + ij.2)%nat.

Definition full_list_step (srcs : list gpu_clock_source) (full : list gpu_freq_info)
    (ij : nat * nat) : list gpu_freq_info :=
  match srcs !! ij.1 with
  | Some src => alter (full_list_entry src ij.1 ij.2) (full_pos ij) full
  | None => full
  end.

(** The two nested loops, [i < gpu_clk_num] outside and
    [j < GPU_HARDWARE_MAX_DIVISION] inside, in their order. *)
Definition gpu_dfs_full_list_generate (srcs : list gpu_clock_source)
    (full : list gpu_freq_info) : list gpu_freq_info :=
  foldl (full_list_step srcs) full
    (list_prod (seq 0 (length srcs)) (seq 0 (Z.to_nat GPU_HARDWARE_MAX_DIVISION))).

(** The static array before [gpu_dfs_context_init]. *)
Definition dfs_freq_full_list0 : list gpu_freq_info := replicate FULL_LIST_SIZE freq_info_zero.

(** ** Array reads *)

(** [freq_list[i]] followed by the dereference of the pointer. *)
Definition dfs_read (full : list gpu_freq_info) (freq_list : list nat) (i : Z)
    : option gpu_freq_info :=
  p ← zlookup freq_list i; full !! p.

(** The frequencies a DFS list points to, in its order. *)
Definition dfs_freqs (full : list gpu_freq_info) (freq_list : list nat) : list Z :=
  (fun p => freq (full !!! p)) <$> freq_list.

(** ** [freq_search]: binary search of a key in a list sorted by
    decreasing frequency *)

Fixpoint freq_search_loop (read : Z -> option Z) (fuel : nat) (low high key : Z)
    : option Z :=
  if (low <=? high)%Z then
    match fuel with
    | O => None
    | S fuel' =>
        let mid := c_div (low + high) 2 in
        f ← read mid;
        if (key =? f)%Z then Some mid
        else if (key >? f)%Z then freq_search_loop read fuel' low (mid - 1) key
        else freq_search_loop read fuel' (mid + 1) high key
    end
  else Some (-1).

(** The fuel is one iteration more than the length: every iteration
    shrinks [[low, high]]. *)
Definition freq_search_gen (read : Z -> option Z) (len key : Z) : option Z :=
  if (key <? 0)%Z then Some (-1)
  else freq_search_loop read (S (Z.to_nat len)) 0 (len - 1) key.

Definition freq_search (full : list gpu_freq_info) (freq_list : list nat)
    (len key : Z) : option Z :=
  freq_search_gen (fun i => freq <$> dfs_read full freq_list i) len key.

(** The reference: the position of the first entry equal to the key. *)
Definition freq_search_ref (vals : list Z) (key : Z) : Z :=
  if (key <? 0)%Z then -1
  else match list_find (fun x => x = key) vals with
       | Some (i, _) => Z.of_nat i
       | None => -1
       end.


(** ** [get_next_freq] (the governor's search, [!SPRD_DFS_ONE_STEP_SCALE_DOWN]) *)

(** [min_index] is [min_freq->index]; [mid] is the C variable, whose
    last value is the result when the loop ends.  The right operand of
    the second [&&] reads [freq_list[mid+1]] only when the left one
    holds, as in C. *)
Fixpoint get_next_freq_loop (read : Z -> option Z) (fuel : nat)
    (min_index low high mid key : Z) : option Z :=
  match fuel with
  | O => Some mid
  | S fuel' =>
      if (low <=? high)%Z then
        let mid := c_div (low + high) 2 in
        u ← read mid;
        let continue :=
          if (key >? u)%Z then get_next_freq_loop read fuel' min_index low (mid - 1) mid key
          else get_next_freq_loop read fuel' min_index (mid + 1) high mid key in
        if (key <? u)%Z && (mid =? min_index)%Z then Some mid
        else if (key <? u)%Z then
          u' ← read (mid + 1);
          if (key >? u')%Z then Some mid else continue
        else continue
      else Some mid
  end.

(** [low = max_freq->index], [high = min_freq->index], [mid = 0]. *)
Definition get_next_freq (full : list gpu_freq_info) (freq_list : list nat)
    (min_p max_p : nat) (key : Z) : option Z :=
  let low := index (full !!! max_p) in
  let high := index (full !!! min_p) in
  get_next_freq_loop (fun i => up_threshold <$> dfs_read full freq_list i)
    (S (Z.to_nat (high - low + 1))) high low high 0 key.

(** The up thresholds a DFS list points to. *)
Definition dfs_ups (full : list gpu_freq_info) (freq_list : list nat) : list Z :=
  (fun p => up_threshold (full !!! p)) <$> freq_list.

(** The reference: scanning down from [hi], the first (so the largest)
    index whose threshold is above the key, or [lo] when there is none:
    the lowest frequency whose threshold still exceeds the target. *)
Definition above (vals : list Z) (key i : Z) : bool :=
  match zlookup vals i with Some u => (key <? u)%Z | None => false end.

Fixpoint scan_down (p : Z -> bool) (lo i : Z) (n : nat) : Z :=
  match n with
  | O => lo
  | S n' => if p i then i else scan_down p lo (i - 1) n'
  end.

Definition get_next_freq_ref (vals : list Z) (lo hi key : Z) : Z :=
  scan_down (above vals key) lo hi (Z.to_nat (hi - lo + 1)).

(** ** Correctness of [freq_search] *)

Section FreqSearch.
Context (vals : list Z) (key : Z).
Hypothesis Hdesc : Zdesc vals.
Let len := Z.of_nat (length vals).

(** The loop keeps every position of the key inside [[low, high]]. *)
Lemma freq_search_loop_spec fuel low high :
  0 <= low -> high < len -> high - low < Z.of_nat fuel ->
  (forall i, zlookup vals i = Some key -> low <= i <= high) ->
  (freq_search_loop (zlookup vals) fuel low high key = Some (-1) /\
     forall i, zlookup vals i <> Some key) \/
  (exists i, freq_search_loop (zlookup vals) fuel low high key = Some i /\
     zlookup vals i = Some key).
Proof.
  revert low high. induction fuel as [|fuel IH]; intros low high Hl Hh Hf Hpos; simpl;
    (destruct (Z.leb_spec low high) as [Hle|Hgt];
     [|left; split; [done|]; intros i Hi; specialize (Hpos i Hi); lia]); [lia|].
  pose proof (c_div2_between low high ltac:(lia)) as Hm.
  set (mid := c_div (low + high) 2) in *.
  destruct (zlookup_lt vals mid ltac:(lia)) as [v Hv]. rewrite Hv. simpl.
  pose proof (zlookup_Some _ _ _ Hv) as [_ Hv'].
  destruct (Z.eqb_spec key v) as [->|Hne]; [right; by exists mid|].
  assert (Hside : forall i, zlookup vals i = Some key ->
            (i < mid -> key > v) /\ (mid < i -> key < v)).
  { intros i Hi. apply zlookup_Some in Hi as [Hr Hi]. split; intros Hlt.
    - pose proof (Zdesc_lookup _ _ _ _ _ Hdesc Hi Hv' ltac:(lia)). lia.
    - pose proof (Zdesc_lookup _ _ _ _ _ Hdesc Hv' Hi ltac:(lia)). lia. }
  rewrite Z.gtb_ltb. destruct (Z.ltb_spec v key).
  - apply IH; [lia | lia | lia|]. intros i Hi.
    pose proof (Hpos i Hi). destruct (Hside i Hi).
    assert (i <> mid) by (intros ->; congruence). lia.
  - apply IH; [lia | lia | lia|]. intros i Hi.
    pose proof (Hpos i Hi). destruct (Hside i Hi).
    assert (i <> mid) by (intros ->; congruence). lia.
Qed.

(** A strictly decreasing list holds a value at one position at most. *)
Lemma zdesc_unique i j :
  zlookup vals i = Some key -> zlookup vals j = Some key -> i = j.
Proof.
  intros Hi Hj. apply zlookup_Some in Hi as [Hri Hi], Hj as [Hrj Hj].
  destruct (Z.lt_total i j) as [Hlt|[Heq|Hlt]]; [|done|].
  - pose proof (Zdesc_lookup _ _ _ _ _ Hdesc Hi Hj ltac:(lia)). lia.
  - pose proof (Zdesc_lookup _ _ _ _ _ Hdesc Hj Hi ltac:(lia)). lia.
Qed.

Lemma freq_search_ref_spec i :
  0 <= key -> zlookup vals i = Some key -> freq_search_ref vals key = i.
Proof.
  intros Hk Hi. unfold freq_search_ref. destruct (Z.ltb_spec key 0); [lia|].
  destruct (list_find (fun x => x = key) vals) as [[j x]|] eqn:Hf.
  - apply list_find_Some in Hf as (Hj & -> & _).
    apply (zdesc_unique (Z.of_nat j)); [|done].
    unfold zlookup. rewrite Nat2Z.id. by destruct (Z.leb_spec 0 (Z.of_nat j)); [|lia].
  - apply zlookup_Some in Hi as [_ Hi].
    apply list_find_None in Hf. rewrite Forall_forall in Hf.
    exfalso. eapply Hf; [by eapply list_elem_of_lookup_2 | done].
Qed.

Lemma freq_search_ref_absent :
  (forall i, zlookup vals i <> Some key) -> freq_search_ref vals key = -1.
Proof.
  intros Habs. unfold freq_search_ref. destruct (key <? 0); [done|].
  destruct (list_find (fun x => x = key) vals) as [[j x]|] eqn:Hf; [|done].
  apply list_find_Some in Hf as (Hj & -> & _). exfalso.
  apply (Habs (Z.of_nat j)). unfold zlookup. rewrite Nat2Z.id.
  by destruct (Z.leb_spec 0 (Z.of_nat j)); [|lia].
Qed.

(** The search over a whole list equals the reference; the fuel
    [len + 1] is always enough. *)
Lemma freq_search_gen_correct :
  freq_search_gen (zlookup vals) len key = Some (freq_search_ref vals key).
Proof.
  unfold freq_search_gen. destruct (Z.ltb_spec key 0).
  { unfold freq_search_ref. by destruct (Z.ltb_spec key 0); [|lia]. }
  destruct (freq_search_loop_spec (S (Z.to_nat len)) 0 (len - 1))
    as [[-> Habs]|(i & -> & Hi)]; [lia | lia | lia | | |].
  - intros i Hi. apply zlookup_Some in Hi. lia.
  - by rewrite freq_search_ref_absent.
  - by rewrite (freq_search_ref_spec i).
Qed.
End FreqSearch.

(** The reference answers [-1] or a position of the list. *)
Lemma freq_search_ref_range vals key :
  freq_search_ref vals key = -1 \/
  (0 <= freq_search_ref vals key < Z.of_nat (length vals) /\
   zlookup vals (freq_search_ref vals key) = Some key).
Proof.
  unfold freq_search_ref. destruct (key <? 0)%Z; [by left|].
  destruct (list_find (fun x => x = key) vals) as [[j x]|] eqn:Hf; [|by left].
  apply list_find_Some in Hf as (Hj & -> & _). right.
  pose proof (lookup_lt_Some _ _ _ Hj). split; [lia|].
  unfold zlookup. rewrite Nat2Z.id. by destruct (Z.leb_spec 0 (Z.of_nat j)); [|lia].
Qed.

(** ** Correctness of [get_next_freq] *)

Section GetNextFreq.
Context (vals : list Z) (lo hi key : Z).
Hypothesis Hlo : 0 <= lo <= hi.
Hypothesis Hhi : hi < Z.of_nat (length vals).

Lemma zlookup_range i : lo <= i <= hi -> exists u, zlookup vals i = Some u.
Proof. intros. apply zlookup_lt. lia. Qed.

(** Whatever the key, the loop reads inside the list only and its
    result lies in [[lo, hi]]. *)
Lemma get_next_freq_loop_bounds fuel low high mid :
  lo <= low -> high <= hi -> high - low < Z.of_nat fuel ->
  (low <= high \/ lo <= mid <= hi) ->
  exists r, get_next_freq_loop (zlookup vals) fuel hi low high mid key = Some r /\
            lo <= r <= hi.
Proof.
  revert low high mid. induction fuel as [|fuel IH]; intros low high m Hl Hh Hf Hinv;
    simpl; [exists m; split; [done | lia]|].
  destruct (Z.leb_spec low high) as [Hle|]; [|exists m; split; [done | lia]].
  pose proof (c_div2_between low high ltac:(lia)) as Hm.
  set (mid := c_div (low + high) 2) in *.
  destruct (zlookup_range mid ltac:(lia)) as [u ->]. simpl.
  assert (Hcont : exists r,
    (if (key >? u)%Z then get_next_freq_loop (zlookup vals) fuel hi low (mid - 1) mid key
     else get_next_freq_loop (zlookup vals) fuel hi (mid + 1) high mid key) = Some r /\
    lo <= r <= hi).
  { destruct (key >? u)%Z; apply IH; lia. }
  destruct (Z.ltb_spec key u), (Z.eqb_spec mid hi); simpl;
    try (exists mid; split; [done | lia]); try done.
  destruct (zlookup_range (mid + 1) ltac:(lia)) as [u' ->]. simpl.
  destruct (key >? u')%Z; [exists mid; split; [done | lia] | done].
Qed.

(** The conditions that make [r] the answer: every threshold left of
    [r] is above the key, every one right of it below, and [r]'s own
    is above unless [r = lo]. *)
Definition next_answer (r : Z) : Prop :=
  lo <= r <= hi /\
  (forall i u, lo <= i < r -> zlookup vals i = Some u -> key < u) /\
  (forall i u, r < i <= hi -> zlookup vals i = Some u -> u < key) /\
  (forall u, zlookup vals r = Some u -> key < u \/ (r = lo /\ u < key)).

Lemma get_next_freq_loop_answer r fuel low high mid :
  next_answer r -> lo <= low -> high <= hi -> high - low < Z.of_nat fuel ->
  (low <= r <= high \/ (high < low /\ mid = r)) ->
  get_next_freq_loop (zlookup vals) fuel hi low high mid key = Some r.
Proof.
  intros (Hr & Hleft & Hright & Hself).
  revert low high mid. induction fuel as [|fuel IH]; intros low high m Hl Hh Hf Hinv;
    simpl; [f_equal; lia|].
  destruct (Z.leb_spec low high) as [Hle|]; [|f_equal; lia].
  pose proof (c_div2_between low high ltac:(lia)) as Hm.
  set (mid := c_div (low + high) 2) in *.
  destruct (zlookup_range mid ltac:(lia)) as [u Hu]. rewrite Hu. simpl.
  destruct (Z.lt_total mid r) as [Hlt|[Heq|Hgt]].
  - (* the answer is to the right: both tests fail, go up *)
    pose proof (Hleft mid u ltac:(lia) Hu) as Hku.
    destruct (zlookup_range (mid + 1) ltac:(lia)) as [u' Hu'].
    assert (key < u').
    { destruct (Z.eq_dec (mid + 1) r) as [Heq|].
      - rewrite Heq in Hu'. destruct (Hself u' Hu') as [|[? _]]; [done | lia].
      - apply (Hleft (mid + 1)); [lia | done]. }
    rewrite (proj2 (Z.ltb_lt key u) Hku), Hu'.
    destruct (Z.eqb_spec mid hi); [lia|]. simpl.
    rewrite Z.gtb_ltb, (proj2 (Z.ltb_ge u' key)), Z.gtb_ltb, (proj2 (Z.ltb_ge u key)) by lia.
    apply IH; lia.
  - rewrite Heq in Hu. destruct (Hself u Hu) as [Hku|[Hlo' Hku]].
    + rewrite (proj2 (Z.ltb_lt key u) Hku).
      destruct (Z.eqb_spec mid hi) as [|Hne]; [simpl; f_equal; lia|]. simpl.
      destruct (zlookup_range (mid + 1) ltac:(lia)) as [u' Hu']. rewrite Hu'. simpl.
      rewrite Z.gtb_ltb, (proj2 (Z.ltb_lt u' key)); [f_equal; lia|].
      apply (Hright (mid + 1)); [lia | done].
    + rewrite (proj2 (Z.ltb_ge key u)) by lia. simpl.
      rewrite Z.gtb_ltb, (proj2 (Z.ltb_lt u key)) by done. apply IH; lia.
  - (* the answer is to the left: go down *)
    pose proof (Hright mid u ltac:(lia) Hu) as Hku.
    rewrite (proj2 (Z.ltb_ge key u)) by lia. simpl.
    rewrite Z.gtb_ltb, (proj2 (Z.ltb_lt u key)) by done. apply IH; lia.
Qed.

Lemma scan_down_spec (p : Z -> bool) n i :
  Z.of_nat n = i - lo + 1 ->
  (lo <= scan_down p lo i n <= i /\ p (scan_down p lo i n) = true /\
     forall k, scan_down p lo i n < k <= i -> p k = false) \/
  (scan_down p lo i n = lo /\ forall k, lo <= k <= i -> p k = false).
Proof.
  revert i. induction n as [|n IH]; intros i Hn; simpl.
  { right. split; [done|]. intros k Hk. lia. }
  destruct (p i) eqn:Hp.
  { left. split; [lia|]. split; [done|]. intros k Hk. lia. }
  destruct (IH (i - 1) ltac:(lia)) as [(Hr & Hpr & Hk)|(Hr & Hk)].
  - left. split; [lia|]. split; [done|]. intros k Hki.
    destruct (Z.eq_dec k i) as [->|]; [done|]. apply Hk. lia.
  - right. split; [done|]. intros k Hki.
    destruct (Z.eq_dec k i) as [->|]; [done|]. apply Hk. lia.
Qed.

(** When no threshold in range equals the key, the reference is the
    answer. *)
Lemma get_next_freq_ref_answer :
  Zdesc vals ->
  (forall i u, lo <= i <= hi -> zlookup vals i = Some u -> u <> key) ->
  next_answer (get_next_freq_ref vals lo hi key).
Proof.
  intros Hdesc Hneq. unfold get_next_freq_ref, next_answer.
  assert (Hlt : forall i j u v, lo <= i < j -> j <= hi -> zlookup vals i = Some u ->
            zlookup vals j = Some v -> v < u).
  { intros i j u v ? ? Hu Hv.
    apply zlookup_Some in Hu as [_ Hu], Hv as [_ Hv].
    eapply Zdesc_lookup; [done | exact Hu | exact Hv | lia]. }
  assert (Habove : forall k u, zlookup vals k = Some u -> above vals key k = false ->
            lo <= k <= hi -> u < key).
  { intros k u Hu Hk ?. unfold above in Hk. rewrite Hu in Hk.
    apply Z.ltb_ge in Hk. pose proof (Hneq k u ltac:(lia) Hu). lia. }
  destruct (scan_down_spec (above vals key) (Z.to_nat (hi - lo + 1)) hi ltac:(lia))
    as [(Hr & Hp & Hk)|(Hr & Hk)];
    set (r := scan_down (above vals key) lo hi (Z.to_nat (hi - lo + 1))) in *.
  - unfold above in Hp. destruct (zlookup vals r) as [ur|] eqn:Hur; [|done].
    apply Z.ltb_lt in Hp.
    split; [lia|]. split; [|split].
    + intros i u Hi Hu. pose proof (Hlt i r u ur ltac:(lia) ltac:(lia) Hu Hur). lia.
    + intros i u Hi Hu. apply (Habove i); [done | apply Hk | ]; lia.
    + intros u [= <-]. by left.
  - rewrite Hr. split; [lia|]. split; [|split].
    + intros i u Hi. lia.
    + intros i u Hi Hu. apply (Habove i); [done | apply Hk | ]; lia.
    + intros u Hu. right. split; [done|]. apply (Habove lo); [done | apply Hk |]; lia.
Qed.
End GetNextFreq.

(** ** The generated table *)

Section FullList.
Context (srcs : list gpu_clock_source).

Lemma full_list_step_ne full ij k :
  k <> full_pos ij -> full_list_step srcs full ij !! k = full !! k.
Proof.
  intros Hk. unfold full_list_step.
  destruct (srcs !! ij.1); [|done]. by apply list_lookup_alter_ne.
Qed.

Lemma full_pos_inj ij ij' :
  (ij.2 < 4)%nat -> (ij'.2 < 4)%nat -> full_pos ij = full_pos ij' -> ij = ij'.
Proof.
  destruct ij as [i j], ij' as [i' j']; unfold full_pos; simpl.
  intros ? ? ?. assert (i = i') by lia. subst. f_equal. lia.
Qed.

(** A sequence of iterations at distinct positions: each position is
    written by its own iteration, on the value it had before the loop. *)
Lemma full_list_steps_lookup ps full ij :
  NoDup (full_pos <$> ps) -> Forall (fun ij => ij.2 < 4)%nat ps -> (ij.2 < 4)%nat ->
  foldl (full_list_step srcs) full ps !! full_pos ij =
    if bool_decide (ij ∈ ps) then full_list_step srcs full ij !! full_pos ij
    else full !! full_pos ij.
Proof.
  revert full. induction ps as [|p ps IH]; intros full Hnd Hall Hij; [done|].
  simpl in *. apply NoDup_cons in Hnd as [Hp Hnd]. apply Forall_cons in Hall as [Hp2 Hall].
  rewrite IH by done.
  assert (Hpos : forall q, q ∈ ps -> full_pos q <> full_pos p).
  { intros q Hq Heq. apply Hp. rewrite <- Heq. by apply list_elem_of_fmap_2. }
  case_bool_decide as Hin; case_bool_decide as Hin'.
  - unfold full_list_step at 1 3. destruct (srcs !! ij.1); [|by apply full_list_step_ne, Hpos].
    rewrite !list_lookup_alter. case_decide; [|done].
    f_equal. by apply full_list_step_ne, Hpos.
  - exfalso. apply Hin'. by right.
  - apply elem_of_cons in Hin' as [->|]; [done | contradiction].
  - apply full_list_step_ne. intros Heq. apply Hin', elem_of_cons. left.
    by apply full_pos_inj.
Qed.

Lemma full_pos_prod n :
  full_pos <$> list_prod (seq 0 n) (seq 0 4) = seq 0 (n * 4).
Proof.
  induction n as [|n IH]; [done|].
  rewrite seq_S, list_prod_as_flat_map, flat_map_app, <- list_prod_as_flat_map.
  rewrite fmap_app, IH. replace (S n * 4)%nat with (n * 4 + 4)%nat by lia.
  rewrite seq_app. f_equal. simpl. unfold full_pos. simpl. repeat f_equal; lia.
Qed.
End FullList.

(** ** Reading a DFS list through its pointers *)

Lemma dfs_read_field {A} (f : gpu_freq_info -> A) full l i :
  Forall (fun p => is_Some (full !! p)) l ->
  f <$> dfs_read full l i = zlookup ((fun p => f (full !!! p)) <$> l) i.
Proof.
  intros Hl. unfold dfs_read, zlookup. destruct (0 <=? i)%Z; [|done].
  rewrite list_lookup_fmap. destruct (l !! Z.to_nat i) as [p|] eqn:Hp; [|done].
  simpl. rewrite Forall_lookup in Hl. destruct (Hl _ _ Hp) as [x Hx].
  rewrite Hx. simpl. by rewrite (list_lookup_total_correct _ _ _ Hx).
Qed.

Lemma freq_search_loop_ext r1 r2 fuel low high key :
  (forall i, r1 i = r2 i) ->
  freq_search_loop r1 fuel low high key = freq_search_loop r2 fuel low high key.
Proof.
  intros Hr. revert low high. induction fuel as [|fuel IH]; intros; simpl;
    destruct (low <=? high)%Z; try done.
  rewrite Hr.
  destruct (r2 (c_div (low + high) 2)); simpl; by rewrite ?IH.
Qed.

Lemma get_next_freq_loop_ext r1 r2 fuel min_index low high mid key :
  (forall i, r1 i = r2 i) ->
  get_next_freq_loop r1 fuel min_index low high mid key =
  get_next_freq_loop r2 fuel min_index low high mid key.
Proof.
  intros Hr. revert low high mid. induction fuel as [|fuel IH]; intros; simpl; [done|].
  rewrite !Hr. destruct (low <=? high)%Z; [|done].
  destruct (r2 (c_div (low + high) 2)); simpl; [|done]. rewrite !IH.
  destruct (r2 (c_div (low + high) 2 + 1)); simpl; by rewrite ?IH.
Qed.

Lemma get_next_freq_zlookup full l min_p max_p key :
  Forall (fun p => is_Some (full !! p)) l ->
  get_next_freq full l min_p max_p key =
  get_next_freq_loop (zlookup (dfs_ups full l))
    (S (Z.to_nat (index (full !!! min_p) - index (full !!! max_p) + 1)))
    (index (full !!! min_p)) (index (full !!! max_p)) (index (full !!! min_p)) 0 key.
Proof.
  intros Hl. unfold get_next_freq. apply get_next_freq_loop_ext.
  intros i. by apply dfs_read_field.
Qed.

(** ** The properties of the searches *)

(** [freq_search] over a DFS list whose pointers are valid and whose
    frequencies decrease finds the position of the key, [-1] when it
    is absent or negative; the loop never runs out of fuel. *)
Lemma freq_search_dfs full l key :
  Forall (fun p => is_Some (full !! p)) l -> Zdesc (dfs_freqs full l) ->
  freq_search full l (Z.of_nat (length l)) key = Some (freq_search_ref (dfs_freqs full l) key).
Proof.
  intros Hl Hd. unfold freq_search, freq_search_gen.
  replace (Z.of_nat (length l)) with (Z.of_nat (length (dfs_freqs full l)))
    by (unfold dfs_freqs; by rewrite length_fmap).
  rewrite <- (freq_search_gen_correct _ key Hd). unfold freq_search_gen.
  destruct (key <? 0)%Z; [done|]. apply freq_search_loop_ext.
  intros i. by apply dfs_read_field.
Qed.

(** C8: On a DFS list with valid pointers and strictly decreasing
    frequencies, the binary search freq_search returns the position of
    the key, or -1 when the key is absent or negative, and never runs
    out of its len+1 iterations. *)
Theorem freq_search_correct full l key :
  Forall (fun p => is_Some (full !! p)) l -> Zdesc (dfs_freqs full l) ->
  freq_search full l (Z.of_nat (length l)) key = Some (freq_search_ref (dfs_freqs full l) key).
Proof. apply freq_search_dfs. Qed.

(** ** Termination of the bisection of [freq_search] *)

(** The iterations a bisection needs on [n] entries: [log2 n + 1]. *)
Definition bisect_iters (n : Z) : Z := if (n <=? 0)%Z then 0 else (Z.log2 n + 1)%Z.

Lemma bisect_iters_pos low high : (low <= high)%Z -> (1 <= bisect_iters (high - low + 1))%Z.
Proof.
  intros H. unfold bisect_iters. destruct (Z.leb_spec (high - low + 1) 0); [lia|].
  pose proof (Z.log2_nonneg (high - low + 1)). lia.
Qed.

Lemma bisect_iters_half m n :
  (0 <= m)%Z -> (1 <= n)%Z -> (2 * m <= n)%Z -> (bisect_iters m < bisect_iters n)%Z.
Proof.
  intros Hm Hn H2. unfold bisect_iters.
  destruct (Z.leb_spec m 0), (Z.leb_spec n 0); try lia.
  - pose proof (Z.log2_nonneg n). lia.
  - assert (Z.log2 (2 * m) <= Z.log2 n)%Z by (apply Z.log2_le_mono; lia).
    rewrite Z.log2_double in * by lia. lia.
Qed.

(** Both halves left by an iteration need one iteration less. *)
Lemma bisect_halves low high :
  (0 <= low <= high)%Z ->
  (bisect_iters (c_div (low + high) 2 - 1 - low + 1) < bisect_iters (high - low + 1) /\
   bisect_iters (high - (c_div (low + high) 2 + 1) + 1) < bisect_iters (high - low + 1))%Z.
Proof.
  intros H. pose proof (c_div2_between low high H). rewrite c_div_nonneg in * by lia.
  pose proof (Z.div_mod (low + high) 2 ltac:(lia)).
  pose proof (Z.mod_pos_bound (low + high) 2 ltac:(lia)).
  split; apply bisect_iters_half; lia.
Qed.

(** Two runs of the loop with at least [bisect_iters] iterations of fuel
    agree, whatever the reads answer. *)
Lemma freq_search_loop_fuel read fuel1 fuel2 low high key :
  (0 <= low)%Z -> (bisect_iters (high - low + 1) <= Z.of_nat fuel1)%Z ->
  (bisect_iters (high - low + 1) <= Z.of_nat fuel2)%Z ->
  freq_search_loop read fuel1 low high key = freq_search_loop read fuel2 low high key.
Proof.
  revert fuel2 low high. induction fuel1 as [|f1 IH]; intros [|f2] low high Hl H1 H2; simpl;
    destruct (Z.leb_spec low high) as [Hle|]; try done;
    try (pose proof (bisect_iters_pos low high); lia).
  - destruct (bisect_halves low high ltac:(lia)) as [Ha Hb].
    pose proof (c_div2_between low high ltac:(lia)).
    destruct (read _) as [f|]; simpl; [|done].
    destruct (key =? f)%Z; [done|]. destruct (key >? f)%Z; apply IH; lia.
Qed.

(** With [bisect_iters] iterations of fuel and a read that answers
    on the whole window, the loop never runs out of fuel. *)
Lemma freq_search_loop_some read fuel low high key :
  (0 <= low)%Z -> (bisect_iters (high - low + 1) <= Z.of_nat fuel)%Z ->
  (forall i, low <= i <= high -> is_Some (read i))%Z ->
  is_Some (freq_search_loop read fuel low high key).
Proof.
  revert low high. induction fuel as [|f IH]; intros low high Hl Hf Hr; simpl;
    destruct (Z.leb_spec low high) as [Hle|]; try done;
    try (pose proof (bisect_iters_pos low high); lia).
  destruct (bisect_halves low high ltac:(lia)) as [Ha Hb].
  pose proof (c_div2_between low high ltac:(lia)).
  destruct (Hr (c_div (low + high) 2) ltac:(lia)) as [v ->]; simpl.
  destruct (key =? v)%Z; [done|].
  destruct (key >? v)%Z; apply IH; intros; try apply Hr; lia.
Qed.

(** C38: Termination of freq_search: when every entry of the list can be
    read, its while loop stops with a result within log2 len + 1
    iterations whatever the order of the list and the key: the model,
    which returns None when its fuel runs out, never does, and running
    the loop with that many iterations gives the same result as with len
    + 1. *)
Theorem freq_search_gen_iterations read len key :
  (0 <= len)%Z -> (forall i, 0 <= i < len -> is_Some (read i))%Z ->
  is_Some (freq_search_gen read len key) /\
  freq_search_gen read len key =
    if (key <? 0)%Z then Some (-1)
    else freq_search_loop read (Z.to_nat (bisect_iters len)) 0 (len - 1) key.
Proof.
  intros Hlen Hr. unfold freq_search_gen. destruct (key <? 0)%Z; [done|].
  assert (0 <= bisect_iters len <= len + 1)%Z.
  { unfold bisect_iters. destruct (Z.leb_spec len 0); [lia|].
    pose proof (Z.log2_nonneg len). pose proof (Z.log2_le_lin len). lia. }
  split; [apply freq_search_loop_some; [lia | | intros; apply Hr; lia]|];
    [|apply freq_search_loop_fuel]; replace (len - 1 - 0 + 1)%Z with len by lia; lia.
Qed.

(** [get_next_freq] between [max_freq->index] and [min_freq->index]
    (within the list) reads only inside the list and returns an index
    between the two, whatever the key and the order of the list. *)
Lemma get_next_freq_in_range full l min_p max_p key :
  Forall (fun p => is_Some (full !! p)) l ->
  (0 <= index (full !!! max_p) <= index (full !!! min_p))%Z ->
  (index (full !!! min_p) < Z.of_nat (length l))%Z ->
  exists r, get_next_freq full l min_p max_p key = Some r /\
            (index (full !!! max_p) <= r <= index (full !!! min_p))%Z.
Proof.
  intros Hl Hlh Hh. rewrite get_next_freq_zlookup by done.
  apply get_next_freq_loop_bounds; [done | unfold dfs_ups; by rewrite length_fmap | lia..].
Qed.

(** For limits 0 <= max->index <= min->index < len, get_next_freq
    reads only inside the list and returns an index between the limits,
    whatever the key and the order of the list. *)
Theorem get_next_freq_bounds full l min_p max_p key :
  Forall (fun p => is_Some (full !! p)) l ->
  (0 <= index (full !!! max_p) <= index (full !!! min_p))%Z ->
  (index (full !!! min_p) < Z.of_nat (length l))%Z ->
  exists r, get_next_freq full l min_p max_p key = Some r /\
            (index (full !!! max_p) <= r <= index (full !!! min_p))%Z.
Proof. apply get_next_freq_in_range. Qed.

(** C9: On decreasing up thresholds and a key equal to none of the
    thresholds in [max->index, min->index], get_next_freq returns the
    largest index in that range whose threshold is above the key
    (max->index when there is none). *)
Theorem get_next_freq_correct full l min_p max_p key :
  Forall (fun p => is_Some (full !! p)) l -> Zdesc (dfs_ups full l) ->
  (0 <= index (full !!! max_p) <= index (full !!! min_p))%Z ->
  (index (full !!! min_p) < Z.of_nat (length l))%Z ->
  (forall i u, (index (full !!! max_p) <= i <= index (full !!! min_p))%Z ->
     zlookup (dfs_ups full l) i = Some u -> u <> key) ->
  get_next_freq full l min_p max_p key =
    Some (get_next_freq_ref (dfs_ups full l) (index (full !!! max_p)) (index (full !!! min_p)) key).
Proof.
  intros Hl Hd Hlh Hh Hneq. rewrite get_next_freq_zlookup by done.
  assert (Hlen : (index (full !!! min_p) < Z.of_nat (length (dfs_ups full l)))%Z)
    by (unfold dfs_ups; by rewrite length_fmap).
  set (lo := index (full !!! max_p)) in *. set (hi := index (full !!! min_p)) in *.
  assert (Hans : next_answer (dfs_ups full l) lo hi key
                   (get_next_freq_ref (dfs_ups full l) lo hi key))
    by (apply get_next_freq_ref_answer; done || lia).
  destruct Hans as [Hr Hans'].
  apply (get_next_freq_loop_answer (dfs_ups full l) lo hi key); try done; try lia.
Qed.

(** gpu_dfs_full_list_generate writes entry i*4+j from clock source
    i and divider j+1 (frequency freq/(j+1), threshold
    (freq*9/10)/(j+1), index i*4+j), keeps its down_threshold, and
    leaves entries past the sources untouched. *)
Theorem gpu_dfs_full_list_generate_spec srcs full i j :
  (j < 4)%nat ->
  gpu_dfs_full_list_generate srcs full !! (i * 4 + j)%nat =
    match srcs !! i with
    | Some src => full_list_entry src i j <$> full !! (i * 4 + j)%nat
    | None => full !! (i * 4 + j)%nat
    end.
Proof.
  intros Hj. unfold gpu_dfs_full_list_generate.
  change (Z.to_nat GPU_HARDWARE_MAX_DIVISION) with 4%nat.
  change (i * 4 + j)%nat with (full_pos (i, j)).
  rewrite full_list_steps_lookup.
  - case_bool_decide as Hin.
    + unfold full_list_step. simpl. destruct (srcs !! i); [|done].
      by rewrite list_lookup_alter, decide_True.
    + destruct (srcs !! i) eqn:Hs; [|done]. exfalso. apply Hin.
      apply list_elem_of_In, in_prod_iff. rewrite !in_seq.
      apply lookup_lt_Some in Hs. lia.
  - rewrite full_pos_prod. apply NoDup_seq.
  - apply Forall_forall. intros [i' j'] Hin.
    apply list_elem_of_In, in_prod_iff in Hin as [_ Hin]. apply in_seq in Hin. simpl. lia.
  - simpl. lia.
Qed.

(** ** Witnesses: the shark table *)

Definition shark_full_list : list gpu_freq_info :=
  gpu_dfs_full_list_generate (gpu_clk_src platform_shark) dfs_freq_full_list0.

Definition shark_dfs_list : list nat := static_dfs_freq_list platform_shark.

Lemma shark_dfs_valid : Forall (fun p => is_Some (shark_full_list !! p)) shark_dfs_list.
Proof. apply (bool_decide_unpack _). vm_compute. exact I. Qed.

Lemma freq_search_correct_witness :
  Zdesc (dfs_freqs shark_full_list shark_dfs_list) /\
  freq_search shark_full_list shark_dfs_list (Z.of_nat (length shark_dfs_list)) 104000 =
    Some (freq_search_ref (dfs_freqs shark_full_list shark_dfs_list) 104000).
Proof.
  assert (Hd : Zdesc (dfs_freqs shark_full_list shark_dfs_list))
    by (apply (bool_decide_unpack _); vm_compute; exact I).
  split; [exact Hd|]. apply freq_search_correct; [apply shark_dfs_valid | exact Hd].
Defined.

(** In the generated table, entry [p] carries [index = p]: entries 0
    and 4 bound a range of positions [0, 4] of the shark list. *)
Lemma get_next_freq_bounds_witness :
  (0 <= index (shark_full_list !!! 0%nat) <= index (shark_full_list !!! 4%nat)) /\
  exists r, get_next_freq shark_full_list shark_dfs_list 4 0 100000 = Some r /\
            (index (shark_full_list !!! 0%nat) <= r <= index (shark_full_list !!! 4%nat)).
Proof.
  split; [vm_compute; split; discriminate|].
  apply get_next_freq_bounds; [apply shark_dfs_valid | vm_compute; split; discriminate
                              | vm_compute; reflexivity].
Defined.

Lemma get_next_freq_correct_witness :
  Zdesc (dfs_ups shark_full_list shark_dfs_list) /\
  get_next_freq shark_full_list shark_dfs_list 4 0 100000 =
    Some (get_next_freq_ref (dfs_ups shark_full_list shark_dfs_list)
            (index (shark_full_list !!! 0%nat)) (index (shark_full_list !!! 4%nat)) 100000).
Proof.
  assert (Hd : Zdesc (dfs_ups shark_full_list shark_dfs_list))
    by (apply (bool_decide_unpack _); vm_compute; exact I).
  assert (Hne : Forall (fun u => u <> 100000) (dfs_ups shark_full_list shark_dfs_list))
    by (apply (bool_decide_unpack _); vm_compute; exact I).
  split; [exact Hd|].
  apply get_next_freq_correct; [apply shark_dfs_valid | exact Hd | vm_compute; split; discriminate
                               | vm_compute; reflexivity |].
  intros i u _ Hu. rewrite Forall_forall in Hne. by apply Hne, (zlookup_elem _ i).
Defined.

Lemma gpu_dfs_full_list_generate_spec_witness :
  gpu_dfs_full_list_generate (gpu_clk_src platform_shark) dfs_freq_full_list0 !! (1 * 4 + 2)%nat =
    full_list_entry (gpu_clk_src platform_shark !!! 1%nat) 1 2 <$>
      dfs_freq_full_list0 !! (1 * 4 + 2)%nat.
Proof.
  rewrite (gpu_dfs_full_list_generate_spec _ _ 1 2); [reflexivity | lia].
Defined.

Lemma freq_search_gen_iterations_witness :
  (forall i, 0 <= i < 5 -> is_Some (freq <$> dfs_read shark_full_list shark_dfs_list i))%Z /\
  is_Some (freq_search_gen (fun i => freq <$> dfs_read shark_full_list shark_dfs_list i) 5 208000) /\
  freq_search_gen (fun i => freq <$> dfs_read shark_full_list shark_dfs_list i) 5 208000 =
    freq_search_loop (fun i => freq <$> dfs_read shark_full_list shark_dfs_list i)
      (Z.to_nat (bisect_iters 5)) 0 4 208000.
Proof.
  assert (Hr : forall i, (0 <= i < 5)%Z ->
            is_Some (freq <$> dfs_read shark_full_list shark_dfs_list i)).
  { intros i Hi. assert (i = 0 \/ i = 1 \/ i = 2 \/ i = 3 \/ i = 4)%Z as Hc by lia.
    destruct Hc as [->|[->|[->|[->| ->]]]]; vm_compute; eexists; reflexivity. }
  split; [exact Hr|]. apply (freq_search_gen_iterations _ 5 208000); [lia | exact Hr].
Defined.

End Mali.
