(* ===== verification/MaliDfs.v ===== *)
(** * Mali DFS: the driver context, the governor and the power states

    Models the stateful part of
    [src/drivers/gpu/mali/platform/sc8830/mali_platform.c] in the
    configuration without [CONFIG_OF]: [struct gpu_dfs_context] and the
    globals it works with, [gpu_dfs_context_init],
    [mali_power_initialize], [mali_platform_utilization] (the governor,
    with [SPRD_DFS_ONE_STEP_SCALE_DOWN] and
    [SPRD_MATCH_DFS_TO_LOWER_FREQ] undefined, so 0),
    [gpu_change_freq_div] (the work item) and
    [mali_platform_power_mode_change].

    The clock framework and the power-domain registers are a record
    [gpu_hw] of what the driver writes: the parent and the divider of
    [clk_gpu], the FORCE_SHUTDOWN bit, and the enable counts of
    [clk_gpu], [clk_gpu_i] and the clock sources.  Each operation is a
    function on [mali_state]; the fallible ones (array reads) return
    [option].  The interleavings are the step relations [mali_step]
    (the work item split at [down(sem)], as in the code) and
    [mali_step_atomic] (the work item as one step). *)

From S2P Require Import Prelude MaliSearch.

Module MaliDfs.
Import Mali.

Local Open Scope Z_scope.

(** ** State *)

(** [struct gpu_dfs_context]: the [struct gpu_freq_info *] fields are
    indices into [dfs_freq_full_list]; [gpu_dfs_workqueue] records
    whether the workqueue exists. *)
Record gpu_dfs_context := mk_ctx {
  cur_freq_p : nat;
  next_freq_p : nat;
  cur_load : Z;
  freq_list_len : Z;
  gpu_clock_on : bool;
  gpu_power_on : bool;
  gpu_suspended : bool;
  dfs_min_freq_p : nat;
  dfs_max_freq_p : nat;
  default_min_freq_p : nat;
  default_max_freq_p : nat;
  gpu_max_freq_p : nat;
  gpu_min_freq_p : nat;
  dfs_freq_list : list nat;
  gpu_dfs_workqueue : bool
}.

(** What the driver has written to the hardware. *)
Record gpu_hw := mk_hw {
  clk_gpu_parent : option nat;   (** [clk_set_parent(gpu_clock, .)] *)
  clk_gpu_div : Z;               (** field [BITS_CLK_GPU_DIV] of [REG_GPU_APB_APB_CLK_CTRL] *)
  force_shutdown : bool;         (** [BIT_PD_GPU_TOP_FORCE_SHUTDOWN] *)
  clk_gpu_cnt : Z;               (** enable count of [gpu_clock] *)
  clk_gpu_i_cnt : Z;             (** enable count of [gpu_clock_i] *)
  clk_src_cnt : Z                (** enable count of each clock source *)
}.

(** The driver's state: the static array, the context, the hardware,
    the globals [gpu_cur_freq], [gpu_last_set_freq], [gpu_level],
    [gpufreq_min_limit], [gpufreq_max_limit], and whether
    [gpu_dfs_work] is queued. *)
Record mali_state := mk_state {
  full_list : list gpu_freq_info;
  ctx : gpu_dfs_context;
  hw : gpu_hw;
  gpu_cur_freq : Z;
  gpu_last_set_freq : Z;
  gpu_level : Z;
  gpufreq_min_limit : Z;
  gpufreq_max_limit : Z;
  work_pending : bool
}.

(** The build configuration: the variant and the two Kconfig values
    [DFS_MAX_FREQ] and [DFS_MIN_FREQ]; [default_clksrc] is the index
    in [gpu_clk_src] of the 256MHz source that power-on selects first
    under [CONFIG_COMMON_CLK]. *)
Record mali_config := mk_config {
  platform : gpu_platform;
  DFS_MAX_FREQ : Z;
  DFS_MIN_FREQ : Z;
  default_clksrc : nat
}.

(** ** Field updates *)

Definition upd_ctx (f : gpu_dfs_context -> gpu_dfs_context) (st : mali_state) : mali_state :=
  mk_state (full_list st) (f (ctx st)) (hw st) (gpu_cur_freq st) (gpu_last_set_freq st)
    (gpu_level st) (gpufreq_min_limit st) (gpufreq_max_limit st) (work_pending st).

Definition upd_hw (f : gpu_hw -> gpu_hw) (st : mali_state) : mali_state :=
  mk_state (full_list st) (ctx st) (f (hw st)) (gpu_cur_freq st) (gpu_last_set_freq st)
    (gpu_level st) (gpufreq_min_limit st) (gpufreq_max_limit st) (work_pending st).

(** [gpu_last_set_freq = gpu_cur_freq; gpu_cur_freq = f;] *)
Definition set_cur_freq (f : Z) (st : mali_state) : mali_state :=
  mk_state (full_list st) (ctx st) (hw st) f (gpu_cur_freq st)
    (gpu_level st) (gpufreq_min_limit st) (gpufreq_max_limit st) (work_pending st).

(** [gpu_cur_freq = f;] alone. *)
Definition put_cur_freq (f : Z) (st : mali_state) : mali_state :=
  mk_state (full_list st) (ctx st) (hw st) f (gpu_last_set_freq st)
    (gpu_level st) (gpufreq_min_limit st) (gpufreq_max_limit st) (work_pending st).

Definition set_level (lvl : Z) (st : mali_state) : mali_state :=
  mk_state (full_list st) (ctx st) (hw st) (gpu_cur_freq st) (gpu_last_set_freq st)
    lvl (gpufreq_min_limit st) (gpufreq_max_limit st) (work_pending st).

Definition set_pending (b : bool) (st : mali_state) : mali_state :=
  mk_state (full_list st) (ctx st) (hw st) (gpu_cur_freq st) (gpu_last_set_freq st)
    (gpu_level st) (gpufreq_min_limit st) (gpufreq_max_limit st) b.

Definition set_full (full : list gpu_freq_info) (st : mali_state) : mali_state :=
  mk_state full (ctx st) (hw st) (gpu_cur_freq st) (gpu_last_set_freq st)
    (gpu_level st) (gpufreq_min_limit st) (gpufreq_max_limit st) (work_pending st).

Definition ctx_cur (p : nat) (c : gpu_dfs_context) : gpu_dfs_context :=
  mk_ctx p (next_freq_p c) (cur_load c) (freq_list_len c) (gpu_clock_on c) (gpu_power_on c)
    (gpu_suspended c) (dfs_min_freq_p c) (dfs_max_freq_p c) (default_min_freq_p c)
    (default_max_freq_p c) (gpu_max_freq_p c) (gpu_min_freq_p c) (dfs_freq_list c)
    (gpu_dfs_workqueue c).

Definition ctx_next (p : nat) (c : gpu_dfs_context) : gpu_dfs_context :=
  mk_ctx (cur_freq_p c) p (cur_load c) (freq_list_len c) (gpu_clock_on c) (gpu_power_on c)
    (gpu_suspended c) (dfs_min_freq_p c) (dfs_max_freq_p c) (default_min_freq_p c)
    (default_max_freq_p c) (gpu_max_freq_p c) (gpu_min_freq_p c) (dfs_freq_list c)
    (gpu_dfs_workqueue c).

Definition ctx_load (load : Z) (c : gpu_dfs_context) : gpu_dfs_context :=
  mk_ctx (cur_freq_p c) (next_freq_p c) load (freq_list_len c) (gpu_clock_on c) (gpu_power_on c)
    (gpu_suspended c) (dfs_min_freq_p c) (dfs_max_freq_p c) (default_min_freq_p c)
    (default_max_freq_p c) (gpu_max_freq_p c) (gpu_min_freq_p c) (dfs_freq_list c)
    (gpu_dfs_workqueue c).

(** [dfs_max_freq_p] and [dfs_min_freq_p]. *)
Definition ctx_limits (pmax pmin : nat) (c : gpu_dfs_context) : gpu_dfs_context :=
  mk_ctx (cur_freq_p c) (next_freq_p c) (cur_load c) (freq_list_len c) (gpu_clock_on c)
    (gpu_power_on c) (gpu_suspended c) pmin pmax (default_min_freq_p c)
    (default_max_freq_p c) (gpu_max_freq_p c) (gpu_min_freq_p c) (dfs_freq_list c)
    (gpu_dfs_workqueue c).

(** [gpu_clock_on], [gpu_power_on], [gpu_suspended]. *)
Definition ctx_flags (clock power susp : bool) (c : gpu_dfs_context) : gpu_dfs_context :=
  mk_ctx (cur_freq_p c) (next_freq_p c) (cur_load c) (freq_list_len c) clock power susp
    (dfs_min_freq_p c) (dfs_max_freq_p c) (default_min_freq_p c)
    (default_max_freq_p c) (gpu_max_freq_p c) (gpu_min_freq_p c) (dfs_freq_list c)
    (gpu_dfs_workqueue c).

Definition ctx_workqueue (c : gpu_dfs_context) : gpu_dfs_context :=
  mk_ctx (cur_freq_p c) (next_freq_p c) (cur_load c) (freq_list_len c) (gpu_clock_on c)
    (gpu_power_on c) (gpu_suspended c) (dfs_min_freq_p c) (dfs_max_freq_p c)
    (default_min_freq_p c) (default_max_freq_p c) (gpu_max_freq_p c) (gpu_min_freq_p c)
    (dfs_freq_list c) true.

Definition hw_parent (src : option nat) (h : gpu_hw) : gpu_hw :=
  mk_hw src (clk_gpu_div h) (force_shutdown h) (clk_gpu_cnt h) (clk_gpu_i_cnt h) (clk_src_cnt h).

(** [mali_set_div(clock_div)]: [sci_glb_write] of [clock_div - 1]
    into the two-bit field [BITS_CLK_GPU_DIV(3)] (the field value is
    kept, its shift in the register is not). *)
Definition mali_set_div (clock_div : Z) (h : gpu_hw) : gpu_hw :=
  mk_hw (clk_gpu_parent h) ((clock_div - 1) .& 3) (force_shutdown h) (clk_gpu_cnt h)
    (clk_gpu_i_cnt h) (clk_src_cnt h).

Definition hw_shutdown (b : bool) (h : gpu_hw) : gpu_hw :=
  mk_hw (clk_gpu_parent h) (clk_gpu_div h) b (clk_gpu_cnt h) (clk_gpu_i_cnt h) (clk_src_cnt h).

(** [clk_prepare_enable] ([+1]) and [clk_disable_unprepare] ([-1]) of
    [gpu_clock], [gpu_clock_i] and every clock source. *)
Definition hw_clk (dg di ds : Z) (h : gpu_hw) : gpu_hw :=
  mk_hw (clk_gpu_parent h) (clk_gpu_div h) (force_shutdown h) (clk_gpu_cnt h + dg)
    (clk_gpu_i_cnt h + di) (clk_src_cnt h + ds).

(** The entry a pointer designates ([p->...]). *)
Definition deref (st : mali_state) (p : nat) : gpu_freq_info := full_list st !!! p.

(** ** [gpu_dfs_context_init] *)

(** The loop [dfs_freq_list[i]->index = i] for [i < freq_list_len]:
    writes through the pointers into the shared array. *)
Definition set_index (i : Z) (e : gpu_freq_info) : gpu_freq_info :=
  mk_freq_info i (freq e) (freq_select e) (div_select e) (up_threshold e)
    (down_threshold e) (clk_src e).

Definition set_dfs_indices (l : list nat) (len : Z) (full : list gpu_freq_info)
    : list gpu_freq_info :=
  foldl (fun full i => match l !! i with
                       | Some p => alter (set_index (Z.of_nat i)) p full
                       | None => full
                       end) full (seq 0 (Z.to_nat len)).

(** [i < 0 ? dfs_freq_list[dflt] : dfs_freq_list[i]] after a search. *)
Definition pick (l : list nat) (i dflt : Z) : option nat :=
  zlookup l (if i <? 0 then dflt else i).

Definition gpu_dfs_context_init (cfg : mali_config) (st : mali_state) : option mali_state :=
  let plat := platform cfg in
  let c := ctx st in
  let l := dfs_freq_list c in
  let len := freq_list_len c in
  let full := set_dfs_indices l len
                (gpu_dfs_full_list_generate (gpu_clk_src plat) (full_list st)) in
  imax ← freq_search full l len (DFS_MAX_FREQ cfg);
  pmax ← pick l imax 0;
  imin ← freq_search full l len (DFS_MIN_FREQ cfg);
  pmin ← pick l imin (DFS_FREQ_NUM plat - 1);
  igmax ← freq_search full l len (GPU_MAX_FREQ plat);
  pgmax ← pick l igmax 0;
  igmin ← freq_search full l len (GPU_MIN_FREQ plat);
  pgmin ← pick l igmin (DFS_FREQ_NUM plat - 1);
  Some (set_full full (upd_ctx (fun c =>
    mk_ctx pmax pmax (cur_load c) (freq_list_len c) (gpu_clock_on c) (gpu_power_on c)
      (gpu_suspended c) pmin pmax pmin pmax pgmax pgmin (dfs_freq_list c)
      (gpu_dfs_workqueue c)) st)).

(** ** Power-on sequences *)

(** The block [if (!gpu_dfs_ctx.gpu_power_on) { ... }] of
    [mali_power_initialize]: the parent and the divider of
    [dfs_max_freq_p]. *)
Definition power_on_init (st : mali_state) : mali_state :=
  let c := ctx st in
  let pmax := deref st (dfs_max_freq_p c) in
  let st := upd_ctx (ctx_flags (gpu_clock_on c) true (gpu_suspended c)) st in
  let st := set_cur_freq (freq (deref st (cur_freq_p c))) st in
  let st := upd_hw (hw_shutdown false) st in
  let st := upd_ctx (fun c => ctx_flags true (gpu_power_on c) (gpu_suspended c) c) st in
  let st := upd_hw (hw_clk 0 1 0) st in
  let st := upd_hw (hw_parent (clk_src pmax)) st in
  let st := upd_hw (mali_set_div (div_select pmax)) st in
  upd_hw (hw_clk 1 0 0) st.

(** The block [if (!gpu_dfs_ctx.gpu_clock_on) { ... }] of
    [mali_power_initialize]. *)
Definition clock_on_init (st : mali_state) : mali_state :=
  let st := upd_ctx (fun c => ctx_flags true (gpu_power_on c) (gpu_suspended c) c) st in
  upd_hw (hw_clk 1 1 0) st.

(** [mali_power_initialize] without [CONFIG_OF]: [clk_get] of the
    clocks (the handles [with_clocks] names), enable of the sources,
    [gpu_dfs_context_init], [gpu_suspended = 0], the power-on and
    clock-on blocks, the workqueue. *)
Definition mali_power_initialize (cfg : mali_config) (st : mali_state) : option mali_state :=
  let st := upd_hw (hw_clk 0 0 1) st in
  st ← gpu_dfs_context_init cfg st;
  let st := upd_ctx (fun c => ctx_flags (gpu_clock_on c) (gpu_power_on c) false c) st in
  let st := if gpu_power_on (ctx st) then st else power_on_init st in
  let st := if gpu_clock_on (ctx st) then st else clock_on_init st in
  Some (if gpu_dfs_workqueue (ctx st) then st else upd_ctx ctx_workqueue st).

(** ** [mali_platform_power_mode_change] *)

(** [MALI_POWER_MODE_ON] (case 0). *)
Definition power_mode_on (cfg : mali_config) (st : mali_state) : mali_state :=
  let st := if gpu_suspended (ctx st)
            then upd_hw (hw_clk 0 0 1)
                   (upd_ctx (fun c => ctx_flags (gpu_clock_on c) (gpu_power_on c) false c) st)
            else st in
  let st := if gpu_power_on (ctx st) then st else
      let st := upd_ctx (fun c => ctx_cur (dfs_max_freq_p c)
                                    (ctx_flags true true (gpu_suspended c) c)) st in
      let pmax := deref st (dfs_max_freq_p (ctx st)) in
      let st := set_cur_freq (freq (deref st (cur_freq_p (ctx st)))) st in
      let st := upd_hw (hw_shutdown false) st in
      let st := upd_hw (hw_clk 0 1 0) st in
      let st := upd_hw (hw_parent (src_clk (gpu_clk_src (platform cfg) !!! default_clksrc cfg))) st in
      let st := upd_hw (hw_parent (clk_src pmax)) st in
      let st := upd_hw (mali_set_div (div_select pmax)) st in
      upd_hw (hw_clk 1 0 0) st in
  if gpu_clock_on (ctx st) then st else
    let st := upd_ctx (fun c => ctx_flags true (gpu_power_on c) (gpu_suspended c) c) st in
    let st := put_cur_freq (freq (deref st (cur_freq_p (ctx st)))) st in
    upd_hw (hw_clk 1 1 0) st.

(** [MALI_POWER_MODE_LIGHT_SLEEP] and [MALI_POWER_MODE_DEEP_SLEEP]
    (cases 1 and 2, the same code). *)
Definition power_mode_sleep (st : mali_state) : mali_state :=
  let st := if gpu_clock_on (ctx st)
            then upd_hw (hw_clk (-1) (-1) 0)
                   (upd_ctx (fun c => ctx_flags false (gpu_power_on c) (gpu_suspended c) c) st)
            else st in
  let st := if gpu_power_on (ctx st)
            then upd_hw (hw_shutdown true)
                   (upd_ctx (fun c => ctx_flags (gpu_clock_on c) false (gpu_suspended c) c) st)
            else st in
  let st := if gpu_suspended (ctx st) then st
            else upd_hw (hw_clk 0 0 (-1))
                   (upd_ctx (fun c => ctx_flags (gpu_clock_on c) (gpu_power_on c) true c) st) in
  if force_shutdown (hw st) then put_cur_freq 0 st else st.

Definition mali_platform_power_mode_change (cfg : mali_config) (power_mode : Z)
    (st : mali_state) : mali_state :=
  if power_mode =? 0 then power_mode_on cfg st
  else if (power_mode =? 1) || (power_mode =? 2) then power_mode_sleep st
  else st.

(** ** [gpu_change_freq_div] *)

(** The part under [down(gpu_dfs_ctx.sem)], given the two pointers the
    function read before taking the semaphore. *)
Definition gpu_change_freq_div_locked (cur_p next_p : nat) (st : mali_state) : mali_state :=
  if negb (gpu_power_on (ctx st)) || negb (gpu_clock_on (ctx st)) then st else
  let cur := deref st cur_p in
  let next := deref st next_p in
  let change_clksrc := negb (freq_select next =? freq_select cur) in
  let st := if change_clksrc then upd_hw (hw_parent (clk_src next)) (upd_hw (hw_clk (-1) 0 0) st)
            else st in
  let st := if negb (div_select next =? div_select cur)
            then upd_hw (mali_set_div (div_select next)) st else st in
  let st := upd_ctx (ctx_cur next_p) st in
  let st := set_cur_freq (freq (deref st (cur_freq_p (ctx st)))) st in
  if change_clksrc then upd_hw (hw_clk 1 0 0) st else st.

Definition gpu_change_freq_div (st : mali_state) : mali_state :=
  gpu_change_freq_div_locked (cur_freq_p (ctx st)) (next_freq_p (ctx st)) st.

(** ** [mali_platform_utilization] *)

(** [x < 0 ? dflt : dfs_freq_list[x]] for the result of a search. *)
Definition pin_limit (l : list nat) (x : Z) (dflt : nat) : option nat :=
  if x <? 0 then Some dflt else zlookup l x.

(** The switch on [gpu_level]: cases 10, 9, 7 and 5 pin both limits to
    [gpufreq_max_limit] (or to their own default) and set [gpu_level]
    to 1; the other levels apply both sysfs limits. *)
Definition utilization_limits (cfg : mali_config) (st : mali_state) : option mali_state :=
  let c := ctx st in
  let l := dfs_freq_list c in
  let search key := freq_search (full_list st) l (freq_list_len c) key in
  let pin_both dflt :=
    mx ← search (gpufreq_max_limit st);
    p ← (if mx <? 0 then dflt else zlookup l mx);
    Some (set_level 1 (upd_ctx (ctx_limits p p) st)) in
  if gpu_level st =? 10 then pin_both (Some (gpu_max_freq_p c))
  else if gpu_level st =? 9 then pin_both (Some (default_max_freq_p c))
  else if gpu_level st =? 7 then pin_both (zlookup l (GPU_150M_FREQ_INDEX (platform cfg)))
  else if gpu_level st =? 5 then pin_both (Some (gpu_min_freq_p c))
  else
    mx ← search (gpufreq_max_limit st);
    mn ← search (gpufreq_min_limit st);
    pmax ← pin_limit l mx (default_max_freq_p c);
    pmin ← pin_limit l mn (default_min_freq_p c);
    Some (upd_ctx (ctx_limits pmax pmin) st).

(** [gpu_dfs_ctx.cur_freq_p->freq * gpu_dfs_ctx.cur_load / 256]. *)
Definition target_freq (st : mali_state) : Z :=
  c_div (freq (deref st (cur_freq_p (ctx st))) * cur_load (ctx st)) 256.

(** The correction of inverted limits: [SPRD_MATCH_DFS_TO_LOWER_FREQ]
    is 0, so the maximum moves down to the minimum. *)
Definition limits_inversion (st : mali_state) : mali_state :=
  let c := ctx st in
  if freq (deref st (dfs_min_freq_p c)) >? freq (deref st (dfs_max_freq_p c))
  then upd_ctx (ctx_limits (dfs_min_freq_p c) (dfs_min_freq_p c)) st else st.

(** [next_freq_index]: the maximum at a load of at least
    [256 * UP_THRESHOLD], else [get_next_freq] of the target. *)
Definition next_freq_index (st : mali_state) : option Z :=
  let c := ctx st in
  if cur_load c >=? LOAD_UP_THRESHOLD then Some (index (deref st (dfs_max_freq_p c)))
  else get_next_freq (full_list st) (dfs_freq_list c) (dfs_min_freq_p c)
         (dfs_max_freq_p c) (target_freq st).

(** [queue_work] when the next frequency differs from the current one
    ([!GPU_GLITCH_FREE_DFS]). *)
Definition queue_dfs_work (st : mali_state) : mali_state :=
  if negb (freq (deref st (next_freq_p (ctx st))) =? freq (deref st (cur_freq_p (ctx st))))
     && gpu_dfs_workqueue (ctx st)
  then set_pending true st else st.

Definition mali_platform_utilization (cfg : mali_config) (utilization_gpu : Z)
    (st : mali_state) : option mali_state :=
  st ← utilization_limits cfg (upd_ctx (ctx_load utilization_gpu) st);
  let st := limits_inversion st in
  i ← next_freq_index st;
  next_p ← zlookup (dfs_freq_list (ctx st)) i;
  Some (queue_dfs_work (upd_ctx (ctx_next next_p) st)).

(** ** Boot *)

(** The static initialisers: [dfs_freq_full_list] zeroed,
    [gpu_dfs_ctx] with its list and length, the NULL pointers as 0
    (nothing reads them before [gpu_dfs_context_init]), the power domain
    shut down, [gpufreq_min_limit = gpufreq_max_limit = -1]. *)
Definition mali_static_state (cfg : mali_config) : mali_state :=
  let plat := platform cfg in
  mk_state dfs_freq_full_list0
    (mk_ctx 0 0 0 (DFS_FREQ_NUM plat) false false false 0 0 0 0 0 0
       (static_dfs_freq_list plat) false)
    (mk_hw None 0 true 0 0 0) 0 0 0 (-1) (-1) false.

(** [mali_platform_device_register] when [platform_device_register]
    succeeds. *)
Definition mali_boot (cfg : mali_config) : option mali_state :=
  mali_power_initialize cfg (mali_static_state cfg).

(** ** Interleavings *)

(** The work item between its two reads of the pointers and
    [down(gpu_dfs_ctx.sem)]. *)
Inductive worker :=
  | worker_idle
  | worker_snapshot (cur next : nat).

Record mali_sys := mk_sys { sys_state : mali_state; sys_worker : worker }.

(** The driver's events: the utilization callback (not under the
    semaphore) with a load in [[0, 256]] as the Mali core computes it,
    a power-mode change, and the work item in two steps. *)
Inductive mali_step (cfg : mali_config) : mali_sys -> mali_sys -> Prop :=
  | step_utilization st w load st' :
      0 <= load <= 256 -> mali_platform_utilization cfg load st = Some st' ->
      mali_step cfg (mk_sys st w) (mk_sys st' w)
  | step_power_mode st w mode :
      mali_step cfg (mk_sys st w) (mk_sys (mali_platform_power_mode_change cfg mode st) w)
  | step_work_begin st :
      work_pending st = true ->
      mali_step cfg (mk_sys st worker_idle)
        (mk_sys (set_pending false st)
           (worker_snapshot (cur_freq_p (ctx st)) (next_freq_p (ctx st))))
  | step_work_end st cur next :
      mali_step cfg (mk_sys st (worker_snapshot cur next))
        (mk_sys (gpu_change_freq_div_locked cur next st) worker_idle).

(** The same events with the work item taken as one step. *)
Inductive mali_step_atomic (cfg : mali_config) : mali_state -> mali_state -> Prop :=
  | astep_utilization st load st' :
      0 <= load <= 256 -> mali_platform_utilization cfg load st = Some st' ->
      mali_step_atomic cfg st st'
  | astep_power_mode st mode :
      mali_step_atomic cfg st (mali_platform_power_mode_change cfg mode st)
  | astep_work st :
      work_pending st = true ->
      mali_step_atomic cfg st (gpu_change_freq_div (set_pending false st)).

(** Configurations of the three variants.  [DFS_MAX_FREQ] and
    [DFS_MIN_FREQ] come from the build configuration, outside the
    tree; these take the variant's [GPU_MAX_FREQ] and [GPU_MIN_FREQ]. *)
Definition config_shark : mali_config := mk_config platform_shark 312000 64000 1.
Definition config_tshark : mali_config := mk_config platform_tshark 460800 64000 3.
Definition config_sharkl : mali_config := mk_config platform_sharkl 512000 64000 3.

(** ** The invariant of the driver after boot *)

Definition dfs_ptrs (c : gpu_dfs_context) : list nat :=
  [cur_freq_p c; next_freq_p c; dfs_min_freq_p c; dfs_max_freq_p c;
   default_min_freq_p c; default_max_freq_p c; gpu_max_freq_p c; gpu_min_freq_p c].

(** [2^31 / 256]: a frequency at most this times a load at most 256
    fits in an [int]. *)
Definition FREQ_BOUND : Z := 8388607.

Record mali_inv (cfg : mali_config) (st : mali_state) : Prop := {
  (* the DFS list and the table it points into *)
  inv_len : freq_list_len (ctx st) = Z.of_nat (length (dfs_freq_list (ctx st)));
  inv_valid : Forall (fun p => is_Some (full_list st !! p)) (dfs_freq_list (ctx st));
  inv_index : (fun p => index (deref st p)) <$> dfs_freq_list (ctx st) =
              Z.of_nat <$> seq 0 (length (dfs_freq_list (ctx st)));
  inv_freq_desc : Zdesc (dfs_freqs (full_list st) (dfs_freq_list (ctx st)));
  inv_up_desc : Zdesc (dfs_ups (full_list st) (dfs_freq_list (ctx st)));
  inv_freq_range : Forall (fun p => 0 <= freq (deref st p) <= FREQ_BOUND) (dfs_freq_list (ctx st));
  inv_src : Forall (fun p => Forall (fun q =>
              freq_select (deref st p) = freq_select (deref st q) ->
              clk_src (deref st p) = clk_src (deref st q)) (dfs_freq_list (ctx st)))
              (dfs_freq_list (ctx st));
  inv_150m : is_Some (zlookup (dfs_freq_list (ctx st)) (GPU_150M_FREQ_INDEX (platform cfg)));
  (* every pointer of the context points into the DFS list *)
  inv_ptrs : Forall (fun p => p ∈ dfs_freq_list (ctx st)) (dfs_ptrs (ctx st));
  (* the flags agree, and with the hardware *)
  inv_clock : gpu_clock_on (ctx st) = gpu_power_on (ctx st);
  inv_susp : gpu_suspended (ctx st) = negb (gpu_power_on (ctx st));
  inv_shutdown : force_shutdown (hw st) = negb (gpu_power_on (ctx st));
  inv_cnt_gpu : clk_gpu_cnt (hw st) = if gpu_power_on (ctx st) then 1 else 0;
  inv_cnt_gpu_i : clk_gpu_i_cnt (hw st) = if gpu_power_on (ctx st) then 1 else 0;
  inv_cnt_src : clk_src_cnt (hw st) = if gpu_power_on (ctx st) then 1 else 0;
  (* the clock runs at what the driver believes *)
  inv_hw : gpu_power_on (ctx st) = true ->
           clk_gpu_parent (hw st) = clk_src (deref st (cur_freq_p (ctx st))) /\
           clk_gpu_div (hw st) = (div_select (deref st (cur_freq_p (ctx st))) - 1) .& 3;
  inv_cur_freq : gpu_cur_freq st =
                 if gpu_power_on (ctx st) then freq (deref st (cur_freq_p (ctx st))) else 0;
  inv_wq : gpu_dfs_workqueue (ctx st) = true
}.

(** The invariant is decidable, so that it is checked on the boot
    state of each variant by evaluation. *)
#[export] Instance mali_inv_dec cfg st : Decision (mali_inv cfg st).
Proof.
  refine (cast_if (decide (
    freq_list_len (ctx st) = Z.of_nat (length (dfs_freq_list (ctx st))) /\
    Forall (fun p => is_Some (full_list st !! p)) (dfs_freq_list (ctx st)) /\
    (fun p => index (deref st p)) <$> dfs_freq_list (ctx st) =
      Z.of_nat <$> seq 0 (length (dfs_freq_list (ctx st))) /\
    Zdesc (dfs_freqs (full_list st) (dfs_freq_list (ctx st))) /\
    Zdesc (dfs_ups (full_list st) (dfs_freq_list (ctx st))) /\
    Forall (fun p => 0 <= freq (deref st p) <= FREQ_BOUND) (dfs_freq_list (ctx st)) /\
    Forall (fun p => Forall (fun q =>
      freq_select (deref st p) = freq_select (deref st q) ->
      clk_src (deref st p) = clk_src (deref st q)) (dfs_freq_list (ctx st)))
      (dfs_freq_list (ctx st)) /\
    is_Some (zlookup (dfs_freq_list (ctx st)) (GPU_150M_FREQ_INDEX (platform cfg))) /\
    Forall (fun p => p ∈ dfs_freq_list (ctx st)) (dfs_ptrs (ctx st)) /\
    gpu_clock_on (ctx st) = gpu_power_on (ctx st) /\
    gpu_suspended (ctx st) = negb (gpu_power_on (ctx st)) /\
    force_shutdown (hw st) = negb (gpu_power_on (ctx st)) /\
    clk_gpu_cnt (hw st) = (if gpu_power_on (ctx st) then 1 else 0) /\
    clk_gpu_i_cnt (hw st) = (if gpu_power_on (ctx st) then 1 else 0) /\
    clk_src_cnt (hw st) = (if gpu_power_on (ctx st) then 1 else 0) /\
    (gpu_power_on (ctx st) = true ->
      clk_gpu_parent (hw st) = clk_src (deref st (cur_freq_p (ctx st))) /\
      clk_gpu_div (hw st) = (div_select (deref st (cur_freq_p (ctx st))) - 1) .& 3) /\
    gpu_cur_freq st =
      (if gpu_power_on (ctx st) then freq (deref st (cur_freq_p (ctx st))) else 0) /\
    gpu_dfs_workqueue (ctx st) = true)));
  [ by destruct_and!; constructor
  | intro Hi; destruct Hi; match goal with Hn : ¬ _ |- _ => apply Hn end;
    by repeat apply conj ].
Defined.

(** ** Preservation of the invariant *)


(** What the governor leaves alone: everything but the load, the
    limits, [next_freq_p], [gpu_level] and the pending work. *)
Record governor_frame (st st' : mali_state) : Prop := {
  gf_full : full_list st' = full_list st;
  gf_hw : hw st' = hw st;
  gf_cur_freq : gpu_cur_freq st' = gpu_cur_freq st;
  gf_cur : cur_freq_p (ctx st') = cur_freq_p (ctx st);
  gf_len : freq_list_len (ctx st') = freq_list_len (ctx st);
  gf_list : dfs_freq_list (ctx st') = dfs_freq_list (ctx st);
  gf_clock : gpu_clock_on (ctx st') = gpu_clock_on (ctx st);
  gf_power : gpu_power_on (ctx st') = gpu_power_on (ctx st);
  gf_susp : gpu_suspended (ctx st') = gpu_suspended (ctx st);
  gf_defaults : [default_min_freq_p (ctx st'); default_max_freq_p (ctx st');
                 gpu_max_freq_p (ctx st'); gpu_min_freq_p (ctx st')] =
                [default_min_freq_p (ctx st); default_max_freq_p (ctx st);
                 gpu_max_freq_p (ctx st); gpu_min_freq_p (ctx st)];
  gf_wq : gpu_dfs_workqueue (ctx st') = gpu_dfs_workqueue (ctx st)
}.

Lemma governor_frame_refl st : governor_frame st st.
Proof. by constructor. Qed.

Lemma governor_frame_trans st1 st2 st3 :
  governor_frame st1 st2 -> governor_frame st2 st3 -> governor_frame st1 st3.
Proof. intros [] []. constructor; congruence. Qed.

#[export] Hint Resolve governor_frame_refl : kmodel.

Lemma mali_inv_frame cfg st st' :
  mali_inv cfg st -> governor_frame st st' ->
  next_freq_p (ctx st') ∈ dfs_freq_list (ctx st) ->
  dfs_min_freq_p (ctx st') ∈ dfs_freq_list (ctx st) ->
  dfs_max_freq_p (ctx st') ∈ dfs_freq_list (ctx st) ->
  mali_inv cfg st'.
Proof.
  intros Hinv [Hfull Hhw Hcf Hcur Hlen Hlist Hclk Hpow Hsusp Hdef Hwq] Hn Hmin Hmax.
  injection Hdef as Hd1 Hd2 Hd3 Hd4.
  pose proof (inv_ptrs _ _ Hinv) as Hp. unfold dfs_ptrs in Hp.
  rewrite !Forall_cons in Hp. destruct_and! Hp.
  destruct Hinv. constructor; unfold deref, dfs_ptrs;
    rewrite ?Hfull, ?Hhw, ?Hcf, ?Hcur, ?Hlen, ?Hlist, ?Hclk, ?Hpow, ?Hsusp, ?Hwq,
      ?Hd1, ?Hd2, ?Hd3, ?Hd4; try done.
  rewrite !Forall_cons. naive_solver.
Qed.

(** Split the [≫=] chains of an equation [... = Some _]. *)
Ltac inv_bind :=
  repeat match goal with
  | H : mbind _ _ = Some _ |- _ => apply bind_Some in H as (? & ? & H)
  | H : Some _ = Some _ |- _ => injection H as H
  end.

Lemma mali_inv_ptrs cfg st :
  mali_inv cfg st ->
  cur_freq_p (ctx st) ∈ dfs_freq_list (ctx st) /\ next_freq_p (ctx st) ∈ dfs_freq_list (ctx st) /\
  dfs_min_freq_p (ctx st) ∈ dfs_freq_list (ctx st) /\ dfs_max_freq_p (ctx st) ∈ dfs_freq_list (ctx st) /\
  default_min_freq_p (ctx st) ∈ dfs_freq_list (ctx st) /\
  default_max_freq_p (ctx st) ∈ dfs_freq_list (ctx st) /\
  gpu_max_freq_p (ctx st) ∈ dfs_freq_list (ctx st) /\ gpu_min_freq_p (ctx st) ∈ dfs_freq_list (ctx st).
Proof. intros Hinv. pose proof (inv_ptrs _ _ Hinv) as Hp. unfold dfs_ptrs in Hp. rewrite !Forall_cons in Hp. naive_solver. Qed.

Lemma mali_inv_load cfg st load : mali_inv cfg st -> mali_inv cfg (upd_ctx (ctx_load load) st).
Proof.
  intros Hinv. pose proof (mali_inv_ptrs _ _ Hinv). destruct_and!.
  by apply (mali_inv_frame _ _ _ Hinv); [constructor|..].
Qed.

(** The switch on [gpu_level] only moves the two limits, inside the
    DFS list. *)
Lemma utilization_limits_frame cfg st st' :
  mali_inv cfg st -> utilization_limits cfg st = Some st' ->
  governor_frame st st' /\ next_freq_p (ctx st') = next_freq_p (ctx st) /\
  dfs_min_freq_p (ctx st') ∈ dfs_freq_list (ctx st) /\
  dfs_max_freq_p (ctx st') ∈ dfs_freq_list (ctx st).
Proof.
  intros Hinv Hu. pose proof (mali_inv_ptrs _ _ Hinv) as Hp.
  pose proof (inv_150m _ _ Hinv) as [p150 H150].
  unfold utilization_limits, pin_limit in Hu.
  repeat (first [progress inv_bind | case_match | progress subst]).
  all: (split; [by constructor|]); simpl; split_and!; naive_solver (eauto with kmodel).
Qed.

(** The governor moves [next_freq_p] and the limits inside the DFS
    list and leaves the rest alone. *)
Lemma utilization_frame cfg load st st' :
  mali_inv cfg st -> mali_platform_utilization cfg load st = Some st' ->
  governor_frame st st' /\ next_freq_p (ctx st') ∈ dfs_freq_list (ctx st) /\
  dfs_min_freq_p (ctx st') ∈ dfs_freq_list (ctx st) /\
  dfs_max_freq_p (ctx st') ∈ dfs_freq_list (ctx st).
Proof.
  intros Hinv Hu. unfold mali_platform_utilization in Hu. inv_bind. subst.
  destruct (utilization_limits_frame _ _ _ (mali_inv_load _ _ load Hinv) H)
    as (Hf & _ & Hmin & Hmax).
  assert (Hframe : governor_frame st x) by (destruct Hf; constructor; simpl in *; congruence).
  assert (Hl : dfs_freq_list (ctx x) = dfs_freq_list (ctx st)) by apply Hf.
  assert (Hinv' : governor_frame st (limits_inversion x) /\
     dfs_min_freq_p (ctx (limits_inversion x)) ∈ dfs_freq_list (ctx st) /\
     dfs_max_freq_p (ctx (limits_inversion x)) ∈ dfs_freq_list (ctx st)).
  { unfold limits_inversion. simpl in *. case_match; [|done].
    split; [eapply governor_frame_trans; [exact Hframe | by constructor]|]. done. }
  destruct Hinv' as ([] & ? & ?).
  unfold queue_dfs_work. simpl. rewrite gf_list0 in *.
  case_match; simpl; (split; [constructor; simpl; congruence|]); eauto with kmodel.
Qed.

Lemma utilization_inv cfg load st st' :
  mali_inv cfg st -> mali_platform_utilization cfg load st = Some st' -> mali_inv cfg st'.
Proof.
  intros Hinv Hu. destruct (utilization_frame _ _ _ _ Hinv Hu) as (? & ? & ? & ?).
  by eapply mali_inv_frame.
Qed.

(** Name the invariant's parts. *)
Ltac destruct_inv H :=
  destruct H as [Hlen Hvalid Hindex Hfd Hud Hfr Hsrc H150 Hptrs Hclk Hsusp Hsd Hcg Hcgi Hcs
                 Hhw Hcf Hwq].

Lemma power_mode_on_inv cfg st : mali_inv cfg st -> mali_inv cfg (power_mode_on cfg st).
Proof.
  intros Hinv. pose proof (mali_inv_ptrs _ _ Hinv) as Hp. pose proof Hinv as Hinv'.
  destruct_inv Hinv'. unfold power_mode_on. rewrite Hsusp.
  destruct (gpu_power_on (ctx st)) eqn:Hon; repeat progress (rewrite ?Hon, ?Hclk; cbn);
    [done|].
  constructor; cbn; try done; cbn in Hcg, Hcgi, Hcs; try lia.
  unfold dfs_ptrs in *. rewrite !Forall_cons in Hptrs |- *. naive_solver.
Qed.

Lemma power_mode_sleep_inv cfg st : mali_inv cfg st -> mali_inv cfg (power_mode_sleep st).
Proof.
  intros Hinv. pose proof Hinv as Hinv'. destruct_inv Hinv'.
  unfold power_mode_sleep. rewrite Hclk.
  destruct (gpu_power_on (ctx st)) eqn:Hon;
    repeat progress (rewrite ?Hon, ?Hsusp, ?Hsd; cbn);
    constructor; cbn; rewrite ?Hon; try done; cbn in Hcg, Hcgi, Hcs, Hcf; try lia.
Qed.

Lemma power_mode_change_inv cfg mode st :
  mali_inv cfg st -> mali_inv cfg (mali_platform_power_mode_change cfg mode st).
Proof.
  intros Hinv. unfold mali_platform_power_mode_change.
  repeat case_match; auto using power_mode_on_inv, power_mode_sleep_inv.
Qed.

(** Two entries of the DFS list with the same [freq_select] have the
    same clock source. *)
Lemma mali_inv_same_src cfg st p q :
  mali_inv cfg st -> p ∈ dfs_freq_list (ctx st) -> q ∈ dfs_freq_list (ctx st) ->
  freq_select (deref st p) = freq_select (deref st q) -> clk_src (deref st p) = clk_src (deref st q).
Proof.
  intros Hinv Hp Hq. pose proof (inv_src _ _ Hinv) as Hs.
  rewrite Forall_forall in Hs. specialize (Hs p Hp). rewrite Forall_forall in Hs. by apply Hs.
Qed.

Lemma gpu_change_freq_div_locked_inv cfg st :
  mali_inv cfg st ->
  mali_inv cfg (gpu_change_freq_div_locked (cur_freq_p (ctx st)) (next_freq_p (ctx st)) st).
Proof.
  intros Hinv. pose proof (mali_inv_ptrs _ _ Hinv) as Hp. pose proof Hinv as Hinv'.
  destruct_inv Hinv'. unfold gpu_change_freq_div_locked. rewrite Hclk.
  destruct (gpu_power_on (ctx st)) eqn:Hon; cbn; [|done].
  destruct (Hhw eq_refl) as [Hpar Hdiv].
  destruct (Z.eqb_spec (freq_select (deref st (next_freq_p (ctx st))))
                       (freq_select (deref st (cur_freq_p (ctx st))))) as [Hsel|Hsel],
           (Z.eqb_spec (div_select (deref st (next_freq_p (ctx st))))
                       (div_select (deref st (cur_freq_p (ctx st))))) as [Hdv|Hdv];
    cbn; constructor; cbn; rewrite ?Hon; try done; try lia.
  all: try (unfold dfs_ptrs in *; rewrite !Forall_cons in Hptrs |- *; naive_solver).
  all: intros _; unfold deref in *; split; rewrite ?Hpar, ?Hdiv, ?Hdv; try done.
  all: symmetry; apply (mali_inv_same_src cfg); [done | naive_solver | naive_solver | done].
Qed.

Lemma mali_inv_pending cfg st b : mali_inv cfg st -> mali_inv cfg (set_pending b st).
Proof. intros []. by constructor. Qed.

(** Every atomic step keeps the invariant. *)
Lemma mali_step_atomic_inv cfg st st' :
  mali_inv cfg st -> mali_step_atomic cfg st st' -> mali_inv cfg st'.
Proof.
  intros Hinv Hs. destruct Hs.
  - by eapply utilization_inv.
  - by apply power_mode_change_inv.
  - by apply gpu_change_freq_div_locked_inv, mali_inv_pending.
Qed.

(** ** The governor's choice *)

(** An entry of the DFS list carries its position as [index]. *)
Lemma mali_inv_index cfg st i p :
  mali_inv cfg st -> dfs_freq_list (ctx st) !! i = Some p -> index (deref st p) = Z.of_nat i.
Proof.
  intros Hinv Hi. pose proof (f_equal (fun l => l !! i) (inv_index _ _ Hinv)) as Hx.
  simpl in Hx. rewrite !list_lookup_fmap, Hi, lookup_seq_lt in Hx;
    [by injection Hx | by apply lookup_lt_Some in Hi].
Qed.

Lemma mali_inv_elem cfg st p :
  mali_inv cfg st -> p ∈ dfs_freq_list (ctx st) ->
  zlookup (dfs_freq_list (ctx st)) (index (deref st p)) = Some p /\
  0 <= index (deref st p) < freq_list_len (ctx st).
Proof.
  intros Hinv Hp. apply list_elem_of_lookup in Hp as [i Hi].
  rewrite (mali_inv_index _ _ _ _ Hinv Hi), (inv_len _ _ Hinv).
  pose proof (lookup_lt_Some _ _ _ Hi). split; [|lia].
  unfold zlookup. rewrite Nat2Z.id. by destruct (Z.leb_spec 0 (Z.of_nat i)); [|lia].
Qed.

Lemma mali_inv_zlookup cfg st x p :
  mali_inv cfg st -> zlookup (dfs_freq_list (ctx st)) x = Some p -> index (deref st p) = x.
Proof.
  intros Hinv Hx. apply zlookup_Some in Hx as [Hr Hx].
  rewrite (mali_inv_index _ _ _ _ Hinv Hx). lia.
Qed.

(** The searches of the governor succeed on a DFS list of the
    invariant, with [-1] or a position of the list. *)
Lemma mali_freq_search_ok cfg st key :
  mali_inv cfg st ->
  exists r, freq_search (full_list st) (dfs_freq_list (ctx st)) (freq_list_len (ctx st)) key = Some r /\
    (r < 0 \/ is_Some (zlookup (dfs_freq_list (ctx st)) r)).
Proof.
  intros Hinv. rewrite (inv_len _ _ Hinv), freq_search_dfs;
    [| apply (inv_valid _ _ Hinv) | apply (inv_freq_desc _ _ Hinv)].
  eexists; split; [done|].
  destruct (freq_search_ref_range (dfs_freqs (full_list st) (dfs_freq_list (ctx st))) key)
    as [->|[Hr _]]; [left; lia|right].
  apply zlookup_lt. unfold dfs_freqs in Hr. by rewrite length_fmap in Hr.
Qed.

(** After the switch and the inversion, the maximum is at a position
    no greater than the minimum's. *)
Lemma limits_inversion_ordered cfg st :
  mali_inv cfg st ->
  index (deref st (dfs_max_freq_p (ctx (limits_inversion st)))) <=
  index (deref st (dfs_min_freq_p (ctx (limits_inversion st)))).
Proof.
  intros Hinv. pose proof (mali_inv_ptrs _ _ Hinv) as Hp. unfold limits_inversion.
  destruct (freq (deref st (dfs_min_freq_p (ctx st))) >? freq (deref st (dfs_max_freq_p (ctx st))))
    eqn:Hgt; cbn; [lia|].
  rewrite Z.gtb_ltb in Hgt. apply Z.ltb_ge in Hgt.
  destruct (mali_inv_elem _ _ (dfs_max_freq_p (ctx st)) Hinv) as [Hmx _]; [naive_solver|].
  destruct (mali_inv_elem _ _ (dfs_min_freq_p (ctx st)) Hinv) as [Hmn _]; [naive_solver|].
  destruct (Z.le_gt_cases (index (deref st (dfs_max_freq_p (ctx st))))
                          (index (deref st (dfs_min_freq_p (ctx st))))) as [|Hlt]; [done|].
  apply zlookup_Some in Hmx as [Rx Hmx], Hmn as [Rn Hmn]. exfalso.
  assert (Hfn : dfs_freqs (full_list st) (dfs_freq_list (ctx st)) !!
    Z.to_nat (index (deref st (dfs_min_freq_p (ctx st)))) = Some (freq (deref st (dfs_min_freq_p (ctx st)))))
    by (unfold dfs_freqs; by rewrite list_lookup_fmap, Hmn).
  assert (Hfx : dfs_freqs (full_list st) (dfs_freq_list (ctx st)) !!
    Z.to_nat (index (deref st (dfs_max_freq_p (ctx st)))) = Some (freq (deref st (dfs_max_freq_p (ctx st)))))
    by (unfold dfs_freqs; by rewrite list_lookup_fmap, Hmx).
  pose proof (Zdesc_lookup _ _ _ _ _ (inv_freq_desc _ _ Hinv) Hfn Hfx ltac:(lia)). lia.
Qed.

Lemma pin_some (l : list nat) mx (d : option nat) :
  (mx < 0 \/ is_Some (zlookup l mx)) -> is_Some d ->
  is_Some (if mx <? 0 then d else zlookup l mx).
Proof. intros [H|H] Hd; destruct (Z.ltb_spec mx 0); auto; lia. Qed.

Lemma is_Some_bind_Some {A B} (m : option A) (f : A -> B) :
  is_Some m -> is_Some (m ≫= fun x => Some (f x)).
Proof. by intros [x ->]. Qed.

Lemma utilization_limits_some cfg st :
  mali_inv cfg st -> is_Some (utilization_limits cfg st).
Proof.
  intros Hinv. pose proof (inv_150m _ _ Hinv) as H150.
  destruct (mali_freq_search_ok cfg st (gpufreq_max_limit st) Hinv) as (mx & Hmx & Rmx).
  destruct (mali_freq_search_ok cfg st (gpufreq_min_limit st) Hinv) as (mn & Hmn & Rmn).
  unfold utilization_limits, pin_limit. cbv zeta. rewrite Hmx. simpl.
  destruct (gpu_level st =? 10); [apply is_Some_bind_Some, pin_some; eauto|].
  destruct (gpu_level st =? 9); [apply is_Some_bind_Some, pin_some; eauto|].
  destruct (gpu_level st =? 7); [apply is_Some_bind_Some, pin_some; eauto|].
  destruct (gpu_level st =? 5); [apply is_Some_bind_Some, pin_some; eauto|].
  rewrite Hmn. simpl.
  destruct (pin_some _ mx (Some (default_max_freq_p (ctx st))) Rmx) as [? ->]; [eauto|].
  destruct (pin_some _ mn (Some (default_min_freq_p (ctx st))) Rmn) as [? ->]; [eauto|].
  simpl. eauto.
Qed.

Lemma utilization_limits_load cfg st st' :
  utilization_limits cfg st = Some st' -> cur_load (ctx st') = cur_load (ctx st).
Proof.
  unfold utilization_limits, pin_limit. intros Hu.
  repeat (first [progress inv_bind | case_match | progress subst]); done.
Qed.

(** [next_freq_index] on ordered limits: an index between them, the
    maximum's at a high load. *)
Lemma next_freq_index_spec cfg st :
  mali_inv cfg st ->
  index (deref st (dfs_max_freq_p (ctx st))) <= index (deref st (dfs_min_freq_p (ctx st))) ->
  exists r, next_freq_index st = Some r /\
    index (deref st (dfs_max_freq_p (ctx st))) <= r <= index (deref st (dfs_min_freq_p (ctx st))) /\
    (LOAD_UP_THRESHOLD <= cur_load (ctx st) -> r = index (deref st (dfs_max_freq_p (ctx st)))).
Proof.
  intros Hinv Hle. pose proof (mali_inv_ptrs _ _ Hinv) as Hp.
  destruct (mali_inv_elem _ _ (dfs_max_freq_p (ctx st)) Hinv) as [_ Rx]; [naive_solver|].
  destruct (mali_inv_elem _ _ (dfs_min_freq_p (ctx st)) Hinv) as [_ Rn]; [naive_solver|].
  unfold next_freq_index. destruct (Z.geb_spec (cur_load (ctx st)) LOAD_UP_THRESHOLD).
  - eexists; split; [done|]. split; [lia | done].
  - destruct (get_next_freq_bounds (full_list st) (dfs_freq_list (ctx st))
                (dfs_min_freq_p (ctx st)) (dfs_max_freq_p (ctx st)) (target_freq st))
      as (r & Hr & Rr); [apply (inv_valid _ _ Hinv) | unfold deref in *; lia |
                         unfold deref in *; rewrite <- (inv_len _ _ Hinv); lia |].
    exists r. split; [done|]. split; [unfold deref; lia | lia].
Qed.

Lemma limits_inversion_inv cfg st :
  mali_inv cfg st -> mali_inv cfg (limits_inversion st).
Proof.
  intros Hinv. pose proof (mali_inv_ptrs _ _ Hinv). unfold limits_inversion.
  case_match; [|done]. apply (mali_inv_frame _ _ _ Hinv); [by constructor | naive_solver..].
Qed.

Lemma utilization_limits_inv cfg st st' :
  mali_inv cfg st -> utilization_limits cfg st = Some st' -> mali_inv cfg st'.
Proof.
  intros Hinv Hu. destruct (utilization_limits_frame _ _ _ Hinv Hu) as (Hf & Hn & ? & ?).
  apply (mali_inv_frame _ _ _ Hinv Hf); [|done..]. rewrite Hn.
  by apply (mali_inv_ptrs _ _ Hinv).
Qed.

Lemma queue_dfs_work_frame st : governor_frame st (queue_dfs_work st) /\
  ctx (queue_dfs_work st) = ctx st /\ full_list (queue_dfs_work st) = full_list st.
Proof. unfold queue_dfs_work. case_match; (split; [by constructor|done]). Qed.

(** ** The governor's properties *)

(** C7: From any state of the driver invariant and for any load,
    mali_platform_utilization reads no array out of bounds, keeps the
    invariant, and sets next_freq_p between dfs_max_freq_p and
    dfs_min_freq_p; at a load of at least 256*UP_THRESHOLD it sets
    next_freq_p to dfs_max_freq_p. *)
Theorem mali_platform_utilization_in_limits cfg load st :
  mali_inv cfg st ->
  exists st', mali_platform_utilization cfg load st = Some st' /\ mali_inv cfg st' /\
    index (deref st' (dfs_max_freq_p (ctx st'))) <= index (deref st' (next_freq_p (ctx st'))) <=
    index (deref st' (dfs_min_freq_p (ctx st'))) /\
    (LOAD_UP_THRESHOLD <= load -> next_freq_p (ctx st') = dfs_max_freq_p (ctx st')).
Proof.
  intros Hinv. pose proof (mali_inv_load _ _ load Hinv) as Hinv1.
  destruct (utilization_limits_some _ _ Hinv1) as [x Hx].
  pose proof (utilization_limits_inv _ _ _ Hinv1 Hx) as Hinvx.
  pose proof (utilization_limits_load _ _ _ Hx) as Hload. simpl in Hload.
  pose proof (limits_inversion_inv _ _ Hinvx) as Hinv2.
  pose proof (limits_inversion_ordered _ _ Hinvx) as Hord.
  set (x' := limits_inversion x) in *.
  assert (Hfull : full_list x' = full_list x) by (unfold x', limits_inversion; by case_match).
  assert (Hl : cur_load (ctx x') = load) by (unfold x', limits_inversion; case_match; done).
  unfold deref in Hord. rewrite <- Hfull in Hord.
  destruct (next_freq_index_spec _ _ Hinv2 Hord) as (r & Hr & Rr & Hmax).
  destruct (mali_inv_elem _ _ (dfs_max_freq_p (ctx x')) Hinv2) as [Hxm Rxm];
    [by apply (mali_inv_ptrs _ _ Hinv2)|].
  destruct (mali_inv_elem _ _ (dfs_min_freq_p (ctx x')) Hinv2) as [_ Rnm];
    [by apply (mali_inv_ptrs _ _ Hinv2)|].
  destruct (zlookup_lt (dfs_freq_list (ctx x')) r) as [p Hp];
    [rewrite <- (inv_len _ _ Hinv2); lia|].
  pose proof (mali_inv_zlookup _ _ _ _ Hinv2 Hp) as Hip.
  exists (queue_dfs_work (upd_ctx (ctx_next p) x')).
  destruct (queue_dfs_work_frame (upd_ctx (ctx_next p) x')) as (Hq & Hqc & Hqf).
  split; [unfold mali_platform_utilization; rewrite Hx; simpl; fold x'; rewrite Hr; simpl;
         by rewrite Hp|].
  split; [|unfold deref; rewrite Hqc, Hqf; simpl; split; [unfold deref in Hip, Rr; lia|]].
  - eapply mali_inv_frame; [exact Hinv2 | eapply governor_frame_trans; [|exact Hq]; by constructor
      | rewrite Hqc; simpl; by eapply zlookup_elem | rewrite Hqc; by apply (mali_inv_ptrs _ _ Hinv2)..].
  - intros Hge. rewrite Hl in Hmax. specialize (Hmax Hge). subst r.
    rewrite Hxm in Hp. by injection Hp.
Qed.

(** ** Boot and reachability *)

Definition mali_variants : list mali_config := [config_shark; config_tshark; config_sharkl].

(** Booting each variant succeeds in a state of the invariant (checked
    by evaluation). *)
Lemma mali_boot_inv cfg :
  cfg ∈ mali_variants -> exists st0, mali_boot cfg = Some st0 /\ mali_inv cfg st0.
Proof.
  intros Hc. unfold mali_variants in Hc.
  repeat (apply elem_of_cons in Hc as [->|Hc];
    [match goal with |- exists st0, mali_boot ?c = _ /\ _ =>
       exists (default (mali_static_state c) (mali_boot c)) end; split;
       [vm_compute; reflexivity | apply (bool_decide_unpack _); vm_compute; exact I]|]).
  by apply elem_of_nil in Hc.
Qed.

Lemma mali_reachable_inv cfg st0 st :
  cfg ∈ mali_variants -> mali_boot cfg = Some st0 ->
  star (mali_step_atomic cfg) st0 st -> mali_inv cfg st.
Proof.
  intros Hc Hb Hs. destruct (mali_boot_inv cfg Hc) as (st0' & Hb' & Hinv).
  rewrite Hb in Hb'. injection Hb' as <-.
  inv_star (mali_step_atomic_inv cfg) Hs. done.
Qed.

(** C5: With the work item run as one step, in every state reachable
    from the boot of each variant by utilization callbacks, power-mode
    changes and the work item, a powered GPU has clk_gpu parented and
    divided as cur_freq_p says and gpu_cur_freq is cur_freq_p's
    frequency. *)
Theorem mali_atomic_clock_consistent cfg st0 st :
  cfg ∈ mali_variants -> mali_boot cfg = Some st0 ->
  star (mali_step_atomic cfg) st0 st -> gpu_power_on (ctx st) = true ->
  clk_gpu_parent (hw st) = clk_src (deref st (cur_freq_p (ctx st))) /\
  clk_gpu_div (hw st) = (div_select (deref st (cur_freq_p (ctx st))) - 1) .& 3 /\
  gpu_cur_freq st = freq (deref st (cur_freq_p (ctx st))).
Proof.
  intros Hc Hb Hs Hon. pose proof (mali_reachable_inv _ _ _ Hc Hb Hs) as Hinv.
  destruct (inv_hw _ _ Hinv Hon). rewrite (inv_cur_freq _ _ Hinv), Hon. done.
Qed.

(** C6: Because gpu_change_freq_div reads cur_freq_p and next_freq_p
    before down(sem), a power cycle between the read and the lock leads
    (on the shark variant, from boot) to a powered GPU whose clk_gpu
    parent is not the source of cur_freq_p. *)
Theorem gpu_change_freq_div_race :
  exists st0 s, mali_boot config_shark = Some st0 /\
    star (mali_step config_shark) (mk_sys st0 worker_idle) s /\
    gpu_power_on (ctx (sys_state s)) = true /\
    clk_gpu_parent (hw (sys_state s)) <> clk_src (deref (sys_state s) (cur_freq_p (ctx (sys_state s)))).
Proof.
  set (cfg := config_shark).
  set (s0 := default (mali_static_state cfg) (mali_boot cfg)).
  set (s1 := default s0 (mali_platform_utilization cfg 130 s0)).
  set (s2 := set_pending false s1).
  set (s3 := gpu_change_freq_div_locked (cur_freq_p (ctx s1)) (next_freq_p (ctx s1)) s2).
  set (s4 := default s3 (mali_platform_utilization cfg 100 s3)).
  set (s5 := set_pending false s4).
  set (s6 := mali_platform_power_mode_change cfg 1 s5).
  set (s7 := mali_platform_power_mode_change cfg 0 s6).
  set (s8 := gpu_change_freq_div_locked (cur_freq_p (ctx s4)) (next_freq_p (ctx s4)) s7).
  exists s0, (mk_sys s8 worker_idle).
  split; [vm_compute; reflexivity|].
  split; [|split; vm_compute; [reflexivity | discriminate]].
  eapply star_step; [apply (step_utilization _ _ _ 130 s1); [lia | vm_compute; reflexivity]|].
  eapply star_step; [apply step_work_begin; vm_compute; reflexivity|].
  eapply star_step; [apply step_work_end|].
  eapply star_step; [apply (step_utilization _ _ _ 100 s4); [lia | vm_compute; reflexivity]|].
  eapply star_step; [apply step_work_begin; vm_compute; reflexivity|].
  eapply star_step; [apply (step_power_mode _ _ _ 1)|].
  eapply star_step; [apply (step_power_mode _ _ _ 0)|].
  eapply star_step; [apply step_work_end|].
  apply star_refl.
Qed.

(** On the tshark variant from boot at a load of 128/256 the target
    230400 equals the 256MHz threshold and the governor chooses 208MHz,
    below the target, where the lowest frequency whose threshold exceeds
    the target is 312MHz. *)
Theorem mali_utilization_threshold_tie :
  exists st0 st1, mali_boot config_tshark = Some st0 /\
    mali_platform_utilization config_tshark 128 st0 = Some st1 /\
    target_freq st1 = 230400 /\
    zlookup (dfs_ups (full_list st1) (dfs_freq_list (ctx st1))) 3 = Some 230400 /\
    freq (deref st1 (next_freq_p (ctx st1))) = 208000 /\
    get_next_freq_ref (dfs_ups (full_list st1) (dfs_freq_list (ctx st1))) 0 7 230400 = 2 /\
    zlookup (dfs_freqs (full_list st1) (dfs_freq_list (ctx st1))) 2 = Some 312000.
Proof.
  set (s0 := default (mali_static_state config_tshark) (mali_boot config_tshark)).
  exists s0, (default s0 (mali_platform_utilization config_tshark 128 s0)).
  split; [vm_compute; reflexivity|]. split; [vm_compute; reflexivity|].
  vm_compute. repeat split.
Qed.

(** Power modes 1 and 2 leave the GPU powered off: domain shut
    down, every clock enable undone once (counts 0) and gpu_cur_freq 0. *)
Theorem power_mode_sleep_off cfg mode st :
  mali_inv cfg st -> mode = 1 \/ mode = 2 ->
  gpu_power_on (ctx (mali_platform_power_mode_change cfg mode st)) = false /\
  force_shutdown (hw (mali_platform_power_mode_change cfg mode st)) = true /\
  clk_gpu_cnt (hw (mali_platform_power_mode_change cfg mode st)) = 0 /\
  clk_gpu_i_cnt (hw (mali_platform_power_mode_change cfg mode st)) = 0 /\
  clk_src_cnt (hw (mali_platform_power_mode_change cfg mode st)) = 0 /\
  gpu_cur_freq (mali_platform_power_mode_change cfg mode st) = 0.
Proof.
  intros Hinv Hm. pose proof (power_mode_change_inv cfg mode st Hinv) as Hinv'.
  assert (Hoff : gpu_power_on (ctx (mali_platform_power_mode_change cfg mode st)) = false).
  { unfold mali_platform_power_mode_change.
    destruct Hm as [->| ->]; simpl; unfold power_mode_sleep;
      repeat case_match; simpl in *; congruence. }
  destruct Hinv'. rewrite Hoff in *. done.
Qed.

(** Power mode 0 on a powered-off GPU makes dfs_max_freq_p current,
    sets clk_gpu's parent and divider for it, records its frequency in
    gpu_cur_freq and keeps the previous one in gpu_last_set_freq. *)
Theorem power_mode_on_restart cfg st :
  mali_inv cfg st -> gpu_power_on (ctx st) = false ->
  let st' := mali_platform_power_mode_change cfg 0 st in
  gpu_power_on (ctx st') = true /\
  cur_freq_p (ctx st') = dfs_max_freq_p (ctx st) /\
  gpu_cur_freq st' = freq (deref st (dfs_max_freq_p (ctx st))) /\
  gpu_last_set_freq st' = gpu_cur_freq st /\
  clk_gpu_parent (hw st') = clk_src (deref st (dfs_max_freq_p (ctx st))) /\
  clk_gpu_div (hw st') = (div_select (deref st (dfs_max_freq_p (ctx st))) - 1) .& 3.
Proof.
  intros Hinv Hoff. pose proof Hinv as Hinv'. destruct_inv Hinv'.
  unfold mali_platform_power_mode_change, power_mode_on. simpl.
  rewrite Hsusp, Hoff. cbn. rewrite Hoff. cbn. done.
Qed.

(** For a load in [0, 256] the governor's product cur_freq_p->freq
    * cur_load fits in an int and the target lies between 0 and the
    current frequency. *)
Theorem target_freq_bounds cfg st load :
  mali_inv cfg st -> 0 <= load <= 256 ->
  0 <= freq (deref st (cur_freq_p (ctx st))) * load <= 2 ^ 31 - 1 /\
  0 <= target_freq (upd_ctx (ctx_load load) st) <= freq (deref st (cur_freq_p (ctx st))).
Proof.
  intros Hinv Hl. pose proof (inv_freq_range _ _ Hinv) as Hr.
  rewrite Forall_forall in Hr.
  destruct (Hr (cur_freq_p (ctx st))) as [H0 H1]; [by apply (mali_inv_ptrs _ _ Hinv)|].
  unfold FREQ_BOUND in H1. split; [nia|].
  unfold target_freq. simpl. change (deref (upd_ctx (ctx_load load) st)) with (deref st).
  rewrite c_div_nonneg by nia.
  split; [apply Z.div_pos; nia|]. apply Z.div_le_upper_bound; nia.
Qed.

(** ** Witnesses: the shark variant after boot *)

Definition shark_boot : mali_state :=
  default (mali_static_state config_shark) (mali_boot config_shark).

Lemma shark_boot_inv : mali_inv config_shark shark_boot.
Proof. apply (bool_decide_unpack _). vm_compute. exact I. Qed.

Lemma mali_platform_utilization_in_limits_witness :
  mali_inv config_shark shark_boot /\
  exists st', mali_platform_utilization config_shark 100 shark_boot = Some st' /\
    mali_inv config_shark st' /\
    index (deref st' (dfs_max_freq_p (ctx st'))) <= index (deref st' (next_freq_p (ctx st'))) <=
    index (deref st' (dfs_min_freq_p (ctx st'))) /\
    (LOAD_UP_THRESHOLD <= 100 -> next_freq_p (ctx st') = dfs_max_freq_p (ctx st')).
Proof.
  split; [apply shark_boot_inv|]. apply mali_platform_utilization_in_limits, shark_boot_inv.
Defined.

Lemma mali_atomic_clock_consistent_witness :
  mali_boot config_shark = Some shark_boot /\ gpu_power_on (ctx shark_boot) = true /\
  clk_gpu_parent (hw shark_boot) = clk_src (deref shark_boot (cur_freq_p (ctx shark_boot))) /\
  clk_gpu_div (hw shark_boot) = (div_select (deref shark_boot (cur_freq_p (ctx shark_boot))) - 1) .& 3 /\
  gpu_cur_freq shark_boot = freq (deref shark_boot (cur_freq_p (ctx shark_boot))).
Proof.
  split; [vm_compute; reflexivity|]. split; [vm_compute; reflexivity|].
  apply (mali_atomic_clock_consistent config_shark shark_boot shark_boot);
    [left | vm_compute; reflexivity | apply star_refl | vm_compute; reflexivity].
Defined.

Lemma power_mode_sleep_off_witness :
  gpu_power_on (ctx (mali_platform_power_mode_change config_shark 1 shark_boot)) = false /\
  force_shutdown (hw (mali_platform_power_mode_change config_shark 1 shark_boot)) = true /\
  clk_gpu_cnt (hw (mali_platform_power_mode_change config_shark 1 shark_boot)) = 0 /\
  clk_gpu_i_cnt (hw (mali_platform_power_mode_change config_shark 1 shark_boot)) = 0 /\
  clk_src_cnt (hw (mali_platform_power_mode_change config_shark 1 shark_boot)) = 0 /\
  gpu_cur_freq (mali_platform_power_mode_change config_shark 1 shark_boot) = 0.
Proof. apply power_mode_sleep_off; [apply shark_boot_inv | left; reflexivity]. Defined.

Definition shark_asleep : mali_state := mali_platform_power_mode_change config_shark 1 shark_boot.

Lemma power_mode_on_restart_witness :
  mali_inv config_shark shark_asleep /\ gpu_power_on (ctx shark_asleep) = false /\
  let st' := mali_platform_power_mode_change config_shark 0 shark_asleep in
  gpu_power_on (ctx st') = true /\
  cur_freq_p (ctx st') = dfs_max_freq_p (ctx shark_asleep) /\
  gpu_cur_freq st' = freq (deref shark_asleep (dfs_max_freq_p (ctx shark_asleep))) /\
  gpu_last_set_freq st' = gpu_cur_freq shark_asleep /\
  clk_gpu_parent (hw st') = clk_src (deref shark_asleep (dfs_max_freq_p (ctx shark_asleep))) /\
  clk_gpu_div (hw st') = (div_select (deref shark_asleep (dfs_max_freq_p (ctx shark_asleep))) - 1) .& 3.
Proof.
  assert (Hinv : mali_inv config_shark shark_asleep)
    by (apply (bool_decide_unpack _); vm_compute; exact I).
  split; [exact Hinv|]. split; [vm_compute; reflexivity|].
  apply power_mode_on_restart; [exact Hinv | vm_compute; reflexivity].
Defined.

Lemma target_freq_bounds_witness :
  mali_inv config_shark shark_boot /\
  0 <= freq (deref shark_boot (cur_freq_p (ctx shark_boot))) * 200 <= 2 ^ 31 - 1 /\
  0 <= target_freq (upd_ctx (ctx_load 200) shark_boot) <= freq (deref shark_boot (cur_freq_p (ctx shark_boot))).
Proof.
  split; [apply shark_boot_inv|].
  apply (target_freq_bounds config_shark); [apply shark_boot_inv | lia].
Defined.

End MaliDfs.
