(* ===== verification/InputBridge.v ===== *)
(** * Samsung input bridge: key combinations, safe mode and uevents

    Models [src/drivers/input/sec-input-bridge.c].  The bridge is an
    input handler: [input_bridge_event] sees the key events of the
    supported devices, matches the log-dump key sequence
    ([input_bridge_check_logdump]) and the safe-mode long press
    ([input_bridge_check_safemode] with the timer
    [input_bridge_safemode_timer]); a match sets a bit of
    [send_uevent_flag] and schedules [input_bridge_work], which sends
    the uevents.  [input_bridge_connect], [sec_input_bridge_probe] and
    [sec_input_bridge_remove] set the bridge up and tear it down.

    The bridge is one record [sec_input_bridge] (with the two static
    flags of [input_bridge_check_safemode]); the platform data, built
    by the board file or [sec_input_bridge_parse_dt], is a parameter.
    Array reads return [option]: [None] is a read past the array.  The
    events, the timer and the work item are the rules of the step
    relation [bridge_step]. *)

From S2P Require Import Prelude.

Module InputBridge.

Local Open Scope Z_scope.

(** ** Constants of [include/linux/input.h] and [mod_devicetable.h] *)

Definition EV_KEY : Z := 0x01.
Definition EV_REL : Z := 0x02.
Definition EV_ABS : Z := 0x03.
Definition EV_MSC : Z := 0x04.
Definition EV_SW : Z := 0x05.
Definition EV_LED : Z := 0x11.
Definition EV_SND : Z := 0x12.
Definition EV_REP : Z := 0x14.
Definition EV_FF : Z := 0x15.
Definition EV_PWR : Z := 0x16.

Definition KEY_VOLUMEDOWN : Z := 114.
Definition KEY_VOLUMEUP : Z := 115.
Definition KEY_POWER : Z := 116.
Definition KEY_MENU : Z := 139.

Definition INPUT_DEVICE_ID_MATCH_EVBIT : Z := 0x0010.
Definition INPUT_DEVICE_ID_MATCH_KEYBIT : Z := 0x0020.
Definition INPUT_DEVICE_ID_MATCH_RELBIT : Z := 0x0040.
Definition INPUT_DEVICE_ID_MATCH_ABSBIT : Z := 0x0080.
Definition INPUT_DEVICE_ID_MATCH_MSCIT : Z := 0x0100.
Definition INPUT_DEVICE_ID_MATCH_LEDBIT : Z := 0x0200.
Definition INPUT_DEVICE_ID_MATCH_SNDBIT : Z := 0x0400.
Definition INPUT_DEVICE_ID_MATCH_FFBIT : Z := 0x0800.
Definition INPUT_DEVICE_ID_MATCH_SWBIT : Z := 0x1000.

(** ** Constants of the file *)

Definition SAFEMODE_INIT : Z := 0xcafecafe.
Definition SAFEMODE_TIMEOUT : Z := 5000.

(** [enum inpup_mode]. *)
Definition INPUT_LOGDUMP : nat := 0.
Definition INPUT_SAFEMODE : nat := 1.

(** ** [struct input_device_id] and [input_bridge_set_ids] *)

(** The bitmaps of an id, one per event type it can match. *)
Inductive id_bitmap := BM_ev | BM_key | BM_rel | BM_abs | BM_msc | BM_led | BM_snd | BM_ff | BM_sw.

#[export] Instance id_bitmap_eq_dec : EqDecision id_bitmap.
Proof. solve_decision. Defined.

Record input_device_id := mk_id {
  id_flags : Z;
  id_bits : id_bitmap -> Z
}.

(** An id as [kzalloc] leaves it. *)
Definition id_zero : input_device_id := mk_id 0 (fun _ => 0).

(** [__set_bit(code, ids->bm)]. *)
Definition set_id_bit (bm : id_bitmap) (code : Z) (ids : input_device_id) : input_device_id :=
  mk_id (id_flags ids)
    (fun b => if decide (b = bm) then Z.setbit (id_bits ids b) code else id_bits ids b).

Definition set_id_flags (f : Z) (ids : input_device_id) : input_device_id :=
  mk_id f (id_bits ids).

(** The cases of the switch: the match flag and the bitmap of a type. *)
Definition type_bitmap (type : Z) : option (Z * id_bitmap) :=
  if type =? EV_KEY then Some (INPUT_DEVICE_ID_MATCH_KEYBIT, BM_key)
  else if type =? EV_REL then Some (INPUT_DEVICE_ID_MATCH_RELBIT, BM_rel)
  else if type =? EV_ABS then Some (INPUT_DEVICE_ID_MATCH_ABSBIT, BM_abs)
  else if type =? EV_MSC then Some (INPUT_DEVICE_ID_MATCH_MSCIT, BM_msc)
  else if type =? EV_SW then Some (INPUT_DEVICE_ID_MATCH_SWBIT, BM_sw)
  else if type =? EV_LED then Some (INPUT_DEVICE_ID_MATCH_LEDBIT, BM_led)
  else if type =? EV_SND then Some (INPUT_DEVICE_ID_MATCH_SNDBIT, BM_snd)
  else if type =? EV_FF then Some (INPUT_DEVICE_ID_MATCH_FFBIT, BM_ff)
  else None.

(** [input_bridge_set_ids(ids, type, code)]: an unknown type leaves the
    id as it is (after the [printk]); [EV_PWR] sets only the event bit. *)
Definition input_bridge_set_ids (ids : input_device_id) (type code : Z) : input_device_id :=
  let finish ids :=
    set_id_bit BM_ev type (set_id_flags (id_flags ids .| INPUT_DEVICE_ID_MATCH_EVBIT) ids) in
  match type_bitmap type with
  | Some (flag, bm) => finish (set_id_bit bm code (set_id_flags flag ids))
  | None => if type =? EV_PWR then finish ids else ids
  end.

(** ** Platform data ([include/linux/input/sec-input-bridge.h]) *)

Record sec_input_bridge_mkey := mk_mkey {
  mkey_type : Z;
  mkey_code : Z
}.

(** [struct sec_input_bridge_mmap]; [pre_event_func] records whether
    the callback is set. *)
Record sec_input_bridge_mmap := mk_mmap {
  mkey_map : list sec_input_bridge_mkey;
  num_mkey : Z;
  uevent_env_str : string;
  uevent_env_value : string;
  enable_uevent : bool;
  uevent_action : Z;
  pre_event_func : bool
}.

Record sec_input_bridge_platform_data := mk_pdata {
  mmap : list sec_input_bridge_mmap;
  num_map : Z;
  lcd_warning_func : bool;
  num_dev : Z;
  support_dev_name : list string
}.

(** ** The bridge *)

(** [struct sec_input_bridge] (the fields the handlers use) with the
    timer and the work item as "pending" flags, and the two [static]
    variables of [input_bridge_check_safemode]. *)
Record sec_input_bridge := mk_bridge {
  send_uevent_flag : Z;
  check_index : list Z;
  safemode_flag : Z;
  timer_pending : bool;
  work_pending : bool;
  first_power_press : bool;
  first_power_release : bool
}.

Definition set_check_index (v : Z) (b : sec_input_bridge) : sec_input_bridge :=
  mk_bridge (send_uevent_flag b) (<[INPUT_LOGDUMP := v]> (check_index b)) (safemode_flag b)
    (timer_pending b) (work_pending b) (first_power_press b) (first_power_release b).

Definition set_uevent_flag (f : Z) (b : sec_input_bridge) : sec_input_bridge :=
  mk_bridge f (check_index b) (safemode_flag b)
    (timer_pending b) (work_pending b) (first_power_press b) (first_power_release b).

Definition set_safemode_flag (f : Z) (b : sec_input_bridge) : sec_input_bridge :=
  mk_bridge (send_uevent_flag b) (check_index b) f
    (timer_pending b) (work_pending b) (first_power_press b) (first_power_release b).

(** [mod_timer] (true) and the timer's expiry (false). *)
Definition set_timer (t : bool) (b : sec_input_bridge) : sec_input_bridge :=
  mk_bridge (send_uevent_flag b) (check_index b) (safemode_flag b)
    t (work_pending b) (first_power_press b) (first_power_release b).

(** [schedule_work] (true) and the start of the work (false). *)
Definition set_work (w : bool) (b : sec_input_bridge) : sec_input_bridge :=
  mk_bridge (send_uevent_flag b) (check_index b) (safemode_flag b)
    (timer_pending b) w (first_power_press b) (first_power_release b).

Definition set_first_power_press (v : bool) (b : sec_input_bridge) : sec_input_bridge :=
  mk_bridge (send_uevent_flag b) (check_index b) (safemode_flag b)
    (timer_pending b) (work_pending b) v (first_power_release b).

(** ** [input_bridge_check_logdump] *)

(** [check_index] is a [u8]: the increment wraps at 256. *)
Definition u8_inc (x : Z) : Z := (x + 1) mod 256.

(** The flag bit of map [i], [1 << i]. *)
Definition map_bit (i : nat) : Z := 1 << Z.of_nat i.

(** One step of the log-dump matcher for the key [code]: [None] is a
    read of [mkey_map] past its end. *)
Definition input_bridge_check_logdump (pd : sec_input_bridge_platform_data)
    (b : sec_input_bridge) (code : Z) : option sec_input_bridge :=
  m ← mmap pd !! INPUT_LOGDUMP;
  let ci := check_index b !!! INPUT_LOGDUMP in
  if ci >? num_mkey m then Some (set_check_index 0 b)
  else
    k ← zlookup (mkey_map m) ci;
    if mkey_code k =? code then
      let ci' := u8_inc ci in
      if ci' >=? num_mkey m then
        Some (set_check_index 0
               (set_work true (set_uevent_flag (send_uevent_flag b .| map_bit INPUT_LOGDUMP) b)))
      else Some (set_check_index ci' b)
    else
      k0 ← mkey_map m !! 0%nat;
      if mkey_code k0 =? code then Some (set_check_index 1 b)
      else Some (set_check_index 0 b).

(** ** [input_bridge_check_safemode] *)

(** The first power-key press and the first power-key release are
    dropped (they come from the probe of the power key); the release
    branch clears [first_power_press], as the code does.  Any other
    event that is not the first key of the safe-mode map, with its
    type as the value, disables safe mode; that key (re)arms the
    timer. *)
Definition input_bridge_check_safemode (pd : sec_input_bridge_platform_data)
    (b : sec_input_bridge) (code value : Z) : option sec_input_bridge :=
  m ← mmap pd !! INPUT_SAFEMODE;
  if (code =? KEY_POWER) && first_power_press b && (value =? 1) then
    Some (set_first_power_press false b)
  else if (code =? KEY_POWER) && first_power_release b && (value =? 0) then
    Some (set_first_power_press false b)
  else
    k0 ← mkey_map m !! 0%nat;
    if negb (code =? mkey_code k0) || negb (value =? mkey_type k0) then
      Some (set_safemode_flag 0 b)
    else Some (set_timer true b).

(** ** [input_bridge_event] *)

Definition bridge_key (code : Z) : bool :=
  (code =? KEY_VOLUMEDOWN) || (code =? KEY_VOLUMEUP) || (code =? KEY_POWER) || (code =? KEY_MENU).

(** [rep_check = (test_bit(EV_REP, id_table->evbit) << 1) | 1]: bit 0
    (press) always, bit 1 (autorepeat) when the first id matches
    [EV_REP]. *)
Definition rep_check (id_table : list input_device_id) : Z :=
  let rep := match id_table with
             | ids :: _ => Z.testbit (id_bits ids BM_ev) EV_REP
             | [] => false
             end in
  ((if rep then 1 else 0) << 1) .| 1.

Definition input_bridge_event (pd : sec_input_bridge_platform_data)
    (id_table : list input_device_id) (b : sec_input_bridge) (type code value : Z)
    : option sec_input_bridge :=
  if negb (bridge_key code) then Some b
  else if type =? EV_KEY then
    b ← (if bits_any value (rep_check id_table) then input_bridge_check_logdump pd b code
         else Some b);
    if safemode_flag b =? SAFEMODE_INIT then input_bridge_check_safemode pd b code value
    else Some b
  else Some b.

(** ** [input_bridge_safemode_timer] *)

Definition input_bridge_safemode_timer (b : sec_input_bridge) : sec_input_bridge :=
  let b := set_timer false b in
  if negb (safemode_flag b =? SAFEMODE_INIT) then b
  else set_work true (set_uevent_flag (send_uevent_flag b .| map_bit INPUT_SAFEMODE) b).

(** ** [input_bridge_work] *)

(** What the work does outside the bridge, in order. *)
Inductive bridge_output :=
  | out_uevent (action : Z) (env : string)
  | out_pre_event (i : nat)
  | out_lcd_warning.

(** [sprintf(env_str, "%s=%s", ...)] into [char env_str[16]]: [None]
    when the text and its terminator do not fit. *)
Definition env_sprintf (m : sec_input_bridge_mmap) : option string :=
  let env := (uevent_env_str m ++ "=" ++ uevent_env_value m)%string in
  if (String.length env <? 16)%nat then Some env else None.

(** The body of the loop for map [i] whose flag bit is set. *)
Definition work_map (m : sec_input_bridge_mmap) (i : nat) : option (list bridge_output) :=
  ev ← (if enable_uevent m then env ← env_sprintf m; Some [out_uevent (uevent_action m) env]
        else Some []);
  Some (ev ++ (if pre_event_func m then [out_pre_event i] else [])).

(** The loop [for (i = 0; i < num_map; i++)] from [i], [n] iterations. *)
Fixpoint work_loop (pd : sec_input_bridge_platform_data) (flag : Z) (i n : nat)
    : option (Z * list bridge_output) :=
  match n with
  | O => Some (flag, [])
  | S n' =>
      if bits_any flag (map_bit i) then
        m ← mmap pd !! i;
        outs ← work_map m i;
        '(flag', rest) ← work_loop pd (Z.land flag (Z.lnot (map_bit i))) (S i) n';
        Some (flag', outs ++ rest)
      else work_loop pd flag (S i) n'
  end.

(** [input_bridge_work], run after the work item left the queue. *)
Definition input_bridge_work (pd : sec_input_bridge_platform_data) (b : sec_input_bridge)
    : option (sec_input_bridge * list bridge_output) :=
  '(flag, outs) ← work_loop pd (send_uevent_flag b) 0 (Z.to_nat (num_map pd));
  Some (set_uevent_flag flag b, outs ++ (if lcd_warning_func pd then [out_lcd_warning] else [])).

(** ** [input_bridge_check_support_dev] *)

(** [strncmp(s1, s2, n)] on texts without NUL characters (the end of
    a [string] is the terminator), comparing unsigned characters. *)
Fixpoint strncmp (s1 s2 : string) (n : nat) : Z :=
  match n with
  | O => 0
  | S n' =>
      match s1, s2 with
      | String.EmptyString, String.EmptyString => 0
      | String.String c1 r1, String.String c2 r2 =>
          if decide (c1 = c2) then strncmp r1 r2 n'
          else Z.of_nat (nat_of_ascii c1) - Z.of_nat (nat_of_ascii c2)
      | String.String c1 _, String.EmptyString => Z.of_nat (nat_of_ascii c1)
      | String.EmptyString, String.String c2 _ => - Z.of_nat (nat_of_ascii c2)
      end
  end.

(** The loop over [support_dev_name[i]], [i < num_dev], from [i]. *)
Fixpoint support_scan (names : list string) (name : string) (i n : nat) : option Z :=
  match n with
  | O => Some (-1)
  | S n' =>
      s ← names !! i;
      if strncmp name s (String.length name) =? 0 then Some 0
      else support_scan names name (S i) n'
  end.

(** [sec_input_bridge] is [None] before the class device exists. *)
Definition input_bridge_check_support_dev (sib : option sec_input_bridge_platform_data)
    (name : string) : option Z :=
  match sib with
  | None => Some (-1)
  | Some pd => support_scan (support_dev_name pd) name 0 (Z.to_nat (num_dev pd))
  end.

(** ** [input_bridge_connect] and [input_bridge_disconnect] *)

(** The input core as the handler changes it: the registered handles
    and the opened ones (by device name) and the live handle
    allocations. *)
Record input_core := mk_core {
  handles : list string;
  opened : list string;
  handle_allocs : Z
}.

Fixpoint remove1 (x : string) (l : list string) : list string :=
  match l with
  | [] => []
  | y :: l' => if decide (x = y) then l' else y :: remove1 x l'
  end.

(** The outcomes of [kzalloc], [input_register_handle] and
    [input_open_device] are inputs. *)
Definition input_bridge_connect (sib : option sec_input_bridge_platform_data) (name : string)
    (kz_ok : bool) (register_rc open_rc : Z) (core : input_core) : option (Z * input_core) :=
  r ← input_bridge_check_support_dev sib name;
  if negb (r =? 0) then Some (- ENODEV, core)
  else if negb kz_ok then Some (- ENOMEM, core)
  else
    let core := mk_core (handles core) (opened core) (handle_allocs core + 1) in
    if negb (register_rc =? 0) then
      Some (register_rc, mk_core (handles core) (opened core) (handle_allocs core - 1))
    else
      let core := mk_core (name :: handles core) (opened core) (handle_allocs core) in
      if negb (open_rc =? 0) then
        Some (open_rc, mk_core (remove1 name (handles core)) (opened core) (handle_allocs core - 1))
      else Some (0, mk_core (handles core) (name :: opened core) (handle_allocs core)).

Definition input_bridge_disconnect (name : string) (core : input_core) : input_core :=
  mk_core (remove1 name (handles core)) (remove1 name (opened core)) (handle_allocs core - 1).

(** ** [sec_input_bridge_probe] and [sec_input_bridge_remove] *)

(** The ids of one map: [input_bridge_set_ids] on a zeroed id for
    [mkey_map[j]], [j < num_mkey]. *)
Definition map_ids (m : sec_input_bridge_mmap) : option (list input_device_id) :=
  mapM (fun j => k ← mkey_map m !! j; Some (input_bridge_set_ids id_zero (mkey_type k) (mkey_code k)))
    (seq 0 (Z.to_nat (num_mkey m))).

(** The table [input_bridge_ids]: the ids of the maps in order, then
    the zeroed terminator. *)
Definition input_bridge_ids (pd : sec_input_bridge_platform_data) : option (list input_device_id) :=
  ms ← mapM (fun i => mmap pd !! i) (seq 0 (Z.to_nat (num_map pd)));
  idss ← mapM map_ids ms;
  Some (concat idss ++ [id_zero]).

(** The bridge as the probe initialises it. *)
Definition bridge_init : sec_input_bridge :=
  mk_bridge 0 (replicate 32 0) SAFEMODE_INIT false false true true.

(** The driver's resources: the bridge and the id table while they
    are allocated, the handler (registered or not, and whether its
    [private] and [id_table] were set), the platform drvdata and the
    class device [sec_input_bridge]. *)
Record bridge_driver := mk_drv {
  bridge_alloc : option sec_input_bridge;
  ids_alloc : option (list input_device_id);
  handler_registered : bool;
  handler_private_set : bool;
  platform_drvdata : bool;
  class_device : bool
}.

Definition driver_unbound : bridge_driver := mk_drv None None false false false false.

(** The outcomes of the calls the probe makes. *)
Record probe_env := mk_env {
  of_node : bool;
  kz_pdata : bool;
  parse_dt : Z * sec_input_bridge_platform_data;
  board_pdata : option sec_input_bridge_platform_data;
  kz_bridge : bool;
  kz_ids : bool;
  register_handler_rc : Z;
  device_create_ok : bool
}.

(** The platform data: [devm_kzalloc] and [sec_input_bridge_parse_dt]
    with a device-tree node, the board's data otherwise. *)
Definition probe_pdata (env : probe_env) : Z + sec_input_bridge_platform_data :=
  if of_node env then
    if negb (kz_pdata env) then inl (- ENOMEM)
    else if negb ((parse_dt env).1 =? 0) then inl (parse_dt env).1
    else inr (parse_dt env).2
  else match board_pdata env with
       | Some pd => inr pd
       | None => inl (- ENOMEM)
       end.

(** [sec_input_bridge_probe]: the return code and the resources; the
    labels [error_3] (free the ids and the bridge) and [error_2] (free
    the bridge) as the code has them.  [None] is a read past
    [mmap] or [mkey_map]. *)
Definition sec_input_bridge_probe (env : probe_env) (drv : bridge_driver)
    : option (Z * bridge_driver) :=
  match probe_pdata env with
  | inl rc => Some (rc, drv)
  | inr pd =>
      if num_map pd =? 0 then Some (- EINVAL, drv)
      else if negb (kz_bridge env) then Some (- ENOMEM, drv)
      else
        ids ← input_bridge_ids pd;
        if negb (kz_ids env) then Some (- ENOMEM, drv)
        else
          let error_3 rc (d : bridge_driver) :=
            (rc, mk_drv None None (handler_registered d) true (platform_drvdata d) (class_device d)) in
          if negb (register_handler_rc env =? 0) then
            Some (error_3 (register_handler_rc env) drv)
          else
            let d := mk_drv (Some bridge_init) (Some ids) true true true (class_device drv) in
            if negb (device_create_ok env) then Some (error_3 (register_handler_rc env) d)
            else Some (0, mk_drv (bridge_alloc d) (ids_alloc d) true true true true)
  end.

(** [sec_input_bridge_remove]: [None] is a use of the freed bridge or
    a second [kfree] of the id table. *)
Definition sec_input_bridge_remove (drv : bridge_driver) : option bridge_driver :=
  if negb (platform_drvdata drv) then None
  else
    _ ← bridge_alloc drv;
    _ ← ids_alloc drv;
    Some (mk_drv None None false (handler_private_set drv) false (class_device drv)).

(** ** The bridge's events *)

Inductive bridge_step (pd : sec_input_bridge_platform_data) (id_table : list input_device_id)
    : sec_input_bridge -> sec_input_bridge -> Prop :=
  | bstep_event b type code value b' :
      input_bridge_event pd id_table b type code value = Some b' ->
      bridge_step pd id_table b b'
  | bstep_timer b :
      timer_pending b = true ->
      bridge_step pd id_table b (input_bridge_safemode_timer b)
  | bstep_work b b' outs :
      work_pending b = true ->
      input_bridge_work pd (set_work false b) = Some (b', outs) ->
      bridge_step pd id_table b b'.

(** A sequence of input events, handled in order. *)
Fixpoint run_events (pd : sec_input_bridge_platform_data) (id_table : list input_device_id)
    (b : sec_input_bridge) (evs : list (Z * Z * Z)) : option sec_input_bridge :=
  match evs with
  | [] => Some b
  | (type, code, value) :: evs' =>
      b' ← input_bridge_event pd id_table b type code value;
      run_events pd id_table b' evs'
  end.

(** The codes of the first [num_mkey] keys of a map, and their presses. *)
Definition map_codes (m : sec_input_bridge_mmap) : list Z :=
  mkey_code <$> take (Z.to_nat (num_mkey m)) (mkey_map m).

Definition key_presses (codes : list Z) : list (Z * Z * Z) :=
  (fun c => (EV_KEY, c, 1)) <$> codes.

(** ** Well-formed platform data and the bridge invariant *)

(** At least the two maps the handlers index ([INPUT_LOGDUMP] and
    [INPUT_SAFEMODE]), each with at least one key and no more keys
    than its array holds. *)
Definition pdata_wf (pd : sec_input_bridge_platform_data) : Prop :=
  (2 <= num_map pd <= Z.of_nat (length (mmap pd))) /\
  Forall (fun m => 1 <= num_mkey m <= Z.of_nat (length (mkey_map m))) (mmap pd).

(** The log-dump index stays below the length of its sequence, safe
    mode is either armed or off, and [first_power_release] is never
    cleared. *)
Record bridge_inv (pd : sec_input_bridge_platform_data) (b : sec_input_bridge) : Prop := {
  binv_len : length (check_index b) = 32%nat;
  binv_index : forall m, mmap pd !! INPUT_LOGDUMP = Some m ->
    0 <= check_index b !!! INPUT_LOGDUMP < num_mkey m;
  binv_safemode : safemode_flag b = SAFEMODE_INIT \/ safemode_flag b = 0;
  binv_release : first_power_release b = true
}.

Section Bridge.
Context (pd : sec_input_bridge_platform_data) (Hwf : pdata_wf pd).

Lemma pdata_wf_map i : (Z.of_nat i < num_map pd)%Z ->
  exists m, mmap pd !! i = Some m /\ 1 <= num_mkey m <= Z.of_nat (length (mkey_map m)).
Proof.
  intros Hi. destruct Hwf as [Hn Hall].
  destruct (lookup_lt_is_Some_2 (mmap pd) i) as [m Hm]; [lia|].
  exists m. split; [done|]. exact (Forall_lookup_1 _ _ _ _ Hall Hm).
Qed.

Lemma pdata_wf_key m : mmap pd !! INPUT_LOGDUMP = Some m \/ mmap pd !! INPUT_SAFEMODE = Some m ->
  1 <= num_mkey m <= Z.of_nat (length (mkey_map m)).
Proof.
  destruct Hwf as [_ Hall]. intros [Hm|Hm]; exact (Forall_lookup_1 _ _ _ _ Hall Hm).
Qed.

Lemma first_key_exists m : 1 <= num_mkey m <= Z.of_nat (length (mkey_map m)) ->
  exists k, mkey_map m !! 0%nat = Some k.
Proof. intros Hm. apply lookup_lt_is_Some_2. lia. Qed.

(** The fields of the bridge the log-dump matcher leaves alone. *)
Definition logdump_frame (b b' : sec_input_bridge) : Prop :=
  safemode_flag b' = safemode_flag b /\ timer_pending b' = timer_pending b /\
  first_power_press b' = first_power_press b /\ first_power_release b' = first_power_release b /\
  length (check_index b') = length (check_index b).

Lemma set_check_index_inv b v m :
  bridge_inv pd b -> mmap pd !! INPUT_LOGDUMP = Some m -> 0 <= v < num_mkey m ->
  bridge_inv pd (set_check_index v b).
Proof.
  intros [Hl Hi Hs Hr] Hm Hv. constructor; simpl; try done.
  - by rewrite length_insert.
  - intros m' Hm'. rewrite Hm in Hm'. injection Hm' as <-.
    rewrite lookup_total_insert_same; [lia|]. rewrite Hl. unfold INPUT_LOGDUMP. lia.
Qed.

Lemma set_flag_work_inv b f w :
  bridge_inv pd b -> bridge_inv pd (set_work w (set_uevent_flag f b)).
Proof. by intros []; constructor. Qed.

Lemma logdump_frame_set b v f w :
  logdump_frame b (set_check_index v (set_work w (set_uevent_flag f b))) /\
  logdump_frame b (set_check_index v b).
Proof. unfold logdump_frame; simpl. by rewrite !length_insert. Qed.

Lemma u8_inc_bounds x : 0 <= x -> 0 <= u8_inc x <= x + 1 /\ u8_inc x < 256.
Proof. unfold u8_inc. intros. pose proof (Z.mod_pos_bound (x + 1) 256). pose proof (Z.mod_le (x + 1) 256). lia. Qed.

Lemma logdump_total b code : bridge_inv pd b ->
  exists b', input_bridge_check_logdump pd b code = Some b' /\
    logdump_frame b b' /\ bridge_inv pd b'.
Proof.
  intros Hinv. destruct (pdata_wf_map 0) as (m & Hm & Hk); [destruct Hwf; simpl; lia|].
  change 0%nat with INPUT_LOGDUMP in Hm.
  pose proof (binv_index _ _ Hinv m Hm) as Hci.
  destruct (first_key_exists m Hk) as [k0 Hk0].
  destruct (lookup_lt_is_Some_2 (mkey_map m) (Z.to_nat (check_index b !!! INPUT_LOGDUMP)))
    as [k Hkk]; [lia|].
  assert (Hz : zlookup (mkey_map m) (check_index b !!! INPUT_LOGDUMP) = Some k)
    by (unfold zlookup; rewrite (proj2 (Z.leb_le _ _)) by lia; done).
  pose proof (logdump_frame_set b) as Hfr.
  unfold input_bridge_check_logdump. rewrite Hm. simpl.
  destruct (Z.gtb_spec (check_index b !!! INPUT_LOGDUMP) (num_mkey m)); [lia|].
  rewrite Hz. simpl.
  destruct (Z.eqb_spec (mkey_code k) code) as [Heq|Hne].
  - pose proof (u8_inc_bounds (check_index b !!! INPUT_LOGDUMP)) as Hu. specialize (Hu ltac:(lia)).
    destruct (Z.geb_spec (u8_inc (check_index b !!! INPUT_LOGDUMP)) (num_mkey m)).
    + eexists; split; [done|]. split; [apply (proj1 (Hfr _ _ _))|].
      apply (set_check_index_inv _ _ m); [by apply set_flag_work_inv|done|lia].
    + eexists; split; [done|]. split; [apply (proj2 (Hfr _ 0 false))|].
      apply (set_check_index_inv _ _ m); [done|done|lia].
  - rewrite Hk0. simpl. destruct (Z.eqb_spec (mkey_code k0) code).
    + assert (Hpos : check_index b !!! INPUT_LOGDUMP <> 0).
      { intros H0. rewrite H0 in Hkk. change (Z.to_nat 0) with 0%nat in Hkk. congruence. }
      eexists; split; [done|]. split; [apply (proj2 (Hfr _ 0 false))|].
      apply (set_check_index_inv _ _ m); [done|done|lia].
    + eexists; split; [done|]. split; [apply (proj2 (Hfr _ 0 false))|].
      apply (set_check_index_inv _ _ m); [done|done|lia].
Qed.

(** The fields of the bridge the safe-mode check leaves alone. *)
Definition safemode_frame (b b' : sec_input_bridge) : Prop :=
  check_index b' = check_index b /\ send_uevent_flag b' = send_uevent_flag b /\
  work_pending b' = work_pending b.

Lemma safemode_total b code value : bridge_inv pd b ->
  exists b', input_bridge_check_safemode pd b code value = Some b' /\
    safemode_frame b b' /\ bridge_inv pd b'.
Proof.
  intros Hinv. destruct (pdata_wf_map 1) as (m & Hm & Hk); [destruct Hwf; simpl; lia|].
  destruct (first_key_exists m Hk) as [k0 Hk0].
  unfold input_bridge_check_safemode. change 1%nat with INPUT_SAFEMODE in Hm. rewrite Hm. simpl.
  destruct Hinv as [Hl Hi Hs Hr].
  repeat case_match; simplify_eq/=; rewrite ?Hk0; simpl; repeat case_match;
    (eexists; split; [done|]);
    (split; [unfold safemode_frame; simpl; auto|constructor; simpl; auto]).
Qed.

Lemma rep_check_press id_table : bits_any 1 (rep_check id_table) = true.
Proof. unfold rep_check. by repeat case_match. Qed.

Lemma event_total id_table b type code value : bridge_inv pd b ->
  exists b', input_bridge_event pd id_table b type code value = Some b' /\ bridge_inv pd b'.
Proof.
  intros Hinv. unfold input_bridge_event.
  destruct (bridge_key code); simpl; [|eauto].
  destruct (type =? EV_KEY); [|eauto].
  assert (Hb1 : exists b1, (if bits_any value (rep_check id_table)
                            then input_bridge_check_logdump pd b code else Some b) = Some b1 /\
                           bridge_inv pd b1).
  { destruct (bits_any _ _); [|eauto]. destruct (logdump_total b code Hinv) as (b1 & -> & _ & ?); eauto. }
  destruct Hb1 as (b1 & -> & Hb1). simpl.
  destruct (safemode_flag b1 =? SAFEMODE_INIT); [|eauto].
  destruct (safemode_total b1 code value Hb1) as (b' & -> & _ & ?); eauto.
Qed.

Lemma timer_inv b : bridge_inv pd b -> bridge_inv pd (input_bridge_safemode_timer b).
Proof.
  intros [Hl Hi Hs Hr]. unfold input_bridge_safemode_timer.
  case_match; constructor; simpl; auto.
Qed.

Lemma work_loop_flag flag i n flag' outs :
  work_loop pd flag i n = Some (flag', outs) ->
  forall j, (j < i \/ i + n <= j)%nat -> Z.testbit flag' (Z.of_nat j) = Z.testbit flag (Z.of_nat j).
Proof.
  revert flag i outs. induction n as [|n IH]; intros flag i outs Hw j Hj; simpl in Hw.
  - by simplify_eq.
  - case_match.
    + destruct (mmap pd !! i); [|done]. simpl in Hw.
      destruct (work_map _ _); [|done]. simpl in Hw.
      destruct (work_loop _ _ _ _) as [[f r]|] eqn:Hr; [|done]. simpl in Hw. simplify_eq.
      rewrite (IH _ _ _ Hr j) by lia. unfold map_bit.
      rewrite Z.shiftl_1_l, Z.land_spec, Z.lnot_spec, Z.pow2_bits_eqb by lia.
      replace (Z.of_nat i =? Z.of_nat j) with false by (symmetry; apply Z.eqb_neq; lia).
      by rewrite andb_true_r.
    + apply (IH _ _ _ Hw j). lia.
Qed.

Lemma work_inv b b' outs : bridge_inv pd b -> input_bridge_work pd b = Some (b', outs) ->
  bridge_inv pd b'.
Proof.
  intros [Hl Hi Hs Hr] Hw. unfold input_bridge_work in Hw.
  destruct (work_loop _ _ _ _) as [[f o]|]; [|done]. simpl in Hw. simplify_eq.
  constructor; simpl; auto.
Qed.

(** Every step keeps the invariant. *)
Lemma bridge_step_inv id_table b b' :
  bridge_inv pd b -> bridge_step pd id_table b b' -> bridge_inv pd b'.
Proof.
  intros Hinv Hs. destruct Hs as [b t c v b' He|b Ht|b b' outs Hw Hwork].
  - destruct (event_total id_table b t c v Hinv) as (b'' & He' & ?). congruence.
  - by apply timer_inv.
  - apply (work_inv (set_work false b) b' outs); [|done]. destruct Hinv; by constructor.
Qed.

Lemma bridge_init_inv : bridge_inv pd bridge_init.
Proof.
  constructor; simpl; auto. intros m Hm.
  pose proof (pdata_wf_key m (or_introl Hm)). simpl. lia.
Qed.

Lemma bits_any_map_bit f i : bits_any f (map_bit i) = Z.testbit f (Z.of_nat i).
Proof.
  unfold bits_any, map_bit. rewrite Z.shiftl_1_l.
  destruct (Z.testbit f (Z.of_nat i)) eqn:Ht.
  - apply negb_true_iff, Z.eqb_neq. intros H0.
    assert (Hb : Z.testbit (f .& 2 ^ Z.of_nat i) (Z.of_nat i) = true)
      by (rewrite Z.land_spec, Z.pow2_bits_eqb, Z.eqb_refl by lia; by rewrite Ht).
    rewrite H0, Z.bits_0 in Hb. done.
  - apply negb_false_iff, Z.eqb_eq, Z.bits_inj'. intros n Hn.
    rewrite Z.land_spec, Z.pow2_bits_eqb, Z.bits_0 by lia.
    destruct (Z.eqb_spec (Z.of_nat i) n); subst; [by rewrite Ht|by rewrite andb_false_r].
Qed.

Lemma work_loop_clears flag i n flag' outs :
  work_loop pd flag i n = Some (flag', outs) ->
  forall j, (i <= j < i + n)%nat -> Z.testbit flag' (Z.of_nat j) = false.
Proof.
  revert flag i outs. induction n as [|n IH]; intros flag i outs Hw j Hj; [lia|]. simpl in Hw.
  destruct (decide (j = i)) as [->|Hne].
  - destruct (bits_any flag (map_bit i)) eqn:Hb.
    + destruct (mmap pd !! i); [|done]. simpl in Hw.
      destruct (work_map _ _); [|done]. simpl in Hw.
      destruct (work_loop _ _ _ _) as [[f r]|] eqn:Hr; [|done]. simpl in Hw. simplify_eq.
      rewrite (work_loop_flag _ _ _ _ _ Hr i) by lia. unfold map_bit.
      rewrite Z.shiftl_1_l, Z.land_spec, Z.lnot_spec, Z.pow2_bits_eqb, Z.eqb_refl by lia.
      by rewrite andb_false_r.
    + rewrite (work_loop_flag _ _ _ _ _ Hw i) by lia. by rewrite <- bits_any_map_bit.
  - case_match.
    + destruct (mmap pd !! i); [|done]. simpl in Hw.
      destruct (work_map _ _); [|done]. simpl in Hw.
      destruct (work_loop _ _ _ _) as [[f r]|] eqn:Hr; [|done]. simpl in Hw. simplify_eq.
      apply (IH _ _ _ Hr). lia.
    + apply (IH _ _ _ Hw). lia.
Qed.

Lemma work_loop_overflow flag i n j m :
  (i <= j < i + n)%nat -> Z.testbit flag (Z.of_nat j) = true ->
  mmap pd !! j = Some m -> enable_uevent m = true -> env_sprintf m = None ->
  work_loop pd flag i n = None.
Proof.
  revert flag i. induction n as [|n IH]; intros flag i Hj Hb Hm He Hs; [lia|]. simpl.
  destruct (decide (j = i)) as [->|Hne].
  - rewrite bits_any_map_bit, Hb, Hm. simpl. unfold work_map. by rewrite He, Hs.
  - case_match.
    + destruct (mmap pd !! i); [|done]. simpl.
      destruct (work_map _ _); [|done]. simpl.
      rewrite (IH _ (S i)); [done|lia| |done|done|done].
      unfold map_bit. rewrite Z.shiftl_1_l, Z.land_spec, Z.lnot_spec, Z.pow2_bits_eqb by lia.
      replace (Z.of_nat i =? Z.of_nat j) with false by (symmetry; apply Z.eqb_neq; lia).
      by rewrite Hb.
    + apply IH; [lia|done|done|done|done].
Qed.

Lemma logdump_match b m k j :
  mmap pd !! INPUT_LOGDUMP = Some m -> check_index b !!! INPUT_LOGDUMP = j ->
  0 <= j < num_mkey m -> zlookup (mkey_map m) j = Some k -> j + 1 < 256 ->
  input_bridge_check_logdump pd b (mkey_code k) =
    Some (if j + 1 >=? num_mkey m
          then set_check_index 0
                 (set_work true (set_uevent_flag (send_uevent_flag b .| map_bit INPUT_LOGDUMP) b))
          else set_check_index (j + 1) b).
Proof.
  intros Hm <- Hj Hk H256. unfold input_bridge_check_logdump. rewrite Hm. simpl.
  destruct (Z.gtb_spec (check_index b !!! INPUT_LOGDUMP) (num_mkey m)); [lia|].
  rewrite Hk. simpl. rewrite Z.eqb_refl. unfold u8_inc. rewrite Z.mod_small by lia. by case_match.
Qed.

Lemma event_press id_table b code b1 :
  bridge_inv pd b -> bridge_key code = true ->
  input_bridge_check_logdump pd b code = Some b1 ->
  exists b', input_bridge_event pd id_table b EV_KEY code 1 = Some b' /\
    safemode_frame b1 b' /\ bridge_inv pd b'.
Proof.
  intros Hinv Hk Hl. destruct (logdump_total b code Hinv) as (b1' & Hl' & _ & Hinv1).
  rewrite Hl in Hl'. injection Hl' as <-.
  unfold input_bridge_event. rewrite Hk. simpl. rewrite rep_check_press, Hl. simpl.
  destruct (safemode_flag b1 =? SAFEMODE_INIT).
  - destruct (safemode_total b1 code 1 Hinv1) as (b' & -> & ? & ?). eauto.
  - exists b1. split; [done|]. split; [done|]. done.
Qed.

Lemma bits_any_lor_map_bit f i : bits_any (f .| map_bit i) (map_bit i) = true.
Proof.
  rewrite bits_any_map_bit. unfold map_bit.
  rewrite Z.lor_spec, Z.shiftl_1_l, Z.pow2_bits_eqb, Z.eqb_refl by lia. apply orb_true_r.
Qed.

Lemma logdump_feed id_table m :
  mmap pd !! INPUT_LOGDUMP = Some m -> num_mkey m <= 255 ->
  Forall (fun c => bridge_key c = true) (map_codes m) ->
  forall l j b, drop j (map_codes m) = l -> l <> [] -> bridge_inv pd b ->
    check_index b !!! INPUT_LOGDUMP = Z.of_nat j ->
    exists b', run_events pd id_table b (key_presses l) = Some b' /\
      bits_any (send_uevent_flag b') (map_bit INPUT_LOGDUMP) = true /\
      work_pending b' = true /\ check_index b' !!! INPUT_LOGDUMP = 0 /\ bridge_inv pd b'.
Proof.
  intros Hm H255 Hkeys l. pose proof (pdata_wf_key m (or_introl Hm)) as Hk.
  assert (Hlen : length (map_codes m) = Z.to_nat (num_mkey m))
    by (unfold map_codes; rewrite length_fmap, length_take; lia).
  induction l as [|c l IH]; intros j b Hd Hne Hinv Hci; [done|].
  assert (Hc : map_codes m !! j = Some c) by (rewrite <- (Nat.add_0_r j), <- lookup_drop, Hd; done).
  assert (Hj : (j < Z.to_nat (num_mkey m))%nat) by (rewrite <- Hlen; by eapply lookup_lt_Some).
  unfold map_codes in Hc. rewrite list_lookup_fmap, lookup_take, decide_True in Hc by lia.
  destruct (mkey_map m !! j) as [k|] eqn:Hkj; [|done]. injection Hc as <-.
  assert (Hz : zlookup (mkey_map m) (Z.of_nat j) = Some k)
    by (unfold zlookup; rewrite (proj2 (Z.leb_le _ _)), Nat2Z.id by lia; done).
  pose proof (logdump_match b m k (Z.of_nat j) Hm Hci ltac:(lia) Hz ltac:(lia)) as Hl.
  assert (Hkey : bridge_key (mkey_code k) = true)
    by (rewrite Forall_forall in Hkeys; apply Hkeys;
        rewrite <- (take_drop j (map_codes m)), Hd; apply elem_of_app; right; apply list_elem_of_here).
  destruct (event_press id_table _ _ _ Hinv Hkey Hl) as (b' & He & (Hc1 & Hf1 & Hw1) & Hinv').
  simpl. rewrite He. simpl.
  destruct (Z.geb_spec (Z.of_nat j + 1) (num_mkey m)).
  - assert (l = []) as ->.
    { assert (Hl0 : length (drop j (map_codes m)) = 1%nat) by (rewrite length_drop; lia).
      rewrite Hd in Hl0. by destruct l. }
    exists b'. simpl. rewrite Hc1, Hf1, Hw1. simpl. split; [done|].
    split; [apply bits_any_lor_map_bit|]. split; [done|]. split; [|done].
    rewrite lookup_total_insert_same; [done|]. rewrite (binv_len _ _ Hinv). unfold INPUT_LOGDUMP. lia.
  - apply (IH (S j)); [| |done|].
    + replace (S j) with (j + 1)%nat by lia. by rewrite <- drop_drop, Hd.
    + intros ->. assert (Hl0 : length (drop j (map_codes m)) = 1%nat) by (rewrite Hd; done).
      rewrite length_drop in Hl0. lia.
    + rewrite Hc1. simpl. rewrite lookup_total_insert_same; [lia|].
      rewrite (binv_len _ _ Hinv). unfold INPUT_LOGDUMP. lia.
Qed.

Lemma logdump_flag b code b' :
  input_bridge_check_logdump pd b code = Some b' ->
  send_uevent_flag b' = send_uevent_flag b \/
  send_uevent_flag b' = send_uevent_flag b .| map_bit INPUT_LOGDUMP.
Proof.
  unfold input_bridge_check_logdump. intros H.
  repeat (case_match || simplify_eq/= || destruct (_ !! _) || destruct (zlookup _ _)); auto.
Qed.

Lemma safemode_flag_frame b code value b' :
  input_bridge_check_safemode pd b code value = Some b' ->
  send_uevent_flag b' = send_uevent_flag b.
Proof.
  unfold input_bridge_check_safemode. intros H.
  repeat (case_match || simplify_eq/= || destruct (_ !! _)); auto.
Qed.

Lemma work_loop_sub flag i n flag' outs j :
  work_loop pd flag i n = Some (flag', outs) ->
  Z.testbit flag' (Z.of_nat j) = true -> Z.testbit flag (Z.of_nat j) = true.
Proof.
  intros Hw Hb. destruct (decide (i <= j < i + n)%nat).
  - by rewrite (work_loop_clears _ _ _ _ _ Hw j) in Hb.
  - by rewrite (work_loop_flag _ _ _ _ _ Hw j) in Hb by lia.
Qed.

Lemma logdump_safemode_flag b code b' :
  input_bridge_check_logdump pd b code = Some b' -> safemode_flag b' = safemode_flag b.
Proof.
  unfold input_bridge_check_logdump. intros H.
  repeat (case_match || simplify_eq/= || destruct (_ !! _) || destruct (zlookup _ _)); auto.
Qed.

End Bridge.

(** ** Device names *)

(** A text without NUL characters (a C string's characters). *)
Definition no_nul (s : string) : Prop :=
  Forall (fun c => c <> Ascii.zero) (String.list_ascii_of_string s).

Lemma strncmp_prefix s t : no_nul s ->
  strncmp s t (String.length s) = 0 <-> String.prefix s t = true.
Proof.
  revert t. induction s as [|c s IH]; intros t Hs; [by destruct t|].
  inversion Hs as [|? ? Hc Hs']; subst.
  destruct t as [|c2 t]; simpl.
  - split; [|done]. intros H0. exfalso. apply Hc.
    rewrite <- (ascii_nat_embedding c). assert (nat_of_ascii c = 0%nat) as -> by lia. done.
  - destruct (decide (c = c2)) as [<-|Hne].
    + destruct (ascii_dec c c); [|done]. by apply IH.
    + destruct (ascii_dec c c2); [done|]. split; [|done]. intros H0. exfalso. apply Hne.
      rewrite <- (ascii_nat_embedding c), <- (ascii_nat_embedding c2). f_equal. lia.
Qed.

Lemma support_scan_spec names name i n :
  no_nul name -> (i + n <= length names)%nat ->
  support_scan names name i n = Some 0 <->
  exists j s, (i <= j < i + n)%nat /\ names !! j = Some s /\ String.prefix name s = true.
Proof.
  intros Hn. revert i. induction n as [|n IH]; intros i Hi; simpl.
  - split; [done|]. intros (j & s & Hj & _). lia.
  - destruct (lookup_lt_is_Some_2 names i) as [s Hs]; [lia|]. rewrite Hs. simpl.
    destruct (Z.eqb_spec (strncmp name s (String.length name)) 0) as [Heq|Hne].
    + split; [|done]. intros _. exists i, s. split; [lia|]. split; [done|].
      by apply strncmp_prefix.
    + rewrite IH by lia. split.
      * intros (j & s' & Hj & Hs' & Hp). exists j, s'. split; [lia|done].
      * intros (j & s' & Hj & Hs' & Hp). exists j, s'. split; [|done].
        destruct (decide (j = i)) as [->|]; [|lia].
        rewrite Hs in Hs'. injection Hs' as <-. by apply strncmp_prefix in Hp.
Qed.

(** ** Properties of the bridge *)

(** The invariant holds in every reachable state. *)
Lemma bridge_reachable_inv pd id_table b :
  pdata_wf pd -> star (bridge_step pd id_table) bridge_init b -> bridge_inv pd b.
Proof.
  intros Hwf Hr.
  inv_star (bridge_step_inv pd Hwf id_table) Hr; apply (bridge_init_inv pd Hwf).
Qed.

(** C16: For platform data with the two maps the handlers index and
    nonempty key maps, every bridge state reachable from the probe's
    initial state by input events, timer expiries and work runs keeps
    the log-dump index below its sequence length, and in it every input
    event is handled without reading past mmap or mkey_map. *)
Theorem bridge_reachable_safe pd id_table b :
  pdata_wf pd -> star (bridge_step pd id_table) bridge_init b ->
  bridge_inv pd b /\ forall type code value, is_Some (input_bridge_event pd id_table b type code value).
Proof.
  intros Hwf Hr. pose proof (bridge_reachable_inv pd id_table b Hwf Hr) as Hinv.
  split; [done|]. intros type code value.
  destruct (event_total pd Hwf id_table b type code value Hinv) as (b' & -> & _). done.
Qed.

(** C17: From a reset matcher, pressing the keys of the log-dump map in
    order (at most 255 keys, all among volume up/down, power and menu)
    sets the log-dump bit of send_uevent_flag and schedules the work,
    whatever the safe-mode check does on the way. *)
Theorem logdump_sequence_detected pd id_table m b :
  pdata_wf pd -> mmap pd !! INPUT_LOGDUMP = Some m -> num_mkey m <= 255 ->
  Forall (fun c => bridge_key c = true) (map_codes m) ->
  bridge_inv pd b -> check_index b !!! INPUT_LOGDUMP = 0 ->
  exists b', run_events pd id_table b (key_presses (map_codes m)) = Some b' /\
    bits_any (send_uevent_flag b') (map_bit INPUT_LOGDUMP) = true /\ work_pending b' = true.
Proof.
  intros Hwf Hm H255 Hkeys Hinv Hci.
  pose proof (pdata_wf_key pd Hwf m (or_introl Hm)) as Hk.
  destruct (logdump_feed pd Hwf id_table m Hm H255 Hkeys (map_codes m) 0 b)
    as (b' & Hr & Hb & Hw & _); [done| |done|done|eauto].
  intros H0. assert (Hl : length (map_codes m) = 0%nat) by (by rewrite H0).
  unfold map_codes in Hl. rewrite length_fmap, length_take in Hl. lia.
Qed.

(** In every reachable state the safe-mode check drops a power-key
    release, because its release branch clears first_power_press instead
    of first_power_release, so every release is taken for the first one. *)
Theorem power_release_always_ignored pd id_table b :
  pdata_wf pd -> star (bridge_step pd id_table) bridge_init b ->
  input_bridge_check_safemode pd b KEY_POWER 0 = Some (set_first_power_press false b).
Proof.
  intros Hwf Hr. pose proof (bridge_reachable_inv pd id_table b Hwf Hr) as Hinv.
  destruct (pdata_wf_map pd Hwf 1) as (m & Hm & _); [destruct Hwf; simpl; lia|].
  unfold input_bridge_check_safemode. change 1%nat with INPUT_SAFEMODE in Hm. rewrite Hm. simpl.
  rewrite (binv_release _ _ Hinv). by destruct (first_power_press b).
Qed.

(** Once safe mode is disabled it stays disabled, and no later step
    sets the safe-mode bit of send_uevent_flag. *)
Theorem safemode_disabled_stays pd id_table b b' :
  bridge_step pd id_table b b' -> safemode_flag b <> SAFEMODE_INIT ->
  safemode_flag b' = safemode_flag b /\
  (Z.testbit (send_uevent_flag b') (Z.of_nat INPUT_SAFEMODE) = true ->
   Z.testbit (send_uevent_flag b) (Z.of_nat INPUT_SAFEMODE) = true).
Proof.
  intros Hs Hoff. destruct Hs as [b type code value b' He|b Ht|b b' outs Hw Hwork].
  - unfold input_bridge_event in He.
    destruct (bridge_key code); simpl in He; [|by simplify_eq].
    destruct (type =? EV_KEY); [|by simplify_eq].
    destruct (bits_any _ _); [|simpl in He; apply Z.eqb_neq in Hoff; rewrite Hoff in He; by simplify_eq].
    destruct (input_bridge_check_logdump pd b code) as [b1|] eqn:Hl; [|done]. simpl in He.
    rewrite (logdump_safemode_flag pd b code b1 Hl) in He.
    apply Z.eqb_neq in Hoff. rewrite Hoff in He. injection He as <-.
    split; [apply (logdump_safemode_flag pd b code b1 Hl)|].
    destruct (logdump_flag pd b code b1 Hl) as [->| ->]; [done|].
    unfold map_bit, INPUT_SAFEMODE, INPUT_LOGDUMP. rewrite Z.lor_spec, Z.shiftl_1_l, Z.pow2_bits_eqb by lia.
    by rewrite orb_false_r.
  - unfold input_bridge_safemode_timer. simpl. apply Z.eqb_neq in Hoff. rewrite Hoff. by split.
  - unfold input_bridge_work in Hwork.
    destruct (work_loop _ _ _ _) as [[f o]|] eqn:Hl; [|done].
    injection Hwork as <- _. split; [done|]. apply (work_loop_sub pd _ _ _ _ _ INPUT_SAFEMODE Hl).
Qed.

(** When a pending map with uevents enabled has an environment text
    str=value of 16 characters or more, input_bridge_work cannot format
    it into its 16-byte env_str without overflowing the buffer. *)
Theorem input_bridge_work_overflow pd b i m :
  (Z.of_nat i < num_map pd) -> Z.testbit (send_uevent_flag b) (Z.of_nat i) = true ->
  mmap pd !! i = Some m -> enable_uevent m = true ->
  (16 <= String.length (uevent_env_str m ++ "=" ++ uevent_env_value m))%nat ->
  input_bridge_work pd b = None.
Proof.
  intros Hi Hb Hm He Hlen. unfold input_bridge_work.
  rewrite (work_loop_overflow pd _ 0 _ i m); [done|lia|done|done|done|].
  unfold env_sprintf. destruct (Nat.ltb_spec (String.length (uevent_env_str m ++ "=" ++ uevent_env_value m)) 16); [lia|done].
Qed.

(** input_bridge_check_support_dev accepts a device exactly when
    its name is a prefix of one of the supported names (strncmp over the
    length of the device's name), not only when it equals one. *)
Theorem check_support_dev_prefix pd name :
  no_nul name -> (Z.to_nat (num_dev pd) <= length (support_dev_name pd))%nat ->
  input_bridge_check_support_dev (Some pd) name = Some 0 <->
  exists i s, (Z.of_nat i < num_dev pd) /\ support_dev_name pd !! i = Some s /\
    String.prefix name s = true.
Proof.
  intros Hn Hlen. simpl. rewrite support_scan_spec by (done || lia).
  split; intros (j & s & Hj & Hs & Hp); exists j, s; (split; [lia|done]).
Qed.

(** When device_create fails, sec_input_bridge_probe returns 0 with
    the handler still registered while the bridge and the id table are
    freed, and sec_input_bridge_remove then uses the freed bridge and
    frees the id table again. *)
Theorem probe_device_create_failure env pd :
  probe_pdata env = inr pd -> num_map pd <> 0 -> kz_bridge env = true -> kz_ids env = true ->
  register_handler_rc env = 0 -> device_create_ok env = false -> is_Some (input_bridge_ids pd) ->
  exists drv, sec_input_bridge_probe env driver_unbound = Some (0, drv) /\
    handler_registered drv = true /\ bridge_alloc drv = None /\ ids_alloc drv = None /\
    sec_input_bridge_remove drv = None.
Proof.
  intros Hp Hn Hb Hi Hr Hd [ids Hids]. unfold sec_input_bridge_probe.
  rewrite Hp, (proj2 (Z.eqb_neq _ _) Hn), Hb, Hids, Hi, Hr, Hd. simpl. by eexists.
Qed.

(** A probe that fails leaves nothing allocated and the handler
    unregistered. *)
Lemma probe_error_releases env rc drv :
  sec_input_bridge_probe env driver_unbound = Some (rc, drv) -> rc <> 0 ->
  handler_registered drv = false /\ bridge_alloc drv = None /\ ids_alloc drv = None.
Proof.
  unfold sec_input_bridge_probe. intros H Hrc.
  repeat (case_match || simplify_eq/= || destruct (input_bridge_ids _)); try done.
  all: match goal with H : (_ =? 0) = false |- _ => apply Z.eqb_neq in H | _ => idtac end.
  all: try done.
  all: match goal with H : negb (?x =? 0) = false |- _ =>
         apply negb_false_iff, Z.eqb_eq in H; congruence | _ => idtac end.
Qed.

(** ** A board configuration

    Volume-up, volume-up, volume-down for the log dump, a long press
    of volume-down for safe mode ([KOBJ_CHANGE] is 2), one supported
    device. *)

Definition logdump_example : sec_input_bridge_mmap :=
  mk_mmap [mk_mkey 1 KEY_VOLUMEUP; mk_mkey 1 KEY_VOLUMEUP; mk_mkey 1 KEY_VOLUMEDOWN] 3
    "APPS_LOG" "ON" true 2 false.

Definition safemode_example : sec_input_bridge_mmap :=
  mk_mmap [mk_mkey 1 KEY_VOLUMEDOWN] 1 "SAFE_MODE" "ON" true 2 false.

Definition example_pdata : sec_input_bridge_platform_data :=
  mk_pdata [logdump_example; safemode_example] 2 false 1 ["gpio-keys"].

Lemma example_pdata_wf : pdata_wf example_pdata.
Proof. split; [simpl; lia|]. repeat constructor; simpl; lia. Qed.

(** The log-dump matcher misses a sequence that overlaps a partial
    match: with the map volume-up, volume-up, volume-down, the input
    volume-up, volume-up, volume-up, volume-down ends with the sequence
    but raises nothing, as the matcher falls back to index 1 and then
    fails. *)
Theorem logdump_overlap_missed :
  map_codes logdump_example = [KEY_VOLUMEUP; KEY_VOLUMEUP; KEY_VOLUMEDOWN] /\
  exists b', run_events example_pdata [] bridge_init
               (key_presses [KEY_VOLUMEUP; KEY_VOLUMEUP; KEY_VOLUMEUP; KEY_VOLUMEDOWN]) = Some b' /\
             bits_any (send_uevent_flag b') (map_bit INPUT_LOGDUMP) = false /\
             check_index b' !!! INPUT_LOGDUMP = 0.
Proof. split; [reflexivity|]. eexists; split; [vm_compute; reflexivity|]. vm_compute. by split. Qed.

(** ** Witnesses *)

Lemma bridge_reachable_safe_witness :
  exists b, bridge_inv example_pdata b /\
    forall type code value, is_Some (input_bridge_event example_pdata [] b type code value).
Proof.
  eexists. apply (bridge_reachable_safe example_pdata []); [exact example_pdata_wf|].
  eapply star_step; [eapply (bstep_event _ _ _ EV_KEY KEY_VOLUMEUP 1); vm_compute; reflexivity|].
  apply star_refl.
Defined.

Lemma logdump_sequence_detected_witness :
  exists b', run_events example_pdata [] bridge_init (key_presses (map_codes logdump_example)) = Some b' /\
    bits_any (send_uevent_flag b') (map_bit INPUT_LOGDUMP) = true /\ work_pending b' = true.
Proof.
  apply (logdump_sequence_detected example_pdata [] logdump_example bridge_init example_pdata_wf);
    [reflexivity|simpl; lia|repeat constructor|apply (bridge_init_inv _ example_pdata_wf)|reflexivity].
Defined.

Lemma power_release_always_ignored_witness :
  input_bridge_check_safemode example_pdata bridge_init KEY_POWER 0 =
    Some (set_first_power_press false bridge_init).
Proof.
  apply (power_release_always_ignored example_pdata []); [exact example_pdata_wf|apply star_refl].
Defined.

Lemma safemode_disabled_stays_witness :
  let b := set_timer true (set_safemode_flag 0 bridge_init) in
  safemode_flag (input_bridge_safemode_timer b) = safemode_flag b /\
  (Z.testbit (send_uevent_flag (input_bridge_safemode_timer b)) (Z.of_nat INPUT_SAFEMODE) = true ->
   Z.testbit (send_uevent_flag b) (Z.of_nat INPUT_SAFEMODE) = true).
Proof.
  intros b. apply (safemode_disabled_stays example_pdata []); [|vm_compute; discriminate].
  apply bstep_timer. reflexivity.
Defined.

Lemma input_bridge_work_overflow_witness :
  input_bridge_work
    (mk_pdata [mk_mmap [mk_mkey 1 KEY_VOLUMEUP] 1 "APPS_LOG_REQUEST" "ENABLED" true 2 false;
               safemode_example] 2 false 1 ["gpio-keys"])
    (set_uevent_flag 1 bridge_init) = None.
Proof. eapply (input_bridge_work_overflow _ _ 0); [simpl; lia|reflexivity|reflexivity|reflexivity|simpl; lia]. Defined.

Lemma check_support_dev_prefix_witness :
  input_bridge_check_support_dev (Some example_pdata) "gpio" = Some 0.
Proof.
  apply (check_support_dev_prefix example_pdata "gpio"); [repeat constructor; discriminate|simpl; lia|].
  exists 0%nat, "gpio-keys"%string. split; [simpl; lia|]. split; reflexivity.
Defined.

Lemma probe_device_create_failure_witness :
  exists drv, sec_input_bridge_probe
      (mk_env false false (- ENODEV, example_pdata) (Some example_pdata) true true 0 false)
      driver_unbound = Some (0, drv) /\
    handler_registered drv = true /\ bridge_alloc drv = None /\ ids_alloc drv = None /\
    sec_input_bridge_remove drv = None.
Proof.
  apply (probe_device_create_failure _ example_pdata);
    [reflexivity|discriminate|reflexivity|reflexivity|reflexivity|reflexivity|eexists; vm_compute; reflexivity].
Defined.

End InputBridge.
