(* ===== verification/FuelGauge.v ===== *)
(** * Samsung fuel gauge: the state of charge reported to Android

    Models [src/drivers/power/sec_fuelgauge.c]: the power-supply
    callbacks [sec_fg_get_property] (with the capacity pipeline
    [sec_fg_get_scaled_capacity] and [sec_fg_get_atomic_capacity]) and
    [sec_fg_set_property], the dynamic rescaling
    [sec_fg_calculate_dynamic_scale], the fuel-alert interrupt
    [sec_fg_irq_thread], the sysfs files [sec_fg_create_attrs],
    [sec_fg_show_attrs], [sec_fg_store_attrs], and the two probes
    (platform device for [CONFIG_FUELGAUGE_SPRD4SAMSUNG27X3], I2C
    client otherwise) with suspend, resume and remove.

    The chip is reached through the [sec_hal_fg_*] functions of a
    chip-specific file outside the slice: each call's answer is an
    argument of the operation that makes it ([option Z] for a read
    that can fail, [bool] for a call that reports success).  The
    driver's state is the record [sec_fuelgauge_info]; the platform
    data is [sec_fuelgauge_pdata]. *)

From S2P Require Import Prelude.

Module FuelGauge.

Local Open Scope Z_scope.

(** ** Constants of [include/linux/power_supply.h] and
    [sec_charging_common.h] (outside the slice) *)

(** The properties the callbacks name; any other is [PROP_other]. *)
Inductive power_supply_property :=
  | POWER_SUPPLY_PROP_STATUS
  | POWER_SUPPLY_PROP_PRESENT
  | POWER_SUPPLY_PROP_ONLINE
  | POWER_SUPPLY_PROP_VOLTAGE_NOW
  | POWER_SUPPLY_PROP_VOLTAGE_AVG
  | POWER_SUPPLY_PROP_CURRENT_NOW
  | POWER_SUPPLY_PROP_CURRENT_AVG
  | POWER_SUPPLY_PROP_CHARGE_FULL
  | POWER_SUPPLY_PROP_ENERGY_NOW
  | POWER_SUPPLY_PROP_CAPACITY
  | POWER_SUPPLY_PROP_TEMP
  | POWER_SUPPLY_PROP_TEMP_AMBIENT
  | PROP_other (n : Z).

#[export] Instance power_supply_property_eq_dec : EqDecision power_supply_property.
Proof. solve_decision. Defined.

Definition POWER_SUPPLY_STATUS_FULL : Z := 4.
Definition POWER_SUPPLY_TYPE_UNKNOWN : Z := 0.
Definition POWER_SUPPLY_TYPE_BATTERY : Z := 1.

Definition SEC_FUELGAUGE_CAPACITY_TYPE_RESET : Z := -1.
Definition SEC_FUELGAUGE_CAPACITY_TYPE_RAW : Z := 0x1.
Definition SEC_FUELGAUGE_CAPACITY_TYPE_SCALE : Z := 0x2.
Definition SEC_FUELGAUGE_CAPACITY_TYPE_DYNAMIC_SCALE : Z := 0x4.
Definition SEC_FUELGAUGE_CAPACITY_TYPE_ATOMIC : Z := 0x8.
Definition SEC_FUELGAUGE_CAPACITY_TYPE_SKIP_ABNORMAL : Z := 0x10.

(** The sysfs files [reg], [data], [regs] of [sec_fg_attrs]. *)
Definition FG_REG : Z := 0.
Definition FG_DATA : Z := 1.
Definition FG_REGS : Z := 2.
Definition sec_fg_attrs_count : nat := 3.

(** ** Data *)

(** The fields of the platform data the driver reads; [fg_gpio_init]
    and [fuelalert_process] are callbacks whose answers are inputs.
    [pd_capacity_max] is [pdata->capacity_max]. *)
Record sec_fuelgauge_pdata := mk_fg_pdata {
  capacity_min : Z;
  pd_capacity_max : Z;
  capacity_max_margin : Z;
  capacity_calculation_type : Z;
  fuel_alert_soc : Z;
  repeated_fuelalert : bool;
  fg_irq : Z
}.

(** [struct sec_fuelgauge_info]: the fields the driver changes, with
    the wake lock [fuel_alert_wake_lock] (held or not) and the delayed
    work [isr_work] (pending or not). *)
Record sec_fuelgauge_info := mk_fg {
  capacity_max : Z;
  capacity_old : Z;
  is_charging : bool;
  is_fuel_alerted : bool;
  initial_update_of_soc : bool;
  cable_type : Z;
  fuel_alert_wake_lock : bool;
  isr_work_pending : bool
}.

(** [kzalloc]: every field 0. *)
Definition fg_zero : sec_fuelgauge_info := mk_fg 0 0 false false false 0 false false.

Definition set_capacity_max (v : Z) (fg : sec_fuelgauge_info) : sec_fuelgauge_info :=
  mk_fg v (capacity_old fg) (is_charging fg) (is_fuel_alerted fg) (initial_update_of_soc fg)
    (cable_type fg) (fuel_alert_wake_lock fg) (isr_work_pending fg).

Definition set_capacity_old (v : Z) (fg : sec_fuelgauge_info) : sec_fuelgauge_info :=
  mk_fg (capacity_max fg) v (is_charging fg) (is_fuel_alerted fg) (initial_update_of_soc fg)
    (cable_type fg) (fuel_alert_wake_lock fg) (isr_work_pending fg).

Definition set_initial_update (b : bool) (fg : sec_fuelgauge_info) : sec_fuelgauge_info :=
  mk_fg (capacity_max fg) (capacity_old fg) (is_charging fg) (is_fuel_alerted fg) b
    (cable_type fg) (fuel_alert_wake_lock fg) (isr_work_pending fg).

(** [cable_type] and [is_charging], as [POWER_SUPPLY_PROP_ONLINE] sets them. *)
Definition set_cable (c : Z) (charging : bool) (fg : sec_fuelgauge_info) : sec_fuelgauge_info :=
  mk_fg (capacity_max fg) (capacity_old fg) charging (is_fuel_alerted fg) (initial_update_of_soc fg)
    c (fuel_alert_wake_lock fg) (isr_work_pending fg).

(** [is_fuel_alerted], the wake lock and the pending work, as the
    interrupt sets them. *)
Definition set_alert (alerted lock pending : bool) (fg : sec_fuelgauge_info) : sec_fuelgauge_info :=
  mk_fg (capacity_max fg) (capacity_old fg) (is_charging fg) alerted (initial_update_of_soc fg)
    (cable_type fg) lock pending.

(** ** The capacity pipeline *)

(** [sec_fg_get_scaled_capacity]: 0.1% units scaled from
    [[capacity_min, capacity_max]] to [[0, 1000]]; [None] is the
    division by zero when [capacity_max = capacity_min]. *)
Definition sec_fg_get_scaled_capacity (pd : sec_fuelgauge_pdata) (fg : sec_fuelgauge_info)
    (v : Z) : option Z :=
  if v <? capacity_min pd then Some 0
  else if capacity_max fg - capacity_min pd =? 0 then None
  else Some (c_div ((v - capacity_min pd) * 1000) (capacity_max fg - capacity_min pd)).

(** [sec_fg_get_atomic_capacity]: at most one percent of change per
    report ([ATOMIC]), no change against the charging direction
    ([SKIP_ABNORMAL]); the result becomes [capacity_old]. *)
Definition sec_fg_get_atomic_capacity (pd : sec_fuelgauge_pdata) (fg : sec_fuelgauge_info)
    (v : Z) : sec_fuelgauge_info * Z :=
  let old := capacity_old fg in
  let v := if bits_any (capacity_calculation_type pd) SEC_FUELGAUGE_CAPACITY_TYPE_ATOMIC then
             if old <? v then old + 1 else if old >? v then old - 1 else v
           else v in
  let v := if bits_any (capacity_calculation_type pd) SEC_FUELGAUGE_CAPACITY_TYPE_SKIP_ABNORMAL then
             if (is_charging fg && (old >? v)) || (negb (is_charging fg) && (old <? v)) then old else v
           else v in
  (set_capacity_old v fg, v).

(** The clamp to [[0, 1000]] and the integer percent. *)
Definition capacity_percent (v : Z) : Z :=
  let v := if v >? 1000 then 1000 else v in
  let v := if v <? 0 then 0 else v in
  c_div v 10.

(** The [POWER_SUPPLY_PROP_CAPACITY] branch after the HAL answered
    [v]: [None] is the division by zero of the scaling. *)
Definition capacity_report (pd : sec_fuelgauge_pdata) (fg : sec_fuelgauge_info) (v : Z)
    : option (sec_fuelgauge_info * Z) :=
  let type := capacity_calculation_type pd in
  v ← (if bits_any type (SEC_FUELGAUGE_CAPACITY_TYPE_SCALE .| SEC_FUELGAUGE_CAPACITY_TYPE_DYNAMIC_SCALE)
       then sec_fg_get_scaled_capacity pd fg v else Some v);
  let v := capacity_percent v in
  (* wake_unlock and sec_hal_fg_fuelalert_init when the level is back above the alert *)
  let fg := if (v >? fuel_alert_soc pd) && is_fuel_alerted fg
            then set_alert (is_fuel_alerted fg) false (isr_work_pending fg) fg else fg in
  if initial_update_of_soc fg then Some (set_initial_update false (set_capacity_old v fg), v)
  else if bits_any type (SEC_FUELGAUGE_CAPACITY_TYPE_ATOMIC .| SEC_FUELGAUGE_CAPACITY_TYPE_SKIP_ABNORMAL)
  then Some (sec_fg_get_atomic_capacity pd fg v)
  else Some (fg, v).

(** [sec_fg_get_property(psy, psp, val)]: the return code, [val] and
    the driver state; [hal] is what [sec_hal_fg_get_property] puts in
    [val] ([None] when it fails).  [None] is the division by zero. *)
Definition sec_fg_get_property (pd : sec_fuelgauge_pdata) (fg : sec_fuelgauge_info)
    (psp : power_supply_property) (val : Z) (hal : option Z)
    : option (Z * Z * sec_fuelgauge_info) :=
  let soc_type := val in
  match psp with
  | POWER_SUPPLY_PROP_STATUS => Some (1, val, fg)
  | POWER_SUPPLY_PROP_CHARGE_FULL => Some (- ENODATA, val, fg)
  | POWER_SUPPLY_PROP_PRESENT => Some (1, val, fg)
  | POWER_SUPPLY_PROP_TEMP_AMBIENT | POWER_SUPPLY_PROP_TEMP
  | POWER_SUPPLY_PROP_ENERGY_NOW => Some (- ENODATA, val, fg)
  | POWER_SUPPLY_PROP_VOLTAGE_NOW | POWER_SUPPLY_PROP_VOLTAGE_AVG
  | POWER_SUPPLY_PROP_CURRENT_NOW | POWER_SUPPLY_PROP_CURRENT_AVG =>
      match hal with Some v => Some (0, v, fg) | None => Some (- EINVAL, val, fg) end
  | POWER_SUPPLY_PROP_CAPACITY =>
      match hal with
      | None => Some (- EINVAL, val, fg)
      | Some v =>
          if soc_type =? SEC_FUELGAUGE_CAPACITY_TYPE_RAW then Some (0, v, fg)
          else '(fg, v) ← capacity_report pd fg v; Some (0, v, fg)
      end
  | _ => Some (- EINVAL, val, fg)
  end.

(** [sec_fg_calculate_dynamic_scale]: [raw] is the HAL's raw capacity
    (0.01% units); the new [capacity_max] is the raw level clamped to
    [[capacity_max - margin, capacity_max + margin]], times 99/100. *)
Definition sec_fg_calculate_dynamic_scale (pd : sec_fuelgauge_pdata) (fg : sec_fuelgauge_info)
    (raw : option Z) : Z * sec_fuelgauge_info :=
  match raw with
  | None => (- EINVAL, fg)
  | Some r =>
      let r := c_div r 10 in
      let cm := if r <? pd_capacity_max pd - capacity_max_margin pd
                then pd_capacity_max pd - capacity_max_margin pd
                else if r >? pd_capacity_max pd + capacity_max_margin pd
                     then pd_capacity_max pd + capacity_max_margin pd
                     else r in
      let cm := c_div (cm * 99) 100 in
      (cm, set_capacity_max cm fg)
  end.

(** ** [sec_fg_set_property] *)

(** [raw] is the HAL's raw capacity for the dynamic rescaling,
    [reset_ok] the answer of [sec_hal_fg_reset] and [set_ok] that of
    [sec_hal_fg_set_property] for [psp].  [POWER_SUPPLY_PROP_ONLINE]
    has no [break]: it falls into the [CAPACITY] case, and that one
    into the [TEMP] case unless the value is [RESET].  ([STATUS] with
    [FULL] calls [sec_hal_fg_full_charged], which changes no state
    here.) *)
Definition sec_fg_set_property (pd : sec_fuelgauge_pdata) (fg : sec_fuelgauge_info)
    (psp : power_supply_property) (val : Z) (raw : option Z) (reset_ok set_ok : bool)
    : Z * sec_fuelgauge_info :=
  let temp fg := if set_ok then (0, fg) else (- EINVAL, fg) in
  let capacity fg :=
    if val =? SEC_FUELGAUGE_CAPACITY_TYPE_RESET then (if reset_ok then (0, fg) else (- EINVAL, fg))
    else temp fg in
  match psp with
  | POWER_SUPPLY_PROP_STATUS => (0, fg)
  | POWER_SUPPLY_PROP_CHARGE_FULL =>
      if (val =? POWER_SUPPLY_TYPE_BATTERY) &&
         bits_any (capacity_calculation_type pd) SEC_FUELGAUGE_CAPACITY_TYPE_DYNAMIC_SCALE
      then (0, (sec_fg_calculate_dynamic_scale pd fg raw).2)
      else (0, fg)
  | POWER_SUPPLY_PROP_ONLINE =>
      capacity (set_cable val (negb (val =? POWER_SUPPLY_TYPE_BATTERY)) fg)
  | POWER_SUPPLY_PROP_CAPACITY => capacity fg
  | POWER_SUPPLY_PROP_TEMP | POWER_SUPPLY_PROP_TEMP_AMBIENT => temp fg
  | _ => (- EINVAL, fg)
  end.

(** ** The fuel alert *)

(** [sec_fg_irq_thread]: [alerted] is [sec_hal_fg_is_fuelalerted].
    An unchanged state is dropped unless alerts repeat; otherwise the
    wake lock follows the alert and [isr_work] is scheduled. *)
Definition sec_fg_irq_thread (pd : sec_fuelgauge_pdata) (fg : sec_fuelgauge_info)
    (alerted : bool) : sec_fuelgauge_info :=
  if fuel_alert_soc pd >=? 0 then
    if Bool.eqb alerted (is_fuel_alerted fg) && negb (repeated_fuelalert pd) then fg
    else set_alert alerted alerted true fg
  else fg.

(** [sec_fg_isr_work]: the HAL and board callbacks run; the work is no
    longer pending. *)
Definition sec_fg_isr_work (fg : sec_fuelgauge_info) : sec_fuelgauge_info :=
  set_alert (is_fuel_alerted fg) (fuel_alert_wake_lock fg) false fg.

(** ** The sysfs files *)

(** [sec_fg_create_attrs]: [rcs] are the answers of
    [device_create_file] in order (0 when missing); on the first
    failure at [i] the files [i-1], ..., [0] are removed.  The return
    code and the files left. *)
(** [device_remove_file] of the file [j]. *)
Fixpoint remove_nat (j : nat) (l : list nat) : list nat :=
  match l with
  | [] => []
  | x :: l' => if decide (x = j) then l' else x :: remove_nat j l'
  end.

Fixpoint create_attrs_loop (rcs : list Z) (i n : nat) (created : list nat) : Z * list nat :=
  match n with
  | O => (0, created)
  | S n' =>
      let rc := default 0 (rcs !! i) in
      if negb (rc =? 0) then (rc, foldl (fun c j => remove_nat j c) created (rev (seq 0 i)))
      else create_attrs_loop rcs (S i) n' (created ++ [i])
  end.

Definition sec_fg_create_attrs (rcs : list Z) : Z * list nat :=
  create_attrs_loop rcs 0 sec_fg_attrs_count [].

Definition sec_fg_show_attrs (offset : Z) : Z :=
  if (offset =? FG_REG) || (offset =? FG_DATA) || (offset =? FG_REGS) then 0 else - EINVAL.

(** [sec_fg_store_attrs] returns the number of bytes it consumed. *)
Definition sec_fg_store_attrs (offset count : Z) : Z :=
  if (offset =? FG_REG) || (offset =? FG_DATA) then 0 else - EINVAL.

(** ** Probe, remove, suspend, resume *)

(** The driver's resources: the [kzalloc]'d state while it is
    allocated, the drvdata pointer, the registered power supply, the
    initialised wake lock, the requested interrupt, the sysfs files,
    and whether [free_irq] was called on an interrupt never
    requested. *)
Record fg_driver := mk_fg_drv {
  fg_mem : option sec_fuelgauge_info;
  drvdata_set : bool;
  psy_registered : bool;
  wake_lock_inited : bool;
  irq_requested : bool;
  attr_files : list nat;
  bad_free_irq : bool
}.

Definition fg_unbound : fg_driver := mk_fg_drv None false false false false [] false.

(** The answers of the calls the probes make. *)
Record fg_probe_env := mk_fg_env {
  i2c_smbus_byte : bool;
  kz_ok : bool;
  of_node : bool;
  devm_ok : bool;
  board_pdata : sec_fuelgauge_pdata;
  dt_pdata : sec_fuelgauge_pdata;
  raw_soc : option Z;
  dyn_raw : option Z;
  gpio_init_ok : bool;
  hal_init_ok : bool;
  psy_register_rc : Z;
  fuelalert_init_ok : bool;
  create_attrs_rcs : list Z
}.

(** [capacity_max] from the platform data, then the dynamic rescaling
    when the raw level is above it (the same lines in both probes).
    When the HAL read fails [raw_soc_val] still holds [RAW]. *)
Definition probe_capacity (pd : sec_fuelgauge_pdata) (env : fg_probe_env) : sec_fuelgauge_info :=
  let fg := set_capacity_max (pd_capacity_max pd) fg_zero in
  let raw := default SEC_FUELGAUGE_CAPACITY_TYPE_RAW (raw_soc env) in
  if c_div raw 10 >? pd_capacity_max pd then (sec_fg_calculate_dynamic_scale pd fg (dyn_raw env)).2
  else fg.

(** The labels: [err_free] frees the state, [err_supply_unreg]
    unregisters the power supply first, [err_irq] frees the interrupt
    when [fg_irq] is set and destroys the wake lock if it was made. *)
Definition err_free (d : fg_driver) : fg_driver :=
  mk_fg_drv None (drvdata_set d) (psy_registered d) (wake_lock_inited d) (irq_requested d)
    (attr_files d) (bad_free_irq d).

Definition err_supply_unreg (d : fg_driver) : fg_driver :=
  err_free (mk_fg_drv (fg_mem d) (drvdata_set d) false (wake_lock_inited d) (irq_requested d)
              (attr_files d) (bad_free_irq d)).

Definition err_irq (pd : sec_fuelgauge_pdata) (d : fg_driver) : fg_driver :=
  let bad := bad_free_irq d || (negb (fg_irq pd =? 0) && negb (irq_requested d)) in
  err_supply_unreg (mk_fg_drv (fg_mem d) (drvdata_set d) (psy_registered d) false
                      (if fg_irq pd =? 0 then irq_requested d else false) (attr_files d) bad).

(** [sec_fuelgauge_probe] of the platform driver with
    [CONFIG_FUELGAUGE_SPRD4SAMSUNG27X3] (the interrupt block is
    compiled out). *)
Definition sec_fuelgauge_probe (env : fg_probe_env) : Z * fg_driver :=
  if negb (kz_ok env) then (- ENOMEM, fg_unbound) else
  let d := mk_fg_drv (Some fg_zero) true false false false [] false in
  let pdr := if of_node env then (if devm_ok env then inr (dt_pdata env) else inl (- ENOMEM))
             else inr (board_pdata env) in
  match pdr with
  | inl rc => (rc, err_free d)
  | inr pd =>
      let fg := probe_capacity pd env in
      if negb (gpio_init_ok env) then (0, err_free d)
      else if negb (hal_init_ok env) then (0, err_free d)
      else if negb (psy_register_rc env =? 0) then (psy_register_rc env, err_free d)
      else
        let d := mk_fg_drv (Some fg) true true false false [] false in
        let fg := set_alert false (fuel_alert_wake_lock fg) (isr_work_pending fg) fg in
        let alert := if fuel_alert_soc pd >=? 0 then Some (fuelalert_init_ok env) else None in
        if bool_decide (alert = Some false) then (0, err_irq pd d)
        else
          let d := mk_fg_drv (Some fg) true true (bool_decide (alert = Some true)) false [] false in
          let fg := set_initial_update true fg in
          let '(rc, files) := sec_fg_create_attrs (create_attrs_rcs env) in
          if negb (rc =? 0) then (rc, err_irq pd d)
          else (0, mk_fg_drv (Some fg) true true (wake_lock_inited d) false files false)
  end.

(** [sec_fuelgauge_probe] of the I2C driver (the fuel-alert and
    interrupt blocks are under [#if 0]). *)
Definition sec_fuelgauge_probe_i2c (env : fg_probe_env) : Z * fg_driver :=
  if negb (i2c_smbus_byte env) then (- EIO, fg_unbound) else
  if negb (kz_ok env) then (- ENOMEM, fg_unbound) else
  let pd := board_pdata env in
  let d := mk_fg_drv (Some fg_zero) true false false false [] false in
  let fg := probe_capacity pd env in
  if negb (gpio_init_ok env) then (0, err_free d)
  else if negb (hal_init_ok env) then (0, err_free d)
  else if negb (psy_register_rc env =? 0) then (psy_register_rc env, err_free d)
  else
    let d := mk_fg_drv (Some fg) true true false false [] false in
    let fg := set_initial_update true fg in
    let '(rc, files) := sec_fg_create_attrs (create_attrs_rcs env) in
    if negb (rc =? 0) then (rc, err_irq pd d)
    else (0, mk_fg_drv (Some fg) true true false false files false).

(** [sec_fuelgauge_resume]: [None] is a use of a freed state. *)
Definition sec_fuelgauge_resume (pd : sec_fuelgauge_pdata) (d : fg_driver) : option fg_driver :=
  if negb (drvdata_set d) then None else
  fg ← fg_mem d;
  let fg := if bits_any (capacity_calculation_type pd) SEC_FUELGAUGE_CAPACITY_TYPE_ATOMIC
            then set_initial_update true fg else fg in
  Some (mk_fg_drv (Some fg) (drvdata_set d) (psy_registered d) (wake_lock_inited d)
          (irq_requested d) (attr_files d) (bad_free_irq d)).

(** [sec_fuelgauge_remove] of the I2C driver: [None] is the
    [wake_lock_destroy] of a wake lock never initialised, or a use of
    a freed state. *)
Definition sec_fuelgauge_remove_i2c (pd : sec_fuelgauge_pdata) (d : fg_driver) : option fg_driver :=
  _ ← fg_mem d;
  if fuel_alert_soc pd >=? 0 then
    if wake_lock_inited d then
      Some (mk_fg_drv (fg_mem d) (drvdata_set d) (psy_registered d) false (irq_requested d)
              (attr_files d) (bad_free_irq d))
    else None
  else Some d.

(** ** The reported capacity *)

Lemma capacity_percent_range v : 0 <= capacity_percent v <= 100.
Proof.
  unfold capacity_percent. rewrite c_div_nonneg by (repeat case_match; lia).
  split; [apply Z.div_pos|apply Z.div_le_upper_bound]; repeat case_match; lia.
Qed.

(** The smoothing moves at most one percent from [capacity_old] with
    [ATOMIC], never against the charging direction with
    [SKIP_ABNORMAL], stays in the range of its inputs, and records its
    result. *)
Lemma atomic_capacity_spec pd fg v :
  let '(fg', v') := sec_fg_get_atomic_capacity pd fg v in
  capacity_old fg' = v' /\
  (Z.min (capacity_old fg) v <= v' <= Z.max (capacity_old fg) v) /\
  (bits_any (capacity_calculation_type pd) SEC_FUELGAUGE_CAPACITY_TYPE_ATOMIC = true ->
     Z.abs (v' - capacity_old fg) <= 1) /\
  (bits_any (capacity_calculation_type pd) SEC_FUELGAUGE_CAPACITY_TYPE_SKIP_ABNORMAL = true ->
     if is_charging fg then capacity_old fg <= v' else v' <= capacity_old fg).
Proof.
  unfold sec_fg_get_atomic_capacity. simpl.
  destruct (bits_any _ SEC_FUELGAUGE_CAPACITY_TYPE_ATOMIC), (bits_any _ SEC_FUELGAUGE_CAPACITY_TYPE_SKIP_ABNORMAL),
    (is_charging fg); simpl;
    repeat match goal with |- context [if ?c then _ else _] => destruct c eqn:? end;
    repeat match goal with H : (_ <? _) = _ |- _ => apply Z.ltb_lt in H || apply Z.ltb_ge in H
                         | H : (_ >? _) = _ |- _ => rewrite Z.gtb_ltb in H end;
    (split; [done|]); repeat split; intros; lia.
Qed.

Lemma bits_any_lor_l t a b : bits_any t a = true -> bits_any t (a .| b) = true.
Proof.
  unfold bits_any. rewrite !negb_true_iff, !Z.eqb_neq, Z.land_lor_distr_r.
  intros Ha Hab. apply Z.lor_eq_0_iff in Hab. tauto.
Qed.

(** What the [CAPACITY] branch does after the HAL answered: a percent
    [p] in [[0, 100]], then the first report after boot or resume
    records [p], the smoothing applies to [p] on a state [fg1] that
    differs from [fg] only in the wake lock, or [p] is reported as
    it is. *)
Lemma capacity_report_cases pd fg v fg' v' :
  capacity_report pd fg v = Some (fg', v') ->
  exists p fg1, 0 <= p <= 100 /\ capacity_old fg1 = capacity_old fg /\
    is_charging fg1 = is_charging fg /\
    ((initial_update_of_soc fg = true /\ v' = p /\ capacity_old fg' = p) \/
     (initial_update_of_soc fg = false /\
      bits_any (capacity_calculation_type pd)
        (SEC_FUELGAUGE_CAPACITY_TYPE_ATOMIC .| SEC_FUELGAUGE_CAPACITY_TYPE_SKIP_ABNORMAL) = true /\
      sec_fg_get_atomic_capacity pd fg1 p = (fg', v')) \/
     (initial_update_of_soc fg = false /\
      bits_any (capacity_calculation_type pd)
        (SEC_FUELGAUGE_CAPACITY_TYPE_ATOMIC .| SEC_FUELGAUGE_CAPACITY_TYPE_SKIP_ABNORMAL) = false /\
      v' = p /\ capacity_old fg' = capacity_old fg)).
Proof.
  unfold capacity_report. intros H.
  destruct (if bits_any _ _ then _ else _) as [v1|]; [|done]. simpl in H.
  set (p := capacity_percent v1) in H. pose proof (capacity_percent_range v1) as Hp.
  set (fg1 := if (p >? fuel_alert_soc pd) && is_fuel_alerted fg
              then set_alert (is_fuel_alerted fg) false (isr_work_pending fg) fg else fg) in H.
  assert (Hf : capacity_old fg1 = capacity_old fg /\ is_charging fg1 = is_charging fg /\
               initial_update_of_soc fg1 = initial_update_of_soc fg)
    by (unfold fg1; destruct (_ && _); simpl; auto).
  destruct Hf as (Ho & Hc & Hi). exists p, fg1. split; [done|]. split; [done|]. split; [done|].
  rewrite Hi in H. destruct (initial_update_of_soc fg).
  - left. by injection H as <- <-.
  - right. destruct (bits_any (capacity_calculation_type pd)
      (SEC_FUELGAUGE_CAPACITY_TYPE_ATOMIC .| SEC_FUELGAUGE_CAPACITY_TYPE_SKIP_ABNORMAL)).
    + left. split; [done|]. split; [done|]. exact (f_equal (default (fg', v')) H).
    + right. injection H as <- <-. by repeat split.
Qed.

(** The report and [capacity_old] stay in [[0, 100]]. *)
Lemma capacity_report_range pd fg v fg' v' :
  0 <= capacity_old fg <= 100 -> capacity_report pd fg v = Some (fg', v') ->
  0 <= v' <= 100 /\ 0 <= capacity_old fg' <= 100.
Proof.
  intros Hold Hr. destruct (capacity_report_cases pd fg v fg' v' Hr)
    as (p & fg1 & Hp & Ho & _ & [(_ & -> & ->)|[(_ & _ & Ha)|(_ & _ & -> & ->)]]); [lia| |lia].
  pose proof (atomic_capacity_spec pd fg1 p) as Hs. rewrite Ha in Hs.
  destruct Hs as (-> & Hm & _). lia.
Qed.

(** ** Rescaling, properties and the sysfs files *)

(** The new [capacity_max] lies between the scaled ends of the margin. *)
Lemma dynamic_scale_bounds pd fg r cm fg' :
  0 <= capacity_max_margin pd <= pd_capacity_max pd ->
  sec_fg_calculate_dynamic_scale pd fg (Some r) = (cm, fg') ->
  capacity_max fg' = cm /\
  c_div ((pd_capacity_max pd - capacity_max_margin pd) * 99) 100 <= cm <=
  c_div ((pd_capacity_max pd + capacity_max_margin pd) * 99) 100.
Proof.
  intros Hm H. simpl in H. injection H as <- <-. split; [done|].
  split; apply c_div_mono; try lia; repeat case_match;
    repeat match goal with H : (_ <? _) = _ |- _ => apply Z.ltb_lt in H || apply Z.ltb_ge in H
                         | H : (_ >? _) = _ |- _ => rewrite Z.gtb_ltb in H end; lia.
Qed.

(** [POWER_SUPPLY_PROP_ONLINE] records the cable, then runs the code of
    the [CAPACITY] and [TEMP] cases with the cable type as the value:
    the HAL's reset for the value [RESET], its [set_property] for any
    other, whose failure is reported while the cable stays recorded. *)
Lemma set_property_online pd fg val raw reset_ok set_ok :
  sec_fg_set_property pd fg POWER_SUPPLY_PROP_ONLINE val raw reset_ok set_ok =
    (if val =? SEC_FUELGAUGE_CAPACITY_TYPE_RESET then (if reset_ok then 0 else - EINVAL)
     else if set_ok then 0 else - EINVAL,
     set_cable val (negb (val =? POWER_SUPPLY_TYPE_BATTERY)) fg).
Proof. simpl. by repeat case_match. Qed.

(** The interrupt records the chip's alert and holds the wake lock
    exactly while alerted, unless the state did not change and alerts
    do not repeat. *)
Lemma irq_thread_spec pd fg alerted :
  fuel_alert_soc pd >= 0 ->
  (alerted = is_fuel_alerted fg /\ repeated_fuelalert pd = false /\
   sec_fg_irq_thread pd fg alerted = fg) \/
  (is_fuel_alerted (sec_fg_irq_thread pd fg alerted) = alerted /\
   fuel_alert_wake_lock (sec_fg_irq_thread pd fg alerted) = alerted /\
   isr_work_pending (sec_fg_irq_thread pd fg alerted) = true).
Proof.
  intros Hs. unfold sec_fg_irq_thread.
  destruct (Z.geb_spec (fuel_alert_soc pd) 0); [|lia].
  destruct alerted, (is_fuel_alerted fg) eqn:Ha, (repeated_fuelalert pd); simpl; auto.
Qed.

Lemma create_attrs_loop_ok rcs i n created :
  (forall j, (i <= j < i + n)%nat -> default 0 (rcs !! j) = 0) ->
  create_attrs_loop rcs i n created = (0, created ++ seq i n).
Proof.
  revert i created. induction n as [|n IH]; intros i created Hok; simpl.
  - by rewrite app_nil_r.
  - rewrite (Hok i) by lia. simpl. rewrite IH by (intros; apply Hok; lia).
    by rewrite <- app_assoc.
Qed.

Lemma remove_nat_last l j : j ∉ l -> remove_nat j (l ++ [j]) = l.
Proof.
  induction l as [|x l IH]; intros Hj; simpl.
  - by rewrite decide_True.
  - rewrite decide_False by (intros ->; apply Hj; left). f_equal. apply IH.
    intros Hin. apply Hj. by right.
Qed.

(** Removing the files [i-1], ..., [0] from the files [0], ..., [i-1]
    leaves none. *)
Lemma remove_created_all i :
  foldl (fun c j => remove_nat j c) (seq 0 i) (rev (seq 0 i)) = [].
Proof.
  induction i as [|i IH]; [done|].
  rewrite seq_S, rev_app_distr. simpl. rewrite remove_nat_last; [done|].
  rewrite elem_of_seq. lia.
Qed.

(** [sec_fg_create_attrs] creates all three files, or fails and leaves
    none. *)
Lemma create_attrs_loop_spec rcs i n rc files :
  create_attrs_loop rcs i n (seq 0 i) = (rc, files) ->
  (rc = 0 /\ files = seq 0 (i + n)) \/ (rc <> 0 /\ files = []).
Proof.
  revert i. induction n as [|n IH]; intros i H; simpl in H.
  - injection H as <- <-. left. by rewrite Nat.add_0_r.
  - destruct (Z.eqb_spec (default 0 (rcs !! i)) 0) as [Hz|Hnz]; simpl in H.
    + rewrite <- seq_S in H. apply IH in H. by rewrite <- Nat.add_succ_comm.
    + injection H as <- <-. right. split; [done|]. apply remove_created_all.
Qed.

Lemma sec_fg_create_attrs_spec rcs rc files :
  sec_fg_create_attrs rcs = (rc, files) ->
  (rc = 0 /\ files = [0; 1; 2]%nat) \/ (rc <> 0 /\ files = []).
Proof. apply (create_attrs_loop_spec rcs 0). Qed.

(** ** Properties of the fuel gauge *)

(** C18: Every sec_fg_get_property call keeps capacity_old in [0, 100],
    and a non-raw capacity it reports with success lies in [0, 100],
    whatever the chip answers. *)
Theorem sec_fg_get_property_capacity_range pd fg psp val hal rc v fg' :
  0 <= capacity_old fg <= 100 ->
  sec_fg_get_property pd fg psp val hal = Some (rc, v, fg') ->
  0 <= capacity_old fg' <= 100 /\
  (psp = POWER_SUPPLY_PROP_CAPACITY -> val <> SEC_FUELGAUGE_CAPACITY_TYPE_RAW -> rc = 0 ->
   0 <= v <= 100).
Proof.
  intros Hold H.
  destruct psp; simpl in H; try (injection H as <- <- <-; split; [done|discriminate]).
  - destruct hal; injection H as <- <- <-; (split; [done|discriminate]).
  - destruct hal; injection H as <- <- <-; (split; [done|discriminate]).
  - destruct hal; injection H as <- <- <-; (split; [done|discriminate]).
  - destruct hal; injection H as <- <- <-; (split; [done|discriminate]).
  - destruct hal as [v0|]; [|injection H as <- <- <-; split; [done|intros _ _ Hrc; unfold EINVAL in Hrc; lia]].
    destruct (Z.eqb_spec val SEC_FUELGAUGE_CAPACITY_TYPE_RAW).
    + injection H as <- <- <-. split; [done|]. intros _ Hne. contradiction.
    + destruct (capacity_report pd fg v0) as [[fg1 v1]|] eqn:Hr; [|done]. simpl in H.
      injection H as <- <- <-. destruct (capacity_report_range pd fg v0 fg1 v1 Hold Hr). auto.
Qed.

(** With the ATOMIC calculation type and after the first report
    since boot or resume, each successful non-raw capacity report
    differs by at most one percent from the previous one and becomes
    capacity_old. *)
Theorem sec_fg_capacity_atomic_step pd fg val v0 rc v fg' :
  bits_any (capacity_calculation_type pd) SEC_FUELGAUGE_CAPACITY_TYPE_ATOMIC = true ->
  initial_update_of_soc fg = false -> val <> SEC_FUELGAUGE_CAPACITY_TYPE_RAW ->
  sec_fg_get_property pd fg POWER_SUPPLY_PROP_CAPACITY val (Some v0) = Some (rc, v, fg') ->
  rc = 0 /\ Z.abs (v - capacity_old fg) <= 1 /\ capacity_old fg' = v.
Proof.
  intros Ha Hi Hv H. simpl in H. rewrite (proj2 (Z.eqb_neq _ _) Hv) in H.
  destruct (capacity_report pd fg v0) as [[fg1 v1]|] eqn:Hr; [|done]. simpl in H.
  injection H as <- <- <-.
  destruct (capacity_report_cases pd fg v0 fg1 v1 Hr)
    as (p & f & _ & Ho & _ & [(Hi' & _)|[(_ & _ & Hs)|(_ & Hb & _)]]); [congruence| |].
  - pose proof (atomic_capacity_spec pd f p) as Hspec. rewrite Hs in Hspec.
    destruct Hspec as (Hc & _ & Habs & _). rewrite <- Ho. auto.
  - by rewrite (bits_any_lor_l _ _ _ Ha) in Hb.
Qed.

(** With [SKIP_ABNORMAL] and after the first report, the reported
    capacity never goes down while charging and never up while
    discharging. *)
Lemma sec_fg_capacity_skip_abnormal pd fg val v0 rc v fg' :
  bits_any (capacity_calculation_type pd) SEC_FUELGAUGE_CAPACITY_TYPE_SKIP_ABNORMAL = true ->
  initial_update_of_soc fg = false -> val <> SEC_FUELGAUGE_CAPACITY_TYPE_RAW ->
  sec_fg_get_property pd fg POWER_SUPPLY_PROP_CAPACITY val (Some v0) = Some (rc, v, fg') ->
  if is_charging fg then capacity_old fg <= v else v <= capacity_old fg.
Proof.
  intros Ha Hi Hv H. simpl in H. rewrite (proj2 (Z.eqb_neq _ _) Hv) in H.
  destruct (capacity_report pd fg v0) as [[fg1 v1]|] eqn:Hr; [|done]. simpl in H.
  injection H as <- <- <-.
  destruct (capacity_report_cases pd fg v0 fg1 v1 Hr)
    as (p & f & _ & Ho & Hc & [(Hi' & _)|[(_ & _ & Hs)|(_ & Hb & _)]]); [congruence| |].
  - pose proof (atomic_capacity_spec pd f p) as Hspec. rewrite Hs in Hspec.
    destruct Hspec as (_ & _ & _ & Hskip). rewrite <- Ho, <- Hc. by apply Hskip.
  - rewrite Z.lor_comm in Hb. by rewrite (bits_any_lor_l _ _ _ Ha) in Hb.
Qed.

(** C39: With the SCALE calculation type and capacity_max equal to
    capacity_min, which nothing in the driver prevents, a non-raw
    capacity read at or above capacity_min divides by zero in
    sec_fg_get_scaled_capacity. *)
Theorem sec_fg_scaled_capacity_div_zero pd fg val v0 :
  bits_any (capacity_calculation_type pd) SEC_FUELGAUGE_CAPACITY_TYPE_SCALE = true ->
  capacity_max fg = capacity_min pd -> capacity_min pd <= v0 ->
  val <> SEC_FUELGAUGE_CAPACITY_TYPE_RAW ->
  sec_fg_get_property pd fg POWER_SUPPLY_PROP_CAPACITY val (Some v0) = None.
Proof.
  intros Hs Hm Hv Hval. simpl. rewrite (proj2 (Z.eqb_neq _ _) Hval). unfold capacity_report.
  rewrite (bits_any_lor_l _ _ _ Hs). unfold sec_fg_get_scaled_capacity.
  rewrite Hm, Z.sub_diag. by destruct (Z.ltb_spec v0 (capacity_min pd)); [lia|].
Qed.

(** When fg_gpio_init or sec_hal_fg_init fails, both probes jump to
    err_free with ret still 0: they free the driver state but report
    success, and a later resume uses the freed state. *)
Theorem sec_fuelgauge_probe_init_failure env :
  kz_ok env = true -> i2c_smbus_byte env = true -> (of_node env = false \/ devm_ok env = true) ->
  (gpio_init_ok env = false \/ hal_init_ok env = false) ->
  (exists d, sec_fuelgauge_probe env = (0, d) /\ fg_mem d = None /\ drvdata_set d = true /\
     forall pd, sec_fuelgauge_resume pd d = None) /\
  (exists d, sec_fuelgauge_probe_i2c env = (0, d) /\ fg_mem d = None /\ drvdata_set d = true /\
     forall pd, sec_fuelgauge_resume pd d = None).
Proof.
  intros Hk Hi Ho Hf. unfold sec_fuelgauge_probe, sec_fuelgauge_probe_i2c.
  rewrite Hk, Hi. simpl.
  assert (Hpd : exists pd, (if of_node env then if devm_ok env then inr (dt_pdata env)
                            else inl (- ENOMEM) else inr (board_pdata env)) =
                           (inr pd : Z + sec_fuelgauge_pdata))
    by (destruct Ho as [-> | ->]; [|destruct (of_node env)]; eauto).
  destruct Hpd as [pd ->].
  destruct Hf as [-> | ->]; [|destruct (gpio_init_ok env)]; simpl; split; eexists; eauto.
Qed.

(** ** A board configuration and witnesses

    Capacities in 0.1% from 0 to 1000 with a margin of 50, scaled,
    dynamically rescaled, smoothed and filtered; a running gauge at
    50% whose [capacity_max] was rescaled to 990. *)

Definition example_fg_pdata : sec_fuelgauge_pdata := mk_fg_pdata 0 1000 50 0x1e 1 false 0.

Definition example_fg (charging : bool) : sec_fuelgauge_info :=
  mk_fg 990 50 charging false false (if charging then 4 else 1) false false.

Lemma sec_fg_get_property_capacity_range_witness :
  sec_fg_get_property example_fg_pdata (example_fg false) POWER_SUPPLY_PROP_CAPACITY 0 (Some 512) =
    Some (0, 50, example_fg false) /\
  0 <= capacity_old (example_fg false) <= 100 /\ 0 <= 50 <= 100.
Proof.
  assert (H : sec_fg_get_property example_fg_pdata (example_fg false) POWER_SUPPLY_PROP_CAPACITY 0
                (Some 512) = Some (0, 50, example_fg false)) by (vm_compute; reflexivity).
  split; [exact H|].
  destruct (sec_fg_get_property_capacity_range example_fg_pdata (example_fg false)
    POWER_SUPPLY_PROP_CAPACITY 0 (Some 512) 0 50 (example_fg false) ltac:(simpl; lia) H) as [Hr Hv].
  split; [exact Hr|]. apply Hv; [reflexivity|discriminate|reflexivity].
Defined.

Lemma sec_fg_capacity_atomic_step_witness :
  sec_fg_get_property example_fg_pdata (example_fg true) POWER_SUPPLY_PROP_CAPACITY 0 (Some 600) =
    Some (0, 51, set_capacity_old 51 (example_fg true)) /\
  Z.abs (51 - capacity_old (example_fg true)) <= 1.
Proof.
  assert (H : sec_fg_get_property example_fg_pdata (example_fg true) POWER_SUPPLY_PROP_CAPACITY 0
                (Some 600) = Some (0, 51, set_capacity_old 51 (example_fg true)))
    by (vm_compute; reflexivity).
  split; [exact H|].
  destruct (sec_fg_capacity_atomic_step example_fg_pdata (example_fg true) 0 600 0 51
              (set_capacity_old 51 (example_fg true)) eq_refl eq_refl ltac:(discriminate) H)
    as (_ & Habs & _).
  exact Habs.
Defined.

Lemma sec_fg_scaled_capacity_div_zero_witness :
  sec_fg_get_property example_fg_pdata (set_capacity_max 0 (example_fg false))
    POWER_SUPPLY_PROP_CAPACITY 0 (Some 512) = None.
Proof.
  apply sec_fg_scaled_capacity_div_zero; [reflexivity|reflexivity|simpl; lia|discriminate].
Defined.

Definition example_fg_env : fg_probe_env :=
  mk_fg_env true true false false example_fg_pdata example_fg_pdata (Some 5120) (Some 5120)
    false true 0 true [].

Lemma sec_fuelgauge_probe_init_failure_witness :
  exists d, sec_fuelgauge_probe example_fg_env = (0, d) /\ fg_mem d = None /\
    drvdata_set d = true /\ forall pd, sec_fuelgauge_resume pd d = None.
Proof.
  apply (sec_fuelgauge_probe_init_failure example_fg_env);
    [reflexivity|reflexivity|left; reflexivity|left; reflexivity].
Defined.

End FuelGauge.
