(* ===== verification/HeadsetCore.v ===== *)
(** * SPRD SC2723 headset: driver state, hardware access and helpers

    Models the state and the low-level helpers of
    [src/drivers/input/misc/headset_sprd_sc2723.c].  The static
    variables of the file and [struct sprd_headset] are the record
    [hs_state]; the two interrupt lines are [irq_line] records that hold
    both the driver's static [current_irq_state] and the disable depth
    the IRQ core keeps; the three regulators are [regulator] records
    that hold the driver's enable count and mode.  What the driver reads
    from the hardware (GPIO levels, ADC conversions, whether the audio
    codec keeps a regulator on) is an oracle indexed by a clock that
    each read advances, so the theorems hold for every behaviour of the
    hardware.  The analog registers written by [headset_reg_set_val],
    [headset_reg_set_bit] and [headset_reg_clr_bit] are a register file.
    The driver code runs in the state monad [M] over [world], with
    the notation [let* x := m in k].  [hs_step] runs each handler and
    work item to its end; [hs_split_step] lets the unlocked press
    verification run inside the plug-out of the detect work, where
    [headset_unplug_verify_race] leaves the key pressed with the jack
    out. *)

From S2P Require Import Prelude.
From S2P Require Import InputBridge.

Module HeadsetCore.

Local Open Scope Z_scope.

(** ** Constants of the file (lines 63-150) *)

Definition NO_MIC_RETRY_COUNT : Z := 1.
Definition ADC_GND : Z := 100.
Definition SCI_ADC_GET_VALUE_COUNT : nat := 50.

Definition ANA_PMU0 : Z := 0x0000.
Definition ANA_PMU1 : Z := 0x0004.
Definition ANA_CDC1 : Z := 0x0020.
Definition ANA_HDT0 : Z := 0x0068.
Definition ANA_STS0 : Z := 0x0074.

Definition CLK_AUD_HID_EN : Z := BIT 4.
Definition CLK_AUD_HBD_EN : Z := BIT 3.
Definition HDT_EN : Z := BIT 5.
Definition AUD_EN : Z := BIT 4.
Definition AUDIO_PMUR1 : Z := BIT 0.
Definition AUDIO_HEADMIC_SLEEP_EN : Z := BIT 6.

Definition AUDIO_ADPGAR_BYP_SHIFT : Z := 10.
Definition AUDIO_ADPGAR_BYP_MASK : Z := 0x3 << AUDIO_ADPGAR_BYP_SHIFT.
Definition AUDIO_ADPGAR_BYP_NORMAL : Z := 0.
Definition AUDIO_ADPGAR_BYP_HEADMIC_2_ADCR : Z := 2.

Definition AUDIO_HEAD_SDET_SHIFT : Z := 5.
Definition AUDIO_HEAD_SDET_MASK : Z := 0x3 << AUDIO_HEAD_SDET_SHIFT.
Definition AUDIO_HEAD_SDET_2P5 : Z := 1.
Definition AUDIO_HEAD_INS_VREF_SHIFT : Z := 8.
Definition AUDIO_HEAD_INS_VREF_MASK : Z := 0x3 << AUDIO_HEAD_INS_VREF_SHIFT.
Definition AUDIO_HEAD_INS_VREF_2P1 : Z := 3.
Definition AUDIO_HEAD_SBUT_SHIFT : Z := 1.
Definition AUDIO_HEAD_SBUT_MASK : Z := 0xF << AUDIO_HEAD_SBUT_SHIFT.
Definition AUDIO_HEAD_INS_PD : Z := BIT 10.
Definition AUDIO_HEADDETECT_PD : Z := BIT 7.
Definition AUDIO_V2ADC_EN : Z := BIT 15.
Definition AUDIO_HEAD2ADC_SEL_SHIFT : Z := 11.
Definition AUDIO_HEAD2ADC_SEL_MASK : Z := 0xF << AUDIO_HEAD2ADC_SEL_SHIFT.
Definition AUDIO_HEAD2ADC_SEL_DISABLE : Z := 0.
Definition AUDIO_HEAD2ADC_SEL_HEADMIC_IN : Z := 1.
Definition AUDIO_HEAD2ADC_SEL_HEADSET_L_INT : Z := 3.

(** The bases of the analog register blocks, as the comments of the
    file give them (lines 396, 1171, 1172 and 1179). *)
Definition ANA_AUDCFGA_INT_BASE : Z := 0x40038600.
Definition ANA_HDT_INT_BASE : Z := 0x40038700.
Definition ANA_REGS_GLB_BASE : Z := 0x40038800.
Definition HEADMIC_DETECT_REG (x : Z) : Z := ANA_AUDCFGA_INT_BASE + x.
Definition HEADMIC_DETECT_GLB_REG (x : Z) : Z := ANA_REGS_GLB_BASE + x.

(** [enum sprd_headset_type] (lines 190-196). *)
Inductive SPRD_HEADSET_TYPE :=
  HEADSET_NORMAL | HEADSET_NO_MIC | HEADSET_NORTH_AMERICA | HEADSET_APPLE
| HEADSET_TYPE_ERR.

#[export] Instance SPRD_HEADSET_TYPE_eq_dec : EqDecision SPRD_HEADSET_TYPE.
Proof. solve_decision. Defined.

(** [ht->type] values of [include/linux/headset_sprd_sc2723.h]. *)
Definition BIT_HEADSET_OUT : Z := 0.
Definition BIT_HEADSET_MIC : Z := 1.
Definition BIT_HEADSET_NO_MIC : Z := 2.

(** Trigger types of [include/linux/irq.h] and the reserved key code. *)
Definition IRQF_TRIGGER_HIGH : Z := 0x00000004.
Definition IRQF_TRIGGER_LOW : Z := 0x00000008.
Definition KEY_RESERVED : Z := 0.

(** ** Platform data *)

Record headset_buttons := mk_buttons {
  adc_min : Z; adc_max : Z; code : Z; button_type : Z }.

Record sprd_headset_platform_data := mk_hs_pdata {
  gpio_switch : Z; gpio_detect : Z; gpio_button : Z;
  irq_trigger_level_detect : Z; irq_trigger_level_button : Z;
  adc_threshold_3pole_detect : Z; adc_threshold_4pole_detect : Z;
  irq_threshold_buttont : Z; voltage_headmicbias : Z; hs_delay : Z;
  nbuttons : Z; headset_buttons_of : list headset_buttons;
  external_headmicbias_power_on : bool }.

(** ** Driver state *)

(** The static variables of the file (lines 215-221, 1220) and the
    fields of [struct sprd_headset] that change. *)
Record hs_state := mk_hs {
  plug_state_last : Z; button_state_last : Z; current_key_code : Z;
  gpio_detect_value_last : Z; gpio_button_value_last : Z;
  debug_level : Z; ht_type : Z; ht_headphone : Z;
  headset_button_hardware_bug_fix_stage : Z }.

(** An interrupt line: [irq_state] is the static [current_irq_state] of
    [headset_irq_button_enable] or [headset_irq_detect_enable];
    [irq_depth] the disable depth of the IRQ core; [irq_warned] records
    the core's "Unbalanced enable" warning. *)
Record irq_line := mk_irq {
  irq_state : Z; irq_depth : Z; irq_trigger : Z; irq_warned : bool }.

(** A regulator of [sprd_hts_power]: [reg_present] is false when the
    pointer is NULL; [reg_use] counts this driver's enables. *)
Record regulator := mk_reg {
  reg_present : bool; reg_use : Z; reg_mode : Z; reg_warned : bool }.

Inductive hts_regulator := HEAD_MIC | VCOM_BUF | VBO.

(** [sprd_hts_power], the static power states of [headmic_sleep_disable]
    and [headmicbias_power_on], the calls of the board's
    [external_headmicbias_power_on] and [oops], set when a NULL
    regulator is dereferenced. *)
Record hs_power := mk_power {
  sleep_power_state : Z; bias_power_state : Z;
  head_mic : regulator; vcom_buf : regulator; vbo : regulator;
  ext_bias_calls : list Z; oops : bool }.

(** What the driver reports: the level driven on [gpio_switch], the
    states of the switches [ht->sdev] and [switch_sendend], and the
    input events [(type, code, value)], newest first. *)
Record hs_out := mk_out {
  gpio_switch_value : Z; sdev_state : Z; sendend_state : Z;
  events : list (Z * Z * Z) }.

(** The work items that are queued. *)
Record hs_work := mk_work {
  work_button : bool; work_detect : bool; work_verify : bool;
  work_adpgar : bool; work_reg_dump : bool }.

(** The hardware as the driver sees it. *)
Record hw_env := mk_hw {
  hw_gpio : Z -> nat -> Z;
  hw_adc : nat -> Z;
  hw_reg_on : hts_regulator -> nat -> bool }.

Record world := mk_world {
  w_hw : hw_env; w_t : nat; w_regs : Z -> Z;
  w_vars : hs_state; w_btn : irq_line; w_det : irq_line;
  w_pow : hs_power; w_out : hs_out; w_work : hs_work }.

(** ** Field updates *)

Definition set_plug_state_last x '(mk_hs _ b c d e f g h i) := mk_hs x b c d e f g h i.
Definition set_button_state_last x '(mk_hs a _ c d e f g h i) := mk_hs a x c d e f g h i.
Definition set_current_key_code x '(mk_hs a b _ d e f g h i) := mk_hs a b x d e f g h i.
Definition set_gpio_detect_value_last x '(mk_hs a b c _ e f g h i) := mk_hs a b c x e f g h i.
Definition set_gpio_button_value_last x '(mk_hs a b c d _ f g h i) := mk_hs a b c d x f g h i.
Definition set_debug_level x '(mk_hs a b c d e _ g h i) := mk_hs a b c d e x g h i.
Definition set_ht_type x '(mk_hs a b c d e f _ h i) := mk_hs a b c d e f x h i.
Definition set_ht_headphone x '(mk_hs a b c d e f g _ i) := mk_hs a b c d e f g x i.
Definition set_bug_fix_stage x '(mk_hs a b c d e f g h _) := mk_hs a b c d e f g h x.

Definition set_irq_state x '(mk_irq _ b c d) := mk_irq x b c d.
Definition set_irq_depth x '(mk_irq a _ c d) := mk_irq a x c d.
Definition set_irq_trigger x '(mk_irq a b _ d) := mk_irq a b x d.
Definition set_irq_warned x '(mk_irq a b c _) := mk_irq a b c x.

Definition set_reg_use x '(mk_reg a _ c d) := mk_reg a x c d.
Definition set_reg_mode x '(mk_reg a b _ d) := mk_reg a b x d.
Definition set_reg_warned x '(mk_reg a b c _) := mk_reg a b c x.

Definition set_sleep_power_state x '(mk_power _ b c d e f g) := mk_power x b c d e f g.
Definition set_bias_power_state x '(mk_power a _ c d e f g) := mk_power a x c d e f g.
Definition set_ext_bias_calls x '(mk_power a b c d e _ g) := mk_power a b c d e x g.
Definition set_oops x '(mk_power a b c d e f _) := mk_power a b c d e f x.

Definition get_reg (r : hts_regulator) (p : hs_power) : regulator :=
  match r with HEAD_MIC => head_mic p | VCOM_BUF => vcom_buf p | VBO => vbo p end.
Definition put_reg (r : hts_regulator) (x : regulator) '(mk_power a b c d e f g) :=
  match r with
  | HEAD_MIC => mk_power a b x d e f g
  | VCOM_BUF => mk_power a b c x e f g
  | VBO => mk_power a b c d x f g
  end.

Definition set_gpio_switch_value x '(mk_out _ b c d) := mk_out x b c d.
Definition set_sdev_state x '(mk_out a _ c d) := mk_out a x c d.
Definition set_sendend_state x '(mk_out a b _ d) := mk_out a b x d.
Definition add_event x '(mk_out a b c d) := mk_out a b c (x :: d).

Definition set_work_button x '(mk_work _ b c d e) := mk_work x b c d e.
Definition set_work_detect x '(mk_work a _ c d e) := mk_work a x c d e.
Definition set_work_verify x '(mk_work a b _ d e) := mk_work a b x d e.
Definition set_work_adpgar x '(mk_work a b c _ e) := mk_work a b c x e.
Definition set_work_reg_dump x '(mk_work a b c d _) := mk_work a b c d x.

Definition tick '(mk_world h t r v bi di p o k) := mk_world h (S t) r v bi di p o k.
Definition map_regs f '(mk_world h t r v bi di p o k) := mk_world h t (f r) v bi di p o k.
Definition map_vars f '(mk_world h t r v bi di p o k) := mk_world h t r (f v) bi di p o k.
Definition map_btn f '(mk_world h t r v bi di p o k) := mk_world h t r v (f bi) di p o k.
Definition map_det f '(mk_world h t r v bi di p o k) := mk_world h t r v bi (f di) p o k.
Definition map_pow f '(mk_world h t r v bi di p o k) := mk_world h t r v bi di (f p) o k.
Definition map_out f '(mk_world h t r v bi di p o k) := mk_world h t r v bi di p (f o) k.
Definition map_work f '(mk_world h t r v bi di p o k) := mk_world h t r v bi di p o (f k).

(** ** The state monad of the driver code *)

Definition M (A : Type) : Type := world -> A * world.

Definition bind {A B} (m : M A) (k : A -> M B) : M B :=
  fun w => let '(a, w') := m w in k a w'.

#[export] Instance M_ret : MRet M := fun A a w => (a, w).
#[export] Instance M_bind : MBind M := fun A B k m => bind m k.

Declare Scope hs_scope.
Delimit Scope hs_scope with hs.
Notation "'let*' x := m 'in' k" := (bind m (fun x => k))
  (at level 10, x name, m at level 100, k at level 200) : hs_scope.
Open Scope hs_scope.

Definition gets {A} (f : world -> A) : M A := fun w => (f w, w).
Definition modify (f : world -> world) : M unit := fun w => (tt, f w).
Definition when (b : bool) (m : M unit) : M unit := if b then m else mret tt.

(** [gpio_get_value]: the level of the GPIO at this instant. *)
Definition gpio_get_value (gpio : Z) : M Z :=
  fun w => (hw_gpio (w_hw w) gpio (w_t w), tick w).

(** [sci_adc_get_value(ADC_CHANNEL_HEADMIC, 1)]: one conversion. *)
Definition sci_adc_get_value : M Z :=
  fun w => (hw_adc (w_hw w) (w_t w), tick w).

(** [sci_adi_read] of an analog register. *)
Definition sci_adi_read (addr : Z) : M Z := gets (fun w => w_regs w addr).

Definition reg_update (addr v : Z) (r : Z -> Z) : Z -> Z :=
  fun a => if Z.eqb a addr then v else r a.

(** [sci_adi_raw_write]: the registers are 32 bits wide. *)
Definition sci_adi_raw_write (addr v : Z) : M unit :=
  modify (map_regs (reg_update addr (v mod 2 ^ 32))).


(** ** Register macros (lines 153-188) *)

Definition headset_reg_set_val (addr v mask shift : Z) : M unit :=
  let* temp := sci_adi_read addr in
  sci_adi_raw_write addr ((temp .& ~~ mask) .| (v << shift)).

Definition headset_reg_clr_bit (addr bit : Z) : M unit :=
  let* temp := sci_adi_read addr in sci_adi_raw_write addr (temp .& ~~ bit).

Definition headset_reg_set_bit (addr bit : Z) : M unit :=
  let* temp := sci_adi_read addr in sci_adi_raw_write addr (temp .| bit).

Definition headset_reg_get_bit (addr bit : Z) : M Z :=
  let* temp := sci_adi_read addr in mret (temp .& bit).

(** ** The IRQ core and the regulator core, as far as the driver uses them *)

(** [enable_irq] warns and does nothing at depth 0 ("Unbalanced enable
    for IRQ"); [disable_irq_nosync] deepens the line. *)
Definition enable_irq (l : irq_line) : irq_line :=
  if Z.eqb (irq_depth l) 0 then set_irq_warned true l
  else set_irq_depth (irq_depth l - 1) l.

Definition disable_irq_nosync (l : irq_line) : irq_line :=
  set_irq_depth (irq_depth l + 1) l.

Definition REGULATOR_MODE_NORMAL : Z := 0x2.
Definition REGULATOR_MODE_STANDBY : Z := 0x8.

(** A regulator call on a NULL [struct regulator *] dereferences it. *)
Definition reg_call (r : hts_regulator) (f : regulator -> Z * regulator) : M Z :=
  fun w =>
    let x := get_reg r (w_pow w) in
    if reg_present x then
      let '(rc, x') := f x in (rc, map_pow (put_reg r x') w)
    else (0, map_pow (set_oops true) w).

Definition regulator_enable (r : hts_regulator) : M Z :=
  reg_call r (fun x => (0, set_reg_use (reg_use x + 1) x)).

(** [_regulator_disable] refuses a disable at use count 0 with a
    warning and [-EIO]. *)
Definition regulator_disable (r : hts_regulator) : M Z :=
  reg_call r (fun x => if Z.leb (reg_use x) 0 then (- EIO, set_reg_warned true x)
                       else (0, set_reg_use (reg_use x - 1) x)).

Definition regulator_set_mode (r : hts_regulator) (mode : Z) : M Z :=
  reg_call r (fun x => (0, set_reg_mode mode x)).

(** A regulator is on when this driver holds it or when another
    consumer (the audio codec) does. *)
Definition regulator_is_enabled (r : hts_regulator) : M bool :=
  fun w =>
    let x := get_reg r (w_pow w) in
    if reg_present x then
      (Z.ltb 0 (reg_use x) || hw_reg_on (w_hw w) r (w_t w), tick w)
    else (false, map_pow (set_oops true) w).

(** ** Audio codec helpers (lines 291-338) *)

Definition sprd_headset_audio_block_is_running : M bool :=
  let* a := regulator_is_enabled VCOM_BUF in
  if a then mret true else regulator_is_enabled VBO.

Definition head_mic_missing : M bool :=
  gets (fun w => negb (reg_present (head_mic (w_pow w)))).

Definition set_mode_by_block : M Z :=
  let* run := sprd_headset_audio_block_is_running in
  if run then regulator_set_mode HEAD_MIC REGULATOR_MODE_NORMAL
  else regulator_set_mode HEAD_MIC REGULATOR_MODE_STANDBY.

Definition sprd_headset_audio_headmic_sleep_disable (on : Z) : M Z :=
  let* missing := head_mic_missing in
  if missing then mret (-1) else
  if negb (Z.eqb on 0) then
    regulator_enable VBO;; regulator_set_mode HEAD_MIC REGULATOR_MODE_NORMAL
  else
    regulator_disable VBO;; set_mode_by_block.

Definition sprd_headset_headmic_bias_control (on : Z) : M Z :=
  let* missing := head_mic_missing in
  if missing then mret (-1) else
  let* ret := (if negb (Z.eqb on 0) then regulator_enable HEAD_MIC
         else regulator_disable HEAD_MIC) in
  if Z.eqb ret 0 then set_mode_by_block else mret ret.

(** ** The driver's helpers (lines 368-746) *)

Section Driver.

(** The platform data of the probed device ([ht->platform_data]). *)
Variable pd : sprd_headset_platform_data.

(** [headset_irq_button_enable] and [headset_irq_detect_enable] (lines
    454-496) share this body: the static [current_irq_state] starts at
    1 and makes the calls idempotent. *)
Definition irq_enable_guard (enable : Z) (l : irq_line) : irq_line :=
  if Z.eqb enable 1 then
    (if Z.eqb (irq_state l) 0 then set_irq_state 1 (enable_irq l) else l)
  else
    (if Z.eqb (irq_state l) 1 then set_irq_state 0 (disable_irq_nosync l) else l).

Definition headset_irq_button_enable (enable : Z) : M unit :=
  modify (map_btn (irq_enable_guard enable)).

Definition headset_irq_detect_enable (enable : Z) : M unit :=
  modify (map_det (irq_enable_guard enable)).

Inductive hs_irq := IRQ_BUTTON | IRQ_DETECT.

(** [headset_irq_set_irq_type] (lines 675-704): [irq_set_irq_type]
    and debug output. *)
Definition headset_irq_set_irq_type (irq : hs_irq) (type : Z) : M Z :=
  match irq with
  | IRQ_BUTTON => modify (map_btn (set_irq_trigger type))
  | IRQ_DETECT => modify (map_det (set_irq_trigger type))
  end;; mret 0.

(** [headmic_sleep_disable] (lines 498-515). *)
Definition headmic_sleep_disable (on : Z) : M unit :=
  let* st := gets (fun w => sleep_power_state (w_pow w)) in
  if Z.eqb on 1 then
    when (Z.eqb st 0)
      (sprd_headset_audio_headmic_sleep_disable 1;;
       modify (map_pow (set_sleep_power_state 1)))
  else
    when (Z.eqb st 1)
      (sprd_headset_audio_headmic_sleep_disable 0;;
       modify (map_pow (set_sleep_power_state 0))).

Definition external_headmicbias (on : Z) : M unit :=
  when (external_headmicbias_power_on pd)
    (modify (map_pow (fun p => set_ext_bias_calls (on :: ext_bias_calls p) p))).

(** [headmicbias_power_on] (lines 517-539). *)
Definition headmicbias_power_on (on : Z) : M unit :=
  let* st := gets (fun w => bias_power_state (w_pow w)) in
  if Z.eqb on 1 then
    when (Z.eqb st 0)
      (external_headmicbias 1;; sprd_headset_headmic_bias_control 1;;
       modify (map_pow (set_bias_power_state 1)))
  else
    when (Z.eqb st 1)
      (external_headmicbias 0;; sprd_headset_headmic_bias_control 0;;
       modify (map_pow (set_bias_power_state 0))).

(** [wrap_sci_adc_get_value] (lines 368-380): the mean of
    [SCI_ADC_GET_VALUE_COUNT] conversions. *)
Fixpoint adc_sum (n : nat) (average : Z) : M Z :=
  match n with
  | O => mret average
  | S n' => let* v := sci_adc_get_value in adc_sum n' (average + v)
  end.

Definition wrap_sci_adc_get_value : M Z :=
  let* s := adc_sum SCI_ADC_GET_VALUE_COUNT 0 in
  mret (c_div s (Z.of_nat SCI_ADC_GET_VALUE_COUNT)).

(** [headset_detect_circuit] (lines 383-392). *)
Definition headset_detect_circuit (on : Z) : M unit :=
  if negb (Z.eqb on 0) then
    headset_reg_clr_bit (HEADMIC_DETECT_REG ANA_HDT0) AUDIO_HEAD_INS_PD;;
    headset_reg_clr_bit (HEADMIC_DETECT_REG ANA_HDT0) AUDIO_HEADDETECT_PD
  else
    headset_reg_set_bit (HEADMIC_DETECT_REG ANA_HDT0) AUDIO_HEAD_INS_PD;;
    headset_reg_set_bit (HEADMIC_DETECT_REG ANA_HDT0) AUDIO_HEADDETECT_PD.

(** [headset_detect_clk_en] and [headset_detect_init] (lines 394-409). *)
Definition headset_detect_clk_en : M unit :=
  headset_reg_set_bit (HEADMIC_DETECT_GLB_REG 0x00) (HDT_EN .| AUD_EN);;
  headset_reg_set_bit (HEADMIC_DETECT_GLB_REG 0x04) (CLK_AUD_HID_EN .| CLK_AUD_HBD_EN).

Definition headset_detect_init : M unit :=
  headset_detect_clk_en;;
  headset_reg_set_bit (HEADMIC_DETECT_REG ANA_PMU1) AUDIO_PMUR1;;
  headset_reg_set_val (HEADMIC_DETECT_REG ANA_HDT0) AUDIO_HEAD_SDET_2P5
    AUDIO_HEAD_SDET_MASK AUDIO_HEAD_SDET_SHIFT;;
  headset_reg_set_val (HEADMIC_DETECT_REG ANA_HDT0) AUDIO_HEAD_INS_VREF_2P1
    AUDIO_HEAD_INS_VREF_MASK AUDIO_HEAD_INS_VREF_SHIFT.

(** [headset_adc_en] (lines 413-426). *)
Definition headset_adc_en (en : Z) : M unit :=
  if negb (Z.eqb en 0) then
    headset_reg_set_bit (HEADMIC_DETECT_REG ANA_HDT0) AUDIO_V2ADC_EN;;
    headset_reg_set_val (HEADMIC_DETECT_REG ANA_HDT0) AUDIO_HEAD2ADC_SEL_HEADMIC_IN
      AUDIO_HEAD2ADC_SEL_MASK AUDIO_HEAD2ADC_SEL_SHIFT;;
    headmic_sleep_disable 1
  else
    let* dl := gets (fun w => debug_level (w_vars w)) in
    when (Z.leb dl 2)
      (headset_reg_clr_bit (HEADMIC_DETECT_REG ANA_HDT0) AUDIO_V2ADC_EN;;
       headset_reg_set_val (HEADMIC_DETECT_REG ANA_HDT0) AUDIO_HEAD2ADC_SEL_DISABLE
         AUDIO_HEAD2ADC_SEL_MASK AUDIO_HEAD2ADC_SEL_SHIFT);;
    headmic_sleep_disable 0.

(** [set_adc_to_headmic] (lines 429-438). *)
Definition set_adc_to_headmic (is_set : Z) : M unit :=
  headset_adc_en 1;;
  if negb (Z.eqb is_set 0) then
    headset_reg_set_val (HEADMIC_DETECT_REG ANA_HDT0) AUDIO_HEAD2ADC_SEL_HEADMIC_IN
      AUDIO_HEAD2ADC_SEL_MASK AUDIO_HEAD2ADC_SEL_SHIFT
  else
    headset_reg_set_val (HEADMIC_DETECT_REG ANA_HDT0) AUDIO_HEAD2ADC_SEL_HEADSET_L_INT
      AUDIO_HEAD2ADC_SEL_MASK AUDIO_HEAD2ADC_SEL_SHIFT.

(** [headset_button_irq_threshold] (lines 440-452). *)
Definition headset_button_irq_threshold (enable : Z) : M unit :=
  headset_reg_set_val (HEADMIC_DETECT_REG ANA_HDT0)
    (if negb (Z.eqb enable 0) then irq_threshold_buttont pd else 0xF)
    AUDIO_HEAD_SBUT_MASK AUDIO_HEAD_SBUT_SHIFT.


(** [adc_get_average] (lines 570-673; the [#if 1] branch): the debug
    dump when [debug_level >= 3], then one averaged conversion unless the
    GPIO has changed, which aborts with [-1]. *)
Fixpoint adc_debug_loop (count : nat) : M unit :=
  match count with
  | O => mret tt
  | S n =>
      wrap_sci_adc_get_value;; gpio_get_value (gpio_button pd);;
      sci_adi_read (HEADMIC_DETECT_REG ANA_PMU0);;
      sci_adi_read (HEADMIC_DETECT_REG ANA_HDT0);;
      sci_adi_read (HEADMIC_DETECT_REG ANA_STS0);; adc_debug_loop n
  end.

Definition adc_get_average (gpio_num gpio_value : Z) : M Z :=
  let* dl := gets (fun w => debug_level (w_vars w)) in
  when (Z.leb 3 dl) (adc_debug_loop 20);;
  headset_reg_get_bit (HEADMIC_DETECT_REG ANA_PMU0) AUDIO_HEADMIC_SLEEP_EN;;
  let* g := gpio_get_value gpio_num in
  if negb (Z.eqb g gpio_value) then mret (-1) else wrap_sci_adc_get_value.

(** [headset_button_valid] and [headset_gpio_2_button_state] (lines
    706-746): the level that means "inserted" or "pressed". *)
Definition headset_button_valid (gpio_detect_value_current : Z) : Z :=
  if Z.eqb (irq_trigger_level_detect pd) 1 then
    (if Z.eqb gpio_detect_value_current 1 then 1 else 0)
  else (if Z.eqb gpio_detect_value_current 0 then 1 else 0).

Definition headset_gpio_2_button_state (gpio_button_value_current : Z) : Z :=
  if Z.eqb (irq_trigger_level_button pd) 1 then
    (if Z.eqb gpio_button_value_current 1 then 1 else 0)
  else (if Z.eqb gpio_button_value_current 0 then 1 else 0).

Definition gpio_direction_output_switch (v : Z) : M unit :=
  modify (map_out (set_gpio_switch_value v)).

(** [headset_type_detect] (lines 782-856).  The block that reads the
    left channel is under [#if 0], so [adc_left_average] keeps its
    initial 0.  The [goto no_mic_retry] loop runs at most
    [NO_MIC_RETRY_COUNT] more times. *)
Fixpoint type_detect_loop (last_gpio_detect_value : Z)
    (no_mic_retry_count : nat) : M SPRD_HEADSET_TYPE :=
  let adc_left_average := 0 in
  set_adc_to_headmic 1;;
  let* adc_mic_average := adc_get_average (gpio_detect pd) last_gpio_detect_value in
  if Z.eqb adc_mic_average (-1) then mret HEADSET_TYPE_ERR else
  let* g := gpio_get_value (gpio_detect pd) in
  if negb (Z.eqb g last_gpio_detect_value) then mret HEADSET_TYPE_ERR else
  if (adc_left_average <? ADC_GND) && (adc_mic_average <? adc_threshold_3pole_detect pd)
  then match no_mic_retry_count with
       | S n => type_detect_loop last_gpio_detect_value n
       | O => mret HEADSET_NO_MIC
       end
  else if (adc_left_average <? ADC_GND) && (ADC_GND <? adc_mic_average)
  then mret HEADSET_NORMAL
  else if (ADC_GND <? adc_left_average) && (ADC_GND <? adc_mic_average)
          && (Z.abs (adc_mic_average - adc_left_average) <? ADC_GND)
  then mret HEADSET_NORTH_AMERICA
  else mret HEADSET_TYPE_ERR.

Definition headset_type_detect (last_gpio_detect_value : Z) : M SPRD_HEADSET_TYPE :=
  (if negb (Z.eqb (gpio_switch pd) 0) then gpio_direction_output_switch 0
   else mret tt);;
  headset_button_irq_threshold 1;;
  headset_detect_init;;
  headset_detect_circuit 1;;
  type_detect_loop last_gpio_detect_value (Z.to_nat NO_MIC_RETRY_COUNT).

(** ** Button reports (lines 858-973) *)

Definition EV_SYN : Z := 0x00.
Definition SYN_REPORT : Z := 0.

Definition input_event (type code value : Z) : M unit :=
  modify (map_out (add_event (type, code, value))).
Definition input_sync : M unit := input_event EV_SYN SYN_REPORT 0.

Definition switch_set_state_sendend (v : Z) : M unit :=
  modify (map_out (set_sendend_state v)).
Definition switch_set_state_sdev (v : Z) : M unit :=
  modify (map_out (set_sdev_state v)).

Definition set_var (f : hs_state -> hs_state) : M unit := modify (map_vars f).
Definition get_var {A} (f : hs_state -> A) : M A := gets (fun w => f (w_vars w)).
Definition queue_work (f : hs_work -> hs_work) : M unit := modify (map_work f).

(** The key reported as released: [current_key_code] with value 0. *)
Definition report_release : M unit :=
  let* key := get_var current_key_code in
  input_event InputBridge.EV_KEY key 0;; input_sync;;
  switch_set_state_sendend 0;; set_var (set_button_state_last 0).

(** [button_release_verify] (lines 858-874). *)
Definition button_release_verify : M unit :=
  let* bs := get_var button_state_last in
  when (Z.eqb bs 1)
    (report_release;;
     headset_irq_set_irq_type IRQ_BUTTON
       (if Z.eqb (irq_trigger_level_button pd) 1 then IRQF_TRIGGER_HIGH
        else IRQF_TRIGGER_LOW);; mret tt).

(** [button_press_verify_func] (lines 876-893), the delayed work that
    reports the press. *)
Definition button_press_verify_func : M unit :=
  let* plug := get_var plug_state_last in
  when (negb (Z.eqb plug 0))
    (let* bs := get_var button_state_last in
     if Z.eqb bs 0 then
       let* key := get_var current_key_code in
       input_event InputBridge.EV_KEY key 1;; input_sync;;
       switch_set_state_sendend 1;; set_var (set_button_state_last 1)
     else queue_work (set_work_adpgar true)).

(** The loop of lines 932-939: the code of the first button whose ADC
    range holds the value, else [KEY_RESERVED]. *)
Fixpoint button_scan (adc : Z) (bs : list headset_buttons) (key : Z) : Z :=
  match bs with
  | [] => key
  | b :: bs' =>
      if (adc_min b <=? adc) && (adc <? adc_max b) then code b
      else button_scan adc bs' KEY_RESERVED
  end.

(** The pressed branch of [headset_button_work_func] (lines 920-949):
    [None] is the [goto out] of the ADC check. *)
Definition button_work_pressed (gl : Z) : M (option unit) :=
  let* ok :=
    (if 0 <? nbuttons pd then
       let* adc := adc_get_average (gpio_button pd) gl in
       if Z.eqb adc (-1) then queue_work (set_work_adpgar true);; mret false
       else
         let* key := get_var current_key_code in
         set_var (set_current_key_code
           (button_scan adc (take (Z.to_nat (nbuttons pd)) (headset_buttons_of pd)) key));;
         mret true
     else mret true) in
  if ok then
    queue_work (set_work_verify true);;
    headset_irq_set_irq_type IRQ_BUTTON
      (if Z.eqb (irq_trigger_level_button pd) 1 then IRQF_TRIGGER_LOW
       else IRQF_TRIGGER_HIGH);;
    headset_irq_button_enable 1;; mret (Some tt)
  else mret None.

(** The test of lines 951 and 862: report the release of a pressed key. *)
Definition release_if_pressed : M unit :=
  let* bs := get_var button_state_last in
  when (Z.eqb bs 1) report_release.

(** The released branch (lines 950-966). *)
Definition button_work_released : M unit :=
  release_if_pressed;;
  headset_irq_set_irq_type IRQ_BUTTON
    (if Z.eqb (irq_trigger_level_button pd) 1 then IRQF_TRIGGER_HIGH
     else IRQF_TRIGGER_LOW);;
  headset_irq_button_enable 1.

(** [headset_button_work_func] (lines 895-973). *)
Definition headset_button_work_func : M unit :=
  set_adc_to_headmic 1;;
  let* g := gpio_get_value (gpio_button pd) in
  let* gl := get_var gpio_button_value_last in
  (if negb (Z.eqb g gl) then queue_work (set_work_adpgar true)
   else if Z.eqb (headset_gpio_2_button_state g) 1 then
     button_work_pressed gl;; mret tt
   else button_work_released);;
  headset_adc_en 0;;
  headset_irq_button_enable 1.

(** ** Plug detection (lines 975-1131) *)

(** The labels [out_1] and [out] of [headset_detect_work_func]. *)
Definition detect_out_1 : M unit := headset_irq_detect_enable 1.

Definition detect_out : M unit :=
  let* plug := get_var plug_state_last in
  when (Z.eqb plug 0) (headmicbias_power_on 0);;
  detect_out_1.

(** Lines 1016-1091: the type of the inserted jack decides the switch,
    the button interrupt and what is reported. *)
Definition detect_plug_in : M unit :=
  let* gdl := get_var gpio_detect_value_last in
  let* headset_type := headset_type_detect gdl in
  headset_adc_en 0;;
  if decide (headset_type = HEADSET_TYPE_ERR) then detect_out else
  (match headset_type with
   | HEADSET_NORTH_AMERICA =>
       when (negb (Z.eqb (gpio_switch pd) 0)) (gpio_direction_output_switch 1)
   | HEADSET_NORMAL | HEADSET_NO_MIC =>
       when (negb (Z.eqb (gpio_switch pd) 0)) (gpio_direction_output_switch 0)
   | _ => mret tt
   end);;
  set_var (set_ht_headphone (if decide (headset_type = HEADSET_NO_MIC) then 1 else 0));;
  let* headphone := get_var ht_headphone in
  (if negb (Z.eqb headphone 0) then
     headset_button_irq_threshold 0;;
     headset_irq_button_enable 0;;
     set_var (set_ht_type BIT_HEADSET_NO_MIC);;
     headmicbias_power_on 0;;
     switch_set_state_sdev BIT_HEADSET_NO_MIC
   else
     headset_button_irq_threshold 1;;
     (if bool_decide (headset_type = HEADSET_NORTH_AMERICA) && Z.eqb (gpio_switch pd) 0
      then headset_irq_button_enable 0
      else
        headset_irq_set_irq_type IRQ_BUTTON
          (if Z.eqb (irq_trigger_level_button pd) 1 then IRQF_TRIGGER_HIGH
           else IRQF_TRIGGER_LOW);;
        headset_irq_button_enable 1);;
     set_var (set_ht_type BIT_HEADSET_MIC);;
     switch_set_state_sdev BIT_HEADSET_MIC;;
     queue_work (set_work_adpgar true));;
  set_var (set_plug_state_last 1);;
  headset_irq_set_irq_type IRQ_DETECT
    (if Z.eqb (irq_trigger_level_detect pd) 1 then IRQF_TRIGGER_LOW
     else IRQF_TRIGGER_HIGH);;
  headset_irq_detect_enable 1;;
  detect_out.

(** Lines 1092-1114: plug out, without debounce. *)
Definition detect_plug_out : M unit :=
  headset_irq_button_enable 0;;
  button_release_verify;;
  set_var (set_ht_type BIT_HEADSET_OUT);;
  switch_set_state_sdev BIT_HEADSET_OUT;;
  set_var (set_plug_state_last 0);;
  headset_irq_set_irq_type IRQ_DETECT
    (if Z.eqb (irq_trigger_level_detect pd) 1 then IRQF_TRIGGER_HIGH
     else IRQF_TRIGGER_LOW);;
  headset_irq_detect_enable 1;;
  let* headphone := get_var ht_headphone in
  if negb (Z.eqb headphone 0) then detect_out_1 else detect_out.

(** The plug-out in two halves: up to the switch report (lines
    1094-1104), and from [plug_state_last = 0] (line 1105) on. *)
Definition detect_plug_out_front : M unit :=
  headset_irq_button_enable 0;;
  button_release_verify;;
  set_var (set_ht_type BIT_HEADSET_OUT);;
  switch_set_state_sdev BIT_HEADSET_OUT.

Definition detect_plug_out_back : M unit :=
  set_var (set_plug_state_last 0);;
  headset_irq_set_irq_type IRQ_DETECT
    (if Z.eqb (irq_trigger_level_detect pd) 1 then IRQF_TRIGGER_HIGH
     else IRQF_TRIGGER_LOW);;
  headset_irq_detect_enable 1;;
  let* headphone := get_var ht_headphone in
  if negb (Z.eqb headphone 0) then detect_out_1 else detect_out.

(** [headset_detect_work_func] (lines 975-1131).  The plug state is read
    from the detect GPIO only while unplugged (lines 991-1011, the test
    of [headset_button_valid]); [None] is the [goto out] of the
    debounce. *)
Definition headset_detect_work_func : M unit :=
  let* plug := get_var plug_state_last in
  when (Z.eqb plug 0) (headmicbias_power_on 1);;
  let* plug := get_var plug_state_last in
  let* current :=
    (if Z.eqb plug 0 then
       let* g := gpio_get_value (gpio_detect pd) in
       let* gl := get_var gpio_detect_value_last in
       if negb (Z.eqb g gl) then mret None
       else mret (Some (headset_button_valid g))
     else mret (Some 0)) in
  match current with
  | None => detect_out
  | Some plug_state_current =>
      if Z.eqb plug_state_current 1 && Z.eqb plug 0 then detect_plug_in
      else if Z.eqb plug_state_current 0 && Z.eqb plug 1 then detect_plug_out
      else detect_out
  end.

(** ** Interrupt handlers and the other work items (lines 1133-1315) *)

(** [headset_button_hardware_bug_fix] (lines 1221-1227). *)
Definition headset_button_hardware_bug_fix : M unit :=
  let* stage := get_var headset_button_hardware_bug_fix_stage in
  when (negb (Z.eqb stage 0)) (headset_irq_button_enable 0).

(** [headset_button_irq_handler] (lines 1229-1274). *)
Definition headset_button_irq_handler : M unit :=
  let* ty := get_var ht_type in
  if negb (Z.eqb ty BIT_HEADSET_MIC) then headset_irq_button_enable 0 else
  let* gd := gpio_get_value (gpio_detect pd) in
  if Z.eqb (headset_button_valid gd) 0 then
    headset_button_hardware_bug_fix;;
    let* plug := get_var plug_state_last in
    when (Z.eqb plug 0) (headset_irq_button_enable 0)
  else
  let* gb := gpio_get_value (gpio_button pd) in
  let button_state_current := headset_gpio_2_button_state gb in
  when (Z.eqb button_state_current 0) (queue_work (set_work_adpgar true));;
  let* bs := get_var button_state_last in
  if Z.eqb button_state_current bs then mret tt else
  headset_irq_button_enable 0;;
  set_var (set_gpio_button_value_last gb);;
  queue_work (set_work_button true).

(** [headset_detect_irq_handler] (lines 1276-1289). *)
Definition headset_detect_irq_handler : M unit :=
  headset_irq_button_enable 0;;
  headset_irq_detect_enable 0;;
  let* g := gpio_get_value (gpio_detect pd) in
  set_var (set_gpio_detect_value_last g);;
  queue_work (set_work_detect true).

(** [adpgar_byp_select_func] (lines 1134-1143). *)
Definition adpgar_byp_select_func : M unit :=
  headset_reg_set_val (HEADMIC_DETECT_REG ANA_CDC1) AUDIO_ADPGAR_BYP_HEADMIC_2_ADCR
    AUDIO_ADPGAR_BYP_MASK AUDIO_ADPGAR_BYP_SHIFT;;
  headset_reg_set_val (HEADMIC_DETECT_REG ANA_CDC1) AUDIO_ADPGAR_BYP_NORMAL
    AUDIO_ADPGAR_BYP_MASK AUDIO_ADPGAR_BYP_SHIFT.

(** [sci_adi_write(reg, val, msk)] of the ADI bus, and the global
    registers [reg_dump_func] enables (the comments of lines 1171-1177
    place them at [ANA_REGS_GLB_BASE] and [ANA_REGS_GLB_BASE + 4], the
    registers [headset_detect_clk_en] sets). *)
Definition sci_adi_write (addr v msk : Z) : M unit :=
  let* temp := sci_adi_read addr in
  sci_adi_raw_write addr ((temp .& ~~ msk) .| v).

Definition ANA_REG_GLB_ARM_MODULE_EN : Z := HEADMIC_DETECT_GLB_REG 0x00.
Definition ANA_REG_GLB_ARM_CLK_EN : Z := HEADMIC_DETECT_GLB_REG 0x04.
Definition BIT_ANA_AUD_EN : Z := AUD_EN.
Definition BIT_ANA_HDT_EN : Z := HDT_EN.
Definition BIT_CLK_AUD_HID_EN : Z := CLK_AUD_HID_EN.

(** [reg_dump_func] (lines 1146-1213): reads, enables the blocks it
    dumps, and requeues itself while [debug_level >= 2]. *)
Definition reg_dump_func : M unit :=
  wrap_sci_adc_get_value;;
  gpio_get_value (gpio_detect pd);;
  gpio_get_value (gpio_button pd);;
  sci_adi_write ANA_REG_GLB_ARM_MODULE_EN BIT_ANA_AUD_EN BIT_ANA_AUD_EN;;
  sci_adi_write ANA_REG_GLB_ARM_MODULE_EN BIT_ANA_HDT_EN BIT_ANA_HDT_EN;;
  sci_adi_write ANA_REG_GLB_ARM_CLK_EN BIT_CLK_AUD_HID_EN BIT_CLK_AUD_HID_EN;;
  let* dl := get_var debug_level in
  when (Z.leb 2 dl) (queue_work (set_work_reg_dump true)).

(** [headset_debug_level_store] (lines 1307-1315), with the level as
    [simple_strtoul] parsed it. *)
Definition headset_debug_level_store (level : Z) : M unit :=
  set_var (set_debug_level level);;
  when (Z.leb 2 level) (queue_work (set_work_reg_dump true)).

(** [key_state_onoff_show] (lines 1290-1294) and [get_hp_plug_state]
    (lines 361-364). *)
Definition key_state_onoff_show (w : world) : Z := button_state_last (w_vars w).
Definition get_hp_plug_state (w : world) : Z :=
  if Z.eqb (plug_state_last (w_vars w)) 0 then 0 else 1.

(** ** The driver as a transition system *)

(** A work item starts by leaving its queue. *)
Definition run_work (dequeue : hs_work -> hs_work) (m : M unit) (w : world) : world :=
  snd (m (map_work dequeue w)).

(** One step: an interrupt handler while its line is not disabled, a
    queued work item, or a write to [debug_level].  A step runs a
    handler to its end.  [headset_sem] serialises the button and the
    detect work, but [button_press_verify_func] takes no lock:
    [hs_split_step] below lets it run inside the plug-out of the detect
    work. *)
Inductive hs_step : world -> world -> Prop :=
| hs_button_irq w :
    irq_depth (w_btn w) = 0 -> hs_step w (snd (headset_button_irq_handler w))
| hs_detect_irq w :
    irq_depth (w_det w) = 0 -> hs_step w (snd (headset_detect_irq_handler w))
| hs_button_work w :
    work_button (w_work w) = true ->
    hs_step w (run_work (set_work_button false) headset_button_work_func w)
| hs_detect_work w :
    work_detect (w_work w) = true ->
    hs_step w (run_work (set_work_detect false) headset_detect_work_func w)
| hs_verify_work w :
    work_verify (w_work w) = true ->
    hs_step w (run_work (set_work_verify false) button_press_verify_func w)
| hs_adpgar_work w :
    work_adpgar (w_work w) = true ->
    hs_step w (run_work (set_work_adpgar false) adpgar_byp_select_func w)
| hs_reg_dump_work w :
    work_reg_dump (w_work w) = true ->
    hs_step w (run_work (set_work_reg_dump false) reg_dump_func w)
| hs_debug_store w level :
    hs_step w (snd (headset_debug_level_store level w)).

(** What the detect work holds: nothing, or [headset_sem] between the
    two halves of the plug-out. *)
Inductive hs_ctx := hctx_idle | hctx_unplug.

(** The driver with the unlocked handlers running inside the plug-out:
    the interrupt handlers and [button_press_verify_func], which the
    system workqueue runs beside the driver's detect work queue. *)
Inductive hs_split_step : hs_ctx * world -> hs_ctx * world -> Prop :=
| hsp_atomic w w' : hs_step w w' -> hs_split_step (hctx_idle, w) (hctx_idle, w')
| hsp_button_irq c w :
    irq_depth (w_btn w) = 0 -> hs_split_step (c, w) (c, snd (headset_button_irq_handler w))
| hsp_detect_irq c w :
    irq_depth (w_det w) = 0 -> hs_split_step (c, w) (c, snd (headset_detect_irq_handler w))
| hsp_verify_work c w :
    work_verify (w_work w) = true ->
    hs_split_step (c, w) (c, run_work (set_work_verify false) button_press_verify_func w)
| hsp_unplug_front w :
    work_detect (w_work w) = true -> plug_state_last (w_vars w) = 1 ->
    hs_split_step (hctx_idle, w)
      (hctx_unplug, run_work (set_work_detect false) detect_plug_out_front w)
| hsp_unplug_back w : hs_split_step (hctx_unplug, w) (hctx_idle, snd (detect_plug_out_back w)).

End Driver.

(** ** Invariants *)

(** A line is balanced: the driver's static flag says enabled exactly
    when the core's depth is 0, and the core never warned. *)
Definition irq_ok (l : irq_line) : Prop :=
  (irq_state l = 1 /\ irq_depth l = 0 \/ irq_state l = 0 /\ irq_depth l = 1) /\
  irq_warned l = false.

(** The regulators hold what the static power states say: [head_mic]
    is enabled once when the mic bias is on, [vbo] once when the
    headmic sleep is disabled (both only when [head_mic] exists, since
    the helpers return [-1] first otherwise); no disable is unbalanced. *)
Definition pow_ok (p : hs_power) : Prop :=
  (sleep_power_state p = 0 \/ sleep_power_state p = 1) /\
  (bias_power_state p = 0 \/ bias_power_state p = 1) /\
  reg_use (head_mic p) =
    (if reg_present (head_mic p) then bias_power_state p else 0) /\
  (reg_present (vbo p) = true ->
   reg_use (vbo p) =
     (if reg_present (head_mic p) then sleep_power_state p else 0)) /\
  reg_warned (head_mic p) = false /\ reg_warned (vbo p) = false.

(** The values of the key events, newest first. *)
Definition key_values (evs : list (Z * Z * Z)) : list Z :=
  map (fun '(_, _, v) => v) (filter (fun '(t, _, _) => Z.eqb t InputBridge.EV_KEY = true) evs).

(** [alt b ks]: newest first, the values are [b], [1 - b], [b], ...
    and the oldest is a press. *)
Fixpoint alt (b : Z) (ks : list Z) : bool :=
  match ks with
  | [] => Z.eqb b 0
  | k :: ks' => Z.eqb k b && alt (1 - b) ks'
  end.

Definition key_ok (v : hs_state) (evs : list (Z * Z * Z)) : Prop :=
  (plug_state_last v = 0 \/ plug_state_last v = 1) /\
  (button_state_last v = 0 \/ button_state_last v = 1 /\ plug_state_last v = 1) /\
  alt (button_state_last v) (key_values evs) = true.

Definition hs_inv (w : world) : Prop :=
  irq_ok (w_btn w) /\ irq_ok (w_det w) /\ pow_ok (w_pow w) /\
  key_ok (w_vars w) (events (w_out w)).

Lemma snd_bind {A B} (m : M A) (k : A -> M B) w :
  snd (bind m k w) = snd (k (fst (m w)) (snd (m w))).
Proof. unfold bind. by destruct (m w). Qed.

Lemma snd_mbind {A B} (m : M A) (k : A -> M B) w :
  snd ((m ≫= k) w) = snd (k (fst (m w)) (snd (m w))).
Proof. apply snd_bind. Qed.

(** [hoare P m Q]: from a world where [P] holds, [m] ends in one where
    [Q] holds; [preserves P m] when [Q] is [P]. *)
Definition hoare (P : world -> Prop) {A} (m : M A) (Q : world -> Prop) : Prop :=
  forall w, P w -> Q (snd (m w)).
Abbreviation preserves P m := (hoare P m P).

Lemma hoare_bind P R Q {A B} (m : M A) (k : A -> M B) :
  hoare P m R -> (forall a, hoare R (k a) Q) -> hoare P (bind m k) Q.
Proof.
  intros Hm Hk w Hw. rewrite snd_bind. exact (Hk _ _ (Hm w Hw)).
Qed.

Lemma hoare_mbind P R Q {A B} (m : M A) (k : A -> M B) :
  hoare P m R -> (forall a, hoare R (k a) Q) -> hoare P (m ≫= k) Q.
Proof. apply hoare_bind. Qed.

Create HintDb hs_pres discriminated.

Lemma preserves_bind P {A B} (m : M A) (k : A -> M B) :
  preserves P m -> (forall a, preserves P (k a)) -> preserves P (bind m k).
Proof.
  intros Hm Hk w Hw. unfold bind. specialize (Hm w Hw).
  destruct (m w) as [a w']. exact (Hk a w' Hm).
Qed.

Lemma preserves_mbind P {A B} (m : M A) (k : A -> M B) :
  preserves P m -> (forall a, preserves P (k a)) -> preserves P (m ≫= k).
Proof. apply preserves_bind. Qed.

Lemma preserves_ret P {A} (a : A) : preserves P (mret a).
Proof. intros w Hw. exact Hw. Qed.

Lemma preserves_when P b m : preserves P m -> preserves P (when b m).
Proof. destruct b; [done|]. intros _. apply preserves_ret. Qed.

Lemma preserves_gets P {A} (f : world -> A) : preserves P (gets f).
Proof. intros w Hw. exact Hw. Qed.

(** What [hs_inv] depends on: the plug and button states, the two
    lines, the counts of the regulators and the events. *)
Definition reg_view (x : regulator) := (reg_present x, reg_use x, reg_warned x).

Definition hs_view (w : world) :=
  ((plug_state_last (w_vars w), button_state_last (w_vars w)), w_btn w, w_det w,
   (sleep_power_state (w_pow w), bias_power_state (w_pow w),
    reg_view (head_mic (w_pow w)), reg_view (vbo (w_pow w))),
   events (w_out w)).

Lemma hs_inv_view w w' : hs_view w' = hs_view w -> hs_inv w -> hs_inv w'.
Proof.
  destruct w as [? ? ? [] ? ? [? ? [] ? [] ? ?] [] ?],
           w' as [? ? ? [] ? ? [? ? [] ? [] ? ?] [] ?].
  unfold hs_view, reg_view, hs_inv, key_ok, pow_ok; cbn. intros H. simplify_eq. done.
Qed.

Lemma preserves_view {A} (m : M A) :
  (forall w, hs_view (snd (m w)) = hs_view w) -> preserves hs_inv m.
Proof. intros H w Hw. exact (hs_inv_view _ _ (H w) Hw). Qed.

#[export] Hint Resolve preserves_ret preserves_gets : hs_pres.

(** [keeps f m]: [m] does not change the part [f] of the world;
    [keeps_view m]: it leaves what [hs_inv] depends on alone. *)
Definition keeps {T A} (f : world -> T) (m : M A) : Prop :=
  forall w, f (snd (m w)) = f w.
Abbreviation keeps_view m := (keeps hs_view m).

Lemma keeps_bind {T A B} (f : world -> T) (m : M A) (k : A -> M B) :
  keeps f m -> (forall a, keeps f (k a)) -> keeps f (bind m k).
Proof.
  intros Hm Hk w. unfold bind. specialize (Hm w).
  destruct (m w) as [a w']. rewrite Hk. exact Hm.
Qed.

Lemma keeps_mbind {T A B} (f : world -> T) (m : M A) (k : A -> M B) :
  keeps f m -> (forall a, keeps f (k a)) -> keeps f (m ≫= k).
Proof. apply keeps_bind. Qed.

Lemma keeps_ret {T A} (f : world -> T) (a : A) : keeps f (mret a).
Proof. intros w. reflexivity. Qed.

Lemma keeps_gets {T A} (f : world -> T) (g : world -> A) : keeps f (gets g).
Proof. intros w. reflexivity. Qed.

Lemma keeps_when {T} (f : world -> T) b m : keeps f m -> keeps f (when b m).
Proof. destruct b; [done|]. intros _. apply keeps_ret. Qed.

Ltac monad_unfold :=
  unfold mbind, M_bind, mret, M_ret, bind, gets, modify, when, get_var, set_var,
    queue_work in *.

Ltac split_ifs :=
  repeat (cbn in *; match goal with
    | |- context [Z.eqb ?a ?b] => destruct (Z.eqb_spec a b)
    | |- context [Z.leb ?a ?b] => destruct (Z.leb_spec a b)
    | |- context [Z.ltb ?a ?b] => destruct (Z.ltb_spec a b)
    | |- context [negb ?b] => destruct b eqn:?
    | |- context [if ?b then _ else _] => destruct b eqn:?
    end).

Ltac world_cases :=
  intros [? ? ? [] ? ? [? ? [] ? [] ? ?] [] []].

Lemma keeps_modify {T} (f : world -> T) g :
  (forall w, f (g w) = f w) -> keeps f (modify g).
Proof. intros H w. apply H. Qed.

Lemma keeps_view_tick w : hs_view (tick w) = hs_view w.
Proof. destruct w. reflexivity. Qed.

#[export] Hint Resolve keeps_ret keeps_gets : hs_pres.

Ltac kv :=
  repeat match goal with
  | |- keeps _ (bind _ _) => apply keeps_bind; [|intros ?]
  | |- keeps _ (mbind _ _) => apply keeps_mbind; [|intros ?]
  | |- keeps _ (when _ _) => apply keeps_when
  | |- keeps _ (mret _) => apply keeps_ret
  | |- keeps _ (gets _) => apply keeps_gets
  | |- keeps _ (modify _) => apply keeps_modify; world_cases; reflexivity
  | |- keeps _ (get_var _) => apply keeps_gets
  | |- keeps _ (set_var _) => unfold set_var
  | |- keeps _ (queue_work _) => unfold queue_work
  | |- keeps _ (switch_set_state_sdev _) => unfold switch_set_state_sdev
  | |- keeps _ (switch_set_state_sendend _) => unfold switch_set_state_sendend
  | |- keeps _ (if ?b then _ else _) => destruct b
  | |- keeps _ (match ?x with _ => _ end) => destruct x
  | |- keeps _ _ => solve [eauto 2 with hs_pres]
  end.

Lemma keeps_view_preserves {A} (m : M A) : keeps_view m -> preserves hs_inv m.
Proof. intros H w Hw. exact (hs_inv_view _ _ (H w) Hw). Qed.

Ltac pres :=
  repeat match goal with
  | |- preserves _ (bind _ _) => apply preserves_bind; [|intros ?]
  | |- preserves _ (mbind _ _) => apply preserves_mbind; [|intros ?]
  | |- preserves _ (when _ _) => apply preserves_when
  | |- preserves _ (mret _) => apply preserves_ret
  | |- preserves _ (gets _) => apply preserves_gets
  | |- preserves _ (get_var _) => apply preserves_gets
  | |- preserves _ (if ?b then _ else _) => destruct b
  | |- preserves _ (match ?x with _ => _ end) => destruct x
  | |- preserves _ _ => solve [eauto 2 with hs_pres]
  | |- preserves hs_inv _ => solve [apply keeps_view_preserves; kv]
  end.

Lemma gpio_get_value_kv g : keeps_view (gpio_get_value g).
Proof. intros w. apply keeps_view_tick. Qed.
Lemma sci_adc_get_value_kv : keeps_view sci_adc_get_value.
Proof. intros w. apply keeps_view_tick. Qed.
Lemma sci_adi_raw_write_kv a v : keeps_view (sci_adi_raw_write a v).
Proof. intros w. destruct w. reflexivity. Qed.
#[export] Hint Resolve gpio_get_value_kv sci_adc_get_value_kv sci_adi_raw_write_kv : hs_pres.

Lemma adc_sum_kv n z : keeps_view (adc_sum n z).
Proof. induction n in z |- *; simpl; kv. Qed.
#[export] Hint Resolve adc_sum_kv : hs_pres.

Section Preservation.
Variable pd : sprd_headset_platform_data.

Lemma headset_reg_set_val_kv addr v mask shift :
  keeps_view (headset_reg_set_val addr v mask shift).
Proof. unfold headset_reg_set_val, sci_adi_read. kv. Qed.
Lemma headset_reg_clr_bit_kv addr v : keeps_view (headset_reg_clr_bit addr v).
Proof. unfold headset_reg_clr_bit, sci_adi_read. kv. Qed.
Lemma headset_reg_set_bit_kv addr v : keeps_view (headset_reg_set_bit addr v).
Proof. unfold headset_reg_set_bit, sci_adi_read. kv. Qed.
Lemma headset_reg_get_bit_kv addr v : keeps_view (headset_reg_get_bit addr v).
Proof. unfold headset_reg_get_bit, sci_adi_read. kv. Qed.
Lemma sci_adi_write_kv addr v mask : keeps_view (sci_adi_write addr v mask).
Proof. unfold sci_adi_write, sci_adi_read. kv. Qed.
#[local] Hint Resolve headset_reg_set_val_kv headset_reg_clr_bit_kv
  headset_reg_set_bit_kv headset_reg_get_bit_kv sci_adi_write_kv : hs_pres.

Lemma wrap_sci_adc_get_value_kv : keeps_view wrap_sci_adc_get_value.
Proof. unfold wrap_sci_adc_get_value. kv. Qed.

Lemma queue_work_kv f : keeps_view (queue_work f).
Proof. unfold queue_work. kv. Qed.

#[local] Hint Resolve wrap_sci_adc_get_value_kv queue_work_kv : hs_pres.

Lemma headset_detect_init_kv : keeps_view headset_detect_init.
Proof. unfold headset_detect_init, headset_detect_clk_en. kv. Qed.
#[local] Hint Resolve headset_detect_init_kv : hs_pres.

Lemma adpgar_byp_select_func_kv : keeps_view adpgar_byp_select_func.
Proof. unfold adpgar_byp_select_func. kv. Qed.
#[local] Hint Resolve adpgar_byp_select_func_kv : hs_pres.

Lemma headset_detect_circuit_kv on : keeps_view (headset_detect_circuit on).
Proof. unfold headset_detect_circuit. kv. Qed.
#[local] Hint Resolve headset_detect_circuit_kv : hs_pres.

Lemma headset_button_irq_threshold_kv e : keeps_view (headset_button_irq_threshold pd e).
Proof. unfold headset_button_irq_threshold. kv. Qed.
#[local] Hint Resolve headset_button_irq_threshold_kv : hs_pres.

Lemma gpio_direction_output_switch_kv v : keeps_view (gpio_direction_output_switch v).
Proof. unfold gpio_direction_output_switch. kv. Qed.
#[local] Hint Resolve gpio_direction_output_switch_kv : hs_pres.

Lemma adc_debug_loop_kv n : keeps_view (adc_debug_loop pd n).
Proof. induction n; cbn [adc_debug_loop]; unfold sci_adi_read; kv. Qed.
#[local] Hint Resolve adc_debug_loop_kv : hs_pres.

Lemma adc_get_average_kv g v : keeps_view (adc_get_average pd g v).
Proof. unfold adc_get_average. kv. Qed.
#[local] Hint Resolve adc_get_average_kv : hs_pres.

Lemma reg_dump_func_kv : keeps_view (reg_dump_func pd).
Proof. unfold reg_dump_func. kv. Qed.
#[local] Hint Resolve reg_dump_func_kv : hs_pres.

(** ** Preservation of [hs_inv] *)

Lemma irq_enable_guard_ok e l : irq_ok l -> irq_ok (irq_enable_guard e l).
Proof.
  destruct l as [st d tr wr]; unfold irq_ok, irq_enable_guard, enable_irq,
    disable_irq_nosync; cbn. intros [[[-> ->]|[-> ->]] ->];
  destruct (Z.eqb_spec e 1); cbn; auto with lia.
Qed.

Lemma irq_enable_inv e :
  preserves hs_inv (headset_irq_button_enable e) /\
  preserves hs_inv (headset_irq_detect_enable e).
Proof.
  split; intros [? ? ? ? ? ? ? ? ?] (? & ? & ? & ?);
    unfold hs_inv; cbn; auto using irq_enable_guard_ok.
Qed.

Lemma set_irq_type_inv irq ty : preserves hs_inv (headset_irq_set_irq_type irq ty).
Proof.
  destruct irq; intros [? ? ? ? [] [] ? ? ?] (? & ? & ? & ?);
    unfold hs_inv; cbn; auto.
Qed.

Lemma set_irq_type_vars irq ty w :
  w_vars (snd (headset_irq_set_irq_type irq ty w)) = w_vars w.
Proof. by destruct irq, w. Qed.

Lemma headmic_sleep_disable_inv on : preserves hs_inv (headmic_sleep_disable on).
Proof.
  intros [h t r v bi di [sl bs [hp hu hmode hwarn] [cp cu cm cw] [vp vu vmode vwarn] ext oo] o k]
    (Hb & Hd & Hp & Hk).
  unfold pow_ok in Hp; cbn in Hp.
  unfold headmic_sleep_disable, sprd_headset_audio_headmic_sleep_disable,
    head_mic_missing, set_mode_by_block, sprd_headset_audio_block_is_running,
    regulator_enable, regulator_disable, regulator_set_mode,
    regulator_is_enabled, reg_call; monad_unfold; cbn.
  split_ifs; unfold hs_inv, pow_ok; cbn; intuition lia.
Qed.

Lemma headmicbias_power_on_inv on : preserves hs_inv (headmicbias_power_on pd on).
Proof.
  intros [h t r v bi di [sl bs [hp hu hmode hwarn] [cp cu cm cw] [vp vu vmode vwarn] ext oo] o k]
    (Hb & Hd & Hp & Hk).
  unfold pow_ok in Hp; cbn in Hp.
  unfold headmicbias_power_on, external_headmicbias, sprd_headset_headmic_bias_control,
    head_mic_missing, set_mode_by_block, sprd_headset_audio_block_is_running,
    regulator_enable, regulator_disable, regulator_set_mode,
    regulator_is_enabled, reg_call; monad_unfold; cbn.
  split_ifs; unfold hs_inv, pow_ok; cbn; intuition lia.
Qed.

Lemma input_sync_inv : preserves hs_inv input_sync.
Proof.
  intros [? ? ? ? ? ? ? [? ? ? evs] ?] (? & ? & ? & ?).
  unfold hs_inv, key_ok in *; cbn in *. done.
Qed.

(** Reporting the release of a pressed key keeps the invariant and
    clears [button_state_last]. *)
Lemma report_release_inv w :
  hs_inv w -> button_state_last (w_vars w) = 1 ->
  hs_inv (snd (report_release w)) /\
  button_state_last (w_vars (snd (report_release w))) = 0.
Proof.
  destruct w as [? ? ? [] ? ? ? [? ? ? evs] ?]; intros (? & ? & ? & Hk) Hbs.
  unfold report_release, input_sync, input_event, switch_set_state_sendend;
    monad_unfold; cbn in *.
  unfold hs_inv, key_ok in *; cbn in *. subst. intuition lia.
Qed.

#[local] Hint Resolve headmic_sleep_disable_inv headmicbias_power_on_inv
  input_sync_inv set_irq_type_inv : hs_pres.
#[local] Hint Extern 1 (preserves hs_inv (headset_irq_button_enable _)) =>
  apply irq_enable_inv : hs_pres.
#[local] Hint Extern 1 (preserves hs_inv (headset_irq_detect_enable _)) =>
  apply irq_enable_inv : hs_pres.
#[local] Hint Resolve wrap_sci_adc_get_value_kv queue_work_kv : hs_pres.

Lemma headset_adc_en_inv en : preserves hs_inv (headset_adc_en en).
Proof. unfold headset_adc_en. pres. Qed.
#[local] Hint Resolve headset_adc_en_inv : hs_pres.

Lemma set_adc_to_headmic_inv s : preserves hs_inv (set_adc_to_headmic s).
Proof. unfold set_adc_to_headmic. pres. Qed.
#[local] Hint Resolve set_adc_to_headmic_inv : hs_pres.

Lemma headset_type_detect_inv g : preserves hs_inv (headset_type_detect pd g).
Proof.
  unfold headset_type_detect. pres.
  generalize (Z.to_nat NO_MIC_RETRY_COUNT). induction n; cbn; pres.
Qed.
#[local] Hint Resolve headset_type_detect_inv : hs_pres.

Lemma release_if_pressed_inv w :
  hs_inv w ->
  hs_inv (snd (release_if_pressed w)) /\
  button_state_last (w_vars (snd (release_if_pressed w))) = 0.
Proof.
  intros Hw. unfold release_if_pressed; monad_unfold; cbn.
  destruct (Z.eqb_spec (button_state_last (w_vars w)) 1) as [E|E].
  - by apply report_release_inv.
  - split; [done|]. cbn. destruct Hw as (_ & _ & _ & _ & [|[]] & _); lia.
Qed.

Lemma release_if_pressed_pres : preserves hs_inv release_if_pressed.
Proof. intros w Hw. apply release_if_pressed_inv, Hw. Qed.
#[local] Hint Resolve release_if_pressed_pres : hs_pres.

Lemma button_release_verify_inv w :
  hs_inv w ->
  hs_inv (snd (button_release_verify pd w)) /\
  button_state_last (w_vars (snd (button_release_verify pd w))) = 0.
Proof.
  intros Hw. unfold button_release_verify. rewrite snd_bind.
  change (snd (get_var button_state_last w)) with w.
  change (fst (get_var button_state_last w)) with (button_state_last (w_vars w)).
  cbv beta. unfold when.
  destruct (Z.eqb_spec (button_state_last (w_vars w)) 1) as [E|E].
  - destruct (report_release_inv w Hw E) as [H1 H2].
    rewrite snd_mbind; cbv beta; rewrite snd_mbind; cbv beta.
    change (snd (@mret M M_ret unit tt ?w')) with w'.
    split; [by apply set_irq_type_inv|by rewrite set_irq_type_vars].
  - split; [done|]. cbn. destruct Hw as (_ & _ & _ & _ & [|[]] & _); lia.
Qed.

Lemma button_release_verify_pres : preserves hs_inv (button_release_verify pd).
Proof. intros w Hw. apply button_release_verify_inv, Hw. Qed.
#[local] Hint Resolve button_release_verify_pres : hs_pres.

Lemma button_press_verify_func_inv : preserves hs_inv button_press_verify_func.
Proof.
  intros [? ? ? [] ? ? ? [? ? ? evs] ?] (? & ? & ? & Hk).
  unfold button_press_verify_func, input_sync, input_event, switch_set_state_sendend;
    monad_unfold; cbn in *.
  unfold hs_inv, key_ok in *; cbn in *.
  split_ifs; subst; cbn; intuition (try lia).
Qed.
#[local] Hint Resolve button_press_verify_func_inv : hs_pres.

Lemma button_work_pressed_inv gl : preserves hs_inv (button_work_pressed pd gl).
Proof. unfold button_work_pressed. pres. Qed.
#[local] Hint Resolve button_work_pressed_inv : hs_pres.

Lemma button_work_released_inv : preserves hs_inv (button_work_released pd).
Proof. unfold button_work_released. pres. Qed.
#[local] Hint Resolve button_work_released_inv : hs_pres.

Lemma headset_button_work_func_inv : preserves hs_inv (headset_button_work_func pd).
Proof. unfold headset_button_work_func. pres. Qed.
#[local] Hint Resolve headset_button_work_func_inv : hs_pres.

Lemma set_plug_1_inv : preserves hs_inv (set_var (set_plug_state_last 1)).
Proof.
  intros [? ? ? [] ? ? ? ? ?] (? & ? & ? & ? & Hbs & ?).
  unfold hs_inv, key_ok; cbn in *. intuition lia.
Qed.
#[local] Hint Resolve set_plug_1_inv : hs_pres.

(** After [button_release_verify] no key is pressed. *)
Definition hs_inv0 (w : world) : Prop :=
  hs_inv w /\ button_state_last (w_vars w) = 0.

Lemma keeps_view_inv0 {A} (m : M A) : keeps_view m -> preserves hs_inv0 m.
Proof.
  intros H w [Hw Hb]. split; [exact (hs_inv_view _ _ (H w) Hw)|].
  specialize (H w). unfold hs_view in H. injection H; intros; congruence.
Qed.

Lemma set_plug_0_inv : hoare hs_inv0 (set_var (set_plug_state_last 0)) hs_inv.
Proof.
  intros [? ? ? [] ? ? ? ? ?] [(? & ? & ? & ? & ? & ?) Hb].
  unfold hs_inv, key_ok in *; cbn in *. intuition lia.
Qed.

Lemma detect_out_inv : preserves hs_inv (detect_out pd).
Proof. unfold detect_out, detect_out_1. pres. Qed.
#[local] Hint Resolve detect_out_inv : hs_pres.

Lemma detect_plug_in_inv : preserves hs_inv (detect_plug_in pd).
Proof. unfold detect_plug_in. pres. Qed.
#[local] Hint Resolve detect_plug_in_inv : hs_pres.

(** [chain] walks a sequence of statements carrying [hs_inv], and
    [hs_inv0] from [button_release_verify] to the reset of
    [plug_state_last]. *)
Ltac chain :=
  repeat match goal with
  | |- hoare hs_inv (mbind _ (button_release_verify _)) _ =>
      eapply (hoare_mbind _ hs_inv0);
        [intros ? ?; by apply button_release_verify_inv|intros ?; cbv beta]
  | |- hoare hs_inv0 (mbind _ (set_var (set_plug_state_last 0))) _ =>
      eapply (hoare_mbind _ hs_inv); [apply set_plug_0_inv|intros ?; cbv beta]
  | |- hoare hs_inv0 (mbind _ _) _ =>
      eapply (hoare_mbind _ hs_inv0); [apply keeps_view_inv0; kv|intros ?; cbv beta]
  | |- hoare hs_inv (bind _ _) _ =>
      eapply (hoare_bind _ hs_inv); [solve [pres]|intros ?; cbv beta]
  | |- hoare hs_inv (mbind _ _) _ =>
      eapply (hoare_mbind _ hs_inv); [solve [pres]|intros ?; cbv beta]
  | |- hoare _ (if ?b then _ else _) _ => destruct b
  | |- hoare _ (match ?x with _ => _ end) _ => destruct x
  end.

Lemma detect_plug_out_inv : preserves hs_inv (detect_plug_out pd).
Proof. unfold detect_plug_out. chain; unfold detect_out_1; pres. Qed.
#[local] Hint Resolve detect_plug_out_inv : hs_pres.

Lemma headset_detect_work_func_inv : preserves hs_inv (headset_detect_work_func pd).
Proof. unfold headset_detect_work_func. pres. Qed.

Lemma button_irq_handler_inv : preserves hs_inv (headset_button_irq_handler pd).
Proof. unfold headset_button_irq_handler, headset_button_hardware_bug_fix. pres. Qed.

Lemma detect_irq_handler_inv : preserves hs_inv (headset_detect_irq_handler pd).
Proof. unfold headset_detect_irq_handler. pres. Qed.

Lemma debug_level_store_inv l : preserves hs_inv (headset_debug_level_store l).
Proof. unfold headset_debug_level_store. pres. Qed.

Lemma run_work_inv f (m : M unit) w :
  preserves hs_inv m -> hs_inv w -> hs_inv (run_work f m w).
Proof.
  intros Hm Hw. apply Hm. destruct w; exact Hw.
Qed.

(** Every step of the driver keeps [hs_inv]. *)
Lemma hs_step_inv w w' : hs_step pd w w' -> hs_inv w -> hs_inv w'.
Proof.
  destruct 1; intros Hw.
  - by apply button_irq_handler_inv.
  - by apply detect_irq_handler_inv.
  - apply run_work_inv; [apply headset_button_work_func_inv|done].
  - apply run_work_inv; [apply headset_detect_work_func_inv|done].
  - apply run_work_inv; [apply button_press_verify_func_inv|done].
  - apply run_work_inv; [apply keeps_view_preserves, adpgar_byp_select_func_kv|done].
  - apply run_work_inv; [apply keeps_view_preserves, reg_dump_func_kv|done].
  - by apply debug_level_store_inv.
Qed.

(** Every state reachable from one where [hs_inv] holds satisfies it. *)
Lemma hs_reachable_inv w w' :
  star (hs_step pd) w w' -> hs_inv w -> hs_inv w'.
Proof.
  intros H. exact (star_invariant _ hs_inv (fun s s' Hs Hst => hs_step_inv s s' Hst Hs) _ _ H).
Qed.

(** ** Results of the driver code *)

Definition returns {A} (m : M A) (Q : A -> Prop) : Prop := forall w, Q (fst (m w)).

Lemma returns_bind {A B} (m : M A) (k : A -> M B) Q :
  (forall a, returns (k a) Q) -> returns (bind m k) Q.
Proof. intros H w. unfold bind. destruct (m w). apply H. Qed.

Lemma returns_mbind {A B} (m : M A) (k : A -> M B) Q :
  (forall a, returns (k a) Q) -> returns (m ≫= k) Q.
Proof. apply returns_bind. Qed.

Lemma returns_ret {A} (a : A) (Q : A -> Prop) : Q a -> returns (mret a) Q.
Proof. intros H w. exact H. Qed.

Ltac rets :=
  repeat match goal with
  | |- returns (bind _ _) _ => apply returns_bind; intros ?
  | |- returns (mbind _ _) _ => apply returns_mbind; intros ?
  | |- returns (mret _) _ => apply returns_ret
  | |- returns (if ?b then _ else _) _ => destruct b
  | |- returns (match ?x with _ => _ end) _ => destruct x
  end.

Lemma type_detect_loop_not_north_america g n :
  returns (type_detect_loop pd g n) (fun t => t <> HEADSET_NORTH_AMERICA).
Proof.
  induction n; cbn [type_detect_loop]; simpl; rets; try discriminate; apply IHn.
Qed.

(** ** What the plug detection guarantees *)

Definition det_enabled (w : world) : Prop :=
  irq_state (w_det w) = 1 /\ irq_depth (w_det w) = 0.

Lemma detect_out_1_enabled : hoare hs_inv detect_out_1 det_enabled.
Proof.
  intros [? ? ? ? ? [st d tr wr] ? ? ?] (_ & Hd & _); cbn.
  unfold irq_ok in Hd; cbn in Hd. unfold det_enabled, irq_enable_guard, enable_irq; cbn.
  destruct Hd as [[[-> ->]|[-> ->]] ->]; cbn; auto.
Qed.

Lemma detect_out_enabled : hoare hs_inv (detect_out pd) det_enabled.
Proof. unfold detect_out. chain. apply detect_out_1_enabled. Qed.

(** The part of the world the end of an unplug does not change. *)
Definition vars_out (w : world) := (w_vars w, sdev_state (w_out w)).

Lemma reg_call_vars_out r g : keeps vars_out (reg_call r g).
Proof.
  intros w. unfold reg_call. destruct (reg_present _); [destruct (g _)|]; by destruct w.
Qed.

Lemma regulator_is_enabled_vars_out r : keeps vars_out (regulator_is_enabled r).
Proof. intros w. unfold regulator_is_enabled. destruct (reg_present _); by destruct w. Qed.
#[local] Hint Resolve reg_call_vars_out regulator_is_enabled_vars_out : hs_pres.

Lemma detect_out_vars_out : keeps vars_out (detect_out pd) /\ keeps vars_out detect_out_1.
Proof.
  unfold detect_out, detect_out_1, headmicbias_power_on, external_headmicbias,
    sprd_headset_headmic_bias_control, head_mic_missing, set_mode_by_block,
    sprd_headset_audio_block_is_running, regulator_enable, regulator_disable,
    regulator_set_mode, headset_irq_detect_enable.
  split; kv.
Qed.

(** With a jack plugged, the detect work always unplugs it. *)
Lemma detect_work_plugged w :
  plug_state_last (w_vars w) = 1 ->
  snd (headset_detect_work_func pd w) = snd (detect_plug_out pd w).
Proof.
  intros Hp. unfold headset_detect_work_func. monad_unfold.
  cbn -[detect_plug_out detect_out detect_plug_in headmicbias_power_on gpio_get_value].
  rewrite Hp. cbn -[detect_plug_out]. rewrite Hp. cbn -[detect_plug_out].
  by destruct (detect_plug_out pd w).
Qed.

Lemma hoare_conj P Q1 Q2 {A} (m : M A) :
  hoare P m Q1 -> hoare P m Q2 -> hoare P m (fun w => Q1 w /\ Q2 w).
Proof. intros H1 H2 w Hw. split; [apply H1|apply H2]; exact Hw. Qed.

Lemma hoare_pre P P' Q {A} (m : M A) :
  (forall w, P w -> P' w) -> hoare P' m Q -> hoare P m Q.
Proof. intros HP H w Hw. apply H, HP, Hw. Qed.

(** Unplugged: nothing plugged, no key pressed, and the switch says so. *)
Definition unplugged (w : world) : Prop :=
  hs_inv w /\ plug_state_last (w_vars w) = 0 /\ button_state_last (w_vars w) = 0 /\
  sdev_state (w_out w) = BIT_HEADSET_OUT.

Lemma unplugged_frame {A} (m : M A) :
  preserves hs_inv m -> keeps vars_out m -> preserves unplugged m.
Proof.
  intros Hi Hk w (H1 & H2 & H3 & H4). specialize (Hk w). unfold vars_out in Hk.
  injection Hk as Hv Hs. unfold unplugged. rewrite Hv, Hs. auto.
Qed.

Lemma set_irq_type_vars_out irq ty : keeps vars_out (headset_irq_set_irq_type irq ty).
Proof. unfold headset_irq_set_irq_type. kv. Qed.
Lemma irq_detect_enable_vars_out e : keeps vars_out (headset_irq_detect_enable e).
Proof. unfold headset_irq_detect_enable. kv. Qed.
#[local] Hint Resolve set_irq_type_vars_out irq_detect_enable_vars_out : hs_pres.

Lemma detect_plug_out_unplugs :
  hoare hs_inv (detect_plug_out pd) (fun w => unplugged w /\ det_enabled w).
Proof.
  unfold detect_plug_out.
  eapply (hoare_mbind _ hs_inv); [pres|intros _].
  eapply (hoare_mbind _ hs_inv0); [intros ? ?; by apply button_release_verify_inv|intros _].
  eapply (hoare_mbind _ hs_inv0); [apply keeps_view_inv0; kv|intros _].
  eapply (hoare_mbind _ (fun w => hs_inv0 w /\ sdev_state (w_out w) = BIT_HEADSET_OUT)).
  { intros w Hw. split; [apply (keeps_view_inv0 (switch_set_state_sdev _)); [kv|done]|].
    by destruct w as [? ? ? ? ? ? ? [] ?]. }
  intros _. eapply (hoare_mbind _ unplugged).
  { intros w [H0 Hs]. split; [by apply set_plug_0_inv|].
    destruct w as [? ? ? [] ? ? ? [] ?], H0 as [_ Hb]; cbn in *. done. }
  intros _.
  eapply (hoare_mbind _ unplugged); [apply unplugged_frame; [pres|kv]|intros _].
  eapply (hoare_mbind _ unplugged); [apply unplugged_frame; [pres|kv]|intros _].
  eapply (hoare_bind _ unplugged); [apply unplugged_frame; [pres|kv]|intros h].
  destruct (negb _); apply hoare_conj.
  - apply unplugged_frame; [unfold detect_out_1; pres|apply detect_out_vars_out].
  - apply (hoare_pre _ hs_inv); [by intros w []|apply detect_out_1_enabled].
  - apply unplugged_frame; [pres|apply detect_out_vars_out].
  - apply (hoare_pre _ hs_inv); [by intros w []|apply detect_out_enabled].
Qed.

Lemma detect_plug_in_enabled : hoare hs_inv (detect_plug_in pd) det_enabled.
Proof. unfold detect_plug_in. chain; apply detect_out_enabled. Qed.

Lemma hoare_post P Q Q' {A} (m : M A) :
  hoare P m Q -> (forall w, Q w -> Q' w) -> hoare P m Q'.
Proof. intros H HQ w Hw. apply HQ, H, Hw. Qed.

(** Whichever branch headset_detect_work_func takes (debounce failure,
    type error, plug in, plug out), from a state of the invariant it
    ends with the detect interrupt enabled and the IRQ core's depth at 0. *)
Lemma headset_detect_work_func_enabled w :
  hs_inv w -> det_enabled (snd (headset_detect_work_func pd w)).
Proof.
  revert w. change (hoare hs_inv (headset_detect_work_func pd) det_enabled).
  unfold headset_detect_work_func. chain;
    first [ apply detect_plug_in_enabled | apply detect_out_enabled
          | eapply hoare_post; [apply detect_plug_out_unplugs|by intros w []] ].
Qed.

(** From a state of the invariant with a jack plugged,
    headset_detect_work_func run to its end unplugs it without debounce:
    plug_state_last and button_state_last become 0, the switch reports
    BIT_HEADSET_OUT, the newest key event (if any) is a release, and the
    detect interrupt is left enabled. *)
Theorem headset_unplug_releases_key w :
  hs_inv w -> plug_state_last (w_vars w) = 1 ->
  let w' := snd (headset_detect_work_func pd w) in
  plug_state_last (w_vars w') = 0 /\ button_state_last (w_vars w') = 0 /\
  sdev_state (w_out w') = BIT_HEADSET_OUT /\
  alt 0 (key_values (events (w_out w'))) = true /\ det_enabled w'.
Proof.
  intros Hw Hp w'. subst w'. rewrite detect_work_plugged by exact Hp.
  destruct (detect_plug_out_unplugs w Hw) as [((_ & _ & _ & _ & _ & Halt) & H1 & H2 & H3) H4].
  rewrite H2 in Halt. auto.
Qed.

(** With nothing in between, the two halves are the plug-out, and the
    detect work of a plugged jack. *)
Lemma detect_plug_out_split w :
  snd (detect_plug_out pd w) = snd (detect_plug_out_back pd (snd (detect_plug_out_front pd w))).
Proof.
  unfold detect_plug_out, detect_plug_out_front, detect_plug_out_back.
  by rewrite ?snd_mbind, ?snd_bind.
Qed.

Lemma detect_work_split w :
  plug_state_last (w_vars w) = 1 ->
  run_work (set_work_detect false) (headset_detect_work_func pd) w =
    snd (detect_plug_out_back pd (run_work (set_work_detect false) (detect_plug_out_front pd) w)).
Proof.
  intros Hp. unfold run_work. rewrite detect_work_plugged, detect_plug_out_split; [done|].
  by destruct w.
Qed.

(** The key state and the events the halves and the verify work leave. *)
Definition key_view (w : world) := (plug_state_last (w_vars w), button_state_last (w_vars w),
                                    events (w_out w)).

Lemma detect_plug_out_front_released w :
  button_state_last (w_vars w) = 0 -> key_view (snd (detect_plug_out_front pd w)) = key_view w.
Proof.
  intros Hb. destruct w as [? ? ? [] ? ? ? [] ?]; cbn in Hb; subst.
  unfold detect_plug_out_front, button_release_verify, headset_irq_button_enable,
    switch_set_state_sdev. monad_unfold. reflexivity.
Qed.

Lemma button_press_verify_reports w :
  plug_state_last (w_vars w) = 1 -> button_state_last (w_vars w) = 0 ->
  let w' := snd (button_press_verify_func w) in
  plug_state_last (w_vars w') = 1 /\ button_state_last (w_vars w') = 1 /\
  key_values (events (w_out w')) = 1 :: key_values (events (w_out w)).
Proof.
  intros Hp Hb. destruct w as [? ? ? [] ? ? ? [] ?]; cbn in Hp, Hb; subst.
  unfold button_press_verify_func, input_sync, input_event, switch_set_state_sendend.
  monad_unfold. done.
Qed.

Lemma key_view_reg_call r g : keeps key_view (reg_call r g).
Proof.
  intros w. unfold reg_call. destruct (reg_present _); [destruct (g _)|]; by destruct w.
Qed.
Lemma key_view_regulator_is_enabled r : keeps key_view (regulator_is_enabled r).
Proof. intros w. unfold regulator_is_enabled. destruct (reg_present _); by destruct w. Qed.
#[local] Hint Resolve key_view_reg_call key_view_regulator_is_enabled : hs_pres.

Lemma detect_plug_out_back_unplugs w :
  let w' := snd (detect_plug_out_back pd w) in
  plug_state_last (w_vars w') = 0 /\ button_state_last (w_vars w') = button_state_last (w_vars w) /\
  events (w_out w') = events (w_out w).
Proof.
  intros w'. enough (Hv : key_view w' = (0, button_state_last (w_vars w), events (w_out w)))
    by (injection Hv; auto). subst w'.
  assert (Hk : keeps key_view (headset_irq_set_irq_type IRQ_DETECT
    (if Z.eqb (irq_trigger_level_detect pd) 1 then IRQF_TRIGGER_HIGH else IRQF_TRIGGER_LOW);;
    headset_irq_detect_enable 1;;
    let* headphone := get_var ht_headphone in
    if negb (Z.eqb headphone 0) then detect_out_1 else detect_out pd)).
  {
    unfold headset_irq_set_irq_type, headset_irq_detect_enable, detect_out, detect_out_1,
      headmicbias_power_on, external_headmicbias, sprd_headset_headmic_bias_control,
      head_mic_missing, set_mode_by_block, sprd_headset_audio_block_is_running,
      regulator_enable, regulator_disable, regulator_set_mode, headset_irq_detect_enable.
    kv. }
  unfold detect_plug_out_back. rewrite snd_mbind, Hk.
  by destruct w as [? ? ? [] ? ? ? [] ?].
Qed.

(** C34: button_press_verify_func takes no lock, so it can report a
    press inside the plug-out of headset_detect_work_func: from a state
    of the invariant with a jack plugged, the button not yet reported
    and the detect work and the press verification queued, the detect
    work releases nothing (button_state_last is 0), the verification
    sees plug_state_last still 1 and reports the press, and the detect
    work then sets plug_state_last to 0, so the jack is out with the key
    reported pressed and the invariant is broken. *)
Theorem headset_unplug_verify_race w :
  hs_inv w -> plug_state_last (w_vars w) = 1 -> button_state_last (w_vars w) = 0 ->
  work_detect (w_work w) = true -> work_verify (w_work w) = true ->
  exists w', star (hs_split_step pd) (hctx_idle, w) (hctx_idle, w') /\
    plug_state_last (w_vars w') = 0 /\ button_state_last (w_vars w') = 1 /\
    head (key_values (events (w_out w'))) = Some 1 /\ ~ hs_inv w'.
Proof.
  intros _ Hp Hb Hd Hv.
  set (w1 := run_work (set_work_detect false) (detect_plug_out_front pd) w).
  assert (K1 : key_view w1 = key_view w).
  { unfold w1, run_work. rewrite detect_plug_out_front_released; by destruct w. }
  assert (V1 : work_verify (w_work w1) = true).
  { unfold w1, run_work, detect_plug_out_front, button_release_verify.
    destruct w as [? ? ? [] ? ? ? [] []]; cbn in *; subst. by monad_unfold. }
  injection K1 as P1 B1 E1.
  set (w2 := run_work (set_work_verify false) button_press_verify_func w1).
  destruct (button_press_verify_reports (map_work (set_work_verify false) w1))
    as (P2 & B2 & E2); [destruct w1; cbn in *; congruence..|].
  change (snd (button_press_verify_func (map_work (set_work_verify false) w1))) with w2
    in P2, B2, E2.
  destruct (detect_plug_out_back_unplugs w2) as (P3 & B3 & E3).
  exists (snd (detect_plug_out_back pd w2)). split_and!.
  - eapply star_step; [by apply hsp_unplug_front|]. fold w1.
    eapply star_step; [by apply hsp_verify_work|]. fold w2.
    eapply star_step; [apply hsp_unplug_back|]. apply star_refl.
  - done.
  - by rewrite B3.
  - by rewrite E3, E2.
  - intros (_ & _ & _ & _ & [Hb3|[_ Hp3]] & _); congruence.
Qed.

(** C36: headset_type_detect never returns HEADSET_NORTH_AMERICA,
    whatever the hardware reads: the left-channel block is under #if 0,
    so adc_left_average stays 0 and the North-America test cannot hold. *)
Theorem headset_type_detect_never_north_america g w :
  fst (headset_type_detect pd g w) <> HEADSET_NORTH_AMERICA.
Proof.
  revert w. change (returns (headset_type_detect pd g) (fun t => t <> HEADSET_NORTH_AMERICA)).
  unfold headset_type_detect. rets. apply type_detect_loop_not_north_america.
Qed.

(** ** The detect interrupt is never lost *)

(** What decides whether a plug event can still be seen: the detect
    line and whether [work_detect] is queued. *)
Definition det_view (w : world) := (w_det w, work_detect (w_work w)).

(** The detect line is enabled by the driver, or the detect work that
    enables it is queued. *)
Definition det_live (w : world) : Prop :=
  irq_state (w_det w) = 1 \/ work_detect (w_work w) = true.

Lemma gpio_get_value_dv g : keeps det_view (gpio_get_value g).
Proof. intros w. by destruct w. Qed.
Lemma sci_adc_get_value_dv : keeps det_view sci_adc_get_value.
Proof. intros w. by destruct w. Qed.
Lemma reg_call_dv r g : keeps det_view (reg_call r g).
Proof.
  intros w. unfold reg_call. destruct (reg_present _); [destruct (g _)|]; by destruct w.
Qed.
Lemma regulator_is_enabled_dv r : keeps det_view (regulator_is_enabled r).
Proof. intros w. unfold regulator_is_enabled. destruct (reg_present _); by destruct w. Qed.
Lemma headset_irq_set_irq_type_button_dv t :
  keeps det_view (headset_irq_set_irq_type IRQ_BUTTON t).
Proof. unfold headset_irq_set_irq_type. kv. Qed.
#[local] Hint Resolve gpio_get_value_dv sci_adc_get_value_dv reg_call_dv
  regulator_is_enabled_dv headset_irq_set_irq_type_button_dv : hs_pres.

Lemma adc_sum_dv n z : keeps det_view (adc_sum n z).
Proof. induction n in z |- *; simpl; kv. Qed.
#[local] Hint Resolve adc_sum_dv : hs_pres.

(** [dv_unfold] opens the helpers down to the primitives [kv] knows. *)
Ltac dv_unfold :=
  unfold headset_reg_set_val, headset_reg_clr_bit, headset_reg_set_bit,
    headset_reg_get_bit, sci_adi_write, sci_adi_read, sci_adi_raw_write,
    wrap_sci_adc_get_value, headmic_sleep_disable,
    sprd_headset_audio_headmic_sleep_disable, head_mic_missing, set_mode_by_block,
    sprd_headset_audio_block_is_running, regulator_enable, regulator_disable,
    regulator_set_mode, headset_irq_button_enable, input_sync, input_event,
    switch_set_state_sendend, gpio_direction_output_switch.

Lemma headset_adc_en_dv e : keeps det_view (headset_adc_en e).
Proof. unfold headset_adc_en. dv_unfold. kv. Qed.
Lemma set_adc_to_headmic_dv e : keeps det_view (set_adc_to_headmic e).
Proof. unfold set_adc_to_headmic. dv_unfold. kv; apply headset_adc_en_dv. Qed.
Lemma adc_debug_loop_dv n : keeps det_view (adc_debug_loop pd n).
Proof. induction n; cbn [adc_debug_loop]; dv_unfold; kv. Qed.
#[local] Hint Resolve headset_adc_en_dv set_adc_to_headmic_dv adc_debug_loop_dv : hs_pres.

Lemma adc_get_average_dv g v : keeps det_view (adc_get_average pd g v).
Proof. unfold adc_get_average. dv_unfold. kv. Qed.
Lemma report_release_dv : keeps det_view report_release.
Proof. unfold report_release. dv_unfold. kv. Qed.
#[local] Hint Resolve adc_get_average_dv report_release_dv : hs_pres.

(** The work items and handlers of the button side, the register dump
    and the [debug_level] store touch neither the detect line nor the
    detect work. *)
Lemma headset_button_work_func_dv : keeps det_view (headset_button_work_func pd).
Proof.
  unfold headset_button_work_func, button_work_pressed, button_work_released,
    release_if_pressed. dv_unfold. kv.
Qed.

Lemma button_side_dv :
  keeps det_view (headset_button_irq_handler pd) /\
  keeps det_view button_press_verify_func /\
  keeps det_view adpgar_byp_select_func /\ keeps det_view (reg_dump_func pd) /\
  forall l, keeps det_view (headset_debug_level_store l).
Proof.
  unfold headset_button_irq_handler, headset_button_hardware_bug_fix,
    button_press_verify_func, adpgar_byp_select_func, reg_dump_func,
    headset_debug_level_store. dv_unfold. repeat split; [..|intros l]; kv.
Qed.

Lemma headset_detect_irq_handler_queues w :
  work_detect (w_work (snd (headset_detect_irq_handler pd w))) = true.
Proof. by destruct w as [? ? ? ? ? ? ? ? []]. Qed.

Lemma run_work_dv f (m : M unit) w :
  keeps det_view m -> work_detect (f (w_work w)) = work_detect (w_work w) ->
  det_view (run_work f m w) = det_view w.
Proof.
  intros Hm Hf. unfold run_work. rewrite Hm. destruct w. unfold det_view in *; cbn in *.
  by rewrite Hf.
Qed.

Lemma det_live_view w w' : det_view w' = det_view w -> det_live w -> det_live w'.
Proof. unfold det_view, det_live. intros [= -> ->]. done. Qed.

Lemma hs_inv_map_work f w : hs_inv w -> hs_inv (map_work f w).
Proof. by destruct w. Qed.

Lemma run_work_det_live f (m : M unit) w :
  keeps det_view m -> work_detect (f (w_work w)) = work_detect (w_work w) ->
  det_live w -> det_live (run_work f m w).
Proof. intros Hm Hf. apply det_live_view, run_work_dv; assumption. Qed.

(** Every step keeps [det_live] in the states of the invariant. *)
Lemma hs_step_det_live w w' :
  hs_step pd w w' -> hs_inv w -> det_live w -> det_live w'.
Proof.
  destruct button_side_dv as (Hb & Hv & Ha & Hr & Hs).
  destruct 1; intros Hw Hl.
  - eapply det_live_view; [apply Hb|exact Hl].
  - right. apply headset_detect_irq_handler_queues.
  - apply run_work_det_live; [apply headset_button_work_func_dv|by destruct w as [? ? ? ? ? ? ? ? []]|exact Hl].
  - left. apply (proj1 (headset_detect_work_func_enabled _ (hs_inv_map_work _ _ Hw))).
  - apply run_work_det_live; [apply Hv|by destruct w as [? ? ? ? ? ? ? ? []]|exact Hl].
  - apply run_work_det_live; [apply Ha|by destruct w as [? ? ? ? ? ? ? ? []]|exact Hl].
  - apply run_work_det_live; [apply Hr|by destruct w as [? ? ? ? ? ? ? ? []]|exact Hl].
  - eapply det_live_view; [apply Hs|exact Hl].
Qed.

(** C37: Liveness of plug detection: from a state of the invariant in
    which the detect interrupt is enabled or the detect work queued,
    every state reached by handlers, work items and debug_level writes
    can go on, by running the queued detect work, to a state where the
    detect interrupt is enabled and the IRQ core's depth is 0, so the
    next plug or unplug raises headset_detect_irq_handler. *)
Theorem headset_detect_irq_live w w' :
  hs_inv w -> det_live w -> star (hs_step pd) w w' ->
  exists w'', star (hs_step pd) w' w'' /\ det_enabled w''.
Proof.
  intros Hw Hl Hs.
  assert (Hinv : hs_inv w' /\ det_live w').
  { inv_star (fun s s' '(conj Hi Hd) Hst =>
      conj (hs_step_inv s s' Hst Hi) (hs_step_det_live s s' Hst Hi Hd)) Hs.
    done. }
  destruct Hinv as [Hi [Hd|Hd]].
  - exists w'. split; [apply star_refl|]. destruct Hi as (_ & Hdet & _).
    destruct Hdet as [[[? ?]|[? _]] _]; [done|lia].
  - eexists. split; [apply star_one, hs_detect_work, Hd|].
    apply (headset_detect_work_func_enabled _ (hs_inv_map_work _ _ Hi)).
Qed.

End Preservation.

(** The frame and preservation lemmas, for the files that use the driver. *)
#[export] Hint Resolve
  headset_reg_set_val_kv headset_reg_clr_bit_kv headset_reg_set_bit_kv headset_reg_get_bit_kv
  sci_adi_write_kv wrap_sci_adc_get_value_kv queue_work_kv headset_detect_init_kv
  adpgar_byp_select_func_kv headset_detect_circuit_kv headset_button_irq_threshold_kv gpio_direction_output_switch_kv
  adc_debug_loop_kv adc_get_average_kv reg_dump_func_kv headmic_sleep_disable_inv
  headmicbias_power_on_inv input_sync_inv set_irq_type_inv headset_adc_en_inv
  set_adc_to_headmic_inv headset_type_detect_inv release_if_pressed_pres button_release_verify_pres
  button_press_verify_func_inv button_work_pressed_inv button_work_released_inv headset_button_work_func_inv
  set_plug_1_inv detect_out_inv detect_plug_in_inv detect_plug_out_inv
  reg_call_vars_out regulator_is_enabled_vars_out set_irq_type_vars_out irq_detect_enable_vars_out : hs_pres.

(** ** Register bit fields *)

Lemma testbit_above_width v k j : 0 <= v < 2 ^ k -> 0 <= k -> k <= j -> Z.testbit v j = false.
Proof.
  intros Hv Hk Hj. rewrite <- (Z.mod_small v (2 ^ k)) by lia.
  apply Z.mod_pow2_bits_high. lia.
Qed.

(** A field update [(r & ~mask) | (v << sh)] of a 32-bit register with
    [mask = ones k << sh] and [v] of [k] bits: the field holds [v], the
    other bits are [r]'s. *)
Lemma field_update_bits r v k sh i :
  0 <= sh -> 0 <= k -> sh + k <= 32 -> 0 <= r < 2 ^ 32 -> 0 <= v < 2 ^ k -> 0 <= i ->
  Z.testbit (((r .& ~~ (Z.ones k << sh)) .| (v << sh)) mod 2 ^ 32) i =
  if (sh <=? i) && (i <? sh + k) then Z.testbit v (i - sh) else Z.testbit r i.
Proof.
  intros Hsh Hk Hw Hr Hv Hi. destruct (Z.ltb_spec i 32).
  - rewrite Z.mod_pow2_bits_low by lia.
    rewrite Z.lor_spec, Z.land_spec, Z.lnot_spec, !Z.shiftl_spec by lia.
    destruct (Z.leb_spec sh i), (Z.ltb_spec i (sh + k)); cbn.
    + rewrite Z.ones_spec_low by lia. by rewrite andb_false_r.
    + rewrite Z.ones_spec_high, (testbit_above_width v k) by lia.
      by rewrite andb_true_r, orb_false_r.
    + rewrite (Z.testbit_neg_r (Z.ones k)), (Z.testbit_neg_r v) by lia.
      by rewrite andb_true_r, orb_false_r.
    + lia.
  - rewrite Z.mod_pow2_bits_high by lia.
    replace ((sh <=? i) && (i <? sh + k)) with false
      by (symmetry; apply andb_false_iff; right; apply Z.ltb_ge; lia).
    symmetry. apply (testbit_above_width r 32); lia.
Qed.

Lemma headset_reg_set_val_effect addr v mask sh w :
  w_regs (snd (headset_reg_set_val addr v mask sh w)) addr =
  ((w_regs w addr .& ~~ mask) .| (v << sh)) mod 2 ^ 32.
Proof. destruct w. unfold headset_reg_set_val, sci_adi_read, sci_adi_raw_write;
  monad_unfold; cbn. unfold reg_update. by rewrite Z.eqb_refl. Qed.

Lemma AUDIO_HEAD_SBUT_MASK_ones : AUDIO_HEAD_SBUT_MASK = Z.ones 4 << AUDIO_HEAD_SBUT_SHIFT.
Proof. reflexivity. Qed.

(** The value [headset_button_irq_threshold 1] leaves in [ANA_HDT0]. *)
Lemma threshold_register pd w :
  w_regs (snd (headset_button_irq_threshold pd 1 w)) (HEADMIC_DETECT_REG ANA_HDT0) =
  ((w_regs w (HEADMIC_DETECT_REG ANA_HDT0) .& ~~ (Z.ones 4 << 1))
     .| (irq_threshold_buttont pd << 1)) mod 2 ^ 32.
Proof. unfold headset_button_irq_threshold. cbn [Z.eqb negb]. apply headset_reg_set_val_effect. Qed.

(** For a threshold below 16, headset_button_irq_threshold(1)
    stores it in the SBUT field (bits 1-4) of ANA_HDT0, where it reads
    back, and leaves every other bit of the register. *)
Theorem headset_button_irq_threshold_field pd w :
  0 <= irq_threshold_buttont pd < 16 ->
  0 <= w_regs w (HEADMIC_DETECT_REG ANA_HDT0) < 2 ^ 32 ->
  let r' := w_regs (snd (headset_button_irq_threshold pd 1 w)) (HEADMIC_DETECT_REG ANA_HDT0) in
  (r' >> AUDIO_HEAD_SBUT_SHIFT) .& 0xF = irq_threshold_buttont pd /\
  (forall i, 0 <= i -> ~ (1 <= i <= 4) ->
   Z.testbit r' i = Z.testbit (w_regs w (HEADMIC_DETECT_REG ANA_HDT0)) i).
Proof.
  intros Ht Hr r'. subst r'. rewrite threshold_register.
  unfold AUDIO_HEAD_SBUT_SHIFT. change (2 ^ 4) with 16 in *. split.
  - apply Z.bits_inj'. intros j Hj.
    rewrite Z.land_spec, Z.shiftr_spec by lia.
    rewrite field_update_bits by lia.
    change 0xF with (Z.ones 4). destruct (Z.ltb_spec j 4).
    + rewrite Z.ones_spec_low by lia.
      replace ((1 <=? j + 1) && (j + 1 <? 1 + 4)) with true
        by (symmetry; apply andb_true_iff; split; [apply Z.leb_le|apply Z.ltb_lt]; lia).
      rewrite andb_true_r. f_equal. lia.
    + rewrite Z.ones_spec_high by lia. rewrite andb_false_r.
      symmetry. apply (testbit_above_width _ 4); lia.
  - intros i Hi Hout. rewrite field_update_bits by lia.
    replace ((1 <=? i) && (i <? 1 + 4)) with false; [done|].
    symmetry. apply andb_false_iff. destruct (Z.leb_spec 1 i); [right; apply Z.ltb_ge|left; reflexivity]; lia.
Qed.

(** A threshold of 16 or more, which headset_detect_parse_dt does
    not reject, makes headset_button_irq_threshold(1) set a bit of
    ANA_HDT0 above the SBUT field. *)
Theorem headset_button_irq_threshold_spills pd w :
  16 <= irq_threshold_buttont pd < 2 ^ 31 ->
  let j := Z.log2 (irq_threshold_buttont pd) + 1 in
  4 < j /\
  Z.testbit (w_regs (snd (headset_button_irq_threshold pd 1 w))
                    (HEADMIC_DETECT_REG ANA_HDT0)) j = true.
Proof.
  intros Ht j. subst j. set (t := irq_threshold_buttont pd) in *.
  assert (4 <= Z.log2 t < 31).
  { split.
    - change 4 with (Z.log2 16). apply Z.log2_le_mono. lia.
    - apply Z.log2_lt_pow2; lia. }
  split; [lia|]. rewrite threshold_register. fold t.
  rewrite Z.mod_pow2_bits_low by lia.
  rewrite Z.lor_spec, Z.shiftl_spec by lia.
  replace (Z.log2 t + 1 - 1) with (Z.log2 t) by lia.
  rewrite Z.bit_log2 by lia. apply orb_true_r.
Qed.

(** ** [hs_inv] as a test *)

Definition irq_ok_b (l : irq_line) : bool :=
  ((Z.eqb (irq_state l) 1 && Z.eqb (irq_depth l) 0) ||
   (Z.eqb (irq_state l) 0 && Z.eqb (irq_depth l) 1)) && negb (irq_warned l).

Definition pow_ok_b (p : hs_power) : bool :=
  (Z.eqb (sleep_power_state p) 0 || Z.eqb (sleep_power_state p) 1) &&
  (Z.eqb (bias_power_state p) 0 || Z.eqb (bias_power_state p) 1) &&
  Z.eqb (reg_use (head_mic p)) (if reg_present (head_mic p) then bias_power_state p else 0) &&
  (negb (reg_present (vbo p)) ||
   Z.eqb (reg_use (vbo p)) (if reg_present (head_mic p) then sleep_power_state p else 0)) &&
  negb (reg_warned (head_mic p)) && negb (reg_warned (vbo p)).

Definition key_ok_b (v : hs_state) (evs : list (Z * Z * Z)) : bool :=
  (Z.eqb (plug_state_last v) 0 || Z.eqb (plug_state_last v) 1) &&
  (Z.eqb (button_state_last v) 0 ||
   Z.eqb (button_state_last v) 1 && Z.eqb (plug_state_last v) 1) &&
  alt (button_state_last v) (key_values evs).

Definition hs_inv_b (w : world) : bool :=
  irq_ok_b (w_btn w) && irq_ok_b (w_det w) && pow_ok_b (w_pow w) &&
  key_ok_b (w_vars w) (events (w_out w)).

Lemma orb_eqb_01 x : (Z.eqb x 0 || Z.eqb x 1) = true -> x = 0 \/ x = 1.
Proof. intros [?%Z.eqb_eq|?%Z.eqb_eq]%orb_prop; auto. Qed.

Lemma irq_ok_b_spec l : irq_ok_b l = true -> irq_ok l.
Proof.
  unfold irq_ok_b, irq_ok. intros [H ?%negb_true_iff]%andb_prop. split; [|done].
  apply orb_prop in H as [[?%Z.eqb_eq ?%Z.eqb_eq]%andb_prop|[?%Z.eqb_eq ?%Z.eqb_eq]%andb_prop];
    auto.
Qed.

Lemma pow_ok_b_spec p : pow_ok_b p = true -> pow_ok p.
Proof.
  unfold pow_ok_b, pow_ok. intros H.
  repeat match goal with H : _ && _ = true |- _ => apply andb_prop in H as [H ?] end.
  destruct_and?; repeat split; auto using orb_eqb_01;
    repeat match goal with H : negb _ = true |- _ => apply negb_true_iff in H end; auto.
  - by apply Z.eqb_eq.
  - intros Hv. match goal with H : negb (reg_present _) || _ = true |- _ =>
      apply orb_prop in H as [Hn|Hn] end; [rewrite Hv in Hn; discriminate|by apply Z.eqb_eq].
Qed.

Lemma key_ok_b_spec v evs : key_ok_b v evs = true -> key_ok v evs.
Proof.
  unfold key_ok_b, key_ok. intros [[H1 H2]%andb_prop H3]%andb_prop.
  repeat split; auto using orb_eqb_01.
  apply orb_prop in H2 as [?%Z.eqb_eq|[?%Z.eqb_eq ?%Z.eqb_eq]%andb_prop]; auto.
Qed.

Lemma hs_inv_b_spec w : hs_inv_b w = true -> hs_inv w.
Proof.
  unfold hs_inv_b, hs_inv. intros [[[H1 H2]%andb_prop H3]%andb_prop H4]%andb_prop.
  auto using irq_ok_b_spec, pow_ok_b_spec, key_ok_b_spec.
Qed.

(** ** Examples *)

(** A board with a switch-less jack, detect and button active high, and
    two buttons. *)
Definition example_hs_pdata (threshold : Z) : sprd_headset_platform_data :=
  mk_hs_pdata 0 11 12 1 1 50 0 threshold 0 100 2
    [mk_buttons 0 100 226 1; mk_buttons 100 300 115 1] false.

Definition example_hw : hw_env := mk_hw (fun _ _ => 1) (fun _ => 400) (fun _ _ => false).

(** A headset plugged in with its first button held down. *)
Definition example_world_plugged : world :=
  mk_world example_hw 0 (fun _ => 0)
    (mk_hs 1 1 226 1 1 0 BIT_HEADSET_MIC 0 0)
    (mk_irq 1 0 IRQF_TRIGGER_LOW false) (mk_irq 1 0 IRQF_TRIGGER_LOW false)
    (mk_power 0 1 (mk_reg true 1 REGULATOR_MODE_NORMAL false)
       (mk_reg true 0 0 false) (mk_reg true 0 0 false) [] false)
    (mk_out 0 BIT_HEADSET_MIC 1 [(EV_SYN, SYN_REPORT, 0); (InputBridge.EV_KEY, 226, 1)])
    (mk_work false true false false false).

(** A headset plugged in whose button press the button work has just
    seen: the press verification is queued, not yet reported, and the
    jack has been pulled (the detect interrupt queued the detect work). *)
Definition example_world_pressing : world :=
  mk_world example_hw 0 (fun _ => 0)
    (mk_hs 1 0 226 1 1 0 BIT_HEADSET_MIC 0 0)
    (mk_irq 1 0 IRQF_TRIGGER_LOW false) (mk_irq 0 1 IRQF_TRIGGER_LOW false)
    (mk_power 0 1 (mk_reg true 1 REGULATOR_MODE_NORMAL false)
       (mk_reg true 0 0 false) (mk_reg true 0 0 false) [] false)
    (mk_out 0 BIT_HEADSET_MIC 0 [])
    (mk_work false true true false false).

Lemma headset_unplug_verify_race_witness :
  exists w', star (hs_split_step (example_hs_pdata 3)) (hctx_idle, example_world_pressing)
               (hctx_idle, w') /\
    plug_state_last (w_vars w') = 0 /\ button_state_last (w_vars w') = 1 /\
    head (key_values (events (w_out w'))) = Some 1 /\ ~ hs_inv w'.
Proof.
  apply headset_unplug_verify_race; [apply hs_inv_b_spec; vm_compute|..]; reflexivity.
Defined.

Lemma headset_unplug_releases_key_witness :
  let w' := snd (headset_detect_work_func (example_hs_pdata 3) example_world_plugged) in
  plug_state_last (w_vars w') = 0 /\ button_state_last (w_vars w') = 0 /\
  sdev_state (w_out w') = BIT_HEADSET_OUT /\
  alt 0 (key_values (events (w_out w'))) = true /\ det_enabled w'.
Proof.
  apply headset_unplug_releases_key; [apply hs_inv_b_spec; vm_compute|]; reflexivity.
Defined.

Lemma headset_detect_irq_live_witness :
  let w1 := snd (headset_detect_irq_handler (example_hs_pdata 3) example_world_plugged) in
  exists w'', star (hs_step (example_hs_pdata 3)) w1 w'' /\ det_enabled w''.
Proof.
  apply (headset_detect_irq_live (example_hs_pdata 3) example_world_plugged).
  - apply hs_inv_b_spec. vm_compute. reflexivity.
  - left. reflexivity.
  - apply star_one, hs_detect_irq. reflexivity.
Defined.

Lemma headset_button_irq_threshold_field_witness :
  let r' := w_regs (snd (headset_button_irq_threshold (example_hs_pdata 3) 1
                           example_world_plugged)) (HEADMIC_DETECT_REG ANA_HDT0) in
  (r' >> AUDIO_HEAD_SBUT_SHIFT) .& 0xF = irq_threshold_buttont (example_hs_pdata 3) /\
  (forall i, 0 <= i -> ~ (1 <= i <= 4) ->
   Z.testbit r' i = Z.testbit (w_regs example_world_plugged (HEADMIC_DETECT_REG ANA_HDT0)) i).
Proof. apply headset_button_irq_threshold_field; cbn; lia. Defined.

Lemma headset_button_irq_threshold_spills_witness :
  let j := Z.log2 (irq_threshold_buttont (example_hs_pdata 40)) + 1 in
  4 < j /\
  Z.testbit (w_regs (snd (headset_button_irq_threshold (example_hs_pdata 40) 1
                            example_world_plugged)) (HEADMIC_DETECT_REG ANA_HDT0)) j = true.
Proof. apply headset_button_irq_threshold_spills. cbn. lia. Defined.
End HeadsetCore.
