(* ===== verification/HeadsetProbe.v ===== *)
(** * SPRD SC2723 headset: power, device tree and probe

    Models the set-up code of
    [src/drivers/input/misc/headset_sprd_sc2723.c]: the regulator
    helpers [sprd_headset_power_get] and [sprd_headset_power_init], the
    device-tree parser [headset_detect_parse_dt], the debug sysfs
    set-up and [headset_detect_probe] with its error labels.  What the
    kernel answers (regulator_get, gpio_request, switch and input
    registration, workqueue creation, request_irq, the device-tree
    properties) is a field of an environment record.  The probe runs on
    the [world] of [HeadsetCore] and records the resources it holds in
    a list, so the theorems say what a failed probe leaves behind and
    that a successful one starts the driver in a state where
    [HeadsetCore.hs_inv] holds. *)

From S2P Require Import Prelude.
From S2P Require Import InputBridge.
From S2P Require Import HeadsetCore.

Module HeadsetProbe.
Import HeadsetCore.

Local Open Scope Z_scope.
Local Open Scope hs_scope.

(** ** Regulators (lines 239-289) *)

(** [regulator_get] answers a regulator or [ERR_PTR(e)] ([Some e]). *)
Definition reg_get_result := option Z.

(** [sprd_headset_power_get] (lines 239-251): on failure it clears the
    pointer first and then returns [PTR_ERR] of the cleared pointer,
    which is 0. *)
Definition sprd_headset_power_get (regu : bool) (res : reg_get_result) : Z * bool :=
  if regu then (0, true) else
  match res with
  | None => (0, true)
  | Some _ => let regu' := false in (0, regu')
  end.

(** The result of [sprd_headset_power_init]: the return code, which
    pointers of [sprd_hts_power] are set, and the regulators put back. *)
Record power_init_result := mk_power_init {
  pi_ret : Z; pi_head_mic : bool; pi_vcom_buf : bool; pi_vbo : bool;
  pi_put : list hts_regulator }.

(** [sprd_headset_power_init] (lines 253-282). *)
Definition sprd_headset_power_init (hm vc vb : reg_get_result) : power_init_result :=
  let '(ret, p_hm) := sprd_headset_power_get false hm in
  if negb (Z.eqb ret 0) || negb p_hm then mk_power_init ret false false false []
  else
  let '(ret, p_vc) := sprd_headset_power_get false vc in
  if negb (Z.eqb ret 0) then mk_power_init ret true false false [HEAD_MIC]
  else
  let '(ret, p_vb) := sprd_headset_power_get false vb in
  if negb (Z.eqb ret 0) then mk_power_init ret true p_vc false [VCOM_BUF; HEAD_MIC]
  else mk_power_init ret p_hm p_vc p_vb [].


(** ** Device tree (lines 1343-1458) *)

(** The [of_property_read_u32] answers of a button child node and of the
    headset node ([None]: the property is missing). *)
Record dt_button := mk_dt_button {
  dt_adc_min : option Z; dt_adc_max : option Z; dt_code : option Z; dt_type : option Z }.

Record hs_dt_node := mk_dt_node {
  dt_gpio_switch : option Z; dt_gpio_detect : option Z; dt_gpio_button : option Z;
  dt_irq_trigger_level_detect : option Z; dt_irq_trigger_level_button : option Z;
  dt_adc_threshold_3pole_detect : option Z; dt_adc_threshold_4pole_detect : option Z;
  dt_irq_threshold_buttont : option Z; dt_voltage_headmicbias : option Z;
  dt_delay : option Z; dt_nbuttons : option Z; dt_children : list dt_button }.

(** The properties of the headset node, read in the order of lines
    1356-1413; the first one missing ends the parse. *)
Definition dt_props (np : hs_dt_node) : option sprd_headset_platform_data :=
  gs ← dt_gpio_switch np; gd ← dt_gpio_detect np; gb ← dt_gpio_button np;
  ld ← dt_irq_trigger_level_detect np; lb ← dt_irq_trigger_level_button np;
  a3 ← dt_adc_threshold_3pole_detect np; a4 ← dt_adc_threshold_4pole_detect np;
  th ← dt_irq_threshold_buttont np; vb ← dt_voltage_headmicbias np;
  dl ← dt_delay np; nb ← dt_nbuttons np;
  Some (mk_hs_pdata gs gd gb ld lb a3 a4 th vb dl nb [] false).

(** One child node (lines 1424-1443). *)
Definition dt_read_button (c : dt_button) : option headset_buttons :=
  mn ← dt_adc_min c; mx ← dt_adc_max c; cd ← dt_code c; ty ← dt_type c;
  Some (mk_buttons mn mx cd ty).

(** The [for_each_child_of_node] loop: the entries written, or the index
    of the child whose read failed. *)
Fixpoint parse_buttons (i : nat) (cs : list dt_button) : list headset_buttons + nat :=
  match cs with
  | [] => inl []
  | c :: cs' =>
      match dt_read_button c with
      | None => inr i
      | Some b =>
          match parse_buttons (S i) cs' with
          | inl bs => inl (b :: bs)
          | inr j => inr j
          end
      end
  end.

Definition zero_button : headset_buttons := mk_buttons 0 0 0 0.

(** What the parse did to memory: the array entries it wrote, the
    entries [kzalloc] gave it, and the offset in the array of the
    pointer it passed to [kfree] on the [fail_buttons_data] path. *)
Record parse_report := mk_parse_report {
  pr_written : nat; pr_allocated : Z; pr_kfree_offset : option nat }.

Definition set_headset_buttons bs '(mk_hs_pdata a b c d e f g h i j k _ m) :=
  mk_hs_pdata a b c d e f g h i j k bs m.

(** [headset_detect_parse_dt] (lines 1344-1457), with the outcomes of
    its two [kzalloc] calls.  The array holds [nbuttons] zeroed entries
    of which the children overwrite the first ones; the loop does not
    compare the number of children with [nbuttons]. *)
Definition headset_detect_parse_dt (kz_pdata kz_buttons : bool) (np : hs_dt_node)
    : option sprd_headset_platform_data * parse_report :=
  if negb kz_pdata then (None, mk_parse_report 0 0 None) else
  match dt_props np with
  | None => (None, mk_parse_report 0 0 None)
  | Some pd =>
      if negb kz_buttons then (None, mk_parse_report 0 (nbuttons pd) None) else
      match parse_buttons 0 (dt_children np) with
      | inr i => (None, mk_parse_report i (nbuttons pd) (Some i))
      | inl bs =>
          let n := Z.to_nat (nbuttons pd) in
          (Some (set_headset_buttons (take n (bs ++ replicate n zero_button)) pd),
           mk_parse_report (length bs) (nbuttons pd) None)
      end
  end.

(** ** Debug sysfs (lines 1321-1340) *)

(** [headset_debug_sysfs_init] with the outcomes of
    [kobject_create_and_add] and [sysfs_create_file]: the return code
    and whether the kobject exists afterwards. *)
Definition headset_debug_sysfs_init (kobj_ok : bool) (file_rc : Z) : Z * bool :=
  if negb kobj_ok then (- ENOMEM, false)
  else if negb (Z.eqb file_rc 0) then (file_rc, true)
  else (0, true).

(** ** Probe (lines 1460-1708) *)

(** What the probe acquires from the kernel. *)
Inductive hs_resource :=
| GpioSwitch | GpioDetect | GpioButton | SwitchSdev | SwitchSendend
| InputDev | InputRegistered | WqButton | WqDetect | WqRegDump | WqAdpgar
| IrqButton | IrqDetect | DebugKobj.

#[export] Instance hs_resource_eq_dec : EqDecision hs_resource.
Proof. solve_decision. Defined.

(** The kernel's answers to the calls of the probe. *)
Record hs_probe_env := mk_probe_env {
  pe_platform_data : option sprd_headset_platform_data;
  pe_of_node : bool;
  pe_parse_dt : option sprd_headset_platform_data;
  pe_adie_chip_id : Z;
  pe_reg_head_mic : reg_get_result; pe_reg_vcom_buf : reg_get_result;
  pe_reg_vbo : reg_get_result;
  pe_gpio_switch_rc : Z; pe_gpio_detect_rc : Z; pe_gpio_button_rc : Z;
  pe_sdev_rc : Z; pe_sendend_rc : Z;
  pe_input_alloc : bool; pe_input_register_rc : Z;
  pe_wq_button : bool; pe_wq_detect : bool; pe_wq_reg_dump : bool; pe_wq_adpgar : bool;
  pe_irq_button_rc : Z; pe_irq_detect_rc : Z;
  pe_kobj_ok : bool; pe_sysfs_file_rc : Z }.

(** The probe's state: the resources held, the releases of resources
    not held (a double free), the platform data chosen, [adie_type] and
    the driver's world. *)
Record probe_state := mk_ps {
  ps_held : list hs_resource; ps_misuse : list hs_resource;
  ps_pdata : option sprd_headset_platform_data; ps_adie_type : Z;
  ps_world : world }.

Definition acquire (r : hs_resource) '(mk_ps h m p a w) := mk_ps (r :: h) m p a w.

Fixpoint remove_res (r : hs_resource) (l : list hs_resource) : list hs_resource :=
  match l with
  | [] => []
  | x :: l' => if decide (x = r) then l' else x :: remove_res r l'
  end.

Definition release (r : hs_resource) '(mk_ps h m p a w) :=
  if decide (r ∈ h) then mk_ps (remove_res r h) m p a w else mk_ps h (r :: m) p a w.

Definition run_world (m : M unit) '(mk_ps h mi p a w) := mk_ps h mi p a (snd (m w)).
Definition map_world f '(mk_ps h m p a w) := mk_ps h m p a (f w).
Definition set_pdata pd '(mk_ps h m _ a w) := mk_ps h m (Some pd) a w.
Definition set_adie_type t '(mk_ps h m p _ w) := mk_ps h m p t w.

(** The error labels of the probe, from the last to the first; each
    runs its statements and falls through to the next. *)
Section Labels.
Variable pd : sprd_headset_platform_data.

Definition failed_to_request_gpio_switch (s : probe_state) : probe_state :=
  run_world (headmicbias_power_on pd 0) s.
Definition failed_to_request_gpio_detect s :=
  failed_to_request_gpio_switch
    (if negb (Z.eqb (gpio_switch pd) 0) then release GpioSwitch s else s).
Definition failed_to_request_gpio_button s :=
  failed_to_request_gpio_detect (release GpioDetect s).
Definition failed_to_register_switch_dev s :=
  failed_to_request_gpio_button (release GpioButton s).
Definition failed_to_allocate_input_device s :=
  failed_to_register_switch_dev (release SwitchSendend (release SwitchSdev s)).
(** [input_free_device] frees the device; after
    [input_unregister_device] dropped the last reference it is gone. *)
Definition failed_to_register_input_device s :=
  failed_to_allocate_input_device (release InputDev s).
Definition failed_to_create_wq_headset_button s :=
  failed_to_register_input_device (release InputDev (release InputRegistered s)).
Definition failed_to_create_wq_headset_detect s :=
  failed_to_create_wq_headset_button (release WqButton s).
Definition failed_to_create_wq_headset_reg_dump s :=
  failed_to_create_wq_headset_detect (release WqDetect s).
Definition failed_to_create_wq_adpgar_byp_select s :=
  failed_to_create_wq_headset_reg_dump
    (map_world (map_work (set_work_reg_dump false)) (release WqRegDump s)).
Definition failed_to_request_irq_headset_button s :=
  failed_to_create_wq_adpgar_byp_select
    (map_world (map_work (set_work_adpgar false)) (release WqAdpgar s)).
Definition failed_to_request_irq_headset_detect s :=
  failed_to_request_irq_headset_button (release IrqButton s).


End Labels.

(** The world before the probe: the static initialisers of the file
    (lines 215-237, 457, 479, 500, 519, 1220) over some hardware. *)
Definition hs_boot (hw : hw_env) (regs : Z -> Z) : world :=
  mk_world hw 0 regs
    (mk_hs 0 0 KEY_RESERVED 0 0 0 BIT_HEADSET_OUT 0 1)
    (mk_irq 1 0 0 false) (mk_irq 1 0 0 false)
    (mk_power 0 0 (mk_reg false 0 0 false) (mk_reg false 0 0 false)
       (mk_reg false 0 0 false) [] false)
    (mk_out 0 0 0 []) (mk_work false false false false false).

Definition ANA_EIC_BASE : Z := 0x40038100.
Definition EIC3_DBNC_CTRL : Z := 0x4C.
Definition DBNC_CNT3_VALUE : Z := 30.
Definition DBNC_CNT3_SHIFT : Z := 0.
Definition DBNC_CNT3_MASK : Z := 0xFFF << DBNC_CNT3_SHIFT.
Definition EIC8_DBNC_CTRL : Z := 0x60.
Definition DBNC_CNT8_VALUE : Z := 25.
Definition DBNC_CNT8_SHIFT : Z := 0.
Definition DBNC_CNT8_MASK : Z := 0xFFF << DBNC_CNT8_SHIFT.

(** [request_irq] leaves the line enabled with the trigger asked for. *)
Definition request_irq_line (trigger : Z) (l : irq_line) : irq_line :=
  set_irq_trigger trigger (set_irq_depth 0 l).

Definition set_power_regs (r : power_init_result) '(mk_power a b hm vc vb e o) :=
  mk_power a b (mk_reg (pi_head_mic r) (reg_use hm) (reg_mode hm) (reg_warned hm))
    (mk_reg (pi_vcom_buf r) (reg_use vc) (reg_mode vc) (reg_warned vc))
    (mk_reg (pi_vbo r) (reg_use vb) (reg_mode vb) (reg_warned vb)) e o.

(** Lines 1651-1670: the two interrupts, then the debug sysfs. *)
Definition probe_irqs (env : hs_probe_env) (pd : sprd_headset_platform_data)
    (s : probe_state) : Z * probe_state :=
  let irqflags := if negb (Z.eqb (irq_trigger_level_button pd) 0)
                  then IRQF_TRIGGER_HIGH else IRQF_TRIGGER_LOW in
  if negb (Z.eqb (pe_irq_button_rc env) 0) then
    (pe_irq_button_rc env, failed_to_request_irq_headset_button pd s) else
  let s := acquire IrqButton (map_world (map_btn (request_irq_line irqflags)) s) in
  let s := run_world (headset_irq_button_enable 0) s in
  let s := map_world (map_vars (set_bug_fix_stage 0)) s in
  let irqflags := if negb (Z.eqb (irq_trigger_level_detect pd) 0)
                  then IRQF_TRIGGER_HIGH else IRQF_TRIGGER_LOW in
  if pe_irq_detect_rc env <? 0 then
    (pe_irq_detect_rc env, failed_to_request_irq_headset_detect pd s) else
  let s := acquire IrqDetect (map_world (map_det (request_irq_line irqflags)) s) in
  let '(ret, kobj) := headset_debug_sysfs_init (pe_kobj_ok env) (pe_sysfs_file_rc env) in
  (ret, if kobj then acquire DebugKobj s else s).

(** Lines 1607-1649: the work queues, the wake locks and the EIC
    debounce.  A failed [create_singlethread_workqueue] jumps to its
    label with [ret] as it is. *)
Definition probe_workqueues (env : hs_probe_env) (pd : sprd_headset_platform_data)
    (ret : Z) (s : probe_state) : Z * probe_state :=
  if negb (pe_wq_button env) then (ret, failed_to_create_wq_headset_button pd s) else
  let s := acquire WqButton s in
  if negb (pe_wq_detect env) then (ret, failed_to_create_wq_headset_detect pd s) else
  let s := acquire WqDetect s in
  if negb (pe_wq_reg_dump env) then (ret, failed_to_create_wq_headset_reg_dump pd s) else
  let s := acquire WqRegDump s in
  let s := if Z.leb 2 (debug_level (w_vars (ps_world s)))
           then map_world (map_work (set_work_reg_dump true)) s else s in
  if negb (pe_wq_adpgar env) then (ret, failed_to_create_wq_adpgar_byp_select pd s) else
  let s := acquire WqAdpgar s in
  let s := run_world
    (headset_reg_set_val (ANA_EIC_BASE + EIC3_DBNC_CTRL) DBNC_CNT3_VALUE
       DBNC_CNT3_MASK DBNC_CNT3_SHIFT;;
     headset_reg_set_val (ANA_EIC_BASE + EIC8_DBNC_CTRL) DBNC_CNT8_VALUE
       DBNC_CNT8_MASK DBNC_CNT8_SHIFT) s in
  probe_irqs env pd s.

(** Lines 1530-1591: the GPIOs, the two switches and the input device. *)
Definition probe_devices (env : hs_probe_env) (pd : sprd_headset_platform_data)
    (s : probe_state) : Z * probe_state :=
  let sw := negb (Z.eqb (gpio_switch pd) 0) in
  if sw && (pe_gpio_switch_rc env <? 0) then
    (pe_gpio_switch_rc env, failed_to_request_gpio_switch pd s) else
  let s := if sw then acquire GpioSwitch s else s in
  if pe_gpio_detect_rc env <? 0 then
    (pe_gpio_detect_rc env, failed_to_request_gpio_detect pd s) else
  let s := acquire GpioDetect s in
  if pe_gpio_button_rc env <? 0 then
    (pe_gpio_button_rc env, failed_to_request_gpio_button pd s) else
  let s := acquire GpioButton s in
  let s := if sw then run_world (gpio_direction_output_switch 0) s else s in
  if pe_sdev_rc env <? 0 then (pe_sdev_rc env, failed_to_register_switch_dev pd s) else
  let s := acquire SwitchSdev s in
  if pe_sendend_rc env <? 0 then (pe_sendend_rc env, failed_to_register_switch_dev pd s) else
  let s := acquire SwitchSendend s in
  if negb (pe_input_alloc env) then (- ENOMEM, failed_to_allocate_input_device pd s) else
  let s := acquire InputDev s in
  if negb (Z.eqb (pe_input_register_rc env) 0) then
    (pe_input_register_rc env, failed_to_register_input_device pd s) else
  let s := acquire InputRegistered s in
  probe_workqueues env pd (pe_input_register_rc env) s.

(** [headset_detect_probe] (lines 1460-1708). *)
Definition headset_detect_probe (env : hs_probe_env) (w0 : world) : Z * probe_state :=
  let s := mk_ps [] [] None (-1) w0 in
  let pdata := match pe_platform_data env with
               | None => if pe_of_node env then pe_parse_dt env else None
               | Some pd => Some pd
               end in
  match pdata with
  | None => (- EINVAL, s)
  | Some pd =>
      let s := set_pdata pd s in
      let s := run_world
        (sci_adi_write ANA_REG_GLB_ARM_MODULE_EN BIT_ANA_AUD_EN BIT_ANA_AUD_EN;;
         sci_adi_read (ANA_AUDCFGA_INT_BASE + ANA_STS0);; mret tt) s in
      let adie_chip_id_high := (pe_adie_chip_id env >> 16) .& 0xFFFF in
      let s := set_adie_type (if Z.eqb adie_chip_id_high 0x2723 then 2723 else -1) s in
      let s := run_world headset_detect_init s in
      let r := sprd_headset_power_init (pe_reg_head_mic env) (pe_reg_vcom_buf env)
                 (pe_reg_vbo env) in
      let s := map_world (map_pow (set_power_regs r)) s in
      if negb (Z.eqb (pi_ret r) 0) then (pi_ret r, s) else
      probe_devices env pd s
  end.

(** ** Theorems *)

(** sprd_headset_power_init returns 0 whatever regulator_get
    answers and never puts a regulator back: sprd_headset_power_get
    clears the pointer before returning PTR_ERR of it, so its error
    paths are dead and each regulator whose lookup failed is left NULL
    (and vcom_buf and vbo are NULL too when head_mic is). *)
Theorem sprd_headset_power_init_never_fails hm vc vb :
  let r := sprd_headset_power_init hm vc vb in
  pi_ret r = 0 /\ pi_put r = [] /\
  pi_head_mic r = bool_decide (hm = None) /\
  pi_vcom_buf r = bool_decide (hm = None /\ vc = None) /\
  pi_vbo r = bool_decide (hm = None /\ vb = None).
Proof. by destruct hm, vc, vb. Qed.

Lemma sprd_headset_power_init_ret hm vc vb :
  pi_ret (sprd_headset_power_init hm vc vb) = 0.
Proof. by destruct hm, vc, vb. Qed.

Lemma sprd_headset_power_init_vbo hm vc vb :
  hm = None -> vb <> None ->
  pi_head_mic (sprd_headset_power_init hm vc vb) = true /\
  pi_vbo (sprd_headset_power_init hm vc vb) = false.
Proof. intros -> Hvb. destruct vc, vb; cbn; by try congruence. Qed.

(** The kernel's answers, by stage of the probe. *)
Definition env_ok_regs (env : hs_probe_env) : Prop :=
  pe_reg_head_mic env = None /\ pe_reg_vcom_buf env = None /\ pe_reg_vbo env = None.
Definition env_ok_gpios (env : hs_probe_env) : Prop :=
  pe_gpio_switch_rc env = 0 /\ pe_gpio_detect_rc env = 0 /\ pe_gpio_button_rc env = 0.
Definition env_ok_input (env : hs_probe_env) : Prop :=
  pe_sdev_rc env = 0 /\ pe_sendend_rc env = 0 /\ pe_input_alloc env = true /\
  pe_input_register_rc env = 0.
Definition env_ok_wq (env : hs_probe_env) : Prop :=
  pe_wq_button env = true /\ pe_wq_detect env = true /\
  pe_wq_reg_dump env = true /\ pe_wq_adpgar env = true.
Definition env_ok_irqs (env : hs_probe_env) : Prop :=
  pe_irq_button_rc env = 0 /\ pe_irq_detect_rc env = 0.
Definition env_ok_sysfs (env : hs_probe_env) : Prop :=
  pe_kobj_ok env = true /\ pe_sysfs_file_rc env = 0.

(** Every call the probe makes succeeds. *)
Definition env_all_ok (env : hs_probe_env) : Prop :=
  env_ok_regs env /\ env_ok_gpios env /\ env_ok_input env /\ env_ok_wq env /\
  env_ok_irqs env /\ env_ok_sysfs env.

Ltac env_rewrite env :=
  repeat match goal with H : ?f env = _ |- _ => rewrite ?H; try clear H end.

(** When every call succeeds, headset_detect_probe returns 0 with
    both interrupts requested and nothing released twice, and leaves the
    driver in a state of the invariant with the button interrupt
    disabled and the detect interrupt enabled. *)
Theorem headset_detect_probe_success env hw regs pd :
  pe_platform_data env = Some pd -> env_all_ok env ->
  let '(rc, s) := headset_detect_probe env (hs_boot hw regs) in
  rc = 0 /\ ps_misuse s = [] /\ ps_pdata s = Some pd /\
  IrqButton ∈ ps_held s /\ IrqDetect ∈ ps_held s /\
  hs_inv (ps_world s) /\ irq_state (w_btn (ps_world s)) = 0 /\ det_enabled (ps_world s).
Proof.
  intros Hpd Hok.
  unfold env_all_ok, env_ok_regs, env_ok_gpios, env_ok_input, env_ok_wq, env_ok_irqs,
    env_ok_sysfs in Hok. destruct_and! Hok.
  unfold headset_detect_probe, probe_devices, probe_workqueues, probe_irqs.
  rewrite Hpd. env_rewrite env. cbn.
  destruct (Z.eqb_spec (gpio_switch pd) 0); cbn;
    unfold hs_inv, irq_ok, pow_ok, key_ok, det_enabled; cbn;
    repeat split; try set_solver; auto with lia.
Qed.



(** *** What the labels and the world steps of the probe keep *)

Lemma remove_res_subseteq r l : remove_res r l ⊆ l.
Proof. induction l as [|x l IH]; cbn; [done|]. case_decide; set_solver. Qed.

Lemma release_held r s : ps_held (release r s) ⊆ ps_held s.
Proof.
  destruct s as [h m p a w]; unfold release; cbn. case_decide; cbn; [apply remove_res_subseteq|done].
Qed.

Lemma labels_held pd s :
  let sub f := ps_held (f s) ⊆ ps_held s in
  sub (failed_to_request_irq_headset_detect pd) /\
  sub (failed_to_request_irq_headset_button pd) /\
  sub (failed_to_create_wq_adpgar_byp_select pd) /\
  sub (failed_to_create_wq_headset_reg_dump pd) /\
  sub (failed_to_create_wq_headset_detect pd) /\
  sub (failed_to_create_wq_headset_button pd) /\
  sub (failed_to_register_input_device pd) /\
  sub (failed_to_allocate_input_device pd) /\
  sub (failed_to_register_switch_dev pd) /\
  sub (failed_to_request_gpio_button pd) /\
  sub (failed_to_request_gpio_detect pd) /\
  sub (failed_to_request_gpio_switch pd).
Proof.
  cbv zeta.
  unfold failed_to_request_irq_headset_detect, failed_to_request_irq_headset_button,
    failed_to_create_wq_adpgar_byp_select, failed_to_create_wq_headset_reg_dump,
    failed_to_create_wq_headset_detect, failed_to_create_wq_headset_button,
    failed_to_register_input_device, failed_to_allocate_input_device,
    failed_to_register_switch_dev, failed_to_request_gpio_button,
    failed_to_request_gpio_detect, failed_to_request_gpio_switch.
  assert (Hr : forall r s, ps_held (release r s) ⊆ ps_held s) by apply release_held.
  assert (Hm : forall f s, ps_held (map_world f s) = ps_held s) by (by intros ? []).
  assert (Hw : forall m s, ps_held (run_world m s) = ps_held s) by (by intros ? []).
  repeat split; rewrite ?Hw, ?Hm;
    repeat (case_match; rewrite ?Hw, ?Hm); repeat (etrans; [apply Hr|]; rewrite ?Hm); set_solver.
Qed.

(** The world of the probe before it requests its interrupts. *)
Definition pre_world (w : world) : Prop :=
  hs_inv w /\ irq_state (w_btn w) = 1 /\ irq_state (w_det w) = 1.

Lemma keeps_view_pre_world {A} (m : M A) w :
  keeps_view m -> pre_world w -> pre_world (snd (m w)).
Proof.
  intros H (Hi & Hb & Hd). pose proof (H w) as E. unfold hs_view in E.
  injection E as _ _ Eb Ed _. unfold pre_world. rewrite Eb, Ed.
  split; [exact (hs_inv_view _ _ (H w) Hi)|done].
Qed.

(** The probe's result: when it holds the detect interrupt, the driver
    state satisfies [hs_inv]. *)
Definition probe_post (r : Z * probe_state) : Prop :=
  IrqDetect ∈ ps_held (snd r) -> hs_inv (ps_world (snd r)).

Lemma label_post f s :
  IrqDetect ∉ ps_held s -> ps_held (f s) ⊆ ps_held s -> forall rc, probe_post (rc, f s).
Proof. intros Hn Hs rc Hin. exfalso. apply Hn, Hs, Hin. Qed.

Lemma probe_irqs_post env pd s :
  IrqDetect ∉ ps_held s -> pre_world (ps_world s) -> probe_post (probe_irqs env pd s).
Proof.
  intros Hn Hp. destruct (labels_held pd s) as (H1 & _).
  unfold probe_irqs. case_match.
  { apply label_post; [done|apply labels_held]. }
  destruct s as [h m p a [? ? ? v [bs bd bt bw] [ds dd dt dw] ? ? ?]].
  destruct Hp as ((Hb & Hd & Hpow & Hk) & Hbs & Hds); cbn in *; subst.
  unfold irq_ok in Hb, Hd; cbn in Hb, Hd.
  destruct Hb as [[[_ ->]|[? _]] ->]; [|lia]. destruct Hd as [[[_ ->]|[? _]] ->]; [|lia].
  case_match.
  - apply label_post; [set_solver|apply labels_held].
  - destruct (headset_debug_sysfs_init _ _) as [ret []]; intros _; cbn;
      destruct v; unfold hs_inv, irq_ok, key_ok in *; cbn in *; intuition lia.
Qed.

Lemma ps_acquire r s : ps_held (acquire r s) = r :: ps_held s /\ ps_world (acquire r s) = ps_world s.
Proof. by destruct s. Qed.
Lemma ps_run_world m s :
  ps_held (run_world m s) = ps_held s /\ ps_world (run_world m s) = snd (m (ps_world s)).
Proof. by destruct s. Qed.
Lemma ps_map_world f s :
  ps_held (map_world f s) = ps_held s /\ ps_world (map_world f s) = f (ps_world s).
Proof. by destruct s. Qed.

Lemma ps_held_acquire r s : ps_held (acquire r s) = r :: ps_held s.
Proof. apply ps_acquire. Qed.
Lemma ps_world_acquire r s : ps_world (acquire r s) = ps_world s.
Proof. apply ps_acquire. Qed.
Lemma ps_held_run_world m s : ps_held (run_world m s) = ps_held s.
Proof. apply ps_run_world. Qed.
Lemma ps_world_run_world m s : ps_world (run_world m s) = snd (m (ps_world s)).
Proof. apply ps_run_world. Qed.
Lemma ps_held_map_world f s : ps_held (map_world f s) = ps_held s.
Proof. apply ps_map_world. Qed.
Lemma ps_world_map_world f s : ps_world (map_world f s) = f (ps_world s).
Proof. apply ps_map_world. Qed.

Create Rewrite HintDb probe.
#[export] Hint Rewrite ps_held_acquire ps_world_acquire ps_held_run_world
  ps_world_run_world ps_held_map_world ps_world_map_world : probe.

Lemma map_work_pre_world f w : pre_world w -> pre_world (map_work f w).
Proof. destruct w. done. Qed.

(** A failure before the interrupts releases into a state without them. *)
Ltac label_case :=
  apply label_post; [repeat case_match; autorewrite with probe; set_solver|apply labels_held].

Lemma probe_workqueues_post env pd ret s :
  IrqDetect ∉ ps_held s -> pre_world (ps_world s) ->
  probe_post (probe_workqueues env pd ret s).
Proof.
  intros Hn Hp. unfold probe_workqueues.
  repeat (case_match; [label_case|]).
  case_match; (apply probe_irqs_post; autorewrite with probe; [set_solver|]);
    (apply keeps_view_pre_world; [kv|]); autorewrite with probe;
    [apply map_work_pre_world|]; done.
Qed.

Lemma probe_devices_post env pd s :
  IrqDetect ∉ ps_held s -> pre_world (ps_world s) -> probe_post (probe_devices env pd s).
Proof.
  intros Hn Hp. unfold probe_devices. cbv zeta.
  destruct (gpio_switch pd =? 0); cbn [negb andb];
    repeat (case_match; [label_case|]);
    (apply probe_workqueues_post; autorewrite with probe; [set_solver|]); [done|].
  apply keeps_view_pre_world; [kv|done].
Qed.

Lemma hs_boot_power_pre_world hw regs w r :
  hs_view w = hs_view (hs_boot hw regs) -> pre_world (map_pow (set_power_regs r) w).
Proof.
  intros E.
  destruct w as [h t rg v b d [sl bs [] [] [] e o] [? ? ? ?] k].
  destruct v. unfold hs_view, reg_view in E; cbn in E. simplify_eq.
  unfold pre_world, hs_inv, irq_ok, pow_ok, key_ok; cbn.
  destruct (pi_head_mic r), (pi_vbo r); cbn; intuition lia.
Qed.

Lemma probe_post_all env hw regs : probe_post (headset_detect_probe env (hs_boot hw regs)).
Proof.
  unfold headset_detect_probe. case_match; [|intros Hin; cbn in Hin; set_solver].
  rewrite sprd_headset_power_init_ret; cbn [Z.eqb negb].
  apply probe_devices_post; autorewrite with probe; cbn; [set_solver|].
  apply (hs_boot_power_pre_world hw regs).
  rewrite headset_detect_init_kv.
  apply (keeps_mbind _ _ (fun _ => sci_adi_read _;; mret ())); [kv|].
  intros _. unfold sci_adi_read. kv.
Qed.

(** C33: With each handler and work item run to its end before the next
    starts (hs_step, without the interleaving C34 shows), once
    headset_detect_probe has requested the detect interrupt, every state
    reached by the interrupt handlers, the work items and debug_level
    writes keeps the invariant: each interrupt's static
    current_irq_state agrees with the IRQ core's disable depth (no
    unbalanced enable), the head_mic and vbo regulators are enabled
    exactly as the static power states say (no unbalanced disable), a
    key is reported pressed only while a jack is plugged, and key events
    alternate press, release, starting with a press. *)
Theorem headset_probe_reachable_safe env hw regs pd w :
  let s := snd (headset_detect_probe env (hs_boot hw regs)) in
  IrqDetect ∈ ps_held s -> ps_pdata s = Some pd ->
  star (hs_step pd) (ps_world s) w -> hs_inv w.
Proof.
  intros s Hin Hpd Hstar. eapply hs_reachable_inv; [exact Hstar|].
  exact (probe_post_all env hw regs Hin).
Qed.

Ltac labels_unfold :=
  unfold failed_to_request_irq_headset_detect, failed_to_request_irq_headset_button,
    failed_to_create_wq_adpgar_byp_select, failed_to_create_wq_headset_reg_dump,
    failed_to_create_wq_headset_detect, failed_to_create_wq_headset_button,
    failed_to_register_input_device, failed_to_allocate_input_device,
    failed_to_register_switch_dev, failed_to_request_gpio_button,
    failed_to_request_gpio_detect, failed_to_request_gpio_switch.

Ltac env_unfold :=
  unfold env_ok_regs, env_ok_gpios, env_ok_input, env_ok_wq, env_ok_irqs,
    env_ok_sysfs in *.

(** When only headset_debug_sysfs_init fails, headset_detect_probe
    returns an error while both interrupts stay requested and the
    workqueues created. *)
Theorem headset_detect_probe_sysfs_failure env hw regs pd :
  pe_platform_data env = Some pd ->
  env_ok_regs env -> env_ok_gpios env -> env_ok_input env -> env_ok_wq env ->
  env_ok_irqs env -> pe_kobj_ok env = false \/ pe_sysfs_file_rc env <> 0 ->
  let '(rc, s) := headset_detect_probe env (hs_boot hw regs) in
  rc <> 0 /\ IrqButton ∈ ps_held s /\ IrqDetect ∈ ps_held s /\ WqButton ∈ ps_held s.
Proof.
  intros Hpd H1 H2 H3 H4 H5 Hs. env_unfold. destruct_and! H1. destruct_and! H2.
  destruct_and! H3. destruct_and! H4. destruct_and! H5.
  unfold headset_detect_probe, probe_devices, probe_workqueues, probe_irqs,
    headset_debug_sysfs_init.
  rewrite Hpd. env_rewrite env. cbn.
  destruct Hs as [Hk|Hf].
  - rewrite Hk. destruct (gpio_switch pd =? 0); cbn; repeat split; try set_solver;
      unfold ENOMEM; lia.
  - destruct (pe_kobj_ok env); cbn; [apply Z.eqb_neq in Hf; rewrite Hf|];
      destruct (gpio_switch pd =? 0); cbn; repeat split; try set_solver;
      unfold ENOMEM in *; lia.
Qed.

(** When switch_dev_register of switch_sendend fails,
    headset_detect_probe jumps to the label that skips
    switch_dev_unregister of ht->sdev and returns an error with that
    switch still registered. *)
Theorem headset_detect_probe_sendend_leak env hw regs pd :
  pe_platform_data env = Some pd -> env_ok_regs env -> env_ok_gpios env ->
  pe_sdev_rc env = 0 -> pe_sendend_rc env < 0 ->
  let '(rc, s) := headset_detect_probe env (hs_boot hw regs) in
  rc < 0 /\ ps_held s = [SwitchSdev] /\ ps_misuse s = [].
Proof.
  intros Hpd H1 H2 Hsd Hse. env_unfold. destruct_and! H1. destruct_and! H2.
  unfold headset_detect_probe, probe_devices.
  rewrite Hpd. env_rewrite env. cbn.
  destruct (Z.ltb_spec (pe_sendend_rc env) 0); [|lia].
  labels_unfold. destruct (gpio_switch pd =? 0); cbn; repeat split; lia.
Qed.

(** When the headset_button workqueue cannot be created,
    headset_detect_probe returns 0 although it has undone everything,
    and the input device is freed by input_free_device after
    input_unregister_device already released it. *)
Theorem headset_detect_probe_wq_failure env hw regs pd :
  pe_platform_data env = Some pd -> env_ok_regs env -> env_ok_gpios env ->
  env_ok_input env -> pe_wq_button env = false ->
  let '(rc, s) := headset_detect_probe env (hs_boot hw regs) in
  rc = 0 /\ ps_held s = [] /\ ps_misuse s = [InputDev].
Proof.
  intros Hpd H1 H2 H3 Hw. env_unfold. destruct_and! H1. destruct_and! H2. destruct_and! H3.
  unfold headset_detect_probe, probe_devices, probe_workqueues.
  rewrite Hpd. env_rewrite env. cbn. labels_unfold.
  destruct (gpio_switch pd =? 0); cbn; repeat split.
Qed.

(** [set_adc_to_headmic(1)] with [head_mic] set and [vbo] NULL passes
    the NULL [vbo] to [regulator_enable]. *)
Lemma set_adc_to_headmic_null_vbo w :
  reg_present (head_mic (w_pow w)) = true -> reg_present (vbo (w_pow w)) = false ->
  sleep_power_state (w_pow w) = 0 ->
  oops (w_pow (snd (set_adc_to_headmic 1 w))) = true.
Proof.
  destruct w as [? ? ? ? ? ? [sl bs [hp ? ? ?] ? [vp ? ? ?] ? ?] ? ?]; cbn.
  intros -> -> ->. reflexivity.
Qed.

(** C35: When regulator_get of VBO fails and every other call succeeds,
    headset_detect_probe returns 0 with the detect interrupt requested,
    and set_adc_to_headmic(1), the first statement of the button work
    and of the type detection, passes the NULL vbo to regulator_enable. *)
Theorem headset_detect_probe_null_vbo env hw regs pd e :
  pe_platform_data env = Some pd -> pe_reg_head_mic env = None ->
  pe_reg_vcom_buf env = None -> pe_reg_vbo env = Some e ->
  env_ok_gpios env -> env_ok_input env -> env_ok_wq env -> env_ok_irqs env ->
  env_ok_sysfs env ->
  let '(rc, s) := headset_detect_probe env (hs_boot hw regs) in
  rc = 0 /\ IrqDetect ∈ ps_held s /\
  oops (w_pow (snd (set_adc_to_headmic 1 (ps_world s)))) = true.
Proof.
  intros Hpd Hhm Hvc Hvb H2 H3 H4 H5 H6. env_unfold.
  destruct_and! H2. destruct_and! H3. destruct_and! H4. destruct_and! H5. destruct_and! H6.
  unfold headset_detect_probe, probe_devices, probe_workqueues, probe_irqs,
    headset_debug_sysfs_init.
  rewrite Hpd. env_rewrite env. cbn.
  destruct (gpio_switch pd =? 0); cbn; (split; [done|split; [set_solver|]]);
    apply set_adc_to_headmic_null_vbo; reflexivity.
Qed.

(** *** The device-tree parse *)

Definition dt_readable (c : dt_button) : Prop := is_Some (dt_read_button c).

Lemma parse_buttons_ok i cs :
  Forall dt_readable cs ->
  parse_buttons i cs = inl (omap dt_read_button cs) /\
  length (omap dt_read_button cs) = length cs.
Proof.
  induction cs as [|c cs IH] in i |- *; [done|].
  intros [[b Hb] Hall]%Forall_cons. cbn. rewrite Hb.
  destruct (IH (S i) Hall) as [-> Hl]. cbn. auto.
Qed.

Lemma parse_buttons_fail i cs1 c cs2 :
  Forall dt_readable cs1 -> dt_read_button c = None ->
  parse_buttons i (cs1 ++ c :: cs2) = inr (i + length cs1)%nat.
Proof.
  induction cs1 as [|c1 cs1 IH] in i |- *; intros Hall Hc; cbn.
  - rewrite Hc. f_equal. lia.
  - apply Forall_cons in Hall as [[b Hb] Hall]. rewrite Hb, IH by done. f_equal. lia.
Qed.

(** When every property and child is present and the node has
    no more children than [nbuttons], the parse returns the children's
    buttons followed by zeroed entries, [nbuttons] of them in all. *)
Lemma headset_detect_parse_dt_ok np pd :
  dt_props np = Some pd -> 0 <= nbuttons pd ->
  Forall dt_readable (dt_children np) ->
  (length (dt_children np) <= Z.to_nat (nbuttons pd))%nat ->
  exists pd',
    fst (headset_detect_parse_dt true true np) = Some pd' /\
    headset_buttons_of pd' =
      omap dt_read_button (dt_children np) ++
      replicate (Z.to_nat (nbuttons pd) - length (dt_children np)) zero_button /\
    length (headset_buttons_of pd') = Z.to_nat (nbuttons pd) /\
    gpio_detect pd' = gpio_detect pd /\ nbuttons pd' = nbuttons pd.
Proof.
  intros Hp Hn Hall Hlen. destruct (parse_buttons_ok 0 _ Hall) as [Hb Hl].
  unfold headset_detect_parse_dt. rewrite Hp. cbn [negb]. rewrite Hb. cbn.
  eexists; split; [reflexivity|].
  destruct pd; cbn in *. rewrite take_pad by (rewrite Hl; lia).
  rewrite length_app, length_replicate, Hl. repeat split; lia.
Qed.

(** headset_detect_parse_dt succeeds on a node with more readable
    button children than nbuttons while its loop writes more entries
    than the kzalloc'd array holds. *)
Theorem headset_detect_parse_dt_overflow np pd :
  dt_props np = Some pd -> Forall dt_readable (dt_children np) ->
  nbuttons pd < Z.of_nat (length (dt_children np)) ->
  is_Some (fst (headset_detect_parse_dt true true np)) /\
  pr_allocated (snd (headset_detect_parse_dt true true np)) <
    Z.of_nat (pr_written (snd (headset_detect_parse_dt true true np))).
Proof.
  intros Hp Hall Hn. destruct (parse_buttons_ok 0 _ Hall) as [Hb Hl].
  unfold headset_detect_parse_dt. rewrite Hp. cbn [negb]. rewrite Hb. cbn.
  split; [by eexists|]. rewrite Hl. exact Hn.
Qed.

(** When a button child after the first lacks a property,
    headset_detect_parse_dt passes kfree the array pointer advanced past
    the children already read instead of the pointer kzalloc returned. *)
Theorem headset_detect_parse_dt_bad_kfree np pd cs1 c cs2 :
  dt_props np = Some pd -> dt_children np = cs1 ++ c :: cs2 ->
  Forall dt_readable cs1 -> dt_read_button c = None -> cs1 <> [] ->
  headset_detect_parse_dt true true np =
    (None, mk_parse_report (length cs1) (nbuttons pd) (Some (length cs1))) /\
  length cs1 <> 0%nat.
Proof.
  intros Hp Hc Hall Hnone Hne. unfold headset_detect_parse_dt. rewrite Hp, Hc.
  cbn [negb]. rewrite parse_buttons_fail by done. split; [done|].
  destruct cs1; [done|]. cbn. lia.
Qed.

#[export] Instance dt_readable_dec c : Decision (dt_readable c).
Proof. unfold dt_readable. apply _. Defined.

(** ** Examples *)

Definition example_env (vbo_res : reg_get_result) (sendend_rc : Z) (wq_button kobj : bool)
    : hs_probe_env :=
  mk_probe_env (Some (example_hs_pdata 3)) true None 0x27230000
    None None vbo_res 0 0 0 0 sendend_rc true 0 wq_button true true true 0 0 kobj 0.

Definition example_regs : Z -> Z := fun _ => 0.

Lemma headset_detect_probe_success_witness :
  let '(rc, s) := headset_detect_probe (example_env None 0 true true)
                    (hs_boot example_hw example_regs) in
  rc = 0 /\ ps_misuse s = [] /\ ps_pdata s = Some (example_hs_pdata 3) /\
  IrqButton ∈ ps_held s /\ IrqDetect ∈ ps_held s /\
  hs_inv (ps_world s) /\ irq_state (w_btn (ps_world s)) = 0 /\ det_enabled (ps_world s).
Proof.
  apply headset_detect_probe_success; [reflexivity|].
  unfold env_all_ok; env_unfold; cbn; repeat split.
Defined.

Lemma headset_probe_reachable_safe_witness :
  let s := snd (headset_detect_probe (example_env None 0 true true)
                  (hs_boot example_hw example_regs)) in
  hs_inv (ps_world s).
Proof.
  apply (headset_probe_reachable_safe (example_env None 0 true true) example_hw example_regs
    (example_hs_pdata 3)).
  - apply (bool_decide_unpack _). vm_compute. reflexivity.
  - reflexivity.
  - apply star_refl.
Defined.

Lemma headset_detect_probe_null_vbo_witness :
  let '(rc, s) := headset_detect_probe (example_env (Some (- ENODEV)) 0 true true)
                    (hs_boot example_hw example_regs) in
  rc = 0 /\ IrqDetect ∈ ps_held s /\
  oops (w_pow (snd (set_adc_to_headmic 1 (ps_world s)))) = true.
Proof.
  apply (headset_detect_probe_null_vbo _ _ _ (example_hs_pdata 3) (- ENODEV));
    env_unfold; cbn; repeat split.
Defined.

Lemma headset_detect_probe_sendend_leak_witness :
  let '(rc, s) := headset_detect_probe (example_env None (- EINVAL) true true)
                    (hs_boot example_hw example_regs) in
  rc < 0 /\ ps_held s = [SwitchSdev] /\ ps_misuse s = [].
Proof.
  apply (headset_detect_probe_sendend_leak _ _ _ (example_hs_pdata 3));
    env_unfold; cbn; repeat split; lia.
Defined.

Lemma headset_detect_probe_wq_failure_witness :
  let '(rc, s) := headset_detect_probe (example_env None 0 false true)
                    (hs_boot example_hw example_regs) in
  rc = 0 /\ ps_held s = [] /\ ps_misuse s = [InputDev].
Proof.
  apply (headset_detect_probe_wq_failure _ _ _ (example_hs_pdata 3));
    env_unfold; cbn; repeat split.
Defined.

Lemma headset_detect_probe_sysfs_failure_witness :
  let '(rc, s) := headset_detect_probe (example_env None 0 true false)
                    (hs_boot example_hw example_regs) in
  rc <> 0 /\ IrqButton ∈ ps_held s /\ IrqDetect ∈ ps_held s /\ WqButton ∈ ps_held s.
Proof.
  apply (headset_detect_probe_sysfs_failure _ _ _ (example_hs_pdata 3));
    env_unfold; cbn; repeat split; left; reflexivity.
Defined.

Definition example_child (code : Z) : dt_button :=
  mk_dt_button (Some 0) (Some 100) (Some code) (Some 1).
Definition example_bad_child : dt_button := mk_dt_button (Some 0) None (Some 115) (Some 1).

Definition example_node (nb : Z) (children : list dt_button) : hs_dt_node :=
  mk_dt_node (Some 0) (Some 11) (Some 12) (Some 1) (Some 1) (Some 50) (Some 0)
    (Some 3) (Some 0) (Some 100) (Some nb) children.

Definition example_node_pdata (nb : Z) : sprd_headset_platform_data :=
  mk_hs_pdata 0 11 12 1 1 50 0 3 0 100 nb [] false.

Lemma headset_detect_parse_dt_ok_witness :
  exists pd',
    fst (headset_detect_parse_dt true true (example_node 2 [example_child 226])) = Some pd' /\
    headset_buttons_of pd' =
      omap dt_read_button [example_child 226] ++
      replicate (Z.to_nat 2 - length [example_child 226]) zero_button /\
    length (headset_buttons_of pd') = Z.to_nat 2 /\
    gpio_detect pd' = gpio_detect (example_node_pdata 2) /\
    nbuttons pd' = nbuttons (example_node_pdata 2).
Proof.
  apply (headset_detect_parse_dt_ok (example_node 2 [example_child 226]) (example_node_pdata 2)).
  - reflexivity.
  - cbn. lia.
  - apply (bool_decide_unpack _). vm_compute. reflexivity.
  - cbn. lia.
Defined.

Lemma headset_detect_parse_dt_overflow_witness :
  let np := example_node 1 [example_child 226; example_child 115] in
  is_Some (fst (headset_detect_parse_dt true true np)) /\
  pr_allocated (snd (headset_detect_parse_dt true true np)) <
    Z.of_nat (pr_written (snd (headset_detect_parse_dt true true np))).
Proof.
  apply (headset_detect_parse_dt_overflow _ (example_node_pdata 1)).
  - reflexivity.
  - apply (bool_decide_unpack _). vm_compute. reflexivity.
  - cbn. lia.
Defined.

Lemma headset_detect_parse_dt_bad_kfree_witness :
  headset_detect_parse_dt true true
    (example_node 2 ([example_child 226] ++ example_bad_child :: [])) =
    (None, mk_parse_report (length [example_child 226]) (nbuttons (example_node_pdata 2))
             (Some (length [example_child 226]))) /\
  length [example_child 226] <> 0%nat.
Proof.
  apply (headset_detect_parse_dt_bad_kfree _ _ _ example_bad_child []).
  - reflexivity.
  - reflexivity.
  - apply (bool_decide_unpack _). vm_compute. reflexivity.
  - reflexivity.
  - discriminate.
Defined.
End HeadsetProbe.
