(* ===== verification/UEtherLink.v ===== *)
(** * USB gadget Ethernet: link layer, addresses and the plain data path

    Models the parts of [src/drivers/usb/gadget/u_ether.c] that do not
    depend on [CONFIG_USB_SPRD_DWC]: the Ethernet addresses taken from
    the module parameters ([get_ether_addr]), the MTU and queue-length
    rules, the receive path ([rx_submit], [rx_complete], [rx_fill],
    [eth_work]), the request pools ([prealloc], [alloc_requests]), the
    transmit path of the configuration without [CONFIG_USB_SPRD_DWC]
    ([eth_start_xmit], [tx_complete]) and the link life cycle
    ([gether_connect], [gether_disconnect], [eth_open], [eth_stop]).

    A C string is the list of its bytes; a [const char *] that walks it
    is the suffix of the buffer (the string and its NUL) that starts at
    the pointer, so a read past the NUL is a read of an empty suffix,
    the error value [None].  USB requests and socket buffers are named
    by numbers; what the USB controller and the network stack answer is
    an argument of the operation that asks.

    The step relation [link_step] runs one operation to its end.  The
    invariant [link_inv] says every request [alloc_requests] made is in
    exactly one place (a free list, the endpoint queues or the freed
    log); [ueth_requests_conserved] and [gether_disconnect_frees_all]
    follow from it, [rx_frame_loop_accounting] states the statistics
    of the receive loop, and [get_ether_addr_roundtrip] the address
    parser against its printer.  [link_split_step] cuts [rx_fill] and
    [eth_start_xmit] where they drop [req_lock] holding a request and
    lets [gether_disconnect] and the completions run in between; the
    halves compose to the whole operations ([rx_fill_loop_split],
    [eth_work_split], [eth_start_xmit_split]), and
    [ueth_disconnect_races] shows a request lost by [rx_fill] and the
    NULL [port_usb] that the rest of [eth_start_xmit] dereferences. *)

From S2P Require Import Prelude.

Module UEtherLink.

Local Open Scope Z_scope.

(** ** Constants of [include/linux/if_ether.h] and [if_vlan.h] *)

Definition ETH_ALEN : Z := 6.
Definition ETH_HLEN : Z := 14.
Definition ETH_FRAME_LEN : Z := 1514.
Definition VLAN_ETH_FRAME_LEN : Z := 1518.
Definition EBUSY : Z := 16.
Definition ERANGE : Z := 34.
Definition ENOTCONN : Z := 107.
Definition ESHUTDOWN : Z := 108.
Definition ECONNRESET : Z := 104.
Definition ECONNABORTED : Z := 103.
Definition EOVERFLOW : Z := 75.

(** ** Ethernet addresses *)

(** [hex_to_bin] of [lib/hexdump.c]: the value of a hex digit, [-1]
    for any other character. *)
Definition hex_to_bin (ch : Z) : Z :=
  if (48 <=? ch) && (ch <=? 57) then ch - 48
  else let ch := if (65 <=? ch) && (ch <=? 90) then ch + 32 else ch in
       if (97 <=? ch) && (ch <=? 102) then ch - 97 + 10 else -1.

(** [is_multicast_ether_addr], [is_zero_ether_addr],
    [is_broadcast_ether_addr] and [is_valid_ether_addr] of
    [include/linux/etherdevice.h]. *)
Definition is_multicast_ether_addr (a : list Z) : bool :=
  match a with b :: _ => negb (Z.eqb (b .& 1) 0) | [] => false end.
Definition is_zero_ether_addr (a : list Z) : bool := forallb (fun b => Z.eqb b 0) a.
Definition is_broadcast_ether_addr (a : list Z) : bool := forallb (fun b => Z.eqb b 0xff) a.
Definition is_valid_ether_addr (a : list Z) : bool :=
  negb (is_multicast_ether_addr a) && negb (is_zero_ether_addr a).

(** [eth_random_addr]: random bytes, with the multicast bit cleared and
    the locally-administered bit set. *)
Definition eth_random_addr (rnd : list Z) : list Z :=
  match take 6 rnd with
  | b :: rest => ((b .& 0xfe) .| 0x02) :: rest
  | [] => []
  end.

(** The separators [get_ether_addr] skips, ['.'] and [':']. *)
Definition is_ether_sep (c : Z) : bool := (c =? 46) || (c =? 58).

(** The loop of [get_ether_addr] (lines 1247-1256) on the suffix [str]
    of the buffer: an optional separator, then two hex digits stored as
    an [unsigned char] (so [-1], a bad digit, gives [0xf0] or [0xff]). *)
Fixpoint ether_addr_loop (str : list Z) (n : nat) : option (list Z) :=
  match n with
  | O => Some []
  | S n' =>
      c ← head str;
      let str := if is_ether_sep c then tail str else str in
      c1 ← head str;
      c2 ← head (tail str);
      let num := (hex_to_bin c1 << 4) mod 256 in
      let num := (num .| hex_to_bin c2) mod 256 in
      rest ← ether_addr_loop (drop 2 str) n';
      Some (num :: rest)
  end.

(** [get_ether_addr] (lines 1243-1262): [str] is [NULL] or a string;
    the result is the return code and the address, or [None] when the
    loop reads past the string's NUL. *)
Definition get_ether_addr (str : option (list Z)) (rnd : list Z) : option (Z * list Z) :=
  match str with
  | None => Some (1, eth_random_addr rnd)
  | Some s =>
      a ← ether_addr_loop (s ++ [0]) 6;
      if is_valid_ether_addr a then Some (0, a) else Some (1, eth_random_addr rnd)
  end.

(** The [%pM] format of [lib/vsprintf.c] that prints the addresses
    (lines 1338-1339): two lowercase hex digits per byte, joined by
    colons. *)
Definition hex_asc (d : Z) : Z := if d <? 10 then 48 + d else 87 + d.
Definition hex_byte (b : Z) : list Z := [hex_asc (b >> 4); hex_asc (b .& 15)].
Definition mac_address_string (a : list Z) : list Z :=
  match a with
  | [] => []
  | b :: rest => hex_byte b ++ concat (map (fun b => 58 :: hex_byte b) rest)
  end.

(** ** USB and CDC constants ([ch9.h], [cdc.h]) *)

Definition USB_SPEED_HIGH : Z := 3.
Definition USB_SPEED_SUPER : Z := 5.
Definition USB_CDC_PACKET_TYPE_PROMISCUOUS : Z := 1 << 0.
Definition USB_CDC_PACKET_TYPE_ALL_MULTICAST : Z := 1 << 1.
Definition USB_CDC_PACKET_TYPE_BROADCAST : Z := 1 << 3.
Definition NETDEV_TX_OK : Z := 0.
Definition NETDEV_TX_BUSY : Z := 16.

(** ** Constants of the file (lines 75-103) *)

Definition WORK_RX_MEMORY : Z := 0.
Definition RX_EXTRA : Z := 20.
Definition DEFAULT_QLEN : Z := 2.

(** [qmult], a module parameter: 15 with [CONFIG_USB_SPRD_DWC], else 5. *)
Definition qmult_default (sprd_dwc : bool) : Z := if sprd_dwc then 15 else 5.

(** [qlen] (lines 96-103): deeper queues at high and super speed. *)
Definition qlen (qmult : Z) (dualspeed : bool) (speed : Z) : Z :=
  if dualspeed && ((speed =? USB_SPEED_HIGH) || (speed =? USB_SPEED_SUPER))
  then qmult * DEFAULT_QLEN else DEFAULT_QLEN.

(** ** The state of the link *)

(** [struct gether]: what the function driver (RNDIS, ECM, ...) gives
    the link: the endpoints' packet sizes, the framing, and whether it
    has [wrap] and [unwrap] functions. *)
Record gether := mk_gether {
  in_maxpacket : Z; out_maxpacket : Z;
  is_fixed : bool; fixed_in_len : Z; fixed_out_len : Z;
  g_header_len : Z; cdc_filter : Z; is_zlp_ok : bool;
  g_wrap : bool; g_unwrap : bool }.

(** The counters of [net->stats] the driver changes. *)
Inductive stat :=
  | rx_errors | rx_length_errors | rx_over_errors | rx_packets | rx_bytes
  | tx_errors | tx_bytes | tx_packets | tx_dropped.

#[export] Instance stat_eq_dec : EqDecision stat.
Proof. solve_decision. Defined.

Definition stat_add (f : stat) (n : Z) (st : stat -> Z) : stat -> Z :=
  fun g => if decide (g = f) then st g + n else st g.

(** The requests: the free lists [tx_reqs] and [rx_reqs] (head first,
    as [list_add] puts them), those queued on the IN endpoint (oldest
    first, with the length of their socket buffer and of the transfer)
    and on the OUT endpoint (with the size of their buffer), all requests ever allocated and those
    freed. *)
Record req_pools := mk_pools {
  tx_reqs : list nat; rx_reqs : list nat;
  tx_queued : list (nat * Z * Z); rx_queued : list (nat * Z);
  allocated : list nat; freed_reqs : list nat; next_req : nat }.

(** [struct eth_dev] with what the driver uses of its [net_device]. *)
Record eth_dev := mk_eth {
  port_usb : option gether;
  pools : req_pools;
  tx_qlen : Z;
  rx_frames : list Z;
  header_len : Z; d_wrap : bool; d_unwrap : bool;
  todo : Z; work_pending : bool;
  zlp : bool;
  mtu : Z; running : bool; carrier : bool; queue_stopped : bool;
  stats : stat -> Z;
  in_enabled : bool; out_enabled : bool }.

Definition set_port x '(mk_eth _ b c d e f g h i j k l m n o p q) := mk_eth x b c d e f g h i j k l m n o p q.
Definition map_pools fn '(mk_eth a b c d e f g h i j k l m n o p q) := mk_eth a (fn b) c d e f g h i j k l m n o p q.
Definition set_tx_qlen x '(mk_eth a b _ d e f g h i j k l m n o p q) := mk_eth a b x d e f g h i j k l m n o p q.
Definition set_rx_frames x '(mk_eth a b c _ e f g h i j k l m n o p q) := mk_eth a b c x e f g h i j k l m n o p q.
Definition set_framing hl wr un '(mk_eth a b c d _ _ _ h i j k l m n o p q) := mk_eth a b c d hl wr un h i j k l m n o p q.
Definition set_todo x '(mk_eth a b c d e f g _ i j k l m n o p q) := mk_eth a b c d e f g x i j k l m n o p q.
Definition set_work_pending x '(mk_eth a b c d e f g h _ j k l m n o p q) := mk_eth a b c d e f g h x j k l m n o p q.
Definition set_zlp x '(mk_eth a b c d e f g h i _ k l m n o p q) := mk_eth a b c d e f g h i x k l m n o p q.
Definition set_mtu x '(mk_eth a b c d e f g h i j _ l m n o p q) := mk_eth a b c d e f g h i j x l m n o p q.
Definition set_running x '(mk_eth a b c d e f g h i j k _ m n o p q) := mk_eth a b c d e f g h i j k x m n o p q.
Definition set_carrier x '(mk_eth a b c d e f g h i j k l _ n o p q) := mk_eth a b c d e f g h i j k l x n o p q.
Definition set_stopped x '(mk_eth a b c d e f g h i j k l m _ o p q) := mk_eth a b c d e f g h i j k l m x o p q.
Definition map_stats fn '(mk_eth a b c d e f g h i j k l m n o p q) := mk_eth a b c d e f g h i j k l m n (fn o) p q.
Definition set_in_enabled x '(mk_eth a b c d e f g h i j k l m n o _ q) := mk_eth a b c d e f g h i j k l m n o x q.
Definition set_out_enabled x '(mk_eth a b c d e f g h i j k l m n o p _) := mk_eth a b c d e f g h i j k l m n o p x.

Definition set_tx_reqs x '(mk_pools _ b c d e f g) := mk_pools x b c d e f g.
Definition set_rx_reqs x '(mk_pools a _ c d e f g) := mk_pools a x c d e f g.
Definition set_tx_queued x '(mk_pools a b _ d e f g) := mk_pools a b x d e f g.
Definition set_rx_queued x '(mk_pools a b c _ e f g) := mk_pools a b c x e f g.
Definition free_req r '(mk_pools a b c d e f g) := mk_pools a b c d e (f ++ [r]) g.
Definition alloc_req '(mk_pools a b c d e f g) := (g, mk_pools a b c d (e ++ [g]) f (S g)).

Definition stat_inc (f : stat) (n : Z) (d : eth_dev) : eth_dev := map_stats (stat_add f n) d.

(** [netif_stop_queue], [netif_wake_queue], [netif_start_queue]. *)
Definition netif_stop_queue (d : eth_dev) : eth_dev := set_stopped true d.
Definition netif_wake_queue (d : eth_dev) : eth_dev := set_stopped false d.

(** ** Network driver hook-up (lines 144-192) *)

(** [ueth_change_mtu] (lines 144-161): the status and the device. *)
Definition ueth_change_mtu (d : eth_dev) (new_mtu : Z) : Z * eth_dev :=
  if bool_decide (is_Some (port_usb d)) then (- EBUSY, d)
  else if (new_mtu <=? ETH_HLEN) || (ETH_FRAME_LEN <? new_mtu) then (- ERANGE, d)
  else (0, set_mtu new_mtu d).

(** [defer_kevent] (lines 184-192): set the bit of [todo] and schedule
    the work unless the bit was already set. *)
Definition defer_kevent (d : eth_dev) (flag : Z) : eth_dev :=
  if Z.testbit (todo d) flag then d
  else set_work_pending true (set_todo (Z.setbit (todo d) flag) d).

(** ** The receive path (lines 194-469) *)

Section Rx.
(** [RNDIS_MSG_MAX_NUM], defined by a header outside the slice: the
    number of Ethernet frames one RNDIS transfer may carry. *)
Variable RNDIS_MSG_MAX_NUM : Z.

(** The buffer size of [rx_submit] (lines 228-235), a [size_t]. *)
Definition rx_buffer_size (g : gether) (net_mtu : Z) : Z :=
  let size := ETH_HLEN + net_mtu + RX_EXTRA in
  let size := size + g_header_len g in
  let size := size + (out_maxpacket g - 1) in
  let size := size - size mod out_maxpacket g in
  let size := if is_fixed g then Z.max size (fixed_out_len g) else size in
  (size * RNDIS_MSG_MAX_NUM) mod 2 ^ 32.

Definition requeue_rx (req : nat) (d : eth_dev) : eth_dev :=
  map_pools (fun p => set_rx_reqs (req :: rx_reqs p) p) d.

(** [rx_submit] (lines 197-272), with the outcomes of [alloc_skb] and
    [usb_ep_queue]; the request is not on any list when it is called. *)
Definition rx_submit (d : eth_dev) (req : nat) (skb_ok : bool) (ep_rc : Z) : Z * eth_dev :=
  match port_usb d with
  | None => (- ENOTCONN, d)
  | Some g =>
      let size := rx_buffer_size g (mtu d) in
      if negb skb_ok then
        (- ENOMEM, requeue_rx req (defer_kevent d WORK_RX_MEMORY))
      else
        let d := if ep_rc =? - ENOMEM then defer_kevent d WORK_RX_MEMORY else d in
        if negb (ep_rc =? 0) then (ep_rc, requeue_rx req d)
        else (0, map_pools (fun p => set_rx_queued (rx_queued p ++ [(req, size)]) p) d)
  end.

(** The frame loop of [rx_complete] (lines 309-330): a frame shorter
    than a header or longer than a VLAN frame, or any frame after a
    failed [unwrap], is an error; the others go to [netif_rx], whose
    result ([NET_RX_SUCCESS] or [NET_RX_DROP]) is never negative. *)
Fixpoint rx_frame_loop (status : Z) (frames : list Z) (st : stat -> Z) : stat -> Z :=
  match frames with
  | [] => st
  | len :: rest =>
      if (status <? 0) || (len <? ETH_HLEN) || (VLAN_ETH_FRAME_LEN <? len) then
        rx_frame_loop status rest (stat_add rx_length_errors 1 (stat_add rx_errors 1 st))
      else rx_frame_loop 0 rest (stat_add rx_bytes len (stat_add rx_packets 1 st))
  end.

(** The end of [rx_complete] (lines 358-368): back to the free list
    when the interface is down, else resubmitted. *)
Definition rx_recycle (d : eth_dev) (req : nat) (skb_ok : bool) (ep_rc : Z) : eth_dev :=
  if negb (running d) then requeue_rx req d else snd (rx_submit d req skb_ok ep_rc).

(** [rx_complete] (lines 274-369) for the oldest request queued on the
    OUT endpoint, with its status, the bytes received, what [unwrap]
    returns (its status and the frames it splits off), and the answers
    of the resubmission. *)
Definition rx_complete (d : eth_dev) (status actual : Z) (unwrap_ans : Z * list Z)
    (skb_ok : bool) (ep_rc : Z) : eth_dev :=
  match rx_queued (pools d) with
  | [] => d
  | (req, _) :: rest =>
      let d := map_pools (set_rx_queued rest) d in
      if status =? 0 then
        let '(st, frames) :=
          if d_unwrap d then
            (if bool_decide (is_Some (port_usb d)) then unwrap_ans else (- ENOTCONN, []))
          else (0, [actual]) in
        let d := set_rx_frames [] (map_stats (rx_frame_loop st (rx_frames d ++ frames)) d) in
        rx_recycle d req skb_ok ep_rc
      else if (status =? - ECONNRESET) || (status =? - ESHUTDOWN) then requeue_rx req d
      else if status =? - ECONNABORTED then requeue_rx req (defer_kevent d WORK_RX_MEMORY)
      else
        let d := if status =? - EOVERFLOW then stat_inc rx_over_errors 1 d else d in
        rx_recycle (stat_inc rx_errors 1 d) req skb_ok ep_rc
  end.

(** [rx_fill] (lines 435-456): submit the free requests one by one and
    stop at the first failure; [ans k] answers the [k]-th submission.
    Every submission that succeeds takes a request off the list, so
    [length rx_reqs] iterations are enough. *)
Fixpoint rx_fill_loop (fuel : nat) (k : nat) (ans : nat -> bool * Z) (d : eth_dev) : eth_dev :=
  match fuel with
  | O => d
  | S fuel' =>
      match rx_reqs (pools d) with
      | [] => d
      | req :: rest =>
          let d := map_pools (set_rx_reqs rest) d in
          let '(rc, d) := rx_submit d req (fst (ans k)) (snd (ans k)) in
          if rc <? 0 then defer_kevent d WORK_RX_MEMORY
          else rx_fill_loop fuel' (S k) ans d
      end
  end.

Definition rx_fill (ans : nat -> bool * Z) (d : eth_dev) : eth_dev :=
  rx_fill_loop (length (rx_reqs (pools d))) 0 ans d.

(** [eth_work] (lines 458-469): the deferred refill. *)
Definition eth_work (ans : nat -> bool * Z) (d : eth_dev) : eth_dev :=
  let d := set_work_pending false d in
  if Z.testbit (todo d) WORK_RX_MEMORY then
    let d := set_todo (Z.clearbit (todo d) WORK_RX_MEMORY) d in
    if running d then rx_fill ans d else d
  else d.

End Rx.

(** ** Request pools (lines 371-433) *)

(** The allocation loop of [prealloc]: [ans k] says whether the [k]-th
    [usb_ep_alloc_request] succeeds; a failure ends the loop with
    [-ENOMEM] only when the list is still empty. *)
Fixpoint prealloc_loop (i : nat) (k : nat) (ans : nat -> bool) (l : list nat) (p : req_pools)
    : Z * list nat * req_pools :=
  match i with
  | O => (0, l, p)
  | S i' =>
      if ans k then
        let '(r, p) := alloc_req p in prealloc_loop i' (S k) ans (r :: l) p
      else ((if l is [] then - ENOMEM else 0), l, p)
  end.

(** [prealloc] (lines 371-410): keep the first [n] requests of the list
    and free the others, or allocate the missing ones. *)
Definition prealloc (l : list nat) (n : Z) (ans : nat -> bool) (p : req_pools)
    : Z * list nat * req_pools :=
  if n =? 0 then (- ENOMEM, l, p)
  else if Z.of_nat (length l) >? n then
    (0, take (Z.to_nat n) l, foldl (fun p r => free_req r p) p (drop (Z.to_nat n) l))
  else prealloc_loop (Z.to_nat n - length l) 0 ans l p.

(** [alloc_requests] (lines 412-433).  [prealloc] edits the list in
    place: the list is taken out of the pools for the call and what it
    returns is put back. *)
Definition alloc_requests (p : req_pools) (n : Z) (ans_in ans_out : nat -> bool) : Z * req_pools :=
  let '(st, l, p) := prealloc (tx_reqs p) n ans_in (set_tx_reqs [] p) in
  let p := set_tx_reqs l p in
  if st <? 0 then (st, p) else
  let '(st, l, p) := prealloc (rx_reqs p) n ans_out (set_rx_reqs [] p) in
  (st, set_rx_reqs l p).

(** ** The transmit path without [CONFIG_USB_SPRD_DWC] (lines 470-654) *)

(** [is_promisc] (lines 470-473). *)
Definition is_promisc (f : Z) : bool := negb (Z.eqb (f .& USB_CDC_PACKET_TYPE_PROMISCUOUS) 0).

(** The CDC filter of [eth_start_xmit] (lines 531-548): whether a frame
    to [dest] goes out. *)
Definition cdc_filter_pass (f : Z) (dest : list Z) : bool :=
  if is_promisc f then true
  else if is_multicast_ether_addr dest then
    let type := if is_broadcast_ether_addr dest then USB_CDC_PACKET_TYPE_BROADCAST
                else USB_CDC_PACKET_TYPE_ALL_MULTICAST in
    negb (Z.eqb (f .& type) 0)
  else true.

(** The length of a transfer (lines 609-622): a zero-length packet is
    asked for unless NCM's fixed length is met, and without ZLP support
    a length that is a multiple of the packet size is made one longer. *)
Definition tx_length (g : gether) (dzlp : bool) (length : Z) : Z :=
  let zero := negb (is_fixed g && (length =? fixed_in_len g) &&
                    (length mod in_maxpacket g =? 0)) in
  if zero && negb dzlp && (length mod in_maxpacket g =? 0) then length + 1 else length.

(** The [drop] label (lines 639-651): count the drop and give the
    request back, restarting the queue if the list was empty. *)
Definition tx_drop (req : nat) (d : eth_dev) : eth_dev :=
  let d := stat_inc tx_dropped 1 d in
  let d := if bool_decide (tx_reqs (pools d) = []) then set_stopped false d else d in
  map_pools (fun p => set_tx_reqs (req :: tx_reqs p) p) d.

(** [eth_start_xmit] (lines 506-654) for a socket buffer of [len]
    bytes to [dest], with what [wrap] returns (the new length, or
    [None] for [NULL]), whether the DMA alignment succeeds and what
    [usb_ep_queue] answers; the transfer queued records the request
    and the length of its socket buffer. *)
Definition eth_start_xmit (d : eth_dev) (len : Z) (dest : list Z) (wrap_ans : option Z)
    (dma_ok : bool) (ep_rc : Z) : Z * eth_dev :=
  match port_usb d with
  | None => (NETDEV_TX_OK, d)
  | Some g =>
      if negb (cdc_filter_pass (cdc_filter g) dest) then (NETDEV_TX_OK, d) else
      match tx_reqs (pools d) with
      | [] => (NETDEV_TX_BUSY, d)
      | req :: rest =>
          let d := map_pools (set_tx_reqs rest) d in
          let d := if bool_decide (rest = []) then netif_stop_queue d else d in
          let wrapped := if d_wrap d then wrap_ans else Some len in
          match wrapped with
          | None => (NETDEV_TX_OK, tx_drop req d)
          | Some len =>
              if negb dma_ok then (NETDEV_TX_OK, tx_drop req d) else
              if ep_rc =? 0 then
                (NETDEV_TX_OK,
                 set_tx_qlen (tx_qlen d + 1)
                   (map_pools (fun p =>
                      set_tx_queued (tx_queued p ++ [(req, len, tx_length g (zlp d) len)]) p) d))
              else (NETDEV_TX_OK, tx_drop req d)
          end
      end
  end.

(** [tx_complete] (lines 477-504) for the oldest transfer queued on the
    IN endpoint. *)
Definition tx_complete (d : eth_dev) (status : Z) : eth_dev :=
  match tx_queued (pools d) with
  | [] => d
  | (req, len, _) :: rest =>
      let d := map_pools (set_tx_queued rest) d in
      let d := if status =? 0 then stat_inc tx_bytes len d
               else if (status =? - ECONNRESET) || (status =? - ESHUTDOWN) then d
               else stat_inc tx_errors 1 d in
      let d := stat_inc tx_packets 1 d in
      let d := map_pools (fun p => set_tx_reqs (req :: tx_reqs p) p) d in
      let d := set_tx_qlen (tx_qlen d - 1) d in
      if carrier d then netif_wake_queue d else d
  end.

(** ** Opening, closing and the USB link (lines 1149-1229, 1384-1515) *)

Section Link.
Variable RNDIS_MSG_MAX_NUM : Z.

(** [usb_ep_disable] completes every request queued on the endpoint
    with [-ESHUTDOWN], oldest first. *)
Fixpoint flush_tx (fuel : nat) (d : eth_dev) : eth_dev :=
  match fuel with
  | O => d
  | S f => if bool_decide (tx_queued (pools d) = []) then d else flush_tx f (tx_complete d (- ESHUTDOWN))
  end.

Fixpoint flush_rx (fuel : nat) (d : eth_dev) : eth_dev :=
  match fuel with
  | O => d
  | S f =>
      if bool_decide (rx_queued (pools d) = []) then d
      else flush_rx f (rx_complete RNDIS_MSG_MAX_NUM d (- ESHUTDOWN) 0 (0, []) false 0)
  end.

Definition disable_in (d : eth_dev) : eth_dev :=
  set_in_enabled false (flush_tx (length (tx_queued (pools d))) d).
Definition disable_out (d : eth_dev) : eth_dev :=
  set_out_enabled false (flush_rx (length (rx_queued (pools d))) d).

(** [eth_start] (lines 1149-1162) without the RNDIS queue of
    [CONFIG_USB_SPRD_DWC]. *)
Definition eth_start (ans : nat -> bool * Z) (d : eth_dev) : eth_dev :=
  netif_wake_queue (set_tx_qlen 0 (rx_fill RNDIS_MSG_MAX_NUM ans d)).

(** [eth_open] (lines 1164-1180), after [dev_open] marked the device
    running. *)
Definition eth_open (ans : nat -> bool * Z) (d : eth_dev) : eth_dev :=
  let d := set_running true d in
  if carrier d then eth_start ans d else d.

(** [eth_stop] (lines 1182-1229), after [dev_close] marked the device
    down: the endpoints are disabled, which completes their requests,
    and enabled again while the host keeps the carrier. *)
Definition eth_stop (d : eth_dev) : eth_dev :=
  let d := netif_stop_queue (set_running false d) in
  if bool_decide (is_Some (port_usb d)) then
    let d := disable_out (disable_in d) in
    if carrier d then set_out_enabled true (set_in_enabled true d) else d
  else d.

(** [gether_connect] (lines 1384-1445) with the answers of the two
    [usb_ep_enable] calls and of the request allocations; [n] is
    [qlen(dev->gadget)].  The result is 0 or a negative errno. *)
Definition gether_connect (d : eth_dev) (link : gether) (in_rc out_rc n : Z)
    (ans_in ans_out : nat -> bool) (ans : nat -> bool * Z) : Z * eth_dev :=
  if negb (in_rc =? 0) then (in_rc, d) else
  let d := set_in_enabled true d in
  if negb (out_rc =? 0) then (out_rc, set_in_enabled false d) else
  let d := set_out_enabled true d in
  let '(result, p) := alloc_requests (pools d) n ans_in ans_out in
  let d := map_pools (fun _ => p) d in
  if result =? 0 then
    let d := set_zlp (is_zlp_ok link) d in
    let d := set_framing (g_header_len link) (g_wrap link) (g_unwrap link) d in
    let d := set_carrier true (set_port (Some link) d) in
    (0, if running d then eth_start ans d else d)
  else (result, set_in_enabled false (set_out_enabled false d)).

(** Free every request of a list, head first. *)
Definition free_all (l : list nat) (p : req_pools) : req_pools := foldl (fun p r => free_req r p) p l.

(** [gether_disconnect] (lines 1459-1515). *)
Definition gether_disconnect (d : eth_dev) : eth_dev :=
  let d := set_carrier false (netif_stop_queue d) in
  let d := disable_in d in
  let d := map_pools (fun p => set_tx_reqs [] (free_all (tx_reqs p) p)) d in
  let d := disable_out d in
  let d := map_pools (fun p => set_rx_reqs [] (free_all (rx_reqs p) p)) d in
  set_port None (set_framing 0 false false d).

End Link.

(** The device [gether_setup_name] (lines 1291-1350) registers: no
    link, no requests, the default MTU of [ether_setup], down and
    without carrier. *)
Definition eth_dev_init : eth_dev :=
  mk_eth None (mk_pools [] [] [] [] [] [] 0) 0 [] 0 false false 0 false false
    1500 false false false (fun _ => 0) false false.

(** [gether_setup_name] (lines 1291-1350) with the module parameters
    [dev_addr] and [host_addr], the random bytes for each address and
    the answer of [register_netdev]: the device and its two addresses,
    or the error; [None] when [get_ether_addr] reads past a string. *)
Definition gether_setup_name (dev_addr host_addr : option (list Z)) (rnd1 rnd2 : list Z)
    (reg_rc : Z) : option (Z + eth_dev * list Z * list Z) :=
  '(_, self) ← get_ether_addr dev_addr rnd1;
  '(_, host) ← get_ether_addr host_addr rnd2;
  Some (if reg_rc <? 0 then inl reg_rc else inr (eth_dev_init, self, host)).

(** ** The addresses: printing and parsing *)

(** One byte as [get_ether_addr] assembles it from two characters. *)
Definition parse_byte (c1 c2 : Z) : Z := ((hex_to_bin c1 << 4) mod 256 .| hex_to_bin c2) mod 256.

Lemma ether_addr_loop_plain c1 c2 t n :
  is_ether_sep c1 = false ->
  ether_addr_loop (c1 :: c2 :: t) (S n) =
    (rest ← ether_addr_loop t n; Some (parse_byte c1 c2 :: rest)).
Proof. intros Hs. cbn. by rewrite Hs. Qed.

Lemma ether_addr_loop_sep c1 c2 t n :
  ether_addr_loop (58 :: c1 :: c2 :: t) (S n) =
    (rest ← ether_addr_loop t n; Some (parse_byte c1 c2 :: rest)).
Proof. reflexivity. Qed.

(** Every byte printed by [hex_byte] reads back, and its first digit
    is not a separator (checked on the 256 bytes). *)
Definition hex_byte_ok (b : Z) : bool :=
  match hex_byte b with
  | [c1; c2] => Z.eqb (parse_byte c1 c2) b && negb (is_ether_sep c1)
  | _ => false
  end.

Lemma hex_byte_ok_all b : 0 <= b < 256 -> hex_byte_ok b = true.
Proof.
  intros Hb.
  assert (H : forallb hex_byte_ok (map Z.of_nat (seq 0 256)) = true) by (vm_compute; reflexivity).
  rewrite forallb_forall in H. apply H. apply in_map_iff. exists (Z.to_nat b).
  split; [lia|]. apply in_seq. lia.
Qed.

Lemma hex_byte_parse b :
  0 <= b < 256 ->
  exists c1 c2, hex_byte b = [c1; c2] /\ parse_byte c1 c2 = b /\ is_ether_sep c1 = false.
Proof.
  intros Hb. pose proof (hex_byte_ok_all b Hb) as H. unfold hex_byte_ok in H.
  destruct (hex_byte b) as [|c1 [|c2 [|]]] eqn:E; try discriminate.
  apply andb_prop in H as [H1 H2]. exists c1, c2.
  split; [done|]. split; [by apply Z.eqb_eq|]. by apply negb_true_iff.
Qed.

Lemma ether_addr_loop_colons rest t :
  Forall (fun b => 0 <= b < 256) rest ->
  ether_addr_loop (concat (map (fun b => 58 :: hex_byte b) rest) ++ t) (length rest) = Some rest.
Proof.
  induction 1 as [|b rest Hb _ IH]; [done|]. cbn [map mjoin list_join length].
  destruct (hex_byte_parse b Hb) as (c1 & c2 & -> & Hp & _). rewrite concat_cons. cbn [app].
  rewrite ether_addr_loop_sep, IH. cbn. by rewrite Hp.
Qed.

(** Every read of the loop is inside the buffer: it needs two
    characters per byte. *)
Lemma ether_addr_loop_length str n a :
  ether_addr_loop str n = Some a -> (2 * n <= length str)%nat.
Proof.
  revert str a. induction n as [|n IH]; intros str a H; [lia|].
  destruct str as [|c str]; cbn in H; [discriminate|].
  revert H. destruct (is_ether_sep c); intros H; cbn in H.
  - destruct str as [|c1 [|c2 str]]; cbn in H; try discriminate.
    destruct (ether_addr_loop _ n) eqn:E; [|discriminate].
    apply IH in E. cbn in E |- *. rewrite ?drop_0 in E. lia.
  - destruct str as [|c2 str]; cbn in H; try discriminate.
    destruct (ether_addr_loop _ n) eqn:E; [|discriminate].
    apply IH in E. cbn in E |- *. rewrite ?drop_0 in E. lia.
Qed.

(** ** Where the requests are *)

(** The link as a transition system: the calls the network stack, the
    function driver and the USB controller make.  [n] is the queue
    length given to [gether_connect]. *)
Inductive link_step (N : Z) : eth_dev -> eth_dev -> Prop :=
| ls_connect d link in_rc out_rc n ans_in ans_out ans :
    link_step N d (snd (gether_connect N d link in_rc out_rc n ans_in ans_out ans))
| ls_disconnect d : link_step N d (gether_disconnect N d)
| ls_open d ans : link_step N d (eth_open N ans d)
| ls_stop d : link_step N d (eth_stop N d)
| ls_xmit d len dest wrap_ans dma_ok ep_rc :
    link_step N d (snd (eth_start_xmit d len dest wrap_ans dma_ok ep_rc))
| ls_tx_complete d status : link_step N d (tx_complete d status)
| ls_rx_complete d status actual unwrap_ans skb_ok ep_rc :
    link_step N d (rx_complete N d status actual unwrap_ans skb_ok ep_rc)
| ls_work d ans : link_step N d (eth_work N ans d)
| ls_change_mtu d m : link_step N d (snd (ueth_change_mtu d m)).

Definition tq_req (x : nat * Z * Z) : nat := x.1.1.

(** Every place a request can be: a free list, an endpoint's queue, or
    freed. *)
Definition owned (p : req_pools) : list nat :=
  tx_reqs p ++ rx_reqs p ++ map tq_req (tx_queued p) ++ map fst (rx_queued p) ++ freed_reqs p.

(** The requests allocated are distinct and each is in exactly one
    place, or held by the code ([h]) in the middle of an operation. *)
Definition pools_ok_hand (p : req_pools) (h : list nat) : Prop :=
  NoDup (allocated p) /\ allocated p ≡ₚ owned p ++ h /\
  Forall (fun r => (r < next_req p)%nat) (allocated p).

(** The setters of [eth_dev] other than [map_pools] leave the requests
    alone, and only [set_port] changes the link. *)

Lemma pools_set_port x d : pools (set_port x d) = pools d.
Proof. by destruct d. Qed.

Lemma pools_set_tx_qlen x d : pools (set_tx_qlen x d) = pools d.
Proof. by destruct d. Qed.

Lemma port_set_tx_qlen x d : port_usb (set_tx_qlen x d) = port_usb d.
Proof. by destruct d. Qed.

Lemma pools_set_rx_frames x d : pools (set_rx_frames x d) = pools d.
Proof. by destruct d. Qed.

Lemma port_set_rx_frames x d : port_usb (set_rx_frames x d) = port_usb d.
Proof. by destruct d. Qed.

Lemma pools_set_framing a b c d : pools (set_framing a b c d) = pools d.
Proof. by destruct d. Qed.

Lemma port_set_framing a b c d : port_usb (set_framing a b c d) = port_usb d.
Proof. by destruct d. Qed.

Lemma pools_set_todo x d : pools (set_todo x d) = pools d.
Proof. by destruct d. Qed.

Lemma port_set_todo x d : port_usb (set_todo x d) = port_usb d.
Proof. by destruct d. Qed.

Lemma pools_set_work_pending x d : pools (set_work_pending x d) = pools d.
Proof. by destruct d. Qed.

Lemma port_set_work_pending x d : port_usb (set_work_pending x d) = port_usb d.
Proof. by destruct d. Qed.

Lemma pools_set_zlp x d : pools (set_zlp x d) = pools d.
Proof. by destruct d. Qed.

Lemma port_set_zlp x d : port_usb (set_zlp x d) = port_usb d.
Proof. by destruct d. Qed.

Lemma pools_set_mtu x d : pools (set_mtu x d) = pools d.
Proof. by destruct d. Qed.

Lemma port_set_mtu x d : port_usb (set_mtu x d) = port_usb d.
Proof. by destruct d. Qed.

Lemma pools_set_running x d : pools (set_running x d) = pools d.
Proof. by destruct d. Qed.

Lemma port_set_running x d : port_usb (set_running x d) = port_usb d.
Proof. by destruct d. Qed.

Lemma pools_set_carrier x d : pools (set_carrier x d) = pools d.
Proof. by destruct d. Qed.

Lemma port_set_carrier x d : port_usb (set_carrier x d) = port_usb d.
Proof. by destruct d. Qed.

Lemma pools_set_stopped x d : pools (set_stopped x d) = pools d.
Proof. by destruct d. Qed.

Lemma port_set_stopped x d : port_usb (set_stopped x d) = port_usb d.
Proof. by destruct d. Qed.

Lemma pools_map_stats x d : pools (map_stats x d) = pools d.
Proof. by destruct d. Qed.

Lemma port_map_stats x d : port_usb (map_stats x d) = port_usb d.
Proof. by destruct d. Qed.

Lemma pools_set_in_enabled x d : pools (set_in_enabled x d) = pools d.
Proof. by destruct d. Qed.

Lemma port_set_in_enabled x d : port_usb (set_in_enabled x d) = port_usb d.
Proof. by destruct d. Qed.

Lemma pools_set_out_enabled x d : pools (set_out_enabled x d) = pools d.
Proof. by destruct d. Qed.

Lemma port_set_out_enabled x d : port_usb (set_out_enabled x d) = port_usb d.
Proof. by destruct d. Qed.

Lemma pools_map_pools f d : pools (map_pools f d) = f (pools d).
Proof. by destruct d. Qed.

Lemma port_map_pools f d : port_usb (map_pools f d) = port_usb d.
Proof. by destruct d. Qed.

Lemma port_set_port x d : port_usb (set_port x d) = x.
Proof. by destruct d. Qed.

Lemma pools_defer_kevent d f : pools (defer_kevent d f) = pools d.
Proof. unfold defer_kevent. by case_match; [|rewrite pools_set_work_pending, pools_set_todo]. Qed.
Lemma port_defer_kevent d f : port_usb (defer_kevent d f) = port_usb d.
Proof. unfold defer_kevent. by case_match; [|rewrite port_set_work_pending, port_set_todo]. Qed.

Lemma rx_reqs_set_tx_reqs x p : rx_reqs (set_tx_reqs x p) = rx_reqs p.
Proof. by destruct p. Qed.
Lemma rx_queued_set_tx_reqs x p : rx_queued (set_tx_reqs x p) = rx_queued p.
Proof. by destruct p. Qed.
Lemma rx_reqs_set_tx_queued x p : rx_reqs (set_tx_queued x p) = rx_reqs p.
Proof. by destruct p. Qed.
Lemma rx_queued_set_tx_queued x p : rx_queued (set_tx_queued x p) = rx_queued p.
Proof. by destruct p. Qed.

Create Rewrite HintDb ueth.
#[export] Hint Rewrite rx_reqs_set_tx_reqs rx_queued_set_tx_reqs rx_reqs_set_tx_queued
  rx_queued_set_tx_queued : ueth.
#[export] Hint Rewrite pools_set_port pools_set_tx_qlen port_set_tx_qlen
  pools_set_rx_frames port_set_rx_frames pools_set_framing port_set_framing
  pools_set_todo port_set_todo pools_set_work_pending port_set_work_pending
  pools_set_zlp port_set_zlp pools_set_mtu port_set_mtu pools_set_running
  port_set_running pools_set_carrier port_set_carrier pools_set_stopped
  port_set_stopped pools_map_stats port_map_stats pools_set_in_enabled
  port_set_in_enabled pools_set_out_enabled port_set_out_enabled pools_map_pools
  port_map_pools port_set_port pools_defer_kevent port_defer_kevent : ueth.

(** [ueth_simp] pushes [pools] and [port_usb] through the setters and
    the helpers that only touch flags and counters. *)
Ltac ueth_simp :=
  unfold stat_inc, netif_stop_queue, netif_wake_queue, requeue_rx in *;
  autorewrite with ueth in *.

Lemma pools_ok_hand_perm p h h' : h ≡ₚ h' -> pools_ok_hand p h -> pools_ok_hand p h'.
Proof. intros Hh (? & Hp & ?). split_and!; [done| |done]. by rewrite Hp, Hh. Qed.

Lemma take_tx p r rest h :
  tx_reqs p = r :: rest -> pools_ok_hand p h -> pools_ok_hand (set_tx_reqs rest p) (r :: h).
Proof.
  destruct p; cbn. intros -> (? & Hp & ?). split_and!; [done| |done].
  rewrite Hp. unfold owned; cbn. solve_Permutation.
Qed.

Lemma give_tx p r h :
  pools_ok_hand p (r :: h) -> pools_ok_hand (set_tx_reqs (r :: tx_reqs p) p) h.
Proof.
  destruct p; cbn. intros (? & Hp & ?). split_and!; [done| |done].
  rewrite Hp. unfold owned; cbn. solve_Permutation.
Qed.

Lemma take_rx p r rest h :
  rx_reqs p = r :: rest -> pools_ok_hand p h -> pools_ok_hand (set_rx_reqs rest p) (r :: h).
Proof.
  destruct p; cbn. intros -> (? & Hp & ?). split_and!; [done| |done].
  rewrite Hp. unfold owned; cbn. solve_Permutation.
Qed.

Lemma give_rx p r h :
  pools_ok_hand p (r :: h) -> pools_ok_hand (set_rx_reqs (r :: rx_reqs p) p) h.
Proof.
  destruct p; cbn. intros (? & Hp & ?). split_and!; [done| |done].
  rewrite Hp. unfold owned; cbn. solve_Permutation.
Qed.

Lemma queue_tx p r a b h :
  pools_ok_hand p (r :: h) ->
  pools_ok_hand (set_tx_queued (tx_queued p ++ [(r, a, b)]) p) h.
Proof.
  destruct p; cbn. intros (? & Hp & ?). split_and!; [done| |done].
  rewrite Hp. unfold owned; cbn. rewrite map_app. cbn. solve_Permutation.
Qed.

Lemma unqueue_tx p x rest h :
  tx_queued p = x :: rest -> pools_ok_hand p h ->
  pools_ok_hand (set_tx_queued rest p) (tq_req x :: h).
Proof.
  destruct p; cbn. intros -> (? & Hp & ?). split_and!; [done| |done].
  rewrite Hp. unfold owned; cbn. solve_Permutation.
Qed.

Lemma queue_rx p r a h :
  pools_ok_hand p (r :: h) -> pools_ok_hand (set_rx_queued (rx_queued p ++ [(r, a)]) p) h.
Proof.
  destruct p; cbn. intros (? & Hp & ?). split_and!; [done| |done].
  rewrite Hp. unfold owned; cbn. rewrite map_app. cbn. solve_Permutation.
Qed.

Lemma unqueue_rx p x rest h :
  rx_queued p = x :: rest -> pools_ok_hand p h ->
  pools_ok_hand (set_rx_queued rest p) (x.1 :: h).
Proof.
  destruct p; cbn. intros -> (? & Hp & ?). split_and!; [done| |done].
  rewrite Hp. unfold owned; cbn. solve_Permutation.
Qed.

Lemma free_ok p r h : pools_ok_hand p (r :: h) -> pools_ok_hand (free_req r p) h.
Proof.
  destruct p; cbn. intros (? & Hp & ?). split_and!; [done| |done].
  rewrite Hp. unfold owned; cbn. solve_Permutation.
Qed.

Lemma alloc_ok p h :
  pools_ok_hand p h -> pools_ok_hand (alloc_req p).2 ((alloc_req p).1 :: h).
Proof.
  destruct p as [a b c d e f g]; cbn. intros (Hnd & Hp & Hlt); unfold owned in *; cbn in *. split_and!; cbn.
  - apply NoDup_app. split_and!; [done| |by apply NoDup_singleton].
    intros x Hx ->%list_elem_of_singleton. rewrite Forall_forall in Hlt.
    specialize (Hlt _ Hx). lia.
  - unfold owned; cbn. rewrite Hp. solve_Permutation.
  - apply Forall_app. split; [|by constructor; [lia|]].
    eapply Forall_impl; [exact Hlt|]. cbn. lia.
Qed.

Lemma take_all_tx p h : pools_ok_hand p h -> pools_ok_hand (set_tx_reqs [] p) (tx_reqs p ++ h).
Proof.
  destruct p; cbn. intros (? & Hp & ?). split_and!; [done| |done].
  rewrite Hp. unfold owned; cbn. solve_Permutation.
Qed.

Lemma give_all_tx p l h :
  tx_reqs p = [] -> pools_ok_hand p (l ++ h) -> pools_ok_hand (set_tx_reqs l p) h.
Proof.
  destruct p; cbn. intros -> (? & Hp & ?). split_and!; [done| |done].
  rewrite Hp. unfold owned; cbn. solve_Permutation.
Qed.

Lemma take_all_rx p h : pools_ok_hand p h -> pools_ok_hand (set_rx_reqs [] p) (rx_reqs p ++ h).
Proof.
  destruct p; cbn. intros (? & Hp & ?). split_and!; [done| |done].
  rewrite Hp. unfold owned; cbn. solve_Permutation.
Qed.

Lemma give_all_rx p l h :
  rx_reqs p = [] -> pools_ok_hand p (l ++ h) -> pools_ok_hand (set_rx_reqs l p) h.
Proof.
  destruct p; cbn. intros -> (? & Hp & ?). split_and!; [done| |done].
  rewrite Hp. unfold owned; cbn. solve_Permutation.
Qed.

Lemma free_all_ok p l h : pools_ok_hand p (l ++ h) -> pools_ok_hand (free_all l p) h.
Proof.
  unfold free_all. revert p. induction l as [|r l IH]; intros p H; [done|].
  cbn. apply IH, free_ok, H.
Qed.

(** The invariant of the link: the requests are conserved, and with no
    link there is no receive request, free or queued ([rx_submit]
    returns [-ENOTCONN] without giving its request back, so one must
    never reach it then). *)
Definition link_inv (d : eth_dev) : Prop :=
  pools_ok_hand (pools d) [] /\
  (port_usb d = None -> rx_reqs (pools d) = [] /\ rx_queued (pools d) = []).

Lemma link_inv_frame d d' :
  pools d' = pools d -> port_usb d' = port_usb d -> link_inv d -> link_inv d'.
Proof. unfold link_inv. by intros -> ->. Qed.

Lemma link_inv_some d g : port_usb d = Some g -> pools_ok_hand (pools d) [] -> link_inv d.
Proof. unfold link_inv. intros -> ?. by split. Qed.

Section Conservation.
Variable N : Z.

Lemma rx_submit_ok d req b rc h g :
  port_usb d = Some g -> pools_ok_hand (pools d) (req :: h) ->
  pools_ok_hand (pools (rx_submit N d req b rc).2) h /\
  port_usb (rx_submit N d req b rc).2 = port_usb d.
Proof.
  intros Hg H. unfold rx_submit. rewrite Hg.
  repeat case_match; cbn; ueth_simp; split; try done;
    first [by apply give_rx | by apply queue_rx].
Qed.

Lemma rx_recycle_ok d req b rc h g :
  port_usb d = Some g -> pools_ok_hand (pools d) (req :: h) ->
  pools_ok_hand (pools (rx_recycle N d req b rc)) h /\
  port_usb (rx_recycle N d req b rc) = port_usb d.
Proof.
  intros Hg H. unfold rx_recycle. destruct (negb _); [|by eapply rx_submit_ok].
  ueth_simp. split; [by apply give_rx|done].
Qed.

Lemma requeue_rx_inv d req g :
  port_usb d = Some g -> pools_ok_hand (pools d) [req] -> link_inv (requeue_rx req d).
Proof. intros Hg H. apply (link_inv_some _ g); ueth_simp; [done|by apply give_rx]. Qed.

Lemma rx_recycle_inv d req b rc g :
  port_usb d = Some g -> pools_ok_hand (pools d) [req] -> link_inv (rx_recycle N d req b rc).
Proof.
  intros Hg H. destruct (rx_recycle_ok d req b rc [] g) as [H1 H2]; [done..|].
  apply (link_inv_some _ g); congruence.
Qed.

(** A queue that is not empty means there is a link. *)
Lemma link_inv_port d :
  link_inv d -> rx_queued (pools d) <> [] \/ rx_reqs (pools d) <> [] ->
  exists g, port_usb d = Some g.
Proof.
  intros [_ Hn] Hne. destruct (port_usb d) as [g|]; [by exists g|].
  destruct (Hn eq_refl) as [E1 E2]. rewrite E1, E2 in Hne. by destruct Hne.
Qed.

Lemma rx_complete_inv d status actual ua b rc :
  link_inv d -> link_inv (rx_complete N d status actual ua b rc).
Proof.
  intros Hi. unfold rx_complete.
  destruct (rx_queued (pools d)) as [|[req sz] rest] eqn:E; [done|].
  destruct (link_inv_port d Hi) as [g Hg]; [left; by rewrite E|].
  pose proof (unqueue_rx _ _ _ _ E (proj1 Hi)) as H1. cbn in H1.
  repeat case_match;
    first [eapply rx_recycle_inv | eapply requeue_rx_inv]; ueth_simp; eauto.
Qed.

Lemma rx_fill_loop_inv fuel k ans d : link_inv d -> link_inv (rx_fill_loop N fuel k ans d).
Proof.
  revert k d. induction fuel as [|fuel IH]; intros k d Hi; cbn; [done|].
  destruct (rx_reqs (pools d)) as [|req rest] eqn:E; [done|].
  destruct (link_inv_port d Hi) as [g Hg]; [right; by rewrite E|].
  pose proof (take_rx _ _ _ _ E (proj1 Hi)) as H1.
  destruct (rx_submit_ok (map_pools (set_rx_reqs rest) d) req (ans k).1 (ans k).2 [] g)
    as [H2 H3]; ueth_simp; [done..|].
  destruct (rx_submit _ _ _ _ _) as [rc d'] eqn:Hs. cbn in H2, H3. ueth_simp.
  assert (link_inv d') by (apply (link_inv_some _ g); congruence).
  case_match; [|by apply IH].
  eapply link_inv_frame; [apply pools_defer_kevent|apply port_defer_kevent|done].
Qed.

Lemma eth_work_inv ans d : link_inv d -> link_inv (eth_work N ans d).
Proof.
  intros Hi. unfold eth_work, rx_fill. destruct (Z.testbit _ _); [|by eapply link_inv_frame; [..|exact Hi]; ueth_simp].
  destruct (running _); [apply rx_fill_loop_inv|]; by eapply link_inv_frame; [..|exact Hi]; ueth_simp.
Qed.

Lemma tx_drop_inv d req g :
  port_usb d = Some g -> pools_ok_hand (pools d) [req] -> link_inv (tx_drop req d).
Proof.
  intros Hg H. unfold tx_drop. apply (link_inv_some _ g); case_match; ueth_simp; try done;
    by apply give_tx.
Qed.

Lemma eth_start_xmit_inv d len dest wa dma rc :
  link_inv d -> link_inv (eth_start_xmit d len dest wa dma rc).2.
Proof.
  intros Hi. unfold eth_start_xmit.
  destruct (port_usb d) as [g|] eqn:Hg; [|done]. case_match; [done|].
  destruct (tx_reqs (pools d)) as [|req rest] eqn:E; [done|].
  pose proof (take_tx _ _ _ _ E (proj1 Hi)) as H1.
  repeat case_match; cbn;
    first [eapply tx_drop_inv | eapply (link_inv_some _ g)]; ueth_simp; eauto using queue_tx.
Qed.

Lemma tx_complete_inv d status : link_inv d -> link_inv (tx_complete d status).
Proof.
  intros [Hp Hn]. unfold tx_complete.
  destruct (tx_queued (pools d)) as [|[[req len] z] rest] eqn:E; [by split|].
  pose proof (unqueue_tx _ _ _ _ E Hp) as H1. cbn in H1.
  split; repeat case_match; ueth_simp; first [by apply give_tx | by apply Hn].
Qed.

Lemma flush_tx_inv fuel d : link_inv d -> link_inv (flush_tx fuel d).
Proof.
  revert d. induction fuel; intros d Hi; cbn; [done|].
  case_match; [done|]. by apply IHfuel, tx_complete_inv.
Qed.

Lemma flush_rx_inv fuel d : link_inv d -> link_inv (flush_rx N fuel d).
Proof.
  revert d. induction fuel; intros d Hi; cbn; [done|].
  case_match; [done|]. by apply IHfuel, rx_complete_inv.
Qed.

(** [ueth_frame] closes [link_inv] of a device that differs from one
    satisfying it only in flags, counters and framing. *)
Ltac ueth_frame H := eapply link_inv_frame; [..|exact H]; ueth_simp; done.

Lemma eth_start_inv ans d : link_inv d -> link_inv (eth_start N ans d).
Proof.
  intros Hi. unfold eth_start, rx_fill.
  assert (link_inv (rx_fill_loop N (length (rx_reqs (pools d))) 0 ans d)) as H
    by by apply rx_fill_loop_inv.
  ueth_frame H.
Qed.

Lemma eth_open_inv ans d : link_inv d -> link_inv (eth_open N ans d).
Proof.
  intros Hi. unfold eth_open. assert (Hi' : link_inv (set_running true d)) by ueth_frame Hi.
  case_match; [by apply eth_start_inv|done].
Qed.

Lemma disable_in_inv d : link_inv d -> link_inv (disable_in d).
Proof. intros Hi. unfold disable_in. apply (flush_tx_inv (length (tx_queued (pools d)))) in Hi. ueth_frame Hi. Qed.

Lemma disable_out_inv d : link_inv d -> link_inv (disable_out N d).
Proof. intros Hi. unfold disable_out. apply (flush_rx_inv (length (rx_queued (pools d)))) in Hi. ueth_frame Hi. Qed.

Lemma eth_stop_inv d : link_inv d -> link_inv (eth_stop N d).
Proof.
  intros Hi. unfold eth_stop.
  assert (Hi' : link_inv (netif_stop_queue (set_running false d))) by ueth_frame Hi.
  case_match; [|done]. apply disable_in_inv, disable_out_inv in Hi'.
  case_match; [ueth_frame Hi'|done].
Qed.

Lemma ueth_change_mtu_inv d m : link_inv d -> link_inv (ueth_change_mtu d m).2.
Proof. intros Hi. unfold ueth_change_mtu. repeat case_match; cbn; [done..|ueth_frame Hi]. Qed.

(** [prealloc] and [alloc_requests] leave the free lists other than
    the one they work on, and the endpoint queues, alone. *)
Definition same_queues (p p' : req_pools) : Prop :=
  tx_reqs p' = tx_reqs p /\ rx_reqs p' = rx_reqs p /\
  tx_queued p' = tx_queued p /\ rx_queued p' = rx_queued p.

Lemma same_queues_trans p p' p'' : same_queues p p' -> same_queues p' p'' -> same_queues p p''.
Proof. unfold same_queues. intros (?&?&?&?) (?&?&?&?). split_and!; congruence. Qed.

Lemma free_all_same l p : same_queues p (free_all l p).
Proof.
  unfold free_all. revert p. induction l as [|r l IH]; intros p; [done|].
  eapply same_queues_trans; [|apply IH]. by destruct p.
Qed.

Lemma prealloc_loop_ok i k ans l p h :
  pools_ok_hand p (l ++ h) ->
  pools_ok_hand (prealloc_loop i k ans l p).2 ((prealloc_loop i k ans l p).1.2 ++ h) /\
  same_queues p (prealloc_loop i k ans l p).2.
Proof.
  revert k l p. induction i as [|i IH]; intros k l p H; cbn; [done|].
  destruct (ans k); [|done].
  destruct (alloc_req p) as [r p'] eqn:Ea.
  pose proof (alloc_ok p _ H) as H'. rewrite Ea in H'.
  destruct (IH (S k) (r :: l) p' H') as [H1 H2]. split; [done|].
  eapply same_queues_trans; [|exact H2]. destruct p; cbn in Ea; by simplify_eq.
Qed.

Lemma prealloc_ok l n ans p st l' p' h :
  prealloc l n ans p = (st, l', p') -> pools_ok_hand p (l ++ h) ->
  pools_ok_hand p' (l' ++ h) /\ same_queues p p'.
Proof.
  intros Ep H. unfold prealloc in Ep. case_match; [by simplify_eq|]. case_match.
  - simplify_eq. split; [|apply free_all_same].
    apply free_all_ok. eapply pools_ok_hand_perm; [|exact H].
    rewrite <-(take_drop (Z.to_nat n) l) at 1. solve_Permutation.
  - pose proof (prealloc_loop_ok (Z.to_nat n - length l) 0 ans l p h H) as Hl.
    by rewrite Ep in Hl.
Qed.

(** A failed [prealloc] of an empty list leaves it empty. *)
Lemma prealloc_loop_fail i k ans l p :
  (prealloc_loop i k ans l p).1.1 <> 0 -> (prealloc_loop i k ans l p).1.2 = [].
Proof.
  revert k l p. induction i as [|i IH]; intros k l p; cbn; [done|].
  destruct (ans k); [destruct (alloc_req p); apply IH|]. by destruct l.
Qed.

Lemma prealloc_fail l n ans p st l' p' :
  prealloc l n ans p = (st, l', p') -> l = [] -> st <> 0 -> l' = [].
Proof.
  intros Ep ->. unfold prealloc in Ep. repeat case_match; simplify_eq; [done|done|].
  pose proof (prealloc_loop_fail (Z.to_nat n - length (@nil nat)) 0 ans [] p) as Hf. rewrite Ep in Hf. exact Hf.
Qed.

Lemma alloc_requests_ok p n ai ao :
  pools_ok_hand p [] ->
  pools_ok_hand (alloc_requests p n ai ao).2 [] /\
  tx_queued (alloc_requests p n ai ao).2 = tx_queued p /\
  rx_queued (alloc_requests p n ai ao).2 = rx_queued p /\
  ((alloc_requests p n ai ao).1 <> 0 -> rx_reqs p = [] -> rx_reqs (alloc_requests p n ai ao).2 = []).
Proof.
  intros H. unfold alloc_requests.
  destruct (prealloc (tx_reqs p) _ _ _) as [[st l] p1] eqn:Ep.
  destruct (prealloc_ok _ _ _ _ _ _ _ [] Ep (take_all_tx p [] H)) as [H1 (E1 & E2 & E3 & E4)].
  apply give_all_tx in H1; [|rewrite E1; by destruct p].
  destruct p; cbn in E1, E2, E3, E4.
  case_match; [destruct p1; cbn in *; split_and!; [done|congruence|congruence|intros; congruence]|].
  destruct (prealloc (rx_reqs (set_tx_reqs l p1)) _ _ _) as [[st' l'] p2] eqn:Ep2.
  destruct (prealloc_ok _ _ _ _ _ _ _ [] Ep2 (take_all_rx _ [] H1)) as [H2 (F1 & F2 & F3 & F4)].
  apply give_all_rx in H2; [|rewrite F2; by destruct p1].
  pose proof (prealloc_fail _ _ _ _ _ _ _ Ep2) as Hf.
  destruct p1, p2; cbn in *. split_and!; [done|congruence|congruence|].
  intros Hs Hr. apply Hf; congruence.
Qed.

Lemma gether_connect_inv d link in_rc out_rc n ai ao ans :
  link_inv d -> link_inv (gether_connect N d link in_rc out_rc n ai ao ans).2.
Proof.
  intros [Hp Hn]. unfold gether_connect.
  case_match; [by split|]. case_match; [cbn; ueth_frame (conj Hp Hn)|].
  pose proof (alloc_requests_ok (pools d) n ai ao Hp) as (H1 & E1 & E2 & E3).
  rewrite pools_set_out_enabled, pools_set_in_enabled.
  destruct (alloc_requests _ _ _ _) as [res p] eqn:Ea. cbn in *.
  case_match.
  - assert (Hi : link_inv (set_carrier true (set_port (Some link)
      (set_framing (g_header_len link) (g_wrap link) (g_unwrap link)
      (set_zlp (is_zlp_ok link) (map_pools (fun _ => p)
      (set_out_enabled true (set_in_enabled true d)))))))).
    { apply (link_inv_some _ link); ueth_simp; done. }
    case_match; [by apply eth_start_inv|exact Hi].
  - cbn. split; ueth_simp; [done|]. intros Hd. destruct (Hn Hd). split; [|congruence].
    apply E3; [|done]. by apply Z.eqb_neq.
Qed.

(** The completions [usb_ep_disable] forces: each takes the oldest
    request off its queue and puts it back on the free list. *)
Lemma tx_complete_pools d s x rest :
  tx_queued (pools d) = x :: rest ->
  pools (tx_complete d s) =
  set_tx_reqs (tq_req x :: tx_reqs (pools d)) (set_tx_queued rest (pools d)).
Proof.
  intros E. unfold tx_complete. rewrite E. destruct x as [[r l] z].
  repeat case_match; ueth_simp; destruct (pools d); reflexivity.
Qed.

Lemma rx_complete_shutdown d a ua b rc x rest :
  rx_queued (pools d) = x :: rest ->
  pools (rx_complete N d (- ESHUTDOWN) a ua b rc) =
  set_rx_reqs (x.1 :: rx_reqs (pools d)) (set_rx_queued rest (pools d)).
Proof.
  intros E. unfold rx_complete. rewrite E. destruct x as [r z].
  assert (Hs : (- ESHUTDOWN =? 0) = false /\
    ((- ESHUTDOWN =? - ECONNRESET) || (- ESHUTDOWN =? - ESHUTDOWN)) = true) by done.
  destruct Hs as [-> ->]. cbn iota. ueth_simp. destruct (pools d); reflexivity.
Qed.

Lemma flush_tx_drained fuel d :
  (length (tx_queued (pools d)) <= fuel)%nat -> tx_queued (pools (flush_tx fuel d)) = [].
Proof.
  revert d. induction fuel as [|fuel IH]; intros d Hl; cbn.
  - destruct (tx_queued (pools d)); cbn in *; [done|lia].
  - case_bool_decide as Hq; [done|].
    destruct (tx_queued (pools d)) as [|x rest] eqn:E; [done|].
    apply IH. rewrite (tx_complete_pools _ _ _ _ E). destruct (pools d); cbn in *. lia.
Qed.

Lemma flush_rx_drained fuel d :
  (length (rx_queued (pools d)) <= fuel)%nat ->
  rx_queued (pools (flush_rx N fuel d)) = [] /\
  tx_queued (pools (flush_rx N fuel d)) = tx_queued (pools d) /\
  tx_reqs (pools (flush_rx N fuel d)) = tx_reqs (pools d).
Proof.
  revert d. induction fuel as [|fuel IH]; intros d Hl; cbn.
  - destruct (rx_queued (pools d)); cbn in *; [done|lia].
  - case_bool_decide as Hq; [done|].
    destruct (rx_queued (pools d)) as [|x rest] eqn:E; [done|].
    destruct (IH (rx_complete N d (- ESHUTDOWN) 0 (0, []) false 0)) as (H1 & H2 & H3);
      rewrite ?H2, ?H3, (rx_complete_shutdown _ _ _ _ _ _ _ E); destruct (pools d); cbn in *;
      [lia|done].
Qed.

Lemma free_all_set_tx_reqs l x p : free_all l (set_tx_reqs x p) = set_tx_reqs x (free_all l p).
Proof.
  unfold free_all. revert p. induction l as [|r l IH]; intros p; [done|]. cbn.
  rewrite <-IH. by destruct p.
Qed.

Lemma free_all_set_rx_reqs l x p : free_all l (set_rx_reqs x p) = set_rx_reqs x (free_all l p).
Proof.
  unfold free_all. revert p. induction l as [|r l IH]; intros p; [done|]. cbn.
  rewrite <-IH. by destruct p.
Qed.

(** Freeing a whole free list, as [gether_disconnect] does. *)
Lemma free_tx_list_ok p :
  pools_ok_hand p [] -> pools_ok_hand (set_tx_reqs [] (free_all (tx_reqs p) p)) [].
Proof. intros H. rewrite <-free_all_set_tx_reqs. by apply free_all_ok, take_all_tx. Qed.

Lemma free_rx_list_ok p :
  pools_ok_hand p [] -> pools_ok_hand (set_rx_reqs [] (free_all (rx_reqs p) p)) [].
Proof. intros H. rewrite <-free_all_set_rx_reqs. by apply free_all_ok, take_all_rx. Qed.

Lemma disable_in_drained d : tx_queued (pools (disable_in d)) = [].
Proof. unfold disable_in. ueth_simp. by apply flush_tx_drained. Qed.

Lemma disable_out_drained d :
  rx_queued (pools (disable_out N d)) = [] /\
  tx_queued (pools (disable_out N d)) = tx_queued (pools d) /\
  tx_reqs (pools (disable_out N d)) = tx_reqs (pools d).
Proof. unfold disable_out. ueth_simp. by apply flush_rx_drained. Qed.

Lemma free_tx_stage d :
  link_inv d ->
  link_inv (map_pools (fun p => set_tx_reqs [] (free_all (tx_reqs p) p)) d) /\
  tx_queued (pools (map_pools (fun p => set_tx_reqs [] (free_all (tx_reqs p) p)) d)) =
    tx_queued (pools d) /\
  tx_reqs (pools (map_pools (fun p => set_tx_reqs [] (free_all (tx_reqs p) p)) d)) = [].
Proof.
  intros [Hp Hn]. ueth_simp.
  destruct (free_all_same (tx_reqs (pools d)) (pools d)) as (Q1 & Q2 & Q3 & Q4).
  split_and!; [split; ueth_simp| |]; rewrite ?rx_reqs_set_tx_reqs, ?rx_queued_set_tx_reqs.
  - by apply free_tx_list_ok.
  - rewrite Q2, Q4. exact Hn.
  - rewrite <-Q3. by destruct (free_all _ _).
  - by destruct (free_all _ _).
Qed.

Lemma free_rx_stage d :
  link_inv d ->
  pools_ok_hand (pools (map_pools (fun p => set_rx_reqs [] (free_all (rx_reqs p) p)) d)) [] /\
  same_queues (set_rx_reqs [] (pools d))
    (pools (map_pools (fun p => set_rx_reqs [] (free_all (rx_reqs p) p)) d)).
Proof.
  intros [Hp _]. ueth_simp. split; [by apply free_rx_list_ok|].
  destruct (free_all_same (rx_reqs (pools d)) (pools d)) as (Q1 & Q2 & Q3 & Q4).
  revert Q1 Q2 Q3 Q4. destruct (free_all _ _), (pools d); cbn. intros; subst. done.
Qed.

(** [gether_disconnect] keeps the invariant and leaves no request on a
    list or an endpoint. *)
Lemma gether_disconnect_spec d :
  link_inv d ->
  link_inv (gether_disconnect N d) /\
  tx_reqs (pools (gether_disconnect N d)) = [] /\ rx_reqs (pools (gether_disconnect N d)) = [] /\
  tx_queued (pools (gether_disconnect N d)) = [] /\ rx_queued (pools (gether_disconnect N d)) = [].
Proof.
  intros Hi. unfold gether_disconnect.
  assert (H1 : link_inv (set_carrier false (netif_stop_queue d))) by ueth_frame Hi.
  pose proof (disable_in_drained (set_carrier false (netif_stop_queue d))) as T2.
  destruct (free_tx_stage _ (disable_in_inv _ H1)) as (H3 & T3 & R3).
  destruct (disable_out_drained (map_pools (fun p => set_tx_reqs [] (free_all (tx_reqs p) p))
    (disable_in (set_carrier false (netif_stop_queue d))))) as (T4 & U4 & V4).
  destruct (free_rx_stage _ (disable_out_inv _ H3)) as (H5 & Q1 & Q2 & Q3 & Q4).
  unfold link_inv. ueth_simp. rewrite Q1, Q2, Q3, Q4.
  destruct (pools (disable_out _ _)); cbn in *. split_and!; [done|done|congruence..].
Qed.

Lemma link_step_inv d d' : link_inv d -> link_step N d d' -> link_inv d'.
Proof.
  intros Hi. destruct 1; revert Hi; eauto using gether_connect_inv, eth_open_inv, eth_stop_inv,
    eth_start_xmit_inv, tx_complete_inv, rx_complete_inv, eth_work_inv, ueth_change_mtu_inv.
  intros Hi. by apply gether_disconnect_spec.
Qed.

Lemma eth_dev_init_inv : link_inv eth_dev_init.
Proof. split; [split_and!; cbn; [constructor|done|constructor]|done]. Qed.

Lemma reachable_link_inv d : star (link_step N) eth_dev_init d -> link_inv d.
Proof. intros H. inv_star link_step_inv H. apply eth_dev_init_inv. Qed.

End Conservation.

(** C10: With every operation run to its end before the next starts (the
    link as link_step, without the interleavings C11 shows), in every
    state reachable from the device gether_setup_name registers, by
    gether_connect, gether_disconnect, eth_open, eth_stop,
    eth_start_xmit, the completions, eth_work and ueth_change_mtu
    (without CONFIG_USB_SPRD_DWC), every usb_request allocated is in
    exactly one place: on tx_reqs or rx_reqs, queued on an endpoint, or
    freed; none is on two lists and none is lost. *)
Theorem ueth_requests_conserved N d :
  star (link_step N) eth_dev_init d ->
  NoDup (allocated (pools d)) /\ allocated (pools d) ≡ₚ owned (pools d) /\
  NoDup (owned (pools d)).
Proof.
  intros H. destruct (reachable_link_inv N d H) as [(Hnd & Hp & _) _].
  rewrite app_nil_r in Hp. split_and!; [done|done|by rewrite <-Hp].
Qed.

(** From every state [link_step] reaches (each operation run to its
    end), gether_disconnect leaves no request on a free list or an
    endpoint and has freed every request ever allocated exactly once;
    [ueth_disconnect_races] shows what the unlocks inside [rx_fill] and
    [eth_start_xmit] add. *)
Theorem gether_disconnect_frees_all N d :
  star (link_step N) eth_dev_init d ->
  NoDup (freed_reqs (pools (gether_disconnect N d))) /\
  allocated (pools (gether_disconnect N d)) ≡ₚ freed_reqs (pools (gether_disconnect N d)) /\
  tx_reqs (pools (gether_disconnect N d)) = [] /\ rx_reqs (pools (gether_disconnect N d)) = [] /\
  tx_queued (pools (gether_disconnect N d)) = [] /\ rx_queued (pools (gether_disconnect N d)) = [].
Proof.
  intros H.
  destruct (gether_disconnect_spec N d (reachable_link_inv N d H))
    as ([(Hnd & Hp & _) _] & E1 & E2 & E3 & E4).
  revert Hnd Hp. unfold owned. rewrite E1, E2, E3, E4. cbn. rewrite app_nil_r.
  intros Hnd Hp. split_and!; [by rewrite <-Hp|done..].
Qed.

Lemma stat_add_same f n st : stat_add f n st f = st f + n.
Proof. unfold stat_add. by case_decide. Qed.

Lemma stat_add_other f g n st : g <> f -> stat_add f n st g = st g.
Proof. unfold stat_add. by case_decide. Qed.

(** [stat_simp] reads counters through [stat_add] in the hypotheses. *)
Ltac stat_simp :=
  repeat match goal with
  | H : context [stat_add ?f ?n ?st ?f] |- _ => rewrite stat_add_same in H
  | H : context [stat_add ?f ?n ?st ?g] |- _ =>
      rewrite (stat_add_other f g n st) in H by discriminate
  end.

(** The length test of [rx_complete] a frame passes. *)
Definition frame_ok (len : Z) : bool := (ETH_HLEN <=? len) && (len <=? VLAN_ETH_FRAME_LEN).

(** The frame loop of rx_complete counts every frame once: a frame
    is a packet (its length added to rx_bytes) when the status before
    the loop is not negative and its length is between ETH_HLEN and
    VLAN_ETH_FRAME_LEN, and otherwise both an rx error and an rx length
    error, so after a failed unwrap every frame counts as a length
    error. *)
Theorem rx_frame_loop_accounting status frames st :
  let ok len := (0 <=? status) && frame_ok len in
  let st' := rx_frame_loop status frames st in
  st' rx_packets = st rx_packets + Z.of_nat (length (List.filter ok frames)) /\
  st' rx_bytes = st rx_bytes + foldr Z.add 0 (List.filter ok frames) /\
  st' rx_errors = st rx_errors + Z.of_nat (length (List.filter (fun l => negb (ok l)) frames)) /\
  st' rx_length_errors =
    st rx_length_errors + Z.of_nat (length (List.filter (fun l => negb (ok l)) frames)).
Proof.
  cbv zeta. revert status st. induction frames as [|len rest IH]; intros status st; cbn; [lia|].
  assert (Hc : (status <? 0) || (len <? ETH_HLEN) || (VLAN_ETH_FRAME_LEN <? len) =
               negb ((0 <=? status) && frame_ok len)).
  { unfold frame_ok.
    destruct (Z.ltb_spec status 0), (Z.leb_spec 0 status), (Z.ltb_spec len ETH_HLEN),
      (Z.leb_spec ETH_HLEN len), (Z.ltb_spec VLAN_ETH_FRAME_LEN len),
      (Z.leb_spec len VLAN_ETH_FRAME_LEN); cbn; first [reflexivity | lia]. }
  rewrite Hc. destruct ((0 <=? status) && frame_ok len) eqn:Hok; cbn.
  - apply andb_prop in Hok as [Hs Hf]. rewrite ?Hs, ?Hf. cbn.
    destruct (IH 0 (stat_add rx_bytes len (stat_add rx_packets 1 st))) as (H1 & H2 & H3 & H4).
    cbn in H1, H2, H3, H4. stat_simp. cbn [length]. lia.
  - rewrite ?Hok. cbn.
    destruct (IH status (stat_add rx_length_errors 1 (stat_add rx_errors 1 st)))
      as (H1 & H2 & H3 & H4). stat_simp. cbn [length]. lia.
Qed.

(** C15: get_ether_addr reads back every valid address printed by %pM:
    for six bytes that are not a multicast or the zero address, parsing
    their colon-separated lowercase hex form returns 0 and the bytes. *)
Theorem get_ether_addr_roundtrip a rnd :
  length a = 6%nat -> Forall (fun b => 0 <= b < 256) a -> is_valid_ether_addr a = true ->
  get_ether_addr (Some (mac_address_string a)) rnd = Some (0, a).
Proof.
  intros Hl Hb Hv. destruct Hb as [|b rest Hb0 Hrest]; [discriminate|].
  cbn [length] in Hl. cbn [get_ether_addr mac_address_string].
  destruct (hex_byte_parse b Hb0) as (c1 & c2 & -> & Hp & Hs). cbn [app].
  replace 6%nat with (S (length rest)) by lia.
  rewrite ether_addr_loop_plain, ether_addr_loop_colons by done. cbn. by rewrite Hp, Hv.
Qed.

(** get_ether_addr does not stop at the end of the string: a
    dev_addr or host_addr module parameter of fewer than 11 characters
    makes it read past the terminating NUL. *)
Theorem get_ether_addr_short s rnd :
  (length s < 11)%nat -> get_ether_addr (Some s) rnd = None.
Proof.
  intros Hs. unfold get_ether_addr. destruct (ether_addr_loop (s ++ [0]) 6) eqn:E; [|reflexivity].
  apply ether_addr_loop_length in E. rewrite length_app in E. cbn in E. lia.
Qed.

(** ** The locks released in the middle of an operation

    [rx_fill] drops [req_lock] between taking a request off [rx_reqs]
    (lines 444-446) and [rx_submit] (line 449), and [eth_start_xmit]
    drops it between taking a request off [tx_reqs] (lines 562-567) and
    the rest of the transmission (lines 569-653).  In between,
    [gether_disconnect], [tx_complete] and [rx_complete], which the USB
    controller's interrupt handler calls, can run to their end.  The
    context [link_ctx] is what the interrupted code holds. *)
Inductive link_ctx :=
| ctx_idle
| ctx_fill (fuel k : nat) (ans : nat -> bool * Z) (req : nat)
| ctx_xmit (req : nat) (len : Z).

Section Split.
Variable N : Z.

(** One iteration of [rx_fill] up to the unlock at line 446. *)
Definition rx_fill_take (fuel k : nat) (ans : nat -> bool * Z) (d : eth_dev) : link_ctx * eth_dev :=
  match fuel with
  | O => (ctx_idle, d)
  | S f =>
      match rx_reqs (pools d) with
      | [] => (ctx_idle, d)
      | req :: rest => (ctx_fill f k ans req, map_pools (set_rx_reqs rest) d)
      end
  end.

(** The rest of the iteration (lines 448-453): [rx_submit], then the
    next iteration or the deferred refill. *)
Definition rx_fill_submit (f k : nat) (ans : nat -> bool * Z) (req : nat) (d : eth_dev)
    : link_ctx * eth_dev :=
  let '(rc, d) := rx_submit N d req (fst (ans k)) (snd (ans k)) in
  if rc <? 0 then (ctx_idle, defer_kevent d WORK_RX_MEMORY)
  else rx_fill_take f (S k) ans d.

(** [eth_work] (lines 458-469) up to the first unlock of [rx_fill]. *)
Definition eth_work_begin (ans : nat -> bool * Z) (d : eth_dev) : link_ctx * eth_dev :=
  let d := set_work_pending false d in
  if Z.testbit (todo d) WORK_RX_MEMORY then
    let d := set_todo (Z.clearbit (todo d) WORK_RX_MEMORY) d in
    if running d then rx_fill_take (length (rx_reqs (pools d))) 0 ans d else (ctx_idle, d)
  else (ctx_idle, d).

(** [rx_fill] run to its end with nothing in between. *)
Fixpoint fill_run (fuel : nat) (s : link_ctx * eth_dev) : eth_dev :=
  match s, fuel with
  | (ctx_fill f k ans req, d), S n => fill_run n (rx_fill_submit f k ans req d)
  | (_, d), _ => d
  end.

(** [eth_start_xmit] up to the unlock at line 567: the status when it
    returns there, or the request it holds. *)
Definition xmit_take (d : eth_dev) (len : Z) (dest : list Z) : Z * (link_ctx * eth_dev) :=
  match port_usb d with
  | None => (NETDEV_TX_OK, (ctx_idle, d))
  | Some g =>
      if negb (cdc_filter_pass (cdc_filter g) dest) then (NETDEV_TX_OK, (ctx_idle, d)) else
      match tx_reqs (pools d) with
      | [] => (NETDEV_TX_BUSY, (ctx_idle, d))
      | req :: rest =>
          let d := map_pools (set_tx_reqs rest) d in
          let d := if bool_decide (rest = []) then netif_stop_queue d else d in
          (NETDEV_TX_OK, (ctx_xmit req len, d))
      end
  end.

(** The rest of [eth_start_xmit] (lines 569-653), which reads
    [dev->port_usb] again: under [dev->lock] for [wrap] (lines 575-579),
    without a test at line 610.  [None] is the dereference of a [NULL]
    [port_usb] there. *)
Definition xmit_finish (d : eth_dev) (req : nat) (len : Z) (wrap_ans : option Z)
    (dma_ok : bool) (ep_rc : Z) : option eth_dev :=
  let wrapped := if d_wrap d then (if port_usb d is Some _ then wrap_ans else Some len)
                 else Some len in
  match wrapped with
  | None => Some (tx_drop req d)
  | Some len =>
      if negb dma_ok then Some (tx_drop req d) else
      match port_usb d with
      | None => None
      | Some g =>
          if ep_rc =? 0 then
            Some (set_tx_qlen (tx_qlen d + 1)
                    (map_pools (fun p =>
                       set_tx_queued (tx_queued p ++ [(req, len, tx_length g (zlp d) len)]) p) d))
          else Some (tx_drop req d)
      end
  end.

(** The link with these interruptions: the operations of [link_step]
    run whole when nothing is held, and the interrupt handlers run
    between the two halves of [rx_fill] and [eth_start_xmit]. *)
Inductive link_split_step : link_ctx * eth_dev -> link_ctx * eth_dev -> Prop :=
| sp_atomic d d' : link_step N d d' -> link_split_step (ctx_idle, d) (ctx_idle, d')
| sp_disconnect c d : link_split_step (c, d) (c, gether_disconnect N d)
| sp_tx_complete c d status : link_split_step (c, d) (c, tx_complete d status)
| sp_rx_complete c d status actual unwrap_ans skb_ok ep_rc :
    link_split_step (c, d) (c, rx_complete N d status actual unwrap_ans skb_ok ep_rc)
| sp_work_begin d ans : link_split_step (ctx_idle, d) (eth_work_begin ans d)
| sp_fill_submit f k ans req d : link_split_step (ctx_fill f k ans req, d) (rx_fill_submit f k ans req d)
| sp_xmit_take d len dest : link_split_step (ctx_idle, d) (snd (xmit_take d len dest))
| sp_xmit_finish req len d wrap_ans dma_ok ep_rc d' :
    xmit_finish d req len wrap_ans dma_ok ep_rc = Some d' ->
    link_split_step (ctx_xmit req len, d) (ctx_idle, d').

(** With nothing in between, the two halves are [rx_fill_loop],
    [eth_work] and [eth_start_xmit]. *)
Lemma rx_fill_loop_split fuel k ans d :
  rx_fill_loop N fuel k ans d = fill_run fuel (rx_fill_take fuel k ans d).
Proof.
  revert k d. induction fuel as [|f IH]; intros k d; [done|]. cbn.
  destruct (rx_reqs (pools d)) as [|req rest]; [done|]. cbn. unfold rx_fill_submit.
  destruct (rx_submit _ _ _ _ _) as [rc d']. by case_match; [destruct f|].
Qed.

Lemma eth_work_split ans d :
  eth_work N ans d = fill_run (length (rx_reqs (pools d))) (eth_work_begin ans d).
Proof.
  unfold eth_work, eth_work_begin, rx_fill. ueth_simp.
  repeat case_match; [apply rx_fill_loop_split|by destruct (length _)..].
Qed.

Lemma eth_start_xmit_split d len dest wa dma rc :
  eth_start_xmit d len dest wa dma rc =
  match xmit_take d len dest with
  | (r, (ctx_xmit req l, d1)) => (r, default d1 (xmit_finish d1 req l wa dma rc))
  | (r, (_, d1)) => (r, d1)
  end.
Proof.
  unfold eth_start_xmit, xmit_take, xmit_finish.
  destruct (port_usb d) as [g|] eqn:Hg; [|done]. case_match; [done|].
  destruct (tx_reqs (pools d)) as [|req rest]; [done|].
  repeat case_match; ueth_simp; by simplify_eq.
Qed.

End Split.

(** ** Witnesses *)

(** A link as f_ecm would bring up: 512-byte bulk packets, no framing. *)
Definition example_link : gether := mk_gether 512 512 false 0 0 0 0 true false false.

(** The device after a connect that allocates two requests per
    direction, with the interface down. *)
Definition example_connected : eth_dev :=
  snd (gether_connect 1 eth_dev_init example_link 0 0 2 (fun _ => true) (fun _ => true)
         (fun _ => (true, 0))).

Lemma get_ether_addr_roundtrip_witness :
  get_ether_addr (Some (mac_address_string [2; 17; 34; 51; 68; 85])) [] = Some (0, [2; 17; 34; 51; 68; 85]).
Proof.
  apply get_ether_addr_roundtrip; [reflexivity| |reflexivity].
  repeat (constructor; [lia|]). constructor.
Defined.

Lemma get_ether_addr_short_witness : get_ether_addr (Some [49; 50; 51]) [] = None.
Proof. apply get_ether_addr_short. cbn. lia. Defined.

Lemma ueth_requests_conserved_witness :
  NoDup (allocated (pools example_connected)) /\
  allocated (pools example_connected) ≡ₚ owned (pools example_connected) /\
  NoDup (owned (pools example_connected)).
Proof. apply (ueth_requests_conserved 1). apply star_one, ls_connect. Defined.

Lemma gether_disconnect_frees_all_witness :
  let p := pools (gether_disconnect 1 example_connected) in
  NoDup (freed_reqs p) /\ allocated p ≡ₚ freed_reqs p /\
  tx_reqs p = [] /\ rx_reqs p = [] /\ tx_queued p = [] /\ rx_queued p = [].
Proof. apply (gether_disconnect_frees_all 1). apply star_one, ls_connect. Defined.

(** [split_norm] evaluates the state a trace has reached. *)
Ltac split_norm :=
  match goal with |- star _ ?s _ => let s' := eval vm_compute in s in change s with s' end.

(** C11: The requests are not conserved once the unlocks inside rx_fill
    and eth_start_xmit are modelled: gether_disconnect, run from the USB
    interrupt between the two halves, makes rx_submit return -ENOTCONN
    without putting back the request rx_fill took off rx_reqs, which is
    then on no list, no endpoint and never freed; and it makes the rest
    of eth_start_xmit read dev->port_usb->is_fixed (line 610) with
    port_usb NULL, whatever wrap and usb_ep_queue answer; both from the
    device gether_setup_name registers. *)
Theorem ueth_disconnect_races :
  (exists d, star (link_split_step 1) (ctx_idle, eth_dev_init) (ctx_idle, d) /\
     exists r, r ∈ allocated (pools d) /\ r ∉ owned (pools d)) /\
  (exists req len d,
     star (link_split_step 1) (ctx_idle, eth_dev_init) (ctx_xmit req len, d) /\
     port_usb d = None /\ forall wrap_ans ep_rc, xmit_finish d req len wrap_ans true ep_rc = None).
Proof.
  split.
  - (* connect with the interface down; open while the first allocation
       of rx_submit fails; eth_work's rx_fill takes a request; disconnect;
       rx_submit *)
    eexists. split.
    + eapply star_step; [apply sp_atomic, (ls_connect 1 eth_dev_init example_link 0 0 2
        (fun _ => true) (fun _ => true) (fun _ => (true, 0)))|].
      eapply star_step; [apply sp_atomic, (ls_open _ _ (fun _ => (false, 0)))|].
      eapply star_step; [apply (sp_work_begin _ _ (fun _ => (true, 0)))|]. split_norm.
      eapply star_step; [apply sp_disconnect|]. split_norm.
      eapply star_step; [apply sp_fill_submit|]. split_norm.
      apply star_refl.
    + exists 3%nat. split; (eapply bool_decide_unpack; vm_compute; reflexivity).
  - (* connect and open; eth_start_xmit takes a request; disconnect *)
    do 3 eexists. split; [|split].
    + eapply star_step; [apply sp_atomic, (ls_connect 1 eth_dev_init example_link 0 0 2
        (fun _ => true) (fun _ => true) (fun _ => (true, 0)))|].
      eapply star_step; [apply sp_atomic, (ls_open _ _ (fun _ => (true, 0)))|].
      eapply star_step; [apply (sp_xmit_take _ _ 60 [0; 1; 2; 3; 4; 5])|]. split_norm.
      eapply star_step; [apply sp_disconnect|]. split_norm.
      apply star_refl.
    + reflexivity.
    + intros wa rc. reflexivity.
Qed.

End UEtherLink.
