(* ===== verification/UEtherRndis.v ===== *)
(** * USB gadget Ethernet: the RNDIS aggregation ring of CONFIG_USB_SPRD_DWC

    Models the transmit path that [src/drivers/usb/gadget/u_ether.c]
    compiles with [CONFIG_USB_SPRD_DWC] (lines 655-1145): a ring of
    [RNDIS_MSG_MAX_QUEUE] slots ([struct pkt_msg]) in which up to
    [RNDIS_MSG_MAX_NUM] socket buffers are gathered into one USB
    transfer.  [eth_start_xmit] takes the slot being filled or a free
    request ([eth_alloc_req]), lets the function driver wrap the buffer
    ([dev->wrap], [rndis_add_header] for RNDIS), stores it in the ring
    ([save_to_queue], [update_sbks_in_queue]) and sends a slot when it
    is complete ([pkt_msg_send]); [tx_complete] recycles the slot and
    may send the next one.

    The ring is an array, a function from the index to the slot, and so
    is the array [skbs] of a slot.  Socket buffers are numbers with a
    length; [dev_kfree_skb_any] appends the number to the log [freed].
    A write past an array or a read through a NULL pointer sets the flag
    [fault].  The transmit statistics, [tx_length] and the CDC filter are
    those of [UEtherLink]. *)

From S2P Require Import Prelude.
From S2P Require Import UEtherLink.

Module UEtherRndis.
Import UEtherLink.

Local Open Scope Z_scope.

(** ** Constants (lines 657-669) *)

Definition RNDIS_MSG_MAX_QUEUE : nat := 32.
Definition RNDIS_QUEUE_IDLE : Z := 1.
Definition RNDIS_QUEUE_GATHER : Z := 2.
Definition RNDIS_QUEUE_FULL : Z := 3.
Definition RNDIS_QUEUE_SEND : Z := 4.

(** [idx_add_one] (line 669). *)
Definition idx_add_one (n : nat) : nat := ((n + 1) mod RNDIS_MSG_MAX_QUEUE)%nat.

(** [struct pkt_msg] (lines 673-684) without its buffer [content]; the
    [data] pointer into it only matters to [memcpy]. *)
Record pkt_msg := mk_pkt {
  q_state : Z; q_len : Z; pkt_cnt : nat; q_idx : nat;
  q_req : option nat; skbs : nat -> option nat; skb_idx : nat; bit_map : Z }.

(** [struct rndis_msg] (lines 685-694), the static [s_rndis_msg]. *)
Record rndis_msg := mk_msg {
  w_idx : nat; r_idx : nat; flow_stop : bool; last_sent : nat; last_complete : nat;
  q : nat -> pkt_msg }.

(** The transmit side of [struct eth_dev] with the ring, the requests
    queued on the IN endpoint (oldest first, with the slot their
    [context] points to and the transfer length), and the socket
    buffers. *)
Record sdev := mk_sdev {
  msg : rndis_msg;
  tx_reqs : list nat;
  in_flight : list (nat * nat * Z);
  tx_qlen : Z;
  stopped : bool;
  carrier : bool;
  stats : stat -> Z;
  port_usb : option gether;
  d_wrap : bool;
  zlp : bool;
  skb_len : nat -> Z;
  next_skb : nat;
  freed : list nat;
  fault : bool }.

Section Ring.
(** [RNDIS_MSG_MAX_NUM], from a header outside the slice. *)
Variable RNDIS_MSG_MAX_NUM : nat.

(** [FULL_BIT_MAP] (line 667). *)
Definition FULL_BIT_MAP : Z := 2 ^ Z.of_nat RNDIS_MSG_MAX_NUM - 1.

(** Array update. *)
Definition upd {A} (f : nat -> A) (i : nat) (v : A) : nat -> A :=
  fun j => if decide (j = i) then v else f j.

(** Setters, written with projections so that [cbn] reads a field
    of a field update. *)
Definition set_q_state x p := mk_pkt x (q_len p) (pkt_cnt p) (q_idx p) (q_req p) (skbs p) (skb_idx p) (bit_map p).
Definition set_q_len x p := mk_pkt (q_state p) x (pkt_cnt p) (q_idx p) (q_req p) (skbs p) (skb_idx p) (bit_map p).
Definition set_pkt_cnt x p := mk_pkt (q_state p) (q_len p) x (q_idx p) (q_req p) (skbs p) (skb_idx p) (bit_map p).
Definition set_q_req x p := mk_pkt (q_state p) (q_len p) (pkt_cnt p) (q_idx p) x (skbs p) (skb_idx p) (bit_map p).
Definition set_skbs x p := mk_pkt (q_state p) (q_len p) (pkt_cnt p) (q_idx p) (q_req p) x (skb_idx p) (bit_map p).
Definition set_skb_idx x p := mk_pkt (q_state p) (q_len p) (pkt_cnt p) (q_idx p) (q_req p) (skbs p) x (bit_map p).
Definition set_bit_map x p := mk_pkt (q_state p) (q_len p) (pkt_cnt p) (q_idx p) (q_req p) (skbs p) (skb_idx p) x.

Definition set_w_idx x m := mk_msg x (r_idx m) (flow_stop m) (last_sent m) (last_complete m) (q m).
Definition set_r_idx x m := mk_msg (w_idx m) x (flow_stop m) (last_sent m) (last_complete m) (q m).
Definition set_flow_stop x m := mk_msg (w_idx m) (r_idx m) x (last_sent m) (last_complete m) (q m).
Definition set_last_sent x m := mk_msg (w_idx m) (r_idx m) (flow_stop m) x (last_complete m) (q m).
Definition set_last_complete x m := mk_msg (w_idx m) (r_idx m) (flow_stop m) (last_sent m) x (q m).
Definition map_slot i fn m :=
  mk_msg (w_idx m) (r_idx m) (flow_stop m) (last_sent m) (last_complete m) (upd (q m) i (fn (q m i))).

Definition map_msg fn d :=
  mk_sdev (fn (msg d)) (tx_reqs d) (in_flight d) (tx_qlen d) (stopped d) (carrier d) (stats d) (port_usb d) (d_wrap d) (zlp d) (skb_len d) (next_skb d) (freed d) (fault d).
Definition set_tx_reqs x d :=
  mk_sdev (msg d) x (in_flight d) (tx_qlen d) (stopped d) (carrier d) (stats d) (port_usb d) (d_wrap d) (zlp d) (skb_len d) (next_skb d) (freed d) (fault d).
Definition set_in_flight x d :=
  mk_sdev (msg d) (tx_reqs d) x (tx_qlen d) (stopped d) (carrier d) (stats d) (port_usb d) (d_wrap d) (zlp d) (skb_len d) (next_skb d) (freed d) (fault d).
Definition set_tx_qlen x d :=
  mk_sdev (msg d) (tx_reqs d) (in_flight d) x (stopped d) (carrier d) (stats d) (port_usb d) (d_wrap d) (zlp d) (skb_len d) (next_skb d) (freed d) (fault d).
Definition set_stopped x d :=
  mk_sdev (msg d) (tx_reqs d) (in_flight d) (tx_qlen d) x (carrier d) (stats d) (port_usb d) (d_wrap d) (zlp d) (skb_len d) (next_skb d) (freed d) (fault d).
Definition map_stats fn d :=
  mk_sdev (msg d) (tx_reqs d) (in_flight d) (tx_qlen d) (stopped d) (carrier d) (fn (stats d)) (port_usb d) (d_wrap d) (zlp d) (skb_len d) (next_skb d) (freed d) (fault d).
Definition new_skb len d :=
  (next_skb d, mk_sdev (msg d) (tx_reqs d) (in_flight d) (tx_qlen d) (stopped d) (carrier d) (stats d) (port_usb d) (d_wrap d) (zlp d) (upd (skb_len d) (next_skb d) len) (S (next_skb d)) (freed d) (fault d)).
Definition kfree_skb s d :=
  mk_sdev (msg d) (tx_reqs d) (in_flight d) (tx_qlen d) (stopped d) (carrier d) (stats d) (port_usb d) (d_wrap d) (zlp d) (skb_len d) (next_skb d) (freed d ++ [s]) (fault d).
Definition set_fault d :=
  mk_sdev (msg d) (tx_reqs d) (in_flight d) (tx_qlen d) (stopped d) (carrier d) (stats d) (port_usb d) (d_wrap d) (zlp d) (skb_len d) (next_skb d) (freed d) true.


Definition slot (d : sdev) (i : nat) : pkt_msg := q (msg d) i.
Definition stat_inc (f : stat) (n : Z) (d : sdev) : sdev := map_stats (stat_add f n) d.
Definition free_skbs (l : list nat) (d : sdev) : sdev := foldl (fun d s => kfree_skb s d) d l.

(** The socket buffers a slot holds, in the order [pkt_msg_clean]
    frees them. *)
Definition slot_skbs (p : pkt_msg) : list nat := omap (skbs p) (seq 0 RNDIS_MSG_MAX_NUM).

(** [pkt_msg_clean] (lines 704-723): the slot, emptied and idle, and
    the socket buffers to free. *)
Definition pkt_msg_clean (p : pkt_msg) : pkt_msg * list nat :=
  (mk_pkt RNDIS_QUEUE_IDLE 0 0 (q_idx p) None (fun _ => None) 0 0, slot_skbs p).

Definition clean_slot (i : nat) (d : sdev) : sdev :=
  let '(p, l) := pkt_msg_clean (slot d i) in
  free_skbs l (map_msg (map_slot i (fun _ => p)) d).

(** [rndis_msg_init] (lines 725-739): the arrays [skbs] are zeroed
    before [pkt_msg_clean], so nothing is freed; [flow_stop] and the
    [last_*] indices keep their values. *)
Definition rndis_msg_init (m : rndis_msg) : rndis_msg :=
  mk_msg 0 0 (flow_stop m) (last_sent m) (last_complete m)
    (fun i => mk_pkt RNDIS_QUEUE_IDLE 0 0 i None (fun _ => None) 0 0).

(** Read the length of [skbs[k]]: a read past the array or through
    NULL is a fault. *)
Definition read_skb_len (d : sdev) (p : pkt_msg) (k : nat) : option Z :=
  if decide (k < RNDIS_MSG_MAX_NUM)%nat then
    match skbs p k with Some s => Some (skb_len d s) | None => None end
  else None.

(** The copy loop of [pkt_msg_send] (lines 761-765): the lengths of
    [skbs[0..n)] added up. *)
Fixpoint copy_len (d : sdev) (p : pkt_msg) (n : nat) : option Z :=
  match n with
  | O => Some 0
  | S n' => l ← copy_len d p n'; x ← read_skb_len d p n'; Some (l + x)
  end.

(** [pkt_msg_send] (lines 741-820) for slot [i], with the answer of
    [usb_ep_queue].  A slot of more than one buffer is copied into the
    slot's own buffer and [q->len] counts its bytes; a single buffer is
    sent as it is and [q->len] stays as it was.  A failed submission
    drops the slot's buffers and gives its request back. *)
Definition pkt_msg_send (d : sdev) (i : nat) (ep_rc : Z) : sdev :=
  let p := slot d i in
  match q_req p, port_usb d with
  | Some r, Some g =>
      let res : option (Z * Z) :=
        if decide (1 < skb_idx p)%nat then
          l ← copy_len d p (skb_idx p); Some (q_len p + l, q_len p + l)
        else x ← read_skb_len d p 0; Some (q_len p, x) in
      match res with
      | None => set_fault d
      | Some (ql, length) =>
          let d := map_msg (map_slot i (fun p => set_bit_map 0 (set_q_len ql p))) d in
          let length := tx_length g (zlp d) length in
          if ep_rc =? 0 then
            set_in_flight (in_flight d ++ [(r, i, length)]) (set_tx_qlen (tx_qlen d + 1) d)
          else
            let d := stat_inc tx_dropped (Z.of_nat (skb_idx p)) d in
            let d := clean_slot i d in
            let d := if bool_decide (tx_reqs d = []) then
                       map_msg (set_flow_stop false) (set_stopped false d) else d in
            set_tx_reqs (r :: tx_reqs d) d
      end
  | _, _ => set_fault d
  end.

(** Mark slot [i] as sent and send it (lines 867-868, 1106-1131). *)
Definition start_send (d : sdev) (i : nat) (ep_rc : Z) : sdev :=
  let d := map_msg (set_last_sent (q_idx (slot d i))) d in
  pkt_msg_send (map_msg (map_slot i (set_q_state RNDIS_QUEUE_SEND)) d) i ep_rc.

(** The slot being filled is complete and the ring is otherwise idle
    (lines 862-865, 1122-1124). *)
Definition gather_done (d : sdev) : bool :=
  let w := w_idx (msg d) in
  bool_decide (w = r_idx (msg d)) && (q_state (slot d w) =? RNDIS_QUEUE_GATHER) &&
  (skb_idx (slot d w) =? pkt_cnt (slot d w))%nat.

(** [tx_complete] (lines 822-873) for the oldest transfer on the IN
    endpoint, with its status and the answer of the [usb_ep_queue] of
    the slot it may send next. *)
Definition tx_complete (d : sdev) (status ep_rc : Z) : sdev :=
  match in_flight d with
  | [] => d
  | (r, i, _) :: rest =>
      let d := set_in_flight rest d in
      let p := slot d i in
      let d := if status =? 0 then stat_inc tx_bytes (q_len p) d
               else if (status =? - ECONNRESET) || (status =? - ESHUTDOWN) then d
               else stat_inc tx_errors 1 d in
      let d := stat_inc tx_packets (Z.of_nat (skb_idx p)) d in
      let d := map_msg (set_last_complete (q_idx p)) d in
      let d := clean_slot i d in
      let d := if decide (q_idx p = w_idx (msg d)) then d
               else map_msg (set_r_idx (idx_add_one (q_idx p))) d in
      let d := set_tx_qlen (tx_qlen d - 1) d in
      let d := if carrier d then set_stopped false d else d in
      let d := set_tx_reqs (r :: tx_reqs d) d in
      if gather_done d then start_send d (w_idx (msg d)) ep_rc else d
  end.

(** [eth_alloc_req] (lines 876-931): the status, the request, the slot
    the buffer went into when one is being gathered, and the device. *)
Definition eth_alloc_req (d : sdev) (skb : nat) : Z * option nat * option nat * sdev :=
  let w := w_idx (msg d) in
  let p := slot d w in
  if q_state p =? RNDIS_QUEUE_GATHER then
    let d := if decide (pkt_cnt p < RNDIS_MSG_MAX_NUM)%nat then d else set_fault d in
    let d := map_msg (map_slot w (fun p =>
               set_pkt_cnt (S (pkt_cnt p)) (set_skbs (upd (skbs p) (pkt_cnt p) (Some skb)) p))) d in
    let d := if decide (RNDIS_MSG_MAX_NUM <= S (pkt_cnt p))%nat then
               let d := map_msg (map_slot w (set_q_state RNDIS_QUEUE_FULL)) d in
               let next := idx_add_one w in
               if decide (r_idx (msg d) = next) then map_msg (set_flow_stop true) (set_stopped true d)
               else map_msg (set_w_idx next) d
             else d in
    (NETDEV_TX_OK, q_req p, Some w, d)
  else
    match tx_reqs d with
    | [] => (NETDEV_TX_BUSY, None, None, d)
    | r :: rest =>
        let d := set_tx_reqs rest d in
        let d := if bool_decide (rest = []) then map_msg (set_flow_stop true) (set_stopped true d)
                 else d in
        (NETDEV_TX_OK, Some r, None, d)
    end.

(** [save_to_queue] (lines 933-989): 1 when the ring is full, else 0
    and the slot the buffer went into, if any. *)
Definition save_to_queue (d : sdev) (skb req : nat) : Z * option nat * sdev :=
  let next := idx_add_one (w_idx (msg d)) in
  if decide (r_idx (msg d) = next) then (1, None, d) else
  let d := if 3 <=? q_state (slot d (w_idx (msg d))) then map_msg (set_w_idx next) d else d in
  let w := w_idx (msg d) in
  let p := slot d w in
  let d := if q_state p =? RNDIS_QUEUE_IDLE then map_msg (map_slot w (set_q_req (Some req))) d
           else if decide (q_req p = Some req) then d
           else let d := if bool_decide (tx_reqs d = []) then set_stopped false d else d in
                set_tx_reqs (req :: tx_reqs d) d in
  let p := slot d w in
  let '(out, d) :=
    if decide (pkt_cnt p < RNDIS_MSG_MAX_NUM)%nat then
      let d := if decide (skb_idx p < RNDIS_MSG_MAX_NUM)%nat then d else set_fault d in
      (Some w, map_msg (map_slot w (fun p =>
         set_pkt_cnt (S (pkt_cnt p)) (set_skb_idx (S (skb_idx p))
           (set_bit_map (Z.lor (bit_map p) (1 << Z.of_nat (skb_idx p)))
             (set_skbs (upd (skbs p) (skb_idx p) (Some skb)) p))))) d)
    else (None, d) in
  let d :=
    if decide (RNDIS_MSG_MAX_NUM <= pkt_cnt (slot d w))%nat then
      let d := map_msg (map_slot w (set_q_state RNDIS_QUEUE_FULL)) d in
      let next := idx_add_one (w_idx (msg d)) in
      if decide (next = r_idx (msg d)) then map_msg (set_flow_stop true) (set_stopped true d)
      else map_msg (set_w_idx next) d
    else map_msg (map_slot w (set_q_state RNDIS_QUEUE_GATHER)) d in
  (0, out, d).

(** The search of [update_sbks_in_queue]: the first [k] of [[i, i+n)]
    with [skbs[k] == old]. *)
Fixpoint find_skb (f : nat -> option nat) (old : nat) (i n : nat) : option nat :=
  match n with
  | O => None
  | S n' => if decide (f i = Some old) then Some i else find_skb f old (S i) n'
  end.

(** [update_sbks_in_queue] (lines 990-1008): the wrapped buffer takes
    the place of the original in slot [i] and counts as ready. *)
Definition update_sbks_in_queue (d : sdev) (i new old : nat) : sdev :=
  let p := slot d i in
  let d := if decide (pkt_cnt p <= RNDIS_MSG_MAX_NUM)%nat then d else set_fault d in
  match find_skb (skbs p) old 0 (pkt_cnt p) with
  | None => d
  | Some k =>
      map_msg (map_slot i (fun p =>
        set_skb_idx (S (skb_idx p)) (set_bit_map (Z.lor (bit_map p) (1 << Z.of_nat k))
          (set_skbs (upd (skbs p) k (Some new)) p)))) d
  end.

(** The [drop] label of [eth_start_xmit] (lines 1133-1142). *)
Definition tx_drop_req (req : nat) (d : sdev) : sdev :=
  let d := stat_inc tx_dropped 1 d in
  let d := if bool_decide (tx_reqs d = []) then set_stopped false d else d in
  set_tx_reqs (req :: tx_reqs d) d.

(** The three tests that end [eth_start_xmit] (lines 1106-1131) after
    the slot [wq] the buffer went into, if any. *)
Definition send_ready (d : sdev) (wq : option nat) (ep_rc : Z) : sdev :=
  let full i := (bit_map (slot d i) =? FULL_BIT_MAP) && negb (q_state (slot d i) =? RNDIS_QUEUE_SEND) in
  match wq with
  | Some i => if full i then start_send d i ep_rc else
      let w := w_idx (msg d) in
      if full w then start_send d w ep_rc
      else if gather_done d then start_send d w ep_rc else d
  | None =>
      let w := w_idx (msg d) in
      if full w then start_send d w ep_rc
      else if gather_done d then start_send d w ep_rc else d
  end.

(** [eth_start_xmit] (lines 1009-1145) for a socket buffer of [len]
    bytes to [dest], with what [wrap] returns (the length of the new
    buffer, or [None] for NULL), whether the DMA alignment succeeds and
    what [usb_ep_queue] answers.  The buffer the network stack passes is
    a new number. *)
Definition eth_start_xmit (d : sdev) (len : Z) (dest : list Z) (wrap_ans : option Z)
    (dma_ok : bool) (ep_rc : Z) : Z * sdev :=
  let '(skb, d) := new_skb len d in
  match port_usb d with
  | None => (NETDEV_TX_OK, kfree_skb skb d)
  | Some g =>
      if negb (cdc_filter_pass (cdc_filter g) dest) then (NETDEV_TX_OK, kfree_skb skb d) else
      let skb_old := skb in
      let '(_, oreq, wq, d) := eth_alloc_req d skb in
      match oreq with
      | None => (NETDEV_TX_BUSY, d)
      | Some req =>
          let '(oskb, d) :=
            if d_wrap d then
              match wrap_ans with
              | None => (None, kfree_skb skb d)
              | Some l => let '(s2, d) := new_skb l d in (Some s2, kfree_skb skb d)
              end
            else (Some skb, d) in
          match oskb with
          | None => (NETDEV_TX_OK, tx_drop_req req d)
          | Some skb =>
              if negb dma_ok then (NETDEV_TX_OK, tx_drop_req req (kfree_skb skb d)) else
              let '(retval, wq, d) :=
                match wq with
                | None => save_to_queue d skb req
                | Some i => (0, Some i,
                             if decide (skb = skb_old) then d else update_sbks_in_queue d i skb skb_old)
                end in
              if retval =? 0 then (NETDEV_TX_OK, send_ready d wq ep_rc)
              else (NETDEV_TX_OK, tx_drop_req req (kfree_skb skb d))
          end
      end
  end.

(** ** Steps of the ring *)

(** What the network stack and the IN endpoint do to the ring between
    two [eth_start]s: send a buffer, or complete the oldest transfer. *)
Inductive ring_step : sdev -> sdev -> Prop :=
| rs_xmit d len dest wrap_ans dma_ok ep_rc :
    ring_step d (eth_start_xmit d len dest wrap_ans dma_ok ep_rc).2
| rs_complete d status ep_rc : ring_step d (tx_complete d status ep_rc).

(** [rsimpl] reads fields through the setters. *)
Ltac rsimpl :=
  unfold slot, stat_inc in *;
  cbn [msg tx_reqs in_flight tx_qlen stopped carrier stats port_usb d_wrap zlp skb_len
       next_skb freed fault map_msg set_tx_reqs set_in_flight set_tx_qlen set_stopped
       map_stats kfree_skb set_fault new_skb fst snd w_idx r_idx flow_stop last_sent
       last_complete q set_w_idx set_r_idx set_flow_stop set_last_sent set_last_complete
       map_slot q_state q_len pkt_cnt q_idx q_req skbs skb_idx bit_map set_q_state set_q_len
       set_pkt_cnt set_q_req set_skbs set_skb_idx set_bit_map slot stat_inc] in *.

Lemma free_skbs_eq l d :
  free_skbs l d =
  mk_sdev (msg d) (tx_reqs d) (in_flight d) (tx_qlen d) (stopped d) (carrier d) (stats d)
    (port_usb d) (d_wrap d) (zlp d) (skb_len d) (next_skb d) (freed d ++ l) (fault d).
Proof.
  unfold free_skbs. revert d. induction l as [|x l IH]; intros d; cbn.
  - rewrite app_nil_r. by destruct d.
  - rewrite IH. cbn. by rewrite <-app_assoc.
Qed.

Lemma upd_same {A} (f : nat -> A) i v : upd f i v i = v.
Proof. unfold upd. by case_decide. Qed.

Lemma upd_other {A} (f : nat -> A) i j v : j <> i -> upd f i v j = f j.
Proof. unfold upd. by case_decide. Qed.

(** [upd_simp] reads an updated array at the index it was updated. *)
Ltac upd_simp :=
  repeat match goal with
  | H : context [upd ?f ?i ?v ?i] |- _ => rewrite (upd_same f i v) in H
  | |- context [upd ?f ?i ?v ?i] => rewrite (upd_same f i v)
  end.

Lemma idx_add_one_neq w : idx_add_one w <> w.
Proof.
  unfold idx_add_one, RNDIS_MSG_MAX_QUEUE. intros E.
  pose proof (Nat.mod_upper_bound (w + 1) 32).
  destruct (decide (w + 1 < 32)%nat); [rewrite Nat.mod_small in E; lia|].
  destruct (decide (w = 31)%nat); [subst; discriminate|lia].
Qed.

(** ** A ring without [wrap] stalls *)

(** The slots when no transfer is on the endpoint and [wrap] is unset:
    a slot is idle and empty, or gathering at [w_idx], or full, and at
    most its first buffer is marked in [bit_map]. *)
Definition slot_quiet (w i : nat) (p : pkt_msg) : Prop :=
  (q_state p = RNDIS_QUEUE_IDLE /\ pkt_cnt p = 0%nat /\ skb_idx p = 0%nat /\ bit_map p = 0) \/
  (q_state p = RNDIS_QUEUE_GATHER /\ i = w /\ (bit_map p = 0 \/ bit_map p = 1)) \/
  (q_state p = RNDIS_QUEUE_FULL /\ (RNDIS_MSG_MAX_NUM <= pkt_cnt p)%nat /\
   (bit_map p = 0 \/ bit_map p = 1)).

(** The stalled ring: nothing on the endpoint, no [wrap], and the slot
    at [r_idx] holds more buffers than it has marked ready. *)
Definition stall_inv (d : sdev) : Prop :=
  in_flight d = [] /\ d_wrap d = false /\
  (forall i, slot_quiet (w_idx (msg d)) i (slot d i)) /\
  (skb_idx (slot d (r_idx (msg d))) < pkt_cnt (slot d (r_idx (msg d))))%nat.

(** The ring proper: the slots and the two indices. *)
Definition same_ring (m m' : rndis_msg) : Prop :=
  q m' = q m /\ w_idx m' = w_idx m /\ r_idx m' = r_idx m.

Lemma same_ring_refl m : same_ring m m.
Proof. done. Qed.

Lemma stall_frame d d' :
  same_ring (msg d) (msg d') -> in_flight d' = in_flight d -> d_wrap d' = d_wrap d ->
  stall_inv d -> stall_inv d'.
Proof. unfold stall_inv, slot. by intros (-> & -> & ->) -> ->. Qed.

Lemma tx_drop_req_frame r d :
  msg (tx_drop_req r d) = msg d /\ in_flight (tx_drop_req r d) = in_flight d /\
  d_wrap (tx_drop_req r d) = d_wrap d.
Proof. unfold tx_drop_req. by case_bool_decide. Qed.

Lemma full_bit_map_ge : (2 <= RNDIS_MSG_MAX_NUM)%nat -> 3 <= FULL_BIT_MAP.
Proof.
  intros H. unfold FULL_BIT_MAP.
  assert (2 ^ 2 <= 2 ^ Z.of_nat RNDIS_MSG_MAX_NUM) by (apply Z.pow_le_mono_r; lia). lia.
Qed.

(** [st_contra] closes a goal with two different states for a slot. *)
Ltac st_contra :=
  unfold RNDIS_QUEUE_IDLE, RNDIS_QUEUE_GATHER, RNDIS_QUEUE_FULL, RNDIS_QUEUE_SEND in *; congruence.

Section Stall.
Hypothesis Hmax : (2 <= RNDIS_MSG_MAX_NUM)%nat.

Lemma quiet_not_full w i p : slot_quiet w i p -> (bit_map p =? FULL_BIT_MAP) = false.
Proof.
  pose proof full_bit_map_ge Hmax. unfold slot_quiet. intros Hq. apply Z.eqb_neq.
  destruct Hq as [(_ & _ & _ & ->)|[(_ & _ & [-> | ->])|(_ & _ & [-> | ->])]]; lia.
Qed.

Lemma stall_gather_done d : stall_inv d -> gather_done d = false.
Proof.
  intros (_ & _ & _ & Hr). unfold gather_done.
  case_bool_decide as E; [|done]. rewrite E. cbn.
  rewrite (proj2 (Nat.eqb_neq _ _)) by lia. apply andb_false_r.
Qed.

Lemma stall_not_full d i : stall_inv d -> (bit_map (slot d i) =? FULL_BIT_MAP) = false.
Proof. intros (_ & _ & Hq & _). by eapply quiet_not_full. Qed.

Lemma stall_send_ready d wq ep : stall_inv d -> send_ready d wq ep = d.
Proof.
  intros Hs. unfold send_ready.
  rewrite !stall_not_full by done. cbn. rewrite stall_gather_done by done.
  by destruct wq; rewrite ?stall_not_full by done.
Qed.

Lemma quiet_other w w' i p : slot_quiet w i p -> i <> w -> slot_quiet w' i p.
Proof. unfold slot_quiet. intros [?|[(_ & ? & _) | ?]] ?; [by left|done|by right; right]. Qed.

(** The fault flag of an array access is all it changes. *)
Lemma fault_step (P : Prop) `{Decision P} d :
  exists d', (if decide P then d else set_fault d) = d' /\ msg d' = msg d /\
    in_flight d' = in_flight d /\ d_wrap d' = d_wrap d /\ tx_reqs d' = tx_reqs d.
Proof. destruct (decide P); eexists; by split_and!. Qed.

Lemma stall_alloc_gather d skb :
  stall_inv d -> q_state (slot d (w_idx (msg d))) = RNDIS_QUEUE_GATHER ->
  stall_inv (eth_alloc_req d skb).2 /\ (eth_alloc_req d skb).1.2 = Some (w_idx (msg d)).
Proof.
  intros (Hf & Hw & Hq & Hr) Hg. unfold eth_alloc_req. rewrite Hg, Z.eqb_refl.
  split; [|by repeat case_decide].
  pose proof (Hq (w_idx (msg d))) as Hqw. unfold slot in *.
  destruct Hqw as [(Hi & _)|[(_ & _ & Hb)|(Hfu & _)]]; [st_contra| |st_contra].
  repeat case_decide; rsimpl; upd_simp; rsimpl.
  all: unfold stall_inv; rsimpl; rewrite ?Hf, ?Hw; upd_simp; rsimpl; split_and!; [done|done| |].
  all: try (intros i; destruct (decide (i = w_idx (msg d))) as [->|Hne];
    [upd_simp; unfold slot_quiet; cbn;
     first [right; left; by split_and! | right; right; split_and!; [done|lia|done]]
    |rewrite !upd_other by done; eapply quiet_other; [apply Hq|done]]).
  all: destruct (decide (r_idx (msg d) = w_idx (msg d))) as [E|Hne];
    [rewrite E in *; upd_simp; cbn; lia|rewrite !upd_other by done; lia].
Qed.

Lemma quiet_not_gather w w' i p :
  slot_quiet w i p -> q_state p <> RNDIS_QUEUE_GATHER -> slot_quiet w' i p.
Proof. unfold slot_quiet. intros [?|[(? & _) | ?]] ?; [by left|done|by right; right]. Qed.

Lemma stall_alloc_other d skb :
  q_state (slot d (w_idx (msg d))) <> RNDIS_QUEUE_GATHER ->
  (eth_alloc_req d skb).1.2 = None /\ same_ring (msg d) (msg (eth_alloc_req d skb).2) /\
  in_flight (eth_alloc_req d skb).2 = in_flight d /\ d_wrap (eth_alloc_req d skb).2 = d_wrap d.
Proof.
  intros Hg. unfold eth_alloc_req. rewrite (proj2 (Z.eqb_neq _ _) Hg).
  destruct (tx_reqs d); [done|]. cbn. case_bool_decide; rsimpl; by split_and!.
Qed.

(** Where [save_to_queue] puts a buffer when the ring is stalled: an
    idle slot, or a full one after the slot at [w_idx]; never the slot
    at [r_idx]. *)
Lemma stall_save_target d :
  stall_inv d -> q_state (slot d (w_idx (msg d))) <> RNDIS_QUEUE_GATHER ->
  r_idx (msg d) <> idx_add_one (w_idx (msg d)) ->
  let d1 := if 3 <=? q_state (slot d (w_idx (msg d)))
            then map_msg (set_w_idx (idx_add_one (w_idx (msg d)))) d else d in
  let t := w_idx (msg d1) in
  q (msg d1) = q (msg d) /\ r_idx (msg d1) = r_idx (msg d) /\ t <> r_idx (msg d) /\
  in_flight d1 = [] /\ d_wrap d1 = false /\
  (forall i, q_state (slot d i) <> RNDIS_QUEUE_GATHER) /\
  ((q_state (slot d t) = RNDIS_QUEUE_IDLE /\ pkt_cnt (slot d t) = 0%nat /\
    skb_idx (slot d t) = 0%nat /\ bit_map (slot d t) = 0) \/
   (q_state (slot d t) = RNDIS_QUEUE_FULL /\ (RNDIS_MSG_MAX_NUM <= pkt_cnt (slot d t))%nat /\
    (bit_map (slot d t) = 0 \/ bit_map (slot d t) = 1))).
Proof.
  intros (Hf & Hw & Hq & Hr) Hng Hrn. cbv zeta.
  assert (Hng' : forall i, q_state (slot d i) <> RNDIS_QUEUE_GATHER).
  { intros i Hi. destruct (Hq i) as [(? & _)|[(_ & -> & _)|(? & _)]]; st_contra. }
  destruct (Hq (w_idx (msg d))) as [Hi|[(Hgw & _)|Hfu]]; [|congruence|].
  - destruct Hi as (Hs & Hc & Hk & Hb). rewrite Hs. cbn.
    split_and!; [done|done| |done|done|done|left; by split_and!].
    intros E. rewrite <-E, Hc, Hk in Hr. lia.
  - destruct Hfu as (Hs & Hc & Hb). rewrite Hs. cbn.
    split_and!; [done|done|by intros ?; apply Hrn|done|done|done|].
    destruct (Hq (idx_add_one (w_idx (msg d)))) as [?|[(_ & E & _)|?]];
      [by left|by apply idx_add_one_neq in E|by right].
Qed.

Lemma stall_save d skb req :
  stall_inv d -> q_state (slot d (w_idx (msg d))) <> RNDIS_QUEUE_GATHER ->
  stall_inv (save_to_queue d skb req).2.
Proof.
  intros Hs Hng. unfold save_to_queue. case_decide as Hrn; [done|].
  pose proof (stall_save_target d Hs Hng Hrn) as (Eq & Er & Ht & Hf & Hw & Hng' & Hcase).
  destruct Hs as (_ & _ & Hq & Hr). cbv zeta in *.
  revert Eq Er Ht Hf Hw Hcase.
  generalize (if 3 <=? q_state (slot d (w_idx (msg d)))
              then map_msg (set_w_idx (idx_add_one (w_idx (msg d)))) d else d) as d1.
  intros d1 Eq Er Ht Hf Hw Hcase. unfold slot in *. rewrite Eq.
  assert (Hrt : r_idx (msg d) <> w_idx (msg d1)) by congruence.
  destruct Hcase as [(Hs1 & Hc & Hk & Hb)|(Hs1 & Hc & Hb)].
  - rewrite Hs1, Z.eqb_refl. rsimpl. upd_simp. rsimpl. rewrite ?Eq. upd_simp. rewrite Hc.
    repeat case_decide; rsimpl; rewrite ?Eq in *; upd_simp; rsimpl; rewrite ?Hc, ?Hk in *; try lia.
    all: unfold stall_inv; rsimpl; rewrite ?Eq, ?Er, ?Hf, ?Hw; upd_simp; rsimpl.
    all: split_and!; [done|done| |rewrite !upd_other by exact Hrt; apply Hr].
    all: intros i; destruct (decide (i = w_idx (msg d1))) as [->|Hne];
      [upd_simp; unfold slot_quiet; cbn; right; left; rewrite Hb, Hk; split_and!; [done|done|by right]
      |rewrite !upd_other by done; eapply quiet_not_gather; [apply Hq|apply Hng']].
  - assert (Hn : (q_state (q (msg d) (w_idx (msg d1))) =? RNDIS_QUEUE_IDLE) = false)
      by (rewrite Hs1; done).
    rewrite Hn.
    repeat (case_decide || case_bool_decide); rsimpl; rewrite ?Eq in *; upd_simp; rsimpl; try lia.
    all: unfold stall_inv; rsimpl; rewrite ?Eq, ?Er, ?Hf, ?Hw; upd_simp; rsimpl.
    all: split_and!; [done|done| |rewrite !upd_other by exact Hrt; apply Hr].
    all: intros i; destruct (decide (i = w_idx (msg d1))) as [->|Hne];
      [upd_simp; unfold slot_quiet; cbn; right; right; by split_and!
      |rewrite !upd_other by done; eapply quiet_not_gather; [apply Hq|apply Hng']].
Qed.

Lemma stall_kfree s d : stall_inv d -> stall_inv (kfree_skb s d).
Proof. apply stall_frame; done. Qed.

Lemma stall_tx_drop r d : stall_inv d -> stall_inv (tx_drop_req r d).
Proof.
  destruct (tx_drop_req_frame r d) as (M & F & W).
  apply stall_frame; [by rewrite M|done|done].
Qed.

Lemma stall_xmit d len dest wa dma ep :
  stall_inv d -> stall_inv (eth_start_xmit d len dest wa dma ep).2.
Proof.
  intros Hs. unfold eth_start_xmit.
  assert (H0 : stall_inv (new_skb len d).2) by (apply (stall_frame d); done).
  destruct (new_skb len d) as [skb d0]. cbn in H0. clear Hs.
  destruct (port_usb d0) as [g|]; [|by apply stall_kfree].
  destruct (negb _); [by apply stall_kfree|].
  destruct (decide (q_state (slot d0 (w_idx (msg d0))) = RNDIS_QUEUE_GATHER)) as [Hg|Hg].
  - destruct (stall_alloc_gather d0 skb H0 Hg) as [Ha Hwq].
    destruct (eth_alloc_req d0 skb) as [[[st oreq] wq] d1]. cbn in Ha, Hwq. subst wq.
    destruct oreq as [req|]; [|done].
    pose proof Ha as (_ & Hw & _). rewrite Hw. cbn -[send_ready tx_drop_req kfree_skb].
    destruct dma; cbn -[send_ready tx_drop_req kfree_skb save_to_queue]; [|by apply stall_tx_drop, stall_kfree].
    case_decide; [|done]. by rewrite stall_send_ready.
  - destruct (stall_alloc_other d0 skb Hg) as (Hwq & Hr & Hf & Hw).
    assert (Ha : stall_inv (eth_alloc_req d0 skb).2) by (by eapply stall_frame).
    assert (Hg' : q_state (slot (eth_alloc_req d0 skb).2 (w_idx (msg (eth_alloc_req d0 skb).2)))
                  <> RNDIS_QUEUE_GATHER).
    { destruct Hr as (Eq & Ew & _). unfold slot. by rewrite Eq, Ew. }
    destruct (eth_alloc_req d0 skb) as [[[st oreq] wq] d1]. cbn in *. subst wq.
    destruct oreq as [req|]; [|done].
    pose proof Ha as (_ & Hw' & _). rewrite Hw'. cbn -[send_ready tx_drop_req kfree_skb save_to_queue].
    destruct dma; cbn -[send_ready tx_drop_req kfree_skb save_to_queue]; [|by apply stall_tx_drop, stall_kfree].
    pose proof (stall_save d1 skb req Ha Hg') as Hs.
    destruct (save_to_queue d1 skb req) as [[rv wq] d2]. cbn -[send_ready tx_drop_req kfree_skb] in *.
    rewrite stall_send_ready by done. case_match; [done|by apply stall_tx_drop, stall_kfree].
Qed.

Lemma stall_step d d' : stall_inv d -> ring_step d d' -> stall_inv d'.
Proof.
  intros Hs Hst. destruct Hst as [d len dest wa dma ep|d st ep]; [by apply stall_xmit|].
  pose proof Hs as (Hf & _). unfold tx_complete. by rewrite Hf.
Qed.

End Stall.

(** C12: With CONFIG_USB_SPRD_DWC and a function without wrap (f_ecm,
    f_subset), once the slot at r_idx holds more buffers than it has
    marked ready, which happens after the second buffer gathered while a
    transfer is in flight, no transfer is ever queued on the IN endpoint
    again: every later eth_start_xmit and tx_complete keeps the endpoint
    empty and the ring stalled until eth_start reinitialises it. *)
Theorem rndis_nowrap_stall d d' :
  (2 <= RNDIS_MSG_MAX_NUM)%nat -> stall_inv d -> star ring_step d d' ->
  in_flight d' = [] /\ stall_inv d'.
Proof.
  intros Hm Hs Hst. assert (H : stall_inv d') by (inv_star (stall_step Hm) Hst; exact Hs).
  split; [apply H|exact H].
Qed.

(** ** What [tx_bytes] counts *)

Lemma clean_slot_stats i d : stats (clean_slot i d) = stats d.
Proof. unfold clean_slot. cbn. by rewrite free_skbs_eq. Qed.

Lemma pkt_msg_send_stats d i ep f :
  f <> tx_dropped -> stats (pkt_msg_send d i ep) f = stats d f.
Proof.
  intros Hf. unfold pkt_msg_send.
  repeat case_match; rsimpl; try done.
  all: rewrite clean_slot_stats; rsimpl; by rewrite stat_add_other.
Qed.

Lemma start_send_stats d i ep f :
  f <> tx_dropped -> stats (start_send d i ep) f = stats d f.
Proof. intros Hf. unfold start_send. by rewrite pkt_msg_send_stats. Qed.

(** A successful [pkt_msg_send] of a slot whose buffers add up to
    [total] bytes queues one transfer of that length, and [q->len]
    becomes [total] only when the slot holds more than one buffer. *)
Lemma pkt_msg_send_ok d i r g total :
  in_flight d = [] -> q_req (slot d i) = Some r -> port_usb d = Some g -> q_len (slot d i) = 0 ->
  (1 <= skb_idx (slot d i))%nat -> copy_len d (slot d i) (skb_idx (slot d i)) = Some total ->
  pkt_msg_send d i 0 =
  set_in_flight [(r, i, tx_length g (zlp d) total)] (set_tx_qlen (tx_qlen d + 1)
    (map_msg (map_slot i (fun p => set_bit_map 0
       (set_q_len (if decide (1 < skb_idx (slot d i))%nat then total else 0) p))) d)).
Proof.
  intros Hf Hr Hp Hl Hk Hc. unfold pkt_msg_send. rewrite Hr, Hp.
  case_decide.
  - rewrite Hc. cbn. rewrite Hl, Hf. by replace (0 + total) with total by lia.
  - replace (skb_idx (slot d i)) with 1%nat in Hc by lia. cbn in Hc.
    destruct (read_skb_len d (slot d i) 0) as [x|]; [|done]. cbn in Hc. simplify_eq.
    cbn. rewrite Hl, Hf. by replace (0 + x) with x by lia.
Qed.

Lemma tx_complete_head_stats d r i len rest status ep f :
  in_flight d = (r, i, len) :: rest -> f <> tx_dropped ->
  stats (tx_complete d status ep) f =
  stats (stat_inc tx_packets (Z.of_nat (skb_idx (slot d i)))
    (if status =? 0 then stat_inc tx_bytes (q_len (slot d i)) d
     else if (status =? - ECONNRESET) || (status =? - ESHUTDOWN) then d
     else stat_inc tx_errors 1 d)) f.
Proof.
  intros E Hf. unfold tx_complete. rewrite E.
  case_match; [rewrite start_send_stats by done|];
    rsimpl; repeat case_match; rsimpl; rewrite ?clean_slot_stats; rsimpl;
    repeat case_match; rsimpl; rewrite ?clean_slot_stats; by rsimpl.
Qed.

(** C14: pkt_msg_send sends a slot whose buffers hold total bytes as one
    transfer of that length, and its successful tx_complete adds total
    to tx_bytes when the slot held two or more buffers but nothing when
    it held one (q->len is only set on the copy path), while tx_packets
    counts every buffer. *)
Theorem rndis_tx_bytes_accounting d i r g total ep :
  in_flight d = [] -> q_req (slot d i) = Some r -> port_usb d = Some g -> q_len (slot d i) = 0 ->
  (1 <= skb_idx (slot d i))%nat -> copy_len d (slot d i) (skb_idx (slot d i)) = Some total ->
  in_flight (pkt_msg_send d i 0) = [(r, i, tx_length g (zlp d) total)] /\
  stats (tx_complete (pkt_msg_send d i 0) 0 ep) tx_bytes =
    stats d tx_bytes + (if decide (1 < skb_idx (slot d i))%nat then total else 0) /\
  stats (tx_complete (pkt_msg_send d i 0) 0 ep) tx_packets =
    stats d tx_packets + Z.of_nat (skb_idx (slot d i)).
Proof.
  intros Hf Hr Hp Hl Hk Hc. rewrite (pkt_msg_send_ok d i r g total) by done.
  split; [done|].
  rewrite !(tx_complete_head_stats _ r i (tx_length g (zlp d) total) []) by done.
  rewrite Z.eqb_refl. rsimpl. upd_simp. rsimpl.
  split; [rewrite stat_add_other, stat_add_same by discriminate
         |rewrite stat_add_same, stat_add_other by discriminate]; reflexivity.
Qed.

(** ** A failed [wrap] while a slot is gathered *)

(** C13: When wrap (rndis_add_header) returns NULL for a buffer that
    eth_alloc_req has already put into the slot being gathered,
    eth_start_xmit gives the slot's request back to tx_reqs while the
    slot keeps it, and the slot keeps and counts the buffer wrap freed
    without marking it ready. *)
Theorem rndis_wrap_null_alias d g r len dest dma ep :
  port_usb d = Some g -> is_promisc (cdc_filter g) = true -> d_wrap d = true ->
  q_state (slot d (w_idx (msg d))) = RNDIS_QUEUE_GATHER ->
  q_req (slot d (w_idx (msg d))) = Some r ->
  (S (pkt_cnt (slot d (w_idx (msg d)))) < RNDIS_MSG_MAX_NUM)%nat ->
  tx_reqs (eth_start_xmit d len dest None dma ep).2 = r :: tx_reqs d /\
  q_req (slot (eth_start_xmit d len dest None dma ep).2 (w_idx (msg d))) = Some r /\
  q_state (slot (eth_start_xmit d len dest None dma ep).2 (w_idx (msg d))) = RNDIS_QUEUE_GATHER /\
  skbs (slot (eth_start_xmit d len dest None dma ep).2 (w_idx (msg d)))
    (pkt_cnt (slot d (w_idx (msg d)))) = Some (next_skb d) /\
  next_skb d ∈ freed (eth_start_xmit d len dest None dma ep).2 /\
  pkt_cnt (slot (eth_start_xmit d len dest None dma ep).2 (w_idx (msg d))) =
    S (pkt_cnt (slot d (w_idx (msg d)))) /\
  skb_idx (slot (eth_start_xmit d len dest None dma ep).2 (w_idx (msg d))) =
    skb_idx (slot d (w_idx (msg d))).
Proof.
  intros Hp Hpr Hw Hg Hr Hc. unfold eth_start_xmit. rsimpl. rewrite Hp.
  unfold cdc_filter_pass. rewrite Hpr. cbn [negb]. unfold eth_alloc_req. rsimpl.
  rewrite Hg, Z.eqb_refl. repeat case_decide; try lia. rsimpl. upd_simp. rsimpl. rewrite Hr, Hw.
  unfold tx_drop_req. destruct (bool_decide _); rsimpl; upd_simp; rsimpl;
    split_and!; upd_simp; try done; set_solver.
Qed.

End Ring.

(** ** Witnesses *)

(** An RNDIS-less link (f_ecm), a ring of three-buffer slots, four
    requests. *)
Definition example_rndis_link : gether := mk_gether 512 512 false 0 0 0 1 true false false.

Definition example_ring (wrap : bool) : sdev :=
  mk_sdev (rndis_msg_init (mk_msg 0 0 false 0 0 (fun i => mk_pkt 1 0 0 i None (fun _ => None) 0 0)))
    [0; 1; 2; 3]%nat [] 0 false true (fun _ => 0) (Some example_rndis_link) wrap false (fun _ => 0) 0%nat [] false.

Definition example_xmit (wrap : option Z) (d : sdev) : sdev :=
  snd (eth_start_xmit 3 d 100 [0; 1; 2; 3; 4; 5] wrap true 0).

(** Three frames without [wrap], then the first transfer completes. *)
Definition example_stalled : sdev :=
  tx_complete 3 (example_xmit None (example_xmit None (example_xmit None (example_ring false)))) 0 0.

Lemma rndis_nowrap_stall_witness :
  in_flight (example_xmit None example_stalled) = [] /\
  stall_inv 3 (example_xmit None example_stalled).
Proof.
  apply (rndis_nowrap_stall 3 example_stalled); [lia| |apply star_one, rs_xmit].
  unfold stall_inv. split_and!; [reflexivity|reflexivity| |vm_compute; lia].
  intros i. unfold slot_quiet. destruct i as [|[|[|i]]]; vm_compute; lia.
Defined.

(** A fresh ring in which one wrapped buffer of 144 bytes waits in
    slot 0 with request 0. *)
Definition example_one : sdev :=
  snd (save_to_queue 3 (snd (new_skb 144 (example_ring true))) 0 0).

Lemma rndis_tx_bytes_accounting_witness :
  in_flight (pkt_msg_send 3 example_one 0 0) = [(0%nat, 0%nat, tx_length example_rndis_link false 144)] /\
  stats (tx_complete 3 (pkt_msg_send 3 example_one 0 0) 0 0) tx_bytes =
    stats example_one tx_bytes + (if decide (1 < skb_idx (slot example_one 0))%nat then 144 else 0) /\
  stats (tx_complete 3 (pkt_msg_send 3 example_one 0 0) 0 0) tx_packets =
    stats example_one tx_packets + Z.of_nat (skb_idx (slot example_one 0)).
Proof.
  apply (rndis_tx_bytes_accounting 3 example_one 0 0 example_rndis_link 144 0);
    [reflexivity|reflexivity|reflexivity|reflexivity|vm_compute; lia|reflexivity].
Defined.

(** Two wrapped buffers sent: slot 0 is on the endpoint and slot 1
    gathers with request 1. *)
Definition example_gathering : sdev :=
  example_xmit (Some 144) (example_xmit (Some 144) (example_ring true)).

Lemma rndis_wrap_null_alias_witness :
  let d' := (eth_start_xmit 3 example_gathering 100 [0; 1; 2; 3; 4; 5] None true 0).2 in
  tx_reqs d' = 1%nat :: tx_reqs example_gathering /\
  q_req (slot d' (w_idx (msg example_gathering))) = Some 1%nat /\
  q_state (slot d' (w_idx (msg example_gathering))) = RNDIS_QUEUE_GATHER /\
  skbs (slot d' (w_idx (msg example_gathering))) (pkt_cnt (slot example_gathering (w_idx (msg example_gathering)))) =
    Some (next_skb example_gathering) /\
  next_skb example_gathering ∈ freed d' /\
  pkt_cnt (slot d' (w_idx (msg example_gathering))) =
    S (pkt_cnt (slot example_gathering (w_idx (msg example_gathering)))) /\
  skb_idx (slot d' (w_idx (msg example_gathering))) =
    skb_idx (slot example_gathering (w_idx (msg example_gathering))).
Proof.
  apply (rndis_wrap_null_alias 3 example_gathering example_rndis_link 1);
    [reflexivity|reflexivity|reflexivity|reflexivity|reflexivity|vm_compute; lia].
Defined.
End UEtherRndis.
