(* ===== verification/SensorDrv.v ===== *)
(** * Camera sensor driver: state, kernel services and module data

    The SPRD camera sensor driver [src/drivers/media/sprd_sensor/sensor_drv_k.c]
    is a misc device whose ioctls switch the sensor's supplies and
    clocks and talk to the sensor over I2C.  This file holds what all of
    its operations share: the constants of the file (lines 137-179)
    and of the KIRAN board (lines 97-114), [struct sensor_module]
    (lines 201-224), the kernel services the driver calls, the state
    monad the operations are written in, the module's own helpers
    (lines 245-359 and 1020-1091), and the frame lemmas: [preserves R c]
    says that [c] moves the state only along the preorder [R]
    ([fault_kept]: a fault stays; [reg_kept]: the regulator framework
    is untouched), proved once for each combinator and collected in the
    hint database [pres].

    The board is [CONFIG_MACH_KIRAN] on [CONFIG_ARCH_SCX35] with
    [CONFIG_OF]; code under other configurations is not modelled.

    The state [world] holds the flag [s_p_sensor_mod != NULL], the
    module, the regulator and clock frameworks as the driver sees them
    (handles numbered in the order they are obtained and naming a
    supply or a clock, the use count of each supply and clock, the
    handles put back, the disables of a supply or clock not enabled),
    the GPIO levels, the resources held, the log of I2C
    transfers and delays, and the answers of the kernel and the
    hardware: the [n]-th external call returns [w_ans n], and the
    bytes an I2C read transfer returns are [w_rd].  Every theorem
    holds for all answers.  A call on an error pointer or a NULL one
    where the kernel dereferences it sets [w_fault]. *)

From S2P Require Import Prelude.

Module SensorDrv.

Local Open Scope Z_scope.

(** ** Constants (lines 137-179) *)

Definition SENSOR_K_SUCCESS : Z := 0.
Definition SENSOR_K_FAIL : Z := -1.
Definition NUMBER_MAX : Z := 0x7FFFFFF.
Definition SENSOR_I2C_OP_TRY_NUM : nat := 4.
Definition SENSOR_CMD_BITS_8 : Z := 1.
Definition SENSOR_CMD_BITS_16 : Z := 2.
Definition SENSOR_I2C_VAL_16BIT : Z := 0x01.
Definition SENSOR_I2C_REG_16BIT : Z := 0x01 << 1.
Definition SENSOR_LOW_EIGHT_BIT : Z := 0xff.
Definition SENSOR_WRITE_DELAY : Z := 0xffff.
Definition SENSOR_MCLK_SRC_NUM : nat := 4.
Definition SENSOR_MCLK_DIV_MAX : nat := 4.

(** [ABS] (line 159). *)
Definition ABS (a : Z) : Z := if 0 <? a then a else - a.

(** The camera numbers and the other values of [video/sensor_drv_k.h],
    a header outside the slice.  [SENSOR_MAIN] and [SENSOR_SUB] are the
    0 and 1 the comment of line 1022 gives; the model only needs
    [SENSOR_ID_MAX] to differ from both. *)
Definition SENSOR_MAIN : Z := 0.
Definition SENSOR_SUB : Z := 1.
Definition SENSOR_ID_MAX : Z := 3.
(** The highest master clock in MHz and the factor to Hz. *)
Definition SENSOR_MAX_MCLK : Z := 96.
Definition SENOR_CLK_M_VALUE : Z := 1000000.

(** The supplies of the KIRAN board (lines 95-102): the motor supply
    and the analog one are the same regulator, and so are the
    sub camera's digital supply and the Wi-Fi power amplifier's. *)
Definition REGU_NAME_CAMVIO : string := "vddcamd".
Definition REGU_NAME_SUB_CAMDVDD : string := "vddwifipa".
Definition REGU_NAME_CAMAVDD : string := "vddcama".
Definition REGU_NAME_CAMDVDD : string := "vddcamio".
Definition REGU_NAME_CAMMOT : string := "vddcama".
Definition SENSOR_CLK : string := "clk_sensor".

(** The four supply pointers of [struct sensor_module]; each has its
    [*power_on_count] field, which the C passes by address. *)
Inductive rail := CAMVIO | CAMAVDD | CAMDVDD | CAMMOT.

#[export] Instance rail_eq_dec : EqDecision rail.
Proof. solve_decision. Defined.

(** The voltage codes of the ioctls ([SENSOR_VDD_*] of the header):
    the code is an enumeration, [VDD_OTHER] standing for every value
    no [case] names. *)
Inductive sensor_vdd :=
  | SENSOR_VDD_3800MV | SENSOR_VDD_3300MV | SENSOR_VDD_3000MV | SENSOR_VDD_2800MV
  | SENSOR_VDD_2500MV | SENSOR_VDD_1800MV | SENSOR_VDD_1500MV | SENSOR_VDD_1300MV
  | SENSOR_VDD_1200MV | SENSOR_VDD_CLOSED | SENSOR_VDD_UNUSED | VDD_OTHER.

#[export] Instance sensor_vdd_eq_dec : EqDecision sensor_vdd.
Proof. solve_decision. Defined.

(** The voltages in microvolts ([SENSOER_VDD_*] of the header). *)
Definition SENSOER_VDD (mv : Z) : Z := mv * 1000.

(** ** Pointers the kernel hands out *)

(** A [struct regulator *] or [struct clk *]: NULL, [ERR_PTR(e)] or
    the [n]-th handle obtained. *)
Inductive kptr := KNull | KErr (e : Z) | KHandle (n : nat).

Definition IS_ERR (p : kptr) : bool := match p with KErr _ => true | _ => false end.

(** [struct sensor_module] (lines 196-218) without the mutex, the
    [i2c_driver] (filled in by the probe) and the buffer contents:
    [cur_i2c_client] is the address of the client, [mem_buf] says
    whether [sensor_mem.buf_ptr] is set. *)
Record sensor_module := mk_mod {
  sensor_id : Z; sensor_mclk : Z; power_on_count : rail -> Z; mipi_on : Z;
  ccir_clk : kptr; mipi_clk : kptr; cur_i2c_client : option Z;
  regulator : rail -> kptr; mem_buf : bool; mem_size : Z; mem_bytes : nat -> Z;
  pin_main_reset : Z; pin_sub_reset : Z; pin_main_pd : Z; pin_sub_pd : Z;
  open_count : Z }.

(** The regulator framework of Linux 3.10: the supply each handle
    names, the [use_count] and voltage of each supply, the handles put
    back, and the supplies [regulator_disable] was called on with a
    [use_count] of 0 (the "unbalanced disables" warning). *)
Record regfw := mk_regfw {
  r_next : nat; r_supply : nat -> string; r_use : string -> Z; r_volt : string -> Z;
  r_put : list nat; r_unbal : list string }.

(** The clock framework with the same bookkeeping, per clock name:
    the [usecount], parent and rate of each clock. *)
Record clkfw := mk_clkfw {
  c_next : nat; c_name : nat -> string; c_en : string -> Z; c_parent : string -> string;
  c_rate : string -> Z; c_put : list nat; c_unbal : list string }.

(** An I2C message ([struct i2c_msg]): the bytes written, or for a
    read the number of bytes to read. *)
Record i2c_msg := mk_i2c_msg { msg_addr : Z; msg_flags : Z; msg_len : Z; msg_buf : list Z }.

Definition I2C_M_RD : Z := 1.

(** What the driver does on the buses, in order. *)
Inductive io_ev :=
  | Xfer (msgs : list i2c_msg)
  | Msleep (ms : Z) | Mdelay (ms : Z) | Udelay (us : Z)
  | I2cClk (clock : Z)
  | CsiInit (bps phy : Z) | CsiStart | CsiLanes (n : Z) | CsiClose (phy : Z)
  | PowerOn (id : Z) | PowerOff (id : Z).

(** Resources the probe and the module init acquire. *)
Inductive sres :=
  | ModMem | MiscDev | PlatDriver | I2cDriver | Gpio (pin : Z)
  | CameraClass | Device (name : string) | DevFile (name : string) | CpuidleNotifier.

#[export] Instance sres_eq_dec : EqDecision sres.
Proof. solve_decision. Defined.

Record world := mk_w {
  w_valid : bool; w_mod : sensor_module; w_reg : regfw; w_clk : clkfw;
  w_gpio : Z -> Z; w_held : list sres; w_io : list io_ev;
  w_ans : nat -> Z; w_rd : nat -> nat -> Z; w_t : nat; w_fault : bool }.

(** ** Field updates *)

Definition set_sensor_id x m := mk_mod x (sensor_mclk m) (power_on_count m) (mipi_on m) (ccir_clk m) (mipi_clk m) (cur_i2c_client m) (regulator m) (mem_buf m) (mem_size m) (mem_bytes m) (pin_main_reset m) (pin_sub_reset m) (pin_main_pd m) (pin_sub_pd m) (open_count m).
Definition set_sensor_mclk x m := mk_mod (sensor_id m) x (power_on_count m) (mipi_on m) (ccir_clk m) (mipi_clk m) (cur_i2c_client m) (regulator m) (mem_buf m) (mem_size m) (mem_bytes m) (pin_main_reset m) (pin_sub_reset m) (pin_main_pd m) (pin_sub_pd m) (open_count m).
Definition set_power_on_count x m := mk_mod (sensor_id m) (sensor_mclk m) x (mipi_on m) (ccir_clk m) (mipi_clk m) (cur_i2c_client m) (regulator m) (mem_buf m) (mem_size m) (mem_bytes m) (pin_main_reset m) (pin_sub_reset m) (pin_main_pd m) (pin_sub_pd m) (open_count m).
Definition set_mipi_on x m := mk_mod (sensor_id m) (sensor_mclk m) (power_on_count m) x (ccir_clk m) (mipi_clk m) (cur_i2c_client m) (regulator m) (mem_buf m) (mem_size m) (mem_bytes m) (pin_main_reset m) (pin_sub_reset m) (pin_main_pd m) (pin_sub_pd m) (open_count m).
Definition set_ccir_clk x m := mk_mod (sensor_id m) (sensor_mclk m) (power_on_count m) (mipi_on m) x (mipi_clk m) (cur_i2c_client m) (regulator m) (mem_buf m) (mem_size m) (mem_bytes m) (pin_main_reset m) (pin_sub_reset m) (pin_main_pd m) (pin_sub_pd m) (open_count m).
Definition set_mipi_clk x m := mk_mod (sensor_id m) (sensor_mclk m) (power_on_count m) (mipi_on m) (ccir_clk m) x (cur_i2c_client m) (regulator m) (mem_buf m) (mem_size m) (mem_bytes m) (pin_main_reset m) (pin_sub_reset m) (pin_main_pd m) (pin_sub_pd m) (open_count m).
Definition set_cur_i2c_client x m := mk_mod (sensor_id m) (sensor_mclk m) (power_on_count m) (mipi_on m) (ccir_clk m) (mipi_clk m) x (regulator m) (mem_buf m) (mem_size m) (mem_bytes m) (pin_main_reset m) (pin_sub_reset m) (pin_main_pd m) (pin_sub_pd m) (open_count m).
Definition set_regulator x m := mk_mod (sensor_id m) (sensor_mclk m) (power_on_count m) (mipi_on m) (ccir_clk m) (mipi_clk m) (cur_i2c_client m) x (mem_buf m) (mem_size m) (mem_bytes m) (pin_main_reset m) (pin_sub_reset m) (pin_main_pd m) (pin_sub_pd m) (open_count m).
Definition set_mem_buf x m := mk_mod (sensor_id m) (sensor_mclk m) (power_on_count m) (mipi_on m) (ccir_clk m) (mipi_clk m) (cur_i2c_client m) (regulator m) x (mem_size m) (mem_bytes m) (pin_main_reset m) (pin_sub_reset m) (pin_main_pd m) (pin_sub_pd m) (open_count m).
Definition set_mem_size x m := mk_mod (sensor_id m) (sensor_mclk m) (power_on_count m) (mipi_on m) (ccir_clk m) (mipi_clk m) (cur_i2c_client m) (regulator m) (mem_buf m) x (mem_bytes m) (pin_main_reset m) (pin_sub_reset m) (pin_main_pd m) (pin_sub_pd m) (open_count m).
Definition set_mem_bytes x m := mk_mod (sensor_id m) (sensor_mclk m) (power_on_count m) (mipi_on m) (ccir_clk m) (mipi_clk m) (cur_i2c_client m) (regulator m) (mem_buf m) (mem_size m) x (pin_main_reset m) (pin_sub_reset m) (pin_main_pd m) (pin_sub_pd m) (open_count m).
Definition set_pin_main_reset x m := mk_mod (sensor_id m) (sensor_mclk m) (power_on_count m) (mipi_on m) (ccir_clk m) (mipi_clk m) (cur_i2c_client m) (regulator m) (mem_buf m) (mem_size m) (mem_bytes m) x (pin_sub_reset m) (pin_main_pd m) (pin_sub_pd m) (open_count m).
Definition set_pin_sub_reset x m := mk_mod (sensor_id m) (sensor_mclk m) (power_on_count m) (mipi_on m) (ccir_clk m) (mipi_clk m) (cur_i2c_client m) (regulator m) (mem_buf m) (mem_size m) (mem_bytes m) (pin_main_reset m) x (pin_main_pd m) (pin_sub_pd m) (open_count m).
Definition set_pin_main_pd x m := mk_mod (sensor_id m) (sensor_mclk m) (power_on_count m) (mipi_on m) (ccir_clk m) (mipi_clk m) (cur_i2c_client m) (regulator m) (mem_buf m) (mem_size m) (mem_bytes m) (pin_main_reset m) (pin_sub_reset m) x (pin_sub_pd m) (open_count m).
Definition set_pin_sub_pd x m := mk_mod (sensor_id m) (sensor_mclk m) (power_on_count m) (mipi_on m) (ccir_clk m) (mipi_clk m) (cur_i2c_client m) (regulator m) (mem_buf m) (mem_size m) (mem_bytes m) (pin_main_reset m) (pin_sub_reset m) (pin_main_pd m) x (open_count m).
Definition set_open_count x m := mk_mod (sensor_id m) (sensor_mclk m) (power_on_count m) (mipi_on m) (ccir_clk m) (mipi_clk m) (cur_i2c_client m) (regulator m) (mem_buf m) (mem_size m) (mem_bytes m) (pin_main_reset m) (pin_sub_reset m) (pin_main_pd m) (pin_sub_pd m) x.

Definition set_r_next x r := mk_regfw x (r_supply r) (r_use r) (r_volt r) (r_put r) (r_unbal r).
Definition set_r_supply x r := mk_regfw (r_next r) x (r_use r) (r_volt r) (r_put r) (r_unbal r).
Definition set_r_use x r := mk_regfw (r_next r) (r_supply r) x (r_volt r) (r_put r) (r_unbal r).
Definition set_r_volt x r := mk_regfw (r_next r) (r_supply r) (r_use r) x (r_put r) (r_unbal r).
Definition set_r_put x r := mk_regfw (r_next r) (r_supply r) (r_use r) (r_volt r) x (r_unbal r).
Definition set_r_unbal x r := mk_regfw (r_next r) (r_supply r) (r_use r) (r_volt r) (r_put r) x.

Definition set_c_next x c := mk_clkfw x (c_name c) (c_en c) (c_parent c) (c_rate c) (c_put c) (c_unbal c).
Definition set_c_name x c := mk_clkfw (c_next c) x (c_en c) (c_parent c) (c_rate c) (c_put c) (c_unbal c).
Definition set_c_en x c := mk_clkfw (c_next c) (c_name c) x (c_parent c) (c_rate c) (c_put c) (c_unbal c).
Definition set_c_parent x c := mk_clkfw (c_next c) (c_name c) (c_en c) x (c_rate c) (c_put c) (c_unbal c).
Definition set_c_rate x c := mk_clkfw (c_next c) (c_name c) (c_en c) (c_parent c) x (c_put c) (c_unbal c).
Definition set_c_put x c := mk_clkfw (c_next c) (c_name c) (c_en c) (c_parent c) (c_rate c) x (c_unbal c).
Definition set_c_unbal x c := mk_clkfw (c_next c) (c_name c) (c_en c) (c_parent c) (c_rate c) (c_put c) x.


Definition map_valid fn s := mk_w (fn (w_valid s)) (w_mod s) (w_reg s) (w_clk s) (w_gpio s) (w_held s) (w_io s) (w_ans s) (w_rd s) (w_t s) (w_fault s).
Definition map_mod fn s := mk_w (w_valid s) (fn (w_mod s)) (w_reg s) (w_clk s) (w_gpio s) (w_held s) (w_io s) (w_ans s) (w_rd s) (w_t s) (w_fault s).
Definition map_reg fn s := mk_w (w_valid s) (w_mod s) (fn (w_reg s)) (w_clk s) (w_gpio s) (w_held s) (w_io s) (w_ans s) (w_rd s) (w_t s) (w_fault s).
Definition map_clk fn s := mk_w (w_valid s) (w_mod s) (w_reg s) (fn (w_clk s)) (w_gpio s) (w_held s) (w_io s) (w_ans s) (w_rd s) (w_t s) (w_fault s).
Definition map_gpio fn s := mk_w (w_valid s) (w_mod s) (w_reg s) (w_clk s) (fn (w_gpio s)) (w_held s) (w_io s) (w_ans s) (w_rd s) (w_t s) (w_fault s).
Definition map_held fn s := mk_w (w_valid s) (w_mod s) (w_reg s) (w_clk s) (w_gpio s) (fn (w_held s)) (w_io s) (w_ans s) (w_rd s) (w_t s) (w_fault s).
Definition map_io fn s := mk_w (w_valid s) (w_mod s) (w_reg s) (w_clk s) (w_gpio s) (w_held s) (fn (w_io s)) (w_ans s) (w_rd s) (w_t s) (w_fault s).
Definition map_ans fn s := mk_w (w_valid s) (w_mod s) (w_reg s) (w_clk s) (w_gpio s) (w_held s) (w_io s) (fn (w_ans s)) (w_rd s) (w_t s) (w_fault s).
Definition map_rd fn s := mk_w (w_valid s) (w_mod s) (w_reg s) (w_clk s) (w_gpio s) (w_held s) (w_io s) (w_ans s) (fn (w_rd s)) (w_t s) (w_fault s).
Definition map_t fn s := mk_w (w_valid s) (w_mod s) (w_reg s) (w_clk s) (w_gpio s) (w_held s) (w_io s) (w_ans s) (w_rd s) (fn (w_t s)) (w_fault s).
Definition map_fault fn s := mk_w (w_valid s) (w_mod s) (w_reg s) (w_clk s) (w_gpio s) (w_held s) (w_io s) (w_ans s) (w_rd s) (w_t s) (fn (w_fault s)).

Definition upd {A B} `{EqDecision A} (f : A -> B) (a : A) (b : B) : A -> B :=
  fun x => if decide (x = a) then b else f x.

(** ** The state monad *)

Definition M (A : Type) : Type := world -> A * world.

Definition bind {A B} (m : M A) (k : A -> M B) : M B :=
  fun w => let '(a, w') := m w in k a w'.
Definition ret {A} (a : A) : M A := fun w => (a, w).

Declare Scope sn_scope.
Delimit Scope sn_scope with sn.
Notation "'let*' x := m 'in' k" := (bind m (fun x => k))
  (at level 10, x name, m at level 100, k at level 200) : sn_scope.
Notation "m ;; k" := (bind m (fun _ => k)) (at level 100, right associativity) : sn_scope.
Open Scope sn_scope.

Definition gets {A} (f : world -> A) : M A := fun w => (f w, w).
Definition modify (f : world -> world) : M unit := fun w => (tt, f w).
Definition modify_mod (f : sensor_module -> sensor_module) : M unit := modify (map_mod f).
Definition get_mod : M sensor_module := gets w_mod.
Definition fault : M unit := modify (map_fault (fun _ => true)).
Definition emit (e : io_ev) : M unit := modify (map_io (fun l => l ++ [e])).

(** The next answer of the kernel or the hardware. *)
Definition ask : M Z := fun w => (w_ans w (w_t w), map_t S w).

(** ** Kernel services (Linux 3.10) *)

Definition handle_supply (w : world) (p : kptr) : option string :=
  match p with KHandle n => Some (r_supply (w_reg w) n) | _ => None end.

(** [regulator_get]: a new consumer handle of the supply, or
    [ERR_PTR] when the answer is negative. *)
Definition regulator_get (name : string) : M kptr :=
  let* a := ask in
  if a <? 0 then ret (KErr a) else
  fun w => let n := r_next (w_reg w) in
    (KHandle n, map_reg (fun r => set_r_next (S n) (set_r_supply (upd (r_supply r) n name) r)) w).

(** The supply a handle names; any other pointer is dereferenced by
    the regulator core, a fault. *)
Definition with_supply (p : kptr) (k : string -> M Z) : M Z :=
  let* s := gets (fun w => handle_supply w p) in
  match s with Some s => k s | None => fault ;; ret (- EINVAL) end.

Definition regulator_set_voltage (p : kptr) (min_uV max_uV : Z) : M Z :=
  with_supply p (fun s =>
    let* a := ask in
    if a =? 0 then modify (map_reg (fun r => set_r_volt (upd (r_volt r) s min_uV) r)) ;; ret 0
    else ret a).

(** [regulator_enable]: [_regulator_enable] raises [use_count] when
    it succeeds. *)
Definition regulator_enable (p : kptr) : M Z :=
  with_supply p (fun s =>
    let* a := ask in
    if a =? 0 then modify (map_reg (fun r => set_r_use (upd (r_use r) s (r_use r s + 1)) r)) ;; ret 0
    else ret a).

(** [regulator_disable]: [_regulator_disable] warns "unbalanced
    disables" and returns [-EIO] when [use_count] is 0. *)
Definition regulator_disable (p : kptr) : M Z :=
  with_supply p (fun s =>
    let* u := gets (fun w => r_use (w_reg w) s) in
    if 0 <? u then modify (map_reg (fun r => set_r_use (upd (r_use r) s (u - 1)) r)) ;; ret 0
    else modify (map_reg (fun r => set_r_unbal (r_unbal r ++ [s]) r)) ;; ret (- EIO)).

(** [regulator_put] ignores NULL and error pointers. *)
Definition regulator_put (p : kptr) : M unit :=
  match p with
  | KHandle n => modify (map_reg (fun r => set_r_put (r_put r ++ [n]) r))
  | _ => ret tt
  end.

(** [clk_get] and [parse_clk]: a handle of the named clock, or
    [ERR_PTR] when the answer is negative; neither returns NULL. *)
Definition clk_get (name : string) : M kptr :=
  let* a := ask in
  if a <? 0 then ret (KErr a) else
  fun w => let n := c_next (w_clk w) in
    (KHandle n, map_clk (fun c => set_c_next (S n) (set_c_name (upd (c_name c) n name) c)) w).

Definition clk_name (w : world) (p : kptr) : option string :=
  match p with KHandle n => Some (c_name (w_clk w) n) | _ => None end.

(** The clock calls: NULL is a no-op, an error pointer a fault. *)
Definition with_clk (p : kptr) (k : string -> M Z) : M Z :=
  match p with
  | KNull => ret 0
  | KErr _ => fault ;; ret (- EINVAL)
  | KHandle _ => let* c := gets (fun w => clk_name w p) in
                 match c with Some c => k c | None => ret 0 end
  end.

Definition clk_enable (p : kptr) : M Z :=
  with_clk p (fun c =>
    let* a := ask in
    if a =? 0 then modify (map_clk (fun k => set_c_en (upd (c_en k) c (c_en k c + 1)) k)) ;; ret 0
    else ret a).

Definition clk_disable (p : kptr) : M unit :=
  with_clk p (fun c =>
    let* u := gets (fun w => c_en (w_clk w) c) in
    if 0 <? u then modify (map_clk (fun k => set_c_en (upd (c_en k) c (u - 1)) k)) ;; ret 0
    else modify (map_clk (fun k => set_c_unbal (c_unbal k ++ [c]) k)) ;; ret 0) ;; ret tt.

Definition clk_put (p : kptr) : M unit :=
  match p with
  | KHandle n => modify (map_clk (fun c => set_c_put (c_put c ++ [n]) c))
  | _ => ret tt
  end.

Definition clk_set_parent (p parent : kptr) : M Z :=
  with_clk p (fun c =>
    let* pn := gets (fun w => clk_name w parent) in
    match pn with
    | None => fault ;; ret (- EINVAL)
    | Some pn =>
      let* a := ask in
      if a =? 0 then modify (map_clk (fun k => set_c_parent (upd (c_parent k) c pn) k)) ;; ret 0
      else ret a
    end).

Definition clk_set_rate (p : kptr) (rate : Z) : M Z :=
  with_clk p (fun c =>
    let* a := ask in
    if a =? 0 then modify (map_clk (fun k => set_c_rate (upd (c_rate k) c rate) k)) ;; ret 0
    else ret a).

(** GPIO outputs: the level driven, 0 or 1. *)
Definition gpio_set_value (pin v : Z) : M unit :=
  modify (map_gpio (fun g => upd g pin (if v =? 0 then 0 else 1))).
Definition gpio_direction_output (pin v : Z) : M unit := gpio_set_value pin v.

Definition msleep (ms : Z) : M unit := emit (Msleep ms).
Definition mdelay (ms : Z) : M unit := emit (Mdelay ms).

(** [i2c_transfer]: the answer, and the bytes a read message gets. *)
Definition i2c_transfer (msgs : list i2c_msg) : M (Z * (nat -> Z)) :=
  emit (Xfer msgs) ;;
  fun w => ((w_ans w (w_t w), fun k => w_rd w (w_t w) k mod 256), map_t S w).

(** [copy_from_user] and [copy_to_user]: the number of bytes not
    copied, between 0 and the size. *)
Definition copy_user (size : Z) : M Z :=
  let* a := ask in ret (if (0 <=? a) && (a <=? size) then a else size).

(** [SENSOR_CHECK_ZERO] (lines 172-179). *)
Definition SENSOR_CHECK_ZERO (k : M Z) : M Z :=
  let* v := gets w_valid in if v then k else ret (- EFAULT).

(** [vzalloc]: whether the allocation succeeds.  A request of 0 bytes
    fails ([__vmalloc_node_range] refuses a zero size); any other may
    fail, as the kernel answers. *)
Definition vzalloc (size : Z) : M bool :=
  if size =? 0 then ret false else let* a := ask in ret (0 <=? a).

(** ** The module's own helpers (lines 245-359 and 1020-1091) *)

(** [_sensor_k_kmalloc] (lines 245-275): the one buffer of the module,
    kept between calls with its contents and reallocated (zeroed by
    [vzalloc]) when a larger one is asked; the result says whether a
    buffer is returned. *)
Definition _sensor_k_kmalloc (size : Z) : M bool :=
  let* v := gets w_valid in
  if negb v then ret false else
  let* m := get_mod in
  if negb (mem_buf m) then
    let* ok := vzalloc size in
    modify_mod (set_mem_buf ok) ;;
    (if ok then modify_mod (set_mem_size size) ;; modify_mod (set_mem_bytes (fun _ => 0))
     else ret tt) ;;
    ret ok
  else if size <=? mem_size m then ret true
  else
    modify_mod (set_mem_buf false) ;; modify_mod (set_mem_size 0) ;;
    let* ok := vzalloc size in
    modify_mod (set_mem_buf ok) ;;
    (if ok then modify_mod (set_mem_size size) ;; modify_mod (set_mem_bytes (fun _ => 0))
     else ret tt) ;;
    ret ok.

(** [_sensor_K_get_curId] (lines 290-294): the check returns
    [-EFAULT] through a [uint32_t]. *)
Definition _sensor_K_get_curId : M Z :=
  let* v := gets w_valid in
  if v then gets (fun w => sensor_id (w_mod w)) else ret ((- EFAULT) mod 2 ^ 32).

(** [sensor_probe] (lines 295-315), the I2C driver's probe: the
    answer is [i2c_check_functionality]. *)
Definition sensor_probe (client_addr : Z) : M Z :=
  SENSOR_CHECK_ZERO (
    let* f := ask in
    if f =? 0 then ret (- ENODEV)
    else modify_mod (set_cur_i2c_client (Some client_addr)) ;; ret 0).

(** The pin of the current camera, chosen by [switch
    (_sensor_K_get_curId())] with no action for other values. *)
Definition cur_pin (main sub : sensor_module -> Z) (k : Z -> M unit) : M unit :=
  let* id := _sensor_K_get_curId in
  let* m := get_mod in
  if id =? SENSOR_MAIN then k (main m)
  else if id =? SENSOR_SUB then k (sub m)
  else ret tt.

(** [sensor_k_set_pd_level] (lines 330-359). *)
Definition sensor_k_set_pd_level (power_level : Z) : M Z :=
  cur_pin pin_main_pd pin_sub_pd (fun pin =>
    gpio_direction_output pin (if power_level =? 0 then 0 else 1)) ;;
  ret SENSOR_K_SUCCESS.

(** [_sensor_k_reset] (lines 1020-1048): a pulse of [width] ms. *)
Definition _sensor_k_reset (level width : Z) : M Z :=
  cur_pin pin_main_reset pin_sub_reset (fun pin =>
    gpio_direction_output pin level ;; gpio_set_value pin level ;;
    msleep width ;; gpio_set_value pin (if level =? 0 then 1 else 0) ;; mdelay 1) ;;
  ret SENSOR_K_SUCCESS.

(** [sensor_k_sensor_sel] and [sensor_k_sensor_desel] (lines 1050-1066). *)
Definition sensor_k_sensor_sel (sensor_id : Z) : M Z :=
  SENSOR_CHECK_ZERO (modify_mod (set_sensor_id sensor_id) ;; ret SENSOR_K_SUCCESS).
Definition sensor_k_sensor_desel (sensor_id : Z) : M Z :=
  SENSOR_CHECK_ZERO (modify_mod (set_sensor_id SENSOR_ID_MAX) ;; ret SENSOR_K_SUCCESS).

(** [sensor_k_set_rst_level] (lines 1068-1091). *)
Definition sensor_k_set_rst_level (plus_level : Z) : M Z :=
  cur_pin pin_main_reset pin_sub_reset (fun pin =>
    gpio_direction_output pin plus_level ;; gpio_set_value pin plus_level) ;;
  ret SENSOR_K_SUCCESS.

(** Every answer of the kernel is 0: each call succeeds. *)
Definition services_ok (w : world) : Prop := forall n, w_ans w n = 0.

(** A computation whose every run is a step of the preorder [R]: a
    frame property of the operations. *)
Definition preserves (R : relation world) {A} (c : M A) : Prop := forall w, R w (c w).2.

(** The fault flag is never cleared: once a stray access has happened,
    it stays recorded. *)
Definition fault_kept : relation world := fun w w' => w_fault w = true -> w_fault w' = true.

(** The regulator framework is not touched. *)
Definition reg_kept : relation world := fun w w' => w_reg w' = w_reg w.

Notation keeps_fault := (preserves fault_kept).
Notation keeps_reg := (preserves reg_kept).

(** ** Lemmas and tactics shared by the sensor files *)

Lemma upd_hit {A B} `{EqDecision A} (f : A -> B) a b : upd f a b a = b.
Proof. unfold upd. by rewrite decide_True. Qed.

Lemma upd_miss {A B} `{EqDecision A} (f : A -> B) a b x : x <> a -> upd f a b x = f x.
Proof. intros H. unfold upd. by rewrite decide_False. Qed.

Create Rewrite HintDb sensor.
#[export] Hint Rewrite @upd_hit : sensor.

#[export] Instance fault_kept_preorder : PreOrder fault_kept.
Proof. split; [by intros w H | intros a b c H1 H2 H; auto]. Qed.

#[export] Instance reg_kept_preorder : PreOrder reg_kept.
Proof. split; [by intros w | intros a b c H1 H2; unfold reg_kept in *; congruence]. Qed.

Section preserves.
Context (R : relation world) `{!PreOrder R}.

Lemma pres_bind {A B} (c : M A) (f : A -> M B) :
  preserves R c -> (forall x, preserves R (f x)) -> preserves R (bind c f).
Proof.
  intros Hc Hf w. unfold bind. specialize (Hc w). destruct (c w) as [x w'].
  etrans; [exact Hc | apply Hf].
Qed.
Lemma pres_ret {A} (a : A) : preserves R (ret a).
Proof. intros w. reflexivity. Qed.
Lemma pres_gets {A} (f : world -> A) : preserves R (gets f).
Proof. intros w. reflexivity. Qed.
Lemma pres_if {A} (b : bool) (c1 c2 : M A) :
  preserves R c1 -> preserves R c2 -> preserves R (if b then c1 else c2).
Proof. by destruct b. Qed.
Lemma pres_modify (f : world -> world) : (forall w, R w (f w)) -> preserves R (modify f).
Proof. intros Hf w. apply Hf. Qed.
Lemma pres_ask : (forall w, R w (map_t S w)) -> preserves R ask.
Proof. intros H w. apply H. Qed.
Lemma pres_i2c_transfer msgs :
  (forall w, R w (map_t S (map_io (fun l => l ++ [Xfer msgs]) w))) -> preserves R (i2c_transfer msgs).
Proof. intros H w. apply H. Qed.

End preserves.

(** A computation that faults, followed by anything that keeps the
    flag, ends faulted. *)
Lemma fault_bind {A B} (c : M A) (f : A -> M B) w :
  w_fault (c w).2 = true -> (forall x, keeps_fault (f x)) -> w_fault (bind c f w).2 = true.
Proof. intros Hc Hf. unfold bind. destruct (c w) as [x w']. by apply Hf. Qed.

Create HintDb pres.

(** The step a service takes is one of [R]: the fields [R] reads are
    projections of the unchanged world. *)
Ltac pres_side := intros ?; hnf; cbn; first [reflexivity | intros ?; first [assumption | reflexivity]].

(** Prove [preserves R] of a composed computation: through binds,
    conditionals and matches on an option down to the services. *)
Ltac pres_solve :=
  repeat first
    [ solve [eauto with pres]
    | apply pres_i2c_transfer; try typeclasses eauto; pres_side
    | apply pres_ask; try typeclasses eauto; pres_side
    | apply pres_modify; try typeclasses eauto; pres_side
    | apply pres_bind; try typeclasses eauto
    | apply pres_if
    | apply pres_ret; typeclasses eauto
    | apply pres_gets; typeclasses eauto
    | match goal with |- preserves _ (match ?o with _ => _ end) => destruct o end
    | match goal with |- forall _, _ => intro end ].

(** Unfold the monad and the services, and read the fields. *)
Ltac sn_unfold :=
  unfold bind, ret, gets, modify, modify_mod, get_mod, fault, emit, ask,
    SENSOR_CHECK_ZERO;
  cbn -[upd].

(** Run a computation on an abstract state: rewrite with the facts
    [tac] gives, read the updated fields, reduce, until nothing moves. *)
Ltac sn_exec tac := repeat progress (tac; rewrite ?upd_hit; cbn -[upd]).

(** ** Sample states for the examples *)

(** The module [sensor_k_init] allocates, with nothing open. *)
Definition mod0 : sensor_module :=
  mk_mod SENSOR_ID_MAX 0 (fun _ => 0) 0 KNull KNull None (fun _ => KNull) false 0 (fun _ => 0)
    0 0 0 0 0.
Definition regfw0 : regfw := mk_regfw 0 (fun _ => EmptyString) (fun _ => 0) (fun _ => 0) [] [].
Definition clkfw0 : clkfw :=
  mk_clkfw 0 (fun _ => EmptyString) (fun _ => 0) (fun _ => EmptyString) (fun _ => 0) [] [].

(** A world with module [m], clocks [c] and kernel answers [ans]. *)
Definition world0 (m : sensor_module) (c : clkfw) (ans : nat -> Z) : world :=
  mk_w true m regfw0 c (fun _ => 0) [] [] ans (fun _ _ => 0) 0 false.

End SensorDrv.
