(* ===== verification/SensorPower.v ===== *)
(** * Camera sensor driver: supplies and clocks

    The power side of [src/drivers/media/sprd_sensor/sensor_drv_k.c]:
    the regulator helpers and the four [sensor_k_set_voltage_*]
    functions (lines 361-867, the KIRAN variant of the DVDD one), the
    master-clock source selection [_select_sensor_mclk], the MIPI clock
    and [sensor_k_set_mclk] (lines 869-1018).  They run in the state
    monad of [SensorDrv]; the regulator and clock frameworks count
    enables per supply and per clock, as Linux 3.10 does. *)

From S2P Require Import Prelude.
From S2P Require Import SensorDrv.

Module SensorPower.
Import SensorDrv.

Local Open Scope Z_scope.
Local Open Scope sn_scope.

(** ** The regulator helpers (lines 361-392) *)

Definition set_rail_reg (rl : rail) (p : kptr) : M unit :=
  modify_mod (fun m => set_regulator (upd (regulator m) rl p) m).

Definition set_rail_count (rl : rail) (n : Z) : M unit :=
  modify_mod (fun m => set_power_on_count (upd (power_on_count m) rl n) m).

(** [_sensor_regulator_disable] (lines 361-375). *)
Definition _sensor_regulator_disable (rl : rail) : M unit :=
  let* v := gets w_valid in
  if negb v then ret tt else
  let* m := get_mod in
  if 0 <? power_on_count m rl then
    regulator_disable (regulator m rl) ;; set_rail_count rl (power_on_count m rl - 1)
  else ret tt.

(** [_sensor_regulator_enable] (lines 377-392): the count is raised
    whatever [regulator_enable] answers. *)
Definition _sensor_regulator_enable (rl : rail) : M Z :=
  SENSOR_CHECK_ZERO (
    let* m := get_mod in
    let* err := regulator_enable (regulator m rl) in
    set_rail_count rl ((power_on_count m rl + 1) mod 2 ^ 32) ;;
    ret err).

(** ** Setting a supply (lines 394-867) *)

(** The [case]s of each [switch (..._val)] on [CONFIG_ARCH_SCX35], as
    the voltage in microvolts, 0 for [SENSOR_VDD_CLOSED],
    [SENSOR_VDD_UNUSED] and [default]. *)
Definition cammot_volt (v : sensor_vdd) : Z :=
  match v with
  | SENSOR_VDD_2800MV => SENSOER_VDD 2800 | SENSOR_VDD_3000MV => SENSOER_VDD 3000
  | SENSOR_VDD_3300MV => SENSOER_VDD 3300 | SENSOR_VDD_1800MV => SENSOER_VDD 1800
  | _ => 0
  end.

Definition avdd_volt (v : sensor_vdd) : Z :=
  match v with
  | SENSOR_VDD_2800MV => SENSOER_VDD 2800 | SENSOR_VDD_3000MV => SENSOER_VDD 3000
  | SENSOR_VDD_2500MV => SENSOER_VDD 2500 | SENSOR_VDD_1800MV => SENSOER_VDD 1800
  | _ => 0
  end.

Definition dvdd_volt (v : sensor_vdd) : Z :=
  match v with
  | SENSOR_VDD_1200MV => SENSOER_VDD 1200 | SENSOR_VDD_1800MV => SENSOER_VDD 1800
  | SENSOR_VDD_1500MV => SENSOER_VDD 1500 | SENSOR_VDD_1300MV => SENSOER_VDD 1300
  | _ => 0
  end.

Definition iovdd_volt (v : sensor_vdd) : Z :=
  match v with
  | SENSOR_VDD_2800MV => SENSOER_VDD 2800 | SENSOR_VDD_2500MV => SENSOER_VDD 2500
  | SENSOR_VDD_1500MV => SENSOER_VDD 1500 | SENSOR_VDD_1800MV => SENSOER_VDD 1800
  | _ => 0
  end.

(** The [switch]: [regulator_set_voltage] for a voltage, nothing for
    the others; the pair is [(err, volt_value)]. *)
Definition set_voltage_switch (rl : rail) (volt : Z) : M (Z * Z) :=
  if volt =? 0 then ret (0, 0) else
  let* m := get_mod in
  let* err := regulator_set_voltage (regulator m rl) volt volt in
  ret (err, volt).

(** What follows the [switch] in each of the four functions (lines
    458-479 in [sensor_k_set_voltage_cammot]). *)
Definition sensor_k_set_voltage_tail (rl : rail) (err volt : Z) : M Z :=
  if negb (err =? 0) then ret SENSOR_K_FAIL else
  if negb (volt =? 0) then
    let* err := _sensor_regulator_enable rl in
    if negb (err =? 0) then
      let* m := get_mod in
      regulator_put (regulator m rl) ;; set_rail_reg rl KNull ;; ret SENSOR_K_FAIL
    else ret SENSOR_K_SUCCESS
  else
    _sensor_regulator_disable rl ;;
    let* m := get_mod in
    regulator_put (regulator m rl) ;; set_rail_reg rl KNull ;; ret SENSOR_K_SUCCESS.

(** The [regulator_get] of a pointer that is NULL; an error pointer
    stays in the field. *)
Definition get_if_null (rl : rail) (name : string) (k : M Z) : M Z :=
  let* m := get_mod in
  match regulator m rl with
  | KNull =>
    let* p := regulator_get name in
    set_rail_reg rl p ;;
    if IS_ERR p then ret SENSOR_K_FAIL else k
  | _ => k
  end.

Definition set_voltage_rail (rl : rail) (name : string) (volt : Z) : M Z :=
  SENSOR_CHECK_ZERO (
    get_if_null rl name (
      let* ev := set_voltage_switch rl volt in
      sensor_k_set_voltage_tail rl ev.1 ev.2)).

(** [sensor_k_set_voltage_cammot] (lines 394-480). *)
Definition sensor_k_set_voltage_cammot (cammot_val : sensor_vdd) : M Z :=
  set_voltage_rail CAMMOT REGU_NAME_CAMMOT (cammot_volt cammot_val).

(** [sensor_k_set_voltage_avdd] (lines 482-556). *)
Definition sensor_k_set_voltage_avdd (avdd_val : sensor_vdd) : M Z :=
  set_voltage_rail CAMAVDD REGU_NAME_CAMAVDD (avdd_volt avdd_val).

(** [sensor_k_set_voltage_iovdd] (lines 769-867). *)
Definition sensor_k_set_voltage_iovdd (iodd_val : sensor_vdd) : M Z :=
  set_voltage_rail CAMVIO REGU_NAME_CAMVIO (iovdd_volt iodd_val).

(** The [switch (sensor_id)] of the KIRAN DVDD function (lines
    566-582): the supply of the camera. *)
Definition dvdd_name (sensor_id : Z) : string :=
  if sensor_id =? SENSOR_MAIN then REGU_NAME_CAMDVDD
  else if sensor_id =? SENSOR_SUB then REGU_NAME_SUB_CAMDVDD
  else REGU_NAME_CAMDVDD.

(** [sensor_k_set_voltage_dvdd] of [CONFIG_MACH_KIRAN] (lines
    558-661): a new [regulator_get] at every call, of the supply of the
    camera named by the argument, overwriting the pointer. *)
Definition sensor_k_set_voltage_dvdd (dvdd_val : sensor_vdd) (sensor_id : Z) : M Z :=
  SENSOR_CHECK_ZERO (
    let* p := regulator_get (dvdd_name sensor_id) in
    set_rail_reg CAMDVDD p ;;
    if IS_ERR p then ret SENSOR_K_FAIL else
    let* ev := set_voltage_switch CAMDVDD (dvdd_volt dvdd_val) in
    sensor_k_set_voltage_tail CAMDVDD ev.1 ev.2).

(** ** The master clock (lines 869-1018) *)

(** [c_sensor_mclk_tab] (lines 226-231). *)
Definition c_sensor_mclk_tab : list (Z * string) :=
  [(96, "clk_96m"); (77, "clk_76m8"); (48, "clk_48m"); (26, "ext_26m")].

Definition mclk_clock (j : nat) : Z :=
  match c_sensor_mclk_tab !! j with Some (c, _) => c | None => 0 end.
Definition mclk_src_name (j : nat) : string :=
  match c_sensor_mclk_tab !! j with Some (_, n) => n | None => "ext_26m" end.

(** The inner loop of [_select_sensor_mclk] (lines 890-896) from
    [j], with [(src_delta_min, mark_src_tmp)]. *)
Fixpoint src_loop (clk_tmp : Z) (j : nat) (n : nat) (best : Z * nat) : Z * nat :=
  match n with
  | O => best
  | S n' =>
    let src_delta := ABS (mclk_clock j - clk_tmp) in
    src_loop clk_tmp (S j) n' (if src_delta <? best.1 then (src_delta, j) else best)
  end.

(** The outer loop (lines 887-902) from [i], with [mark_src_tmp],
    which keeps its value between iterations, and
    [(div_delta_min, mark_src, mark_div)]. *)
Fixpoint div_loop (clk_set : Z) (i : nat) (n : nat) (mark_src_tmp : nat)
    (best : Z * nat * nat) : Z * nat * nat :=
  match n with
  | O => best
  | S n' =>
    let clk_tmp := clk_set * (Z.of_nat i + 1) in
    let '(src_delta_min, mst) := src_loop clk_tmp 0 SENSOR_MCLK_SRC_NUM (NUMBER_MAX, mark_src_tmp) in
    div_loop clk_set (S i) n' mst
      (if src_delta_min <? best.1.1 then (src_delta_min, mst, i) else best)
  end.

(** [_select_sensor_mclk] (lines 869-910): the return code and
    the values stored through [clk_src_name] and [clk_div], two locals of the
    caller, never NULL. *)
Definition _select_sensor_mclk (clk_set : Z) : M (Z * option (string * Z)) :=
  let* v := gets w_valid in
  if negb v then ret (- EFAULT, None) else
  if clk_set >? 96 then ret (SENSOR_K_FAIL, None) else
  let '(_, mark_src, mark_div) := div_loop clk_set 0 SENSOR_MCLK_DIV_MAX 0 (NUMBER_MAX, 0%nat, 0%nat) in
  ret (SENSOR_K_SUCCESS, Some (mclk_src_name mark_src, Z.of_nat mark_div + 1)).

(** [_sensor_k_mipi_clk_en] (lines 912-934); [parse_clk] is a
    [clk_get] of the device-tree clock. *)
Definition _sensor_k_mipi_clk_en : M Z :=
  SENSOR_CHECK_ZERO (
    let* m := get_mod in
    (match mipi_clk m with
     | KNull => let* p := clk_get "clk_dcam_mipi" in modify_mod (set_mipi_clk p)
     | _ => ret tt
     end) ;;
    let* m := get_mod in
    if IS_ERR (mipi_clk m) then ret (-1) else
    let* r := clk_enable (mipi_clk m) in
    if negb (r =? 0) then ret (-1) else ret r).

(** [_sensor_k_mipi_clk_dis] (lines 936-946): any pointer that is not
    NULL is disabled and put, an error pointer included. *)
Definition _sensor_k_mipi_clk_dis : M Z :=
  SENSOR_CHECK_ZERO (
    let* m := get_mod in
    match mipi_clk m with
    | KNull => ret 0
    | p => clk_disable p ;; clk_put p ;; modify_mod (set_mipi_clk KNull) ;; ret 0
    end).

(** The part of [sensor_k_set_mclk] after the old clock is disabled
    (lines 967-1003); [clk_get]'s result is only tested against NULL. *)
Definition set_mclk_source (mclk : Z) : M Z :=
  let* sel := _select_sensor_mclk (mclk mod 256) in
  match sel with
  | (r, Some (clk_src_name, _)) =>
    if negb (r =? SENSOR_K_SUCCESS) then ret (- EINVAL) else
    let* clk_parent := clk_get clk_src_name in
    match clk_parent with
    | KNull => ret (- EINVAL)
    | _ =>
      let* m := get_mod in
      let* r := clk_set_parent (ccir_clk m) clk_parent in
      if negb (r =? 0) then ret (- EINVAL) else
      let* r := clk_set_rate (ccir_clk m) (mclk * SENOR_CLK_M_VALUE) in
      if negb (r =? 0) then ret (- EINVAL) else
      clk_enable (ccir_clk m) ;;
      modify_mod (set_sensor_mclk mclk) ;;
      ret 0
    end
  | (_, None) => ret (- EINVAL)
  end.

(** [sensor_k_set_mclk] (lines 948-1018). *)
Definition sensor_k_set_mclk (mclk : Z) : M Z :=
  SENSOR_CHECK_ZERO (
    let* m := get_mod in
    if negb (mclk =? 0) && negb (sensor_mclk m =? mclk) then
      let mclk := if mclk >? SENSOR_MAX_MCLK then SENSOR_MAX_MCLK else mclk in
      (if negb (sensor_mclk m =? 0) then clk_disable (ccir_clk m) else ret tt) ;;
      set_mclk_source mclk
    else if mclk =? 0 then
      (if negb (sensor_mclk m =? 0) then
         (match ccir_clk m with KNull => ret tt | p => clk_disable p end) ;;
         modify_mod (set_sensor_mclk 0)
       else ret tt) ;;
      ret 0
    else ret 0).

(** ** Specifications *)

(** How far divider [div] of source [src] is from the clock asked. *)
Definition mclk_delta (clk_set : Z) (src div : nat) : Z :=
  ABS (mclk_clock src - clk_set * Z.of_nat div).

(** The pointer of a rail is NULL or a handle of its supply. *)
Definition rail_ptr_ok (w : world) (rl : rail) (name : string) : Prop :=
  regulator (w_mod w) rl = KNull \/
  exists h, regulator (w_mod w) rl = KHandle h /\ (h < r_next (w_reg w))%nat /\
    r_supply (w_reg w) h = name.

(** The [*power_on_count] after a request of [volt] from [cnt]. *)
Definition rail_count' (volt cnt : Z) : Z :=
  if volt =? 0 then (if 0 <? cnt then cnt - 1 else cnt) else cnt + 1.

(** The [use_count] of each camera supply is the sum of the counts of
    the rails that name it; the DVDD rail's count is shared by the two
    supplies the KIRAN [sensor_k_set_voltage_dvdd] may name. *)
Definition supply_inv (w : world) : Prop :=
  let cnt := power_on_count (w_mod w) in
  let use := r_use (w_reg w) in
  (forall rl, 0 <= cnt rl) /\
  use REGU_NAME_CAMVIO = cnt CAMVIO /\
  use REGU_NAME_CAMAVDD = cnt CAMMOT + cnt CAMAVDD /\
  use REGU_NAME_CAMDVDD + use REGU_NAME_SUB_CAMDVDD = cnt CAMDVDD /\
  0 <= use REGU_NAME_CAMDVDD /\ 0 <= use REGU_NAME_SUB_CAMDVDD /\
  rail_ptr_ok w CAMVIO REGU_NAME_CAMVIO /\ rail_ptr_ok w CAMAVDD REGU_NAME_CAMAVDD /\
  rail_ptr_ok w CAMMOT REGU_NAME_CAMMOT.

(** The master clock is a handle of [SENSOR_CLK], enabled once while
    [sensor_mclk] is set and not at all otherwise. *)
Definition mclk_inv (w : world) : Prop :=
  exists n, ccir_clk (w_mod w) = KHandle n /\ (n < c_next (w_clk w))%nat /\
    c_name (w_clk w) n = SENSOR_CLK /\ 0 <= sensor_mclk (w_mod w) <= SENSOR_MAX_MCLK /\
    c_en (w_clk w) SENSOR_CLK = (if sensor_mclk (w_mod w) =? 0 then 0 else 1).

(** ** The master-clock choice is the best one *)


Lemma ABS_nonneg a : 0 <= ABS a.
Proof. unfold ABS. destruct (Z.ltb_spec 0 a); lia. Qed.

Lemma mclk_clock_bound j : 0 <= mclk_clock j <= 96.
Proof.
  unfold mclk_clock. destruct (c_sensor_mclk_tab !! j) as [[c n]|] eqn:E; [|lia].
  apply list_elem_of_lookup_2 in E. unfold c_sensor_mclk_tab in E.
  repeat (apply elem_of_cons in E as [E|E]; [injection E as -> ->; lia|]).
  by apply elem_of_nil in E.
Qed.

Lemma mclk_delta_small c s d : 0 <= c <= 96 -> (d <= 4)%nat -> mclk_delta c s d < NUMBER_MAX.
Proof.
  intros Hc Hd. unfold mclk_delta, ABS, NUMBER_MAX.
  pose proof (mclk_clock_bound s). destruct (Z.ltb_spec 0 (mclk_clock s - c * Z.of_nat d)); nia.
Qed.

(** The inner loop keeps the first source of least distance. *)
Lemma src_loop_spec t j n best :
  let r := src_loop t j n best in
  r.1 <= best.1 /\
  (r = best \/ (j <= r.2 < j + n)%nat /\ r.1 = ABS (mclk_clock r.2 - t)) /\
  (forall k, (j <= k < j + n)%nat -> r.1 <= ABS (mclk_clock k - t)).
Proof.
  revert j best. induction n as [|n IH]; intros j best; cbn.
  - split; [lia|]. split; [by left|]. intros; lia.
  - destruct (IH (S j) (if ABS (mclk_clock j - t) <? best.1 then (ABS (mclk_clock j - t), j) else best))
      as (Hle & Hr & Hall).
    destruct (Z.ltb_spec (ABS (mclk_clock j - t)) best.1) as [Hlt|Hge]; cbn in *.
    + split; [lia|]. split.
      * right. destruct Hr as [-> | [Hr Hv]]; cbn; [split; [lia | done] | split; [lia | done]].
      * intros k Hk. destruct (decide (k = j)) as [->|]; [lia|]. apply Hall; lia.
    + split; [lia|]. split.
      * destruct Hr as [-> | [Hr Hv]]; [by left | right; split; [lia | done]].
      * intros k Hk. destruct (decide (k = j)) as [->|]; [lia|]. apply Hall; lia.
Qed.

(** Started from [NUMBER_MAX], the inner loop returns a source of the
    table and its distance, the least one. *)
Lemma src_loop_full c i mst :
  0 <= c <= 96 -> (i < 4)%nat ->
  let r := src_loop (c * (Z.of_nat i + 1)) 0 SENSOR_MCLK_SRC_NUM (NUMBER_MAX, mst) in
  (r.2 < 4)%nat /\ r.1 = mclk_delta c r.2 (S i) /\
  (forall s, (s < 4)%nat -> r.1 <= mclk_delta c s (S i)).
Proof.
  intros Hc Hi. cbn zeta.
  destruct (src_loop_spec (c * (Z.of_nat i + 1)) 0 SENSOR_MCLK_SRC_NUM (NUMBER_MAX, mst))
    as (Hle & Hr & Hall).
  unfold mclk_delta. rewrite Nat2Z.inj_succ, <- Z.add_1_r.
  destruct Hr as [Hr | [Hr Hv]].
  - exfalso. specialize (Hall 0%nat ltac:(unfold SENSOR_MCLK_SRC_NUM; lia)).
    rewrite Hr in Hall. pose proof (mclk_delta_small c 0 (S i) Hc ltac:(lia)) as Hs.
    unfold mclk_delta in Hs. rewrite Nat2Z.inj_succ, <- Z.add_1_r in Hs. change ((NUMBER_MAX, mst).1) with NUMBER_MAX in Hall. lia.
  - unfold SENSOR_MCLK_SRC_NUM in *. split; [lia|]. split; [done|].
    intros s Hs. apply Hall. lia.
Qed.

(** The outer loop keeps the first divider of least distance. *)
Lemma div_loop_spec c i n mst best :
  0 <= c <= 96 -> (i + n <= 4)%nat ->
  let r := div_loop c i n mst best in
  r.1.1 <= best.1.1 /\
  (r = best \/ (i <= r.2 < i + n)%nat /\ (r.1.2 < 4)%nat /\ r.1.1 = mclk_delta c r.1.2 (S r.2)) /\
  (forall k s, (i <= k < i + n)%nat -> (s < 4)%nat -> r.1.1 <= mclk_delta c s (S k)).
Proof.
  intros Hc. revert i mst best. induction n as [|n IH]; intros i mst best Hn; cbn -[src_loop].
  - split; [lia|]. split; [by left|]. intros; lia.
  - destruct (src_loop_full c i mst Hc ltac:(lia)) as (Hs & Hd & Hmin).
    destruct (src_loop _ _ _ _) as [sd st] eqn:E. cbn in Hs, Hd, Hmin.
    match goal with |- context [div_loop c (S i) n st ?b] => set (b' := b) end.
    destruct (IH (S i) st b' ltac:(lia)) as (Hle & Hr & Hall).
    assert (Hb' : b'.1.1 <= best.1.1 /\ (b' = best /\ best.1.1 <= sd \/ b' = (sd, st, i) /\ sd < best.1.1)).
    { unfold b'. destruct (Z.ltb_spec sd best.1.1); cbn; [split; [lia | by right] | split; [lia | by left]]. }
    destruct Hb' as [Hb'le Hb'].
    split; [lia|]. split.
    + destruct Hr as [Hr | (Hr1 & Hr2 & Hr3)].
      * destruct Hb' as [[Hb' _] | [Hb' _]]; [left; congruence|].
        right. rewrite Hr, Hb'. cbn. split; [lia|]. split; [done | done].
      * right. split; [lia|]. done.
    + intros k s Hk Hs'. destruct (decide (k = i)) as [->|].
      * specialize (Hmin s Hs'). destruct Hb' as [[-> ?] | [-> _]]; cbn in Hle; lia.
      * apply Hall; lia.
Qed.

(** ** Supplies: the driver's counts against the regulator core *)


Ltac unfold_rail :=
  unfold set_voltage_rail, get_if_null, set_voltage_switch, sensor_k_set_voltage_tail,
    _sensor_regulator_enable, _sensor_regulator_disable, set_rail_reg, set_rail_count,
    regulator_get, regulator_set_voltage, regulator_enable, regulator_disable, regulator_put,
    with_supply, handle_supply.

(** [set_voltage_rail] on a rail whose pointer is NULL or names its
    supply, when every kernel call succeeds: it returns success, moves
    the rail's count and the supply's use count together, and leaves
    the other rails alone. *)
Lemma set_voltage_rail_ok w rl name volt :
  w_valid w = true -> services_ok w -> rail_ptr_ok w rl name ->
  (0 < power_on_count (w_mod w) rl -> 0 < r_use (w_reg w) name) ->
  0 <= power_on_count (w_mod w) rl < 2 ^ 32 - 1 ->
  let cnt := power_on_count (w_mod w) rl in
  let '(r, w') := set_voltage_rail rl name volt w in
  r = SENSOR_K_SUCCESS /\ w_valid w' = true /\ w_ans w' = w_ans w /\ (forall rl', power_on_count (w_mod w') rl' = upd (power_on_count (w_mod w)) rl (rail_count' volt cnt) rl') /\ (forall s, r_use (w_reg w') s = upd (r_use (w_reg w)) name (r_use (w_reg w) name + (rail_count' volt cnt - cnt)) s) /\ (forall rl', rl' <> rl -> regulator (w_mod w') rl' = regulator (w_mod w) rl') /\ rail_ptr_ok w' rl name /\ (r_next (w_reg w) <= r_next (w_reg w'))%nat /\ (forall h, (h < r_next (w_reg w))%nat -> r_supply (w_reg w') h = r_supply (w_reg w) h) /\ r_unbal (w_reg w') = r_unbal (w_reg w).
Proof.
  intros Hv Hok Hp Huse Hc. cbn zeta.
  destruct (set_voltage_rail rl name volt w) as [r w'] eqn:E.
  revert E. unfold rail_count'.
  unfold_rail. sn_unfold.
  destruct (volt =? 0) eqn:Hz; destruct (0 <? power_on_count (w_mod w) rl) eqn:Hpos;
    destruct (0 <? r_use (w_reg w) name) eqn:Hu; destruct Hp as [Hn | (h & Hh & Hlt & Hs)].
  all: sn_exec ltac:(rewrite ?Hv, ?Hok, ?Hn, ?Hh, ?Hz, ?Hpos, ?Hu, ?Hs).
  all: try (exfalso; apply Z.ltb_lt in Hpos; apply Z.ltb_ge in Hu; specialize (Huse Hpos); lia).
  all: intros E; injection E as <- <-.
  all: unfold rail_ptr_ok; cbn -[upd]; rewrite ?upd_hit.
  all: try split_and!; try reflexivity; try exact Hv.
  all: try (intros ?x; unfold upd; repeat case_decide; subst; rewrite ?Z.mod_small; lia).
  all: try (intros ?rl' ?Hne; rewrite ?upd_miss by done; reflexivity).
  all: try lia.
  all: try (intros ?h ?Hh'; rewrite ?upd_miss by lia; reflexivity).
  all: try (left; reflexivity).
  all: try (right; eexists; split_and!; [reflexivity | lia | rewrite ?upd_hit; done]).
  all: try (by left).
  all: try (right; exists h; split_and!; [done | lia | rewrite ?upd_miss by lia; done]).
Qed.

Lemma rail_ptr_ok_frame w w' rl name :
  regulator (w_mod w') rl = regulator (w_mod w) rl ->
  (r_next (w_reg w) <= r_next (w_reg w'))%nat ->
  (forall h, (h < r_next (w_reg w))%nat -> r_supply (w_reg w') h = r_supply (w_reg w) h) ->
  rail_ptr_ok w rl name -> rail_ptr_ok w' rl name.
Proof.
  intros Hr Hn Hs [Hp | (h & Hp & Hlt & Hh)]; [left; congruence|].
  right. exists h. split_and!; [congruence | lia | rewrite Hs; auto].
Qed.

(** The three rails that keep their pointer preserve the accounting. *)
Lemma set_voltage_rail_supply_inv w rl name volt :
  (rl = CAMVIO /\ name = REGU_NAME_CAMVIO \/ rl = CAMAVDD /\ name = REGU_NAME_CAMAVDD \/
   rl = CAMMOT /\ name = REGU_NAME_CAMMOT) ->
  w_valid w = true -> services_ok w -> supply_inv w ->
  power_on_count (w_mod w) rl < 2 ^ 32 - 1 ->
  supply_inv (set_voltage_rail rl name volt w).2.
Proof.
  intros Hin Hv Hok Hinv Hb.
  unfold supply_inv, rail_ptr_ok, REGU_NAME_CAMVIO, REGU_NAME_CAMAVDD, REGU_NAME_CAMMOT,
    REGU_NAME_CAMDVDD, REGU_NAME_SUB_CAMDVDD in *.
  pose proof Hinv as (Hpos & Hvio & Hama & Hdv & Hd1 & Hd2 & Pvio & Pavdd & Pmot).
  assert (Hpre : rail_ptr_ok w rl name /\ (0 < power_on_count (w_mod w) rl -> 0 < r_use (w_reg w) name)).
  { pose proof (Hpos CAMMOT). pose proof (Hpos CAMAVDD).
    destruct Hin as [[-> ->]|[[-> ->]|[-> ->]]]; (split; [done | lia]). }
  destruct Hpre as [Hp Hu].
  pose proof (set_voltage_rail_ok w rl name volt Hv Hok Hp Hu ltac:(specialize (Hpos rl); lia)) as Hr.
  cbn zeta in Hr. destruct (set_voltage_rail rl name volt w) as [r w'].
  destruct Hr as (_ & _ & _ & Hcnt & Huse' & Hother & Hp' & Hnext & Hsup & _). cbn [snd].
  rewrite !Huse', !Hcnt.
  assert (Hcp : forall rl', 0 <= power_on_count (w_mod w') rl').
  { intros rl'. rewrite Hcnt. destruct (decide (rl' = rl)) as [->|Hne];
      [rewrite upd_hit | rewrite upd_miss by done; apply Hpos].
    specialize (Hpos rl). unfold rail_count'.
    destruct (volt =? 0); [destruct (Z.ltb_spec 0 (power_on_count (w_mod w) rl))|]; lia. }
  assert (Hfr : forall rl' n, rl' <> rl -> rail_ptr_ok w rl' n -> rail_ptr_ok w' rl' n).
  { intros rl' n Hne. apply rail_ptr_ok_frame; auto. }
  unfold rail_ptr_ok in Hfr, Hp'.
  pose proof (Hpos CAMVIO). pose proof (Hpos CAMMOT). pose proof (Hpos CAMAVDD). pose proof (Hpos CAMDVDD).
  destruct Hin as [[-> ->]|[[-> ->]|[-> ->]]]; split_and!; try exact Hcp; try exact Hp';
    try (apply Hfr; [discriminate | assumption]).
  all: unfold upd; repeat case_decide; try discriminate; try congruence; unfold rail_count' in *.
  all: destruct (volt =? 0); repeat match goal with |- context [0 <? ?x] => destruct (Z.ltb_spec 0 x) end; lia.
Qed.

(** The KIRAN DVDD function when every kernel call succeeds: the
    count and the named supply move together, except when the rail is
    closed while the named supply is not enabled: then the count drops
    and the regulator core refuses an unbalanced disable. *)
Lemma set_voltage_dvdd_ok w v sensor_id :
  w_valid w = true -> services_ok w ->
  0 <= power_on_count (w_mod w) CAMDVDD < 2 ^ 32 - 1 ->
  let cnt := power_on_count (w_mod w) CAMDVDD in
  let name := dvdd_name sensor_id in
  let volt := dvdd_volt v in
  let unbal := (volt =? 0) && (0 <? cnt) && negb (0 <? r_use (w_reg w) name) in
  let '(r, w') := sensor_k_set_voltage_dvdd v sensor_id w in
  r = SENSOR_K_SUCCESS /\ w_valid w' = true /\ w_ans w' = w_ans w /\
  (forall rl', power_on_count (w_mod w') rl' = upd (power_on_count (w_mod w)) CAMDVDD (rail_count' volt cnt) rl') /\
  (forall s, r_use (w_reg w') s =
     if unbal then r_use (w_reg w) s
     else upd (r_use (w_reg w)) name (r_use (w_reg w) name + (rail_count' volt cnt - cnt)) s) /\
  r_unbal (w_reg w') = r_unbal (w_reg w) ++ (if unbal then [name] else []) /\
  (forall rl', rl' <> CAMDVDD -> regulator (w_mod w') rl' = regulator (w_mod w) rl') /\
  (r_next (w_reg w) <= r_next (w_reg w'))%nat /\
  (forall h, (h < r_next (w_reg w))%nat -> r_supply (w_reg w') h = r_supply (w_reg w) h).
Proof.
  intros Hv Hok Hc. cbn zeta.
  destruct (sensor_k_set_voltage_dvdd v sensor_id w) as [r w'] eqn:E.
  revert E. unfold rail_count'.
  unfold sensor_k_set_voltage_dvdd. unfold_rail. sn_unfold.
  destruct (dvdd_volt v =? 0) eqn:Hz; destruct (0 <? power_on_count (w_mod w) CAMDVDD) eqn:Hpos;
    destruct (0 <? r_use (w_reg w) (dvdd_name sensor_id)) eqn:Hu.
  all: sn_exec ltac:(rewrite ?Hv, ?Hok, ?Hz, ?Hpos, ?Hu).
  all: intros E; injection E as <- <-.
  all: cbn -[upd]; rewrite ?upd_hit.
  all: try split_and!; try reflexivity; try exact Hv.
  all: try (intros ?x; unfold upd; repeat case_decide; subst; rewrite ?Z.mod_small; lia).
  all: try (intros ?rl' ?Hne; rewrite ?upd_miss by done; reflexivity).
  all: try lia.
  all: try (intros ?h ?Hh'; rewrite ?upd_miss by lia; reflexivity).
  all: try (by rewrite app_nil_r).
Qed.

(** The master-clock calls do not touch the regulator framework. *)
Lemma kr_sensor_k_set_mclk mclk : keeps_reg (sensor_k_set_mclk mclk).
Proof.
  unfold sensor_k_set_mclk, set_mclk_source, _select_sensor_mclk, _sensor_k_mipi_clk_dis,
    clk_enable, clk_disable, clk_put, clk_get, clk_set_parent, clk_set_rate, with_clk,
    get_mod, modify_mod, SENSOR_CHECK_ZERO.
  pres_solve.
Qed.

(** ** Theorems on the master clock *)

(** The choice is a source of the table and a divider from 1 to 4
    whose output is nearest to the clock asked, over all sixteen pairs. *)
Lemma select_sensor_mclk_spec c w :
  w_valid w = true -> 0 <= c <= 96 ->
  exists src div,
    _select_sensor_mclk c w = ((SENSOR_K_SUCCESS, Some (mclk_src_name src, Z.of_nat div)), w) /\
    (src < 4)%nat /\ (1 <= div <= 4)%nat /\
    forall s d, (s < 4)%nat -> (1 <= d <= 4)%nat -> mclk_delta c src div <= mclk_delta c s d.
Proof.
  intros Hv Hc. unfold _select_sensor_mclk, bind, gets, ret. rewrite Hv. cbn [negb].
  replace (c >? 96) with false by (symmetry; rewrite Z.gtb_ltb; apply Z.ltb_ge; lia).
  destruct (div_loop_spec c 0 SENSOR_MCLK_DIV_MAX 0 (NUMBER_MAX, 0%nat, 0%nat) Hc ltac:(done))
    as (_ & Hr & Hall).
  destruct (div_loop _ _ _ _ _) as [[dm src] i] eqn:E. cbn in Hr, Hall.
  destruct Hr as [Hr | (Hi & Hs & Hd)].
  - exfalso. injection Hr as -> _ _.
    pose proof (mclk_delta_small c 0 1 Hc ltac:(lia)). specialize (Hall 0%nat 0%nat ltac:(unfold SENSOR_MCLK_DIV_MAX; lia) ltac:(lia)). lia.
  - unfold SENSOR_MCLK_DIV_MAX in Hi. exists src, (S i).
    split; [rewrite Nat2Z.inj_succ, <- Z.add_1_r; reflexivity|].
    split; [done|]. split; [lia|]. intros s' d Hs' Hd'.
    rewrite <- Hd. destruct d as [|d]; [lia|]. apply Hall; unfold SENSOR_MCLK_DIV_MAX; lia.
Qed.

(** C23: _select_sensor_mclk chooses, for a clock of at most 96 MHz, a
    source of c_sensor_mclk_tab and a divider from 1 to 4 that minimise
    the measure of the code, |clock(source) - clk_set*divider| (not the
    distance of the output clock(source)/divider to clk_set), among all
    sixteen pairs, and fails with SENSOR_K_FAIL above 96 MHz. *)
Theorem select_sensor_mclk_best c w :
  w_valid w = true -> 0 <= c ->
  (c <= 96 ->
   exists src div,
     _select_sensor_mclk c w = ((SENSOR_K_SUCCESS, Some (mclk_src_name src, Z.of_nat div)), w) /\
     (src < 4)%nat /\ (1 <= div <= 4)%nat /\
     forall s d, (s < 4)%nat -> (1 <= d <= 4)%nat -> mclk_delta c src div <= mclk_delta c s d) /\
  (96 < c -> _select_sensor_mclk c w = ((SENSOR_K_FAIL, None), w)).
Proof.
  intros Hv Hc. split; [intros; apply select_sensor_mclk_spec; auto with lia|].
  intros Hgt. unfold _select_sensor_mclk, bind, gets, ret. rewrite Hv. cbn [negb].
  replace (c >? 96) with true by lia. done.
Qed.

(** The measure of [_select_sensor_mclk] is [|clock - clk_set * div|],
    not the distance of the output [clock / div] to [clk_set]: for 30
    MHz it picks [ext_26m] undivided (26 MHz) although [clk_96m] divided
    by 3 (32 MHz) is nearer. *)
Lemma select_sensor_mclk_30 w :
  w_valid w = true ->
  (_select_sensor_mclk 30 w = ((SENSOR_K_SUCCESS, Some (mclk_src_name 3, 1)), w)) /\
  (ABS (mclk_clock 0 / 3 - 30) < ABS (mclk_clock 3 / 1 - 30)).
Proof. intros Hv. unfold _select_sensor_mclk, bind, gets, ret. rewrite Hv. split; reflexivity. Qed.

Lemma set_mclk_source_ok w n m :
  w_valid w = true -> services_ok w -> 0 < m <= 96 ->
  ccir_clk (w_mod w) = KHandle n -> (n < c_next (w_clk w))%nat -> c_name (w_clk w) n = SENSOR_CLK ->
  exists src div,
    (src < 4)%nat /\ (1 <= div <= 4)%nat /\
    (forall s d, (s < 4)%nat -> (1 <= d <= 4)%nat -> mclk_delta m src div <= mclk_delta m s d) /\
    let '(r, w') := set_mclk_source m w in
    r = 0 /\ w_mod w' = set_sensor_mclk m (w_mod w) /\ w_valid w' = true /\
    c_en (w_clk w') SENSOR_CLK = c_en (w_clk w) SENSOR_CLK + 1 /\
    c_rate (w_clk w') SENSOR_CLK = m * SENOR_CLK_M_VALUE /\
    c_parent (w_clk w') SENSOR_CLK = mclk_src_name src /\
    (n < c_next (w_clk w'))%nat /\ c_name (w_clk w') n = SENSOR_CLK /\
    c_unbal (w_clk w') = c_unbal (w_clk w) /\ w_reg w' = w_reg w /\ w_ans w' = w_ans w.
Proof.
  intros Hv Hok Hm Hc Hn Hname.
  destruct (select_sensor_mclk_spec (m mod 256) w Hv) as (src & div & Hsel & Hs & Hd & Hbest).
  { rewrite Z.mod_small; lia. }
  rewrite Z.mod_small in Hbest by lia.
  exists src, div. split; [done|]. split; [done|]. split; [done|].
  unfold set_mclk_source. unfold bind at 1. rewrite Hsel. cbn [fst snd].
  unfold clk_get, clk_set_parent, clk_set_rate, clk_enable, with_clk, clk_name. sn_unfold.
  repeat progress (rewrite ?Hc, ?Hok; cbn -[upd]).
  rewrite !(upd_miss (c_name (w_clk w)) _ _ n), Hname, !upd_hit by lia.
  split_and!; auto; lia.
Qed.

(** [clk_disable] of a handle. *)
Lemma clk_disable_handle w n :
  clk_disable (KHandle n) w =
  (tt, let c := c_name (w_clk w) n in
       if 0 <? c_en (w_clk w) c
       then map_clk (fun k => set_c_en (upd (c_en k) c (c_en (w_clk w) c - 1)) k) w
       else map_clk (fun k => set_c_unbal (c_unbal k ++ [c]) k) w).
Proof. unfold clk_disable, with_clk, clk_name. sn_unfold. by destruct (_ <? _). Qed.

(** C21: When every kernel call succeeds, sensor_k_set_mclk keeps the
    master clock balanced: ccir_clk stays a handle of clk_sensor,
    sensor_mclk stays within 0..96, and clk_sensor is enabled once while
    sensor_mclk is set and not at all when it is 0. *)
Theorem sensor_k_set_mclk_inv w mclk :
  w_valid w = true -> services_ok w -> mclk_inv w -> 0 <= mclk ->
  mclk_inv (sensor_k_set_mclk mclk w).2.
Proof.
  intros Hv Hok (n & Hc & Hn & Hname & Hm & Hen) Hmclk.
  unfold sensor_k_set_mclk. sn_unfold. rewrite Hv. cbn.
  destruct (Z.eqb_spec mclk 0) as [->|Hnz]; cbn.
  - destruct (Z.eqb_spec (sensor_mclk (w_mod w)) 0) as [Hz|Hz]; cbn.
    + exists n. rewrite Hz. cbn. split_and!; auto; lia.
    + rewrite Hc, clk_disable_handle; cbn zeta; rewrite Hname, Hen; cbn.
      exists n. cbn. rewrite upd_hit. split_and!; auto; lia.
  - destruct (Z.eqb_spec (sensor_mclk (w_mod w)) mclk) as [Heq|Hne]; cbn.
    + exists n. auto.
    + set (m' := if mclk >? SENSOR_MAX_MCLK then SENSOR_MAX_MCLK else mclk).
      assert (Hm' : 0 < m' <= 96) by (unfold m', SENSOR_MAX_MCLK; destruct (Z.gtb_spec mclk 96); lia).
      set (w1 := (if negb (sensor_mclk (w_mod w) =? 0) then clk_disable (ccir_clk (w_mod w))
                  else fun w0 => (tt, w0)) w).
      assert (Hw1 : w_mod w1.2 = w_mod w /\ w_clk w1.2 = w_clk w1.2 /\ w_valid w1.2 = true /\
                    services_ok w1.2 /\ c_next (w_clk w1.2) = c_next (w_clk w) /\
                    c_name (w_clk w1.2) = c_name (w_clk w) /\ c_en (w_clk w1.2) SENSOR_CLK = 0).
      { unfold w1. destruct (Z.eqb_spec (sensor_mclk (w_mod w)) 0) as [Hz|Hz]; cbn.
        - split_and!; done.
        - rewrite Hc, clk_disable_handle; cbn zeta; rewrite Hname, Hen; cbn. rewrite upd_hit. split_and!; done. }
      destruct w1 as [[] w1']. destruct Hw1 as (Hm1 & _ & Hv1 & Hok1 & Hn1 & Hname1 & Hen1). cbn in *.
      destruct (set_mclk_source_ok w1' n m' Hv1 Hok1 Hm') as (src & div & _ & _ & _ & Hr);
        [congruence | lia | congruence |].
      destruct (set_mclk_source m' w1') as [r w2]. destruct Hr as (-> & Hm2 & _ & Hen2 & _ & _ & Hn2 & Hname2 & _).
      cbn [snd]. exists n. rewrite Hm2, Hen2, Hen1. cbn. rewrite Hm1.
      replace (m' =? 0) with false by (symmetry; apply Z.eqb_neq; lia).
      split_and!; try done; unfold SENSOR_MAX_MCLK; lia.
Qed.

Lemma set_mclk_source_rate_fail w n m e :
  w_valid w = true -> 0 < m <= 96 ->
  ccir_clk (w_mod w) = KHandle n -> (n < c_next (w_clk w))%nat ->
  w_ans w (w_t w) = 0 -> w_ans w (S (w_t w)) = 0 -> w_ans w (S (S (w_t w))) = e -> e <> 0 ->
  let '(r, w') := set_mclk_source m w in
  r = - EINVAL /\ w_mod w' = w_mod w /\ w_valid w' = true /\ c_en (w_clk w') = c_en (w_clk w) /\
  c_unbal (w_clk w') = c_unbal (w_clk w) /\ c_name (w_clk w') n = c_name (w_clk w) n.
Proof.
  intros Hv Hm Hc Hn H0 H1 H2 He.
  destruct (select_sensor_mclk_spec (m mod 256) w Hv) as (src & div & Hsel & _).
  { rewrite Z.mod_small; lia. }
  unfold set_mclk_source. unfold bind at 1. rewrite Hsel. cbn [fst snd].
  unfold clk_get, clk_set_parent, clk_set_rate, clk_enable, with_clk, clk_name. sn_unfold.
  rewrite H0. cbn -[upd]. rewrite Hc. cbn -[upd]. rewrite H1. cbn -[upd]. rewrite H2.
  replace (e =? 0) with false by (symmetry; apply Z.eqb_neq; lia). cbn -[upd].
  replace (e =? 0) with false by (symmetry; apply Z.eqb_neq; lia). cbn.
  rewrite upd_miss by lia. split_and!; auto.
Qed.

(** C31: When clk_set_rate fails while changing a running master clock,
    sensor_k_set_mclk returns -EINVAL with the clock disabled but
    sensor_mclk unchanged, so the next sensor_k_set_mclk(0) disables
    clk_sensor a second time (an unbalanced clk_disable). *)
Theorem sensor_k_set_mclk_rate_failure w n mclk e :
  w_valid w = true -> mclk_inv w -> ccir_clk (w_mod w) = KHandle n ->
  sensor_mclk (w_mod w) <> 0 -> 0 < mclk <= 96 -> mclk <> sensor_mclk (w_mod w) ->
  w_ans w (w_t w) = 0 -> w_ans w (S (w_t w)) = 0 -> w_ans w (S (S (w_t w))) = e -> e <> 0 ->
  let '(r, w') := sensor_k_set_mclk mclk w in
  r = - EINVAL /\ sensor_mclk (w_mod w') = sensor_mclk (w_mod w) /\
  c_en (w_clk w') SENSOR_CLK = 0 /\
  c_unbal (w_clk (sensor_k_set_mclk 0 w').2) = c_unbal (w_clk w) ++ [SENSOR_CLK].
Proof.
  intros Hv (n' & Hc' & Hn & Hname & _ & Hen) Hc Hz Hm Hne H0 H1 H2 He.
  rewrite Hc in Hc'. injection Hc' as <-.
  replace (sensor_mclk (w_mod w) =? 0) with false in Hen by (symmetry; apply Z.eqb_neq; lia).
  unfold sensor_k_set_mclk at 1. sn_unfold. rewrite Hv. cbn.
  replace (mclk =? 0) with false by (symmetry; apply Z.eqb_neq; lia).
  replace (sensor_mclk (w_mod w) =? mclk) with false by (symmetry; apply Z.eqb_neq; lia).
  replace (sensor_mclk (w_mod w) =? 0) with false by (symmetry; apply Z.eqb_neq; lia).
  replace (mclk >? SENSOR_MAX_MCLK) with false
    by (symmetry; unfold SENSOR_MAX_MCLK; rewrite Z.gtb_ltb; apply Z.ltb_ge; lia).
  cbn. rewrite Hc, clk_disable_handle; cbn zeta; rewrite Hname, Hen. cbn.
  match goal with |- context [set_mclk_source mclk ?w1] =>
    pose proof (set_mclk_source_rate_fail w1 n mclk e Hv Hm Hc Hn H0 H1 H2 He) as Hf;
    destruct (set_mclk_source mclk w1) as [r w2] end.
  destruct Hf as (-> & Hm2 & Hv2 & Hen2 & Hu2 & Hn2). cbn in Hm2, Hen2, Hu2, Hn2.
  split; [done|]. rewrite Hm2. split; [done|]. rewrite Hen2, upd_hit. split; [lia|].
  unfold sensor_k_set_mclk. sn_unfold. rewrite Hv2. cbn. rewrite Hm2.
  replace (sensor_mclk (w_mod w) =? 0) with false by (symmetry; apply Z.eqb_neq; lia).
  cbn. rewrite Hc, clk_disable_handle. cbn zeta.
  rewrite Hn2, Hname, Hen2, upd_hit. change (0 <? 1 - 1) with false. cbn. rewrite Hu2. done.
Qed.

(** The DVDD function keeps the accounting unless it closes the rail
    for a camera whose supply is not enabled. *)
Lemma dvdd_supply_inv w v sensor_id :
  w_valid w = true -> services_ok w -> supply_inv w ->
  power_on_count (w_mod w) CAMDVDD < 2 ^ 32 - 1 ->
  (dvdd_volt v <> 0 \/ power_on_count (w_mod w) CAMDVDD = 0 \/ 0 < r_use (w_reg w) (dvdd_name sensor_id)) ->
  supply_inv (sensor_k_set_voltage_dvdd v sensor_id w).2.
Proof.
  intros Hv Hok Hinv Hb Hc.
  pose proof Hinv as (Hpos & Hvio & Hama & Hdv & Hd1 & Hd2 & Pvio & Pavdd & Pmot).
  pose proof (set_voltage_dvdd_ok w v sensor_id Hv Hok ltac:(specialize (Hpos CAMDVDD); lia)) as Hr.
  cbn zeta in Hr. destruct (sensor_k_set_voltage_dvdd v sensor_id w) as [r w'].
  destruct Hr as (_ & _ & _ & Hcnt & Huse & _ & Hother & Hnext & Hsup). cbn [snd].
  assert (Hub : ((dvdd_volt v =? 0) && (0 <? power_on_count (w_mod w) CAMDVDD) &&
                 negb (0 <? r_use (w_reg w) (dvdd_name sensor_id))) = false).
  { destruct Hc as [Hc|[Hc|Hc]].
    - apply Z.eqb_neq in Hc. by rewrite Hc.
    - rewrite Hc. by rewrite andb_false_r.
    - apply Z.ltb_lt in Hc. rewrite Hc. by rewrite andb_false_r. }
  rewrite Hub in Huse.
  assert (Hfr : forall rl' n, rl' <> CAMDVDD -> rail_ptr_ok w rl' n -> rail_ptr_ok w' rl' n).
  { intros rl' n Hne. apply rail_ptr_ok_frame; auto. }
  unfold supply_inv. rewrite !Huse, !Hcnt.
  pose proof (Hpos CAMVIO). pose proof (Hpos CAMMOT). pose proof (Hpos CAMAVDD). pose proof (Hpos CAMDVDD).
  assert (Hn : dvdd_name sensor_id = REGU_NAME_CAMDVDD \/ dvdd_name sensor_id = REGU_NAME_SUB_CAMDVDD).
  { unfold dvdd_name. destruct (sensor_id =? SENSOR_MAIN); [by left|].
    destruct (sensor_id =? SENSOR_SUB); [by right | by left]. }
  split_and!; try (apply Hfr; [discriminate | assumption]).
  1: { intros rl'. rewrite Hcnt. destruct (decide (rl' = CAMDVDD)) as [->|Hne];
      [rewrite upd_hit | rewrite upd_miss by done; apply Hpos].
    unfold rail_count'. destruct (dvdd_volt v =? 0); [destruct (Z.ltb_spec 0 (power_on_count (w_mod w) CAMDVDD))|]; lia. }
  all: destruct Hn as [Hn|Hn]; rewrite Hn in *.
  all: unfold REGU_NAME_CAMVIO, REGU_NAME_CAMAVDD, REGU_NAME_CAMMOT,
    REGU_NAME_CAMDVDD, REGU_NAME_SUB_CAMDVDD in *.
  all: unfold upd; repeat case_decide; try discriminate; try congruence; unfold rail_count' in *.
  all: destruct (dvdd_volt v =? 0); repeat match goal with |- context [0 <? ?x] => destruct (Z.ltb_spec 0 x) end; try lia.
Qed.

(** C27: The KIRAN sensor_k_set_voltage_dvdd shares one count between
    two supplies: switching DVDD off for a camera whose supply is not
    on, while the count is positive, lowers the count, changes no use
    count, logs an unbalanced disable of that supply and breaks the
    accounting invariant. *)
Theorem sensor_k_set_voltage_dvdd_wrong_supply w v sensor_id :
  w_valid w = true -> services_ok w -> supply_inv w ->
  dvdd_volt v = 0 -> 0 < power_on_count (w_mod w) CAMDVDD < 2 ^ 32 - 1 ->
  r_use (w_reg w) (dvdd_name sensor_id) = 0 ->
  let '(r, w') := sensor_k_set_voltage_dvdd v sensor_id w in
  r = SENSOR_K_SUCCESS /\
  power_on_count (w_mod w') CAMDVDD = power_on_count (w_mod w) CAMDVDD - 1 /\
  (forall s, r_use (w_reg w') s = r_use (w_reg w) s) /\
  r_unbal (w_reg w') = r_unbal (w_reg w) ++ [dvdd_name sensor_id] /\
  ~ supply_inv w'.
Proof.
  intros Hv Hok Hinv Hz Hc Hu.
  pose proof (set_voltage_dvdd_ok w v sensor_id Hv Hok ltac:(lia)) as Hr.
  cbn zeta in Hr. destruct (sensor_k_set_voltage_dvdd v sensor_id w) as [r w'].
  destruct Hr as (-> & _ & _ & Hcnt & Huse & Hunb & _).
  rewrite Hz, Hu in Huse, Hunb. replace (0 <? power_on_count (w_mod w) CAMDVDD) with true in Huse, Hunb
    by (symmetry; apply Z.ltb_lt; lia). cbn in Huse, Hunb.
  rewrite Hcnt, upd_hit. unfold rail_count'. rewrite Hz.
  replace (0 <? power_on_count (w_mod w) CAMDVDD) with true by (symmetry; apply Z.ltb_lt; lia). cbn.
  split_and!; auto.
  intros (_ & _ & _ & Hdv' & _). destruct Hinv as (_ & _ & _ & Hdv & _).
  rewrite !Huse, Hcnt, upd_hit in Hdv'. unfold rail_count' in Hdv'. rewrite Hz in Hdv'.
  replace (0 <? power_on_count (w_mod w) CAMDVDD) with true in Hdv' by (symmetry; apply Z.ltb_lt; lia).
  cbn in Hdv'. lia.
Qed.

(** A failing [regulator_enable]: the count is raised all the same
    and the handle put. *)
Lemma set_voltage_rail_enable_fail w rl name volt h e :
  w_valid w = true -> regulator (w_mod w) rl = KHandle h -> r_supply (w_reg w) h = name ->
  volt <> 0 -> w_ans w (w_t w) = 0 -> w_ans w (S (w_t w)) = e -> e <> 0 ->
  0 <= power_on_count (w_mod w) rl < 2 ^ 32 - 1 ->
  let '(r, w') := set_voltage_rail rl name volt w in
  r = SENSOR_K_FAIL /\ w_valid w' = true /\
  (forall rl', power_on_count (w_mod w') rl' = upd (power_on_count (w_mod w)) rl (power_on_count (w_mod w) rl + 1) rl') /\
  r_use (w_reg w') = r_use (w_reg w) /\ r_unbal (w_reg w') = r_unbal (w_reg w) /\
  regulator (w_mod w') rl = KNull /\ r_put (w_reg w') = r_put (w_reg w) ++ [h].
Proof.
  intros Hv Hh Hs Hz H0 H1 He Hc.
  destruct (set_voltage_rail rl name volt w) as [r w'] eqn:E. revert E.
  apply Z.eqb_neq in Hz, He.
  unfold_rail. sn_unfold.
  sn_exec ltac:(rewrite ?Hv, ?Hh, ?Hz, ?H0, ?H1, ?He).
  intros E; injection E as <- <-. cbn -[upd]. rewrite upd_hit.
  split_and!; try reflexivity; try exact Hv.
  intros x. unfold upd. case_decide; [subst; rewrite Z.mod_small; lia | done].
Qed.

(** A failing [regulator_get] leaves [ERR_PTR] in the pointer. *)
Lemma set_voltage_rail_get_fail w rl name volt a :
  w_valid w = true -> regulator (w_mod w) rl = KNull -> w_ans w (w_t w) = a -> a < 0 ->
  let '(r, w') := set_voltage_rail rl name volt w in
  r = SENSOR_K_FAIL /\ regulator (w_mod w') rl = KErr a /\ w_valid w' = true /\ w_fault w' = w_fault w.
Proof.
  intros Hv Hn H0 Ha. apply Z.ltb_lt in Ha.
  destruct (set_voltage_rail rl name volt w) as [r w'] eqn:E. revert E.
  unfold_rail. sn_unfold.
  sn_exec ltac:(rewrite ?Hv, ?Hn, ?H0, ?Ha).
  intros E; injection E as <- <-. cbn -[upd]. rewrite upd_hit. auto.
Qed.

(** An error pointer is passed to [regulator_set_voltage]. *)
Lemma set_voltage_rail_err_fault w rl name volt e :
  w_valid w = true -> regulator (w_mod w) rl = KErr e -> volt <> 0 ->
  w_fault (set_voltage_rail rl name volt w).2 = true.
Proof.
  intros Hv He Hz. apply Z.eqb_neq in Hz.
  destruct (set_voltage_rail rl name volt w) as [r w'] eqn:E. revert E.
  unfold_rail. sn_unfold.
  sn_exec ltac:(rewrite ?Hv, ?He, ?Hz).
  intros E; injection E as <- <-. cbn. reflexivity.
Qed.

(** C20: When every kernel call succeeds and no rail count is at 2^32-1,
    the supply functions for CAMMOT, AVDD and IOVDD keep the accounting
    invariant (each supply is used exactly as often as the counts of the
    rails naming it say, and each rail pointer is NULL or a handle of
    its own supply), and the KIRAN DVDD function keeps it unless it
    switches a DVDD rail off through a supply that is not on. *)
Theorem sensor_voltage_supply_inv w v sensor_id :
  w_valid w = true -> services_ok w -> supply_inv w ->
  (forall rl, power_on_count (w_mod w) rl < 2 ^ 32 - 1) ->
  supply_inv (sensor_k_set_voltage_cammot v w).2 /\
  supply_inv (sensor_k_set_voltage_avdd v w).2 /\
  supply_inv (sensor_k_set_voltage_iovdd v w).2 /\
  (dvdd_volt v <> 0 \/ power_on_count (w_mod w) CAMDVDD = 0 \/
   0 < r_use (w_reg w) (dvdd_name sensor_id) ->
   supply_inv (sensor_k_set_voltage_dvdd v sensor_id w).2).
Proof.
  intros Hv Hok Hinv Hb. split_and!.
  - apply set_voltage_rail_supply_inv; auto.
  - apply set_voltage_rail_supply_inv; auto.
  - apply set_voltage_rail_supply_inv; auto.
  - intros Hc. apply dvdd_supply_inv; auto.
Qed.

(** C30: When regulator_enable fails, sensor_k_set_voltage_cammot
    returns SENSOR_K_FAIL and puts the regulator back, but
    _sensor_regulator_enable has already raised the rail count, so the
    accounting invariant is broken. *)
Theorem sensor_k_set_voltage_enable_failure w v h e :
  w_valid w = true -> supply_inv w -> regulator (w_mod w) CAMMOT = KHandle h ->
  cammot_volt v <> 0 -> w_ans w (w_t w) = 0 -> w_ans w (S (w_t w)) = e -> e <> 0 ->
  power_on_count (w_mod w) CAMMOT < 2 ^ 32 - 1 ->
  let '(r, w') := sensor_k_set_voltage_cammot v w in
  r = SENSOR_K_FAIL /\
  power_on_count (w_mod w') CAMMOT = power_on_count (w_mod w) CAMMOT + 1 /\
  r_use (w_reg w') = r_use (w_reg w) /\ regulator (w_mod w') CAMMOT = KNull /\
  ~ supply_inv w'.
Proof.
  intros Hv Hinv Hh Hz H0 H1 He Hb.
  pose proof Hinv as (Hpos & _ & Hama & _ & _ & _ & _ & _ & Pmot).
  assert (Hs : r_supply (w_reg w) h = REGU_NAME_CAMMOT).
  { destruct Pmot as [Hn | (h' & Hh' & _ & Hs)]; congruence. }
  pose proof (set_voltage_rail_enable_fail w CAMMOT REGU_NAME_CAMMOT (cammot_volt v) h e Hv Hh Hs Hz H0 H1 He
    ltac:(specialize (Hpos CAMMOT); lia)) as Hr.
  unfold sensor_k_set_voltage_cammot. destruct (set_voltage_rail _ _ _ w) as [r w'].
  destruct Hr as (-> & _ & Hcnt & Huse & _ & Hnull & _).
  rewrite Hcnt, upd_hit. split_and!; auto.
  intros (_ & _ & Hama' & _). rewrite Huse, !Hcnt, upd_hit, upd_miss in Hama' by done. lia.
Qed.

(** When [regulator_get] fails, [sensor_k_set_voltage_cammot] keeps
    the [ERR_PTR] in [cammot_regulator] (only NULL is tested before the
    next [regulator_get]); the next request of a voltage passes it to
    [regulator_set_voltage], which dereferences it. *)
Theorem sensor_k_set_voltage_err_ptr w v v' a :
  w_valid w = true -> regulator (w_mod w) CAMMOT = KNull -> w_ans w (w_t w) = a -> a < 0 ->
  cammot_volt v' <> 0 ->
  let '(r, w') := sensor_k_set_voltage_cammot v w in
  r = SENSOR_K_FAIL /\ regulator (w_mod w') CAMMOT = KErr a /\
  w_fault (sensor_k_set_voltage_cammot v' w').2 = true.
Proof.
  intros Hv Hn H0 Ha Hz.
  pose proof (set_voltage_rail_get_fail w CAMMOT REGU_NAME_CAMMOT (cammot_volt v) a Hv Hn H0 Ha) as Hr.
  unfold sensor_k_set_voltage_cammot at 1. destruct (set_voltage_rail _ _ _ w) as [r w'].
  destruct Hr as (-> & He & Hv' & _). split_and!; auto.
  by apply (set_voltage_rail_err_fault w' CAMMOT REGU_NAME_CAMMOT (cammot_volt v') a).
Qed.

(** ** Examples *)

(** The master clock on at 24 MHz through handle 0 of [SENSOR_CLK]. *)
Definition mclk_world (ans : nat -> Z) : world :=
  world0 (set_ccir_clk (KHandle 0) (set_sensor_mclk 24 mod0))
    (mk_clkfw 1 (fun _ => SENSOR_CLK) (upd (fun _ => 0) SENSOR_CLK 1) (fun _ => EmptyString)
       (fun _ => 0) [] []) ans.

(** Supplies: the module [m], the regulator framework [r]. *)
Definition supply_world (m : sensor_module) (r : regfw) (ans : nat -> Z) : world :=
  mk_w true m r clkfw0 (fun _ => 0) [] [] ans (fun _ _ => 0) 0 false.

(** The sub camera's DVDD on: its count 1, [vddwifipa] used once. *)
Definition sub_dvdd_mod : sensor_module := set_power_on_count (upd (fun _ => 0) CAMDVDD 1) mod0.
Definition sub_dvdd_reg : regfw := set_r_use (upd (fun _ => 0) REGU_NAME_SUB_CAMDVDD 1) regfw0.

(** The motor rail holding handle 0 of [vddcama], off. *)
Definition cammot_held_mod : sensor_module := set_regulator (upd (fun _ => KNull) CAMMOT (KHandle 0)) mod0.
Definition cammot_held_reg : regfw := mk_regfw 1 (fun _ => REGU_NAME_CAMMOT) (fun _ => 0) (fun _ => 0) [] [].

Lemma mclk_world_inv ans : mclk_inv (mclk_world ans).
Proof. exists 0%nat. cbn. unfold SENSOR_MAX_MCLK. split_and!; try reflexivity; lia. Qed.

Ltac supply_inv_concrete :=
  unfold supply_inv, rail_ptr_ok; cbn;
  split_and!; try (left; reflexivity);
  try (right; exists 0%nat; split_and!; [reflexivity | cbn; lia | reflexivity]);
  try (match goal with |- forall _ : rail, _ => intros [] end);
  unfold upd; repeat case_decide;
  unfold REGU_NAME_CAMVIO, REGU_NAME_SUB_CAMDVDD, REGU_NAME_CAMAVDD, REGU_NAME_CAMDVDD, REGU_NAME_CAMMOT in *;
  try congruence; try reflexivity; try lia.

Lemma select_sensor_mclk_best_witness :
  _select_sensor_mclk 200 (mclk_world (fun _ => 0)) = ((SENSOR_K_FAIL, None), mclk_world (fun _ => 0)).
Proof. apply (proj2 (select_sensor_mclk_best 200 (mclk_world (fun _ => 0)) eq_refl ltac:(lia))). lia. Defined.

Lemma sensor_k_set_mclk_inv_witness : mclk_inv (sensor_k_set_mclk 48 (mclk_world (fun _ => 0))).2.
Proof.
  apply sensor_k_set_mclk_inv; [reflexivity | intros n; reflexivity | apply mclk_world_inv | lia].
Defined.

Lemma sensor_k_set_mclk_rate_failure_witness :
  let w := mclk_world (fun k => if (k =? 2)%nat then - EINVAL else 0) in
  let '(r, w') := sensor_k_set_mclk 48 w in
  r = - EINVAL /\ sensor_mclk (w_mod w') = sensor_mclk (w_mod w) /\
  c_en (w_clk w') SENSOR_CLK = 0 /\
  c_unbal (w_clk (sensor_k_set_mclk 0 w').2) = c_unbal (w_clk w) ++ [SENSOR_CLK].
Proof.
  apply (sensor_k_set_mclk_rate_failure _ 0 48 (- EINVAL)); try reflexivity; try apply mclk_world_inv;
    cbn; unfold EINVAL; lia.
Defined.

Lemma sensor_voltage_supply_inv_witness :
  let w := supply_world mod0 regfw0 (fun _ => 0) in
  supply_inv (sensor_k_set_voltage_cammot SENSOR_VDD_2800MV w).2 /\
  supply_inv (sensor_k_set_voltage_avdd SENSOR_VDD_2800MV w).2 /\
  supply_inv (sensor_k_set_voltage_iovdd SENSOR_VDD_2800MV w).2 /\
  (dvdd_volt SENSOR_VDD_2800MV <> 0 \/ power_on_count (w_mod w) CAMDVDD = 0 \/
   0 < r_use (w_reg w) (dvdd_name SENSOR_MAIN) ->
   supply_inv (sensor_k_set_voltage_dvdd SENSOR_VDD_2800MV SENSOR_MAIN w).2).
Proof.
  apply sensor_voltage_supply_inv; [reflexivity | intros n; reflexivity | supply_inv_concrete |].
  intros []; cbn; lia.
Defined.

Lemma sensor_k_set_voltage_dvdd_wrong_supply_witness :
  let w := supply_world sub_dvdd_mod sub_dvdd_reg (fun _ => 0) in
  let '(r, w') := sensor_k_set_voltage_dvdd SENSOR_VDD_CLOSED SENSOR_MAIN w in
  r = SENSOR_K_SUCCESS /\
  power_on_count (w_mod w') CAMDVDD = power_on_count (w_mod w) CAMDVDD - 1 /\
  (forall s, r_use (w_reg w') s = r_use (w_reg w) s) /\
  r_unbal (w_reg w') = r_unbal (w_reg w) ++ [dvdd_name SENSOR_MAIN] /\
  ~ supply_inv w'.
Proof.
  apply sensor_k_set_voltage_dvdd_wrong_supply; [reflexivity | intros n; reflexivity | | reflexivity | split; reflexivity | reflexivity].
  supply_inv_concrete.
Defined.

Lemma sensor_k_set_voltage_enable_failure_witness :
  let w := supply_world cammot_held_mod cammot_held_reg (fun k => if (k =? 1)%nat then - EIO else 0) in
  let '(r, w') := sensor_k_set_voltage_cammot SENSOR_VDD_2800MV w in
  r = SENSOR_K_FAIL /\
  power_on_count (w_mod w') CAMMOT = power_on_count (w_mod w) CAMMOT + 1 /\
  r_use (w_reg w') = r_use (w_reg w) /\ regulator (w_mod w') CAMMOT = KNull /\
  ~ supply_inv w'.
Proof.
  apply (sensor_k_set_voltage_enable_failure _ _ 0 (- EIO)); try reflexivity;
    [supply_inv_concrete | unfold cammot_volt, SENSOER_VDD; lia | unfold EIO; lia].
Defined.

Lemma sensor_k_set_voltage_err_ptr_witness :
  let w := supply_world mod0 regfw0 (fun _ => - ENODEV) in
  let '(r, w') := sensor_k_set_voltage_cammot SENSOR_VDD_2800MV w in
  r = SENSOR_K_FAIL /\ regulator (w_mod w') CAMMOT = KErr (- ENODEV) /\
  w_fault (sensor_k_set_voltage_cammot SENSOR_VDD_2800MV w').2 = true.
Proof. apply sensor_k_set_voltage_err_ptr; try reflexivity; unfold cammot_volt, SENSOER_VDD, ENODEV; lia. Defined.

End SensorPower.
