(* ===== verification/SensorI2c.v ===== *)
(** * Camera sensor driver: the I2C side

    The register access of [src/drivers/media/sprd_sensor/sensor_drv_k.c]:
    [_Sensor_K_ReadReg] and [_Sensor_K_WriteReg] (lines 1093-1202) with
    their command bytes and their four tries, the register tables of
    [_sensor_k_wr_regtab] (lines 1216-1273), the raw writes
    [_sensor_k_wr_i2c] and [sensor_k_write] (lines 1283-1323,
    1383-1431), and the burst writer [_sensor_burst_write_init] of the
    KIRAN board (lines 1433-1527), which gathers runs of registers into
    one transfer.

    A register table is read from the module buffer [mem_bytes] of
    [SensorDrv], where [copy_from_user] put it: [SENSOR_REG_T] is two
    little-endian [uint16_t].  A read past the size of the buffer sets
    [w_fault], and so does a write past [burstmode_data].  The sensor is
    an I2C device with 8-bit registers that writes the bytes after the
    first to consecutive registers; [SensorBurst] states this and what
    a table means, one register at a time. *)

From S2P Require Import Prelude.
From S2P Require Import SensorDrv.

Module SensorI2c.
Import SensorDrv.

Local Open Scope Z_scope.
Local Open Scope sn_scope.

(** [(uint8_t)] *)
Definition u8 (x : Z) : Z := x mod 256.

(** [SENSOR_REG_BITS_T] of the header: the register, the value and
    the widths ([SENSOR_I2C_REG_16BIT], [SENSOR_I2C_VAL_16BIT]). *)
Record sensor_reg_bits := mk_reg_bits { reg_addr : Z; reg_value : Z; reg_bits : Z }.

Definition reg_16bit (bits : Z) : bool := (bits .& SENSOR_I2C_REG_16BIT) =? SENSOR_I2C_REG_16BIT.
Definition val_16bit (bits : Z) : bool := (bits .& SENSOR_I2C_VAL_16BIT) =? SENSOR_I2C_VAL_16BIT.

(** The register bytes of [cmd] (lines 1107-1112 and 1160-1168). *)
Definition reg_addr_cmd (bits addr : Z) : list Z :=
  if reg_16bit bits
  then [u8 ((addr >> 8) .& SENSOR_LOW_EIGHT_BIT); u8 (addr .& SENSOR_LOW_EIGHT_BIT)]
  else [u8 addr].

(** The value bytes of [_Sensor_K_WriteReg] (lines 1170-1178). *)
Definition reg_value_cmd (bits data : Z) : list Z :=
  if val_16bit bits
  then [u8 ((data >> 8) .& SENSOR_LOW_EIGHT_BIT); u8 (data .& SENSOR_LOW_EIGHT_BIT)]
  else [u8 data].

(** The read loop of [_Sensor_K_ReadReg] (lines 1120-1140): a write
    of the register and a read of [r_cmd_num] bytes, up to [tries]
    times, 20 ms apart; the value read on success. *)
Fixpoint read_reg_loop (tries : nat) (addr : Z) (cmd : list Z) (r_cmd_num : Z) : M (Z * option Z) :=
  match tries with
  | O => ret (SENSOR_K_FAIL, None)
  | S n =>
    let* res := i2c_transfer [mk_i2c_msg addr 0 (Z.of_nat (length cmd)) cmd;
                              mk_i2c_msg addr I2C_M_RD r_cmd_num []] in
    if negb (res.1 =? 2) then msleep 20 ;; read_reg_loop n addr cmd r_cmd_num
    else ret (SENSOR_K_SUCCESS,
              Some (if r_cmd_num =? 1 then res.2 0%nat
                    else ((res.2 0%nat << 8) + res.2 1%nat) mod 2 ^ 16))
  end.

(** [_Sensor_K_ReadReg] (lines 1093-1143): the return code and
    [*pReg] afterwards. *)
Definition _Sensor_K_ReadReg (reg : sensor_reg_bits) : M (Z * sensor_reg_bits) :=
  let* v := gets w_valid in
  if negb v then ret (- EFAULT, reg) else
  let cmd := reg_addr_cmd (reg_bits reg) (reg_addr reg) in
  let r_cmd_num := if val_16bit (reg_bits reg) then SENSOR_CMD_BITS_16 else SENSOR_CMD_BITS_8 in
  let* m := get_mod in
  match cur_i2c_client m with
  | None => fault ;; ret (SENSOR_K_FAIL, reg)
  | Some a =>
    let* r := read_reg_loop SENSOR_I2C_OP_TRY_NUM a cmd r_cmd_num in
    ret (r.1, match r.2 with
              | Some x => mk_reg_bits (reg_addr reg) x (reg_bits reg)
              | None => reg
              end)
  end.

(** The write loop of [_Sensor_K_WriteReg] (lines 1180-1196): up to
    [tries] transfers, without delay. *)
Fixpoint write_reg_loop (tries : nat) (addr : Z) (cmd : list Z) : M Z :=
  match tries with
  | O => ret SENSOR_K_FAIL
  | S n =>
    let* res := i2c_transfer [mk_i2c_msg addr 0 (Z.of_nat (length cmd)) cmd] in
    if negb (res.1 =? 1) then write_reg_loop n addr cmd else ret SENSOR_K_SUCCESS
  end.

(** [_Sensor_K_WriteReg] (lines 1145-1202): the register
    [SENSOR_WRITE_DELAY] is a delay of [reg_value] ms. *)
Definition _Sensor_K_WriteReg (reg : sensor_reg_bits) : M Z :=
  SENSOR_CHECK_ZERO (
    let cmd := reg_addr_cmd (reg_bits reg) (reg_addr reg) ++
               reg_value_cmd (reg_bits reg) (reg_value reg) in
    if negb (reg_addr reg =? SENSOR_WRITE_DELAY) then
      let* m := get_mod in
      match cur_i2c_client m with
      | None => fault ;; ret SENSOR_K_FAIL
      | Some a => write_reg_loop SENSOR_I2C_OP_TRY_NUM a cmd
      end
    else msleep (reg_value reg) ;; ret SENSOR_K_SUCCESS).

(** ** The module buffer *)

(** The little-endian [uint16_t] at byte [k] of the buffer. *)
Definition buf_u16 (m : sensor_module) (k : nat) : Z := mem_bytes m k + 256 * mem_bytes m (S k).

(** [p_reg_table[i]] of a [SENSOR_REG_T] table in the buffer: a read
    past the buffer's size is a fault. *)
Definition read_entry (i : nat) : M (Z * Z) :=
  let* m := get_mod in
  if Z.of_nat (4 * i + 4) <=? mem_size m then ret (buf_u16 m (4 * i), buf_u16 m (4 * i + 2))
  else fault ;; ret (0, 0).

(** [copy_from_user] of [n] bytes into the buffer from user memory
    [src]: the bytes [src] has, up to [n], are copied; the result is
    the number not copied. *)
Definition copy_from_user_buf (n : Z) (src : list Z) : M Z :=
  let k := Nat.min (Z.to_nat n) (length src) in
  modify_mod (fun m => set_mem_bytes
    (fun j => if (j <? k)%nat then u8 (nth j src 0) else mem_bytes m j) m) ;;
  ret (n - Z.of_nat k).

(** The first [n] bytes of the buffer. *)
Definition buf_bytes (m : sensor_module) (n : Z) : list Z := map (mem_bytes m) (seq 0 (Z.to_nat n)).

(** ** The burst writer of the KIRAN board (lines 1433-1527) *)

Definition BURST_MODE_BUFFER_MAX_SIZE : Z := 255.
Definition BURST_REG : Z := 0x0e.
Definition DELAY_REG : Z := 0xff.

(** The locals [idx], [burst_flag], [burst_cnt] and the array
    [burstmode_data]. *)
Record burst_state := mk_burst { b_idx : Z; b_flag : Z; b_cnt : Z; b_data : nat -> Z }.

(** [burstmode_data[idx++] = x]: a store past the 255 bytes of the
    array is a fault. *)
Definition burst_store (st : burst_state) (x : Z) : M burst_state :=
  if b_idx st <? BURST_MODE_BUFFER_MAX_SIZE
  then ret (mk_burst (b_idx st + 1) (b_flag st) (b_cnt st) (upd (b_data st) (Z.to_nat (b_idx st)) (u8 x)))
  else fault ;; ret (mk_burst (b_idx st + 1) (b_flag st) (b_cnt st) (b_data st)).

(** The loop (lines 1466-1524) from entry [i] of the table, [n]
    entries left, on the client at [client]. *)
Fixpoint burst_loop (n : nat) (i : nat) (client : Z) (st : burst_state) : M Z :=
  match n with
  | O => ret 0
  | S n' =>
    let* e := read_entry i in
    let subaddr := e.1 in
    let value := e.2 in
    if b_flag st =? 0 then
      if subaddr =? BURST_REG then
        burst_loop n' (S i) client
          (if negb (value =? 0) then mk_burst (b_idx st) 1 (b_cnt st + 1) (b_data st) else st)
      else if subaddr =? DELAY_REG then
        (if negb (value =? DELAY_REG) then msleep (value * 10) else ret tt) ;;
        burst_loop n' (S i) client st
      else
        i2c_transfer [mk_i2c_msg client 0 2 [u8 subaddr; u8 value]] ;;
        burst_loop n' (S i) client (mk_burst 0 (b_flag st) (b_cnt st) (b_data st))
    else if (subaddr =? BURST_REG) && (value =? 0) then
      let* r := i2c_transfer [mk_i2c_msg client 0 (b_idx st)
                                (map (b_data st) (seq 0 (Z.to_nat (b_idx st))))] in
      if negb (r.1 =? 1) then ret 1
      else burst_loop n' (S i) client (mk_burst 0 0 (b_cnt st) (b_data st))
    else
      let* st := if b_idx st =? 0 then burst_store st subaddr else ret st in
      let* st := burst_store st value in
      burst_loop n' (S i) client st
  end.

(** [_sensor_burst_write_init] (lines 1438-1527), on the table in the
    module buffer. *)
Definition _sensor_burst_write_init (init_table_size : Z) : M Z :=
  SENSOR_CHECK_ZERO (
    let* m := get_mod in
    match cur_i2c_client m with
    | None => ret (-1)
    | Some a => burst_loop (Z.to_nat init_table_size) 0 a (mk_burst 0 0 0 (fun _ => 0))
    end).

(** ** Register tables and raw writes (lines 1216-1427) *)

(** [SENSOR_I2C_BUST_NB], from the header. *)
Definition SENSOR_I2C_BUST_NB : Z := 7.

(** [SENSOR_REG_TAB_T]: the count, the widths, the mode and the user
    memory the table pointer points to, as bytes. *)
Record sensor_reg_tab := mk_reg_tab {
  reg_count : Z; tab_reg_bits : Z; burst_mode : Z; sensor_reg_tab_ptr : list Z }.

(** The loop of [_sensor_k_wr_regtab] (lines 1248-1257): every entry
    is written, and a failure makes the result a failure. *)
Fixpoint regtab_loop (n : nat) (i : nat) (bits r : Z) : M Z :=
  match n with
  | O => ret r
  | S n' =>
    let* e := read_entry i in
    let* rettmp := _Sensor_K_WriteReg (mk_reg_bits e.1 e.2 bits) in
    regtab_loop n' (S i) bits (if rettmp =? SENSOR_K_FAIL then SENSOR_K_FAIL else r)
  end.

(** [_sensor_k_wr_regtab] (lines 1216-1273): the size is a [uint32_t]
    product. *)
Definition _sensor_k_wr_regtab (t : sensor_reg_tab) : M Z :=
  let cnt := reg_count t in
  let size := (cnt * 4) mod 2 ^ 32 in
  let* ok := _sensor_k_kmalloc size in
  if negb ok then ret SENSOR_K_FAIL else
  let* c := copy_from_user_buf size (sensor_reg_tab_ptr t) in
  if negb (c =? 0) then ret SENSOR_K_FAIL else
  if burst_mode t =? 0 then regtab_loop (Z.to_nat cnt) 0 (tab_reg_bits t) SENSOR_K_SUCCESS
  else if burst_mode t =? SENSOR_I2C_BUST_NB then _sensor_burst_write_init (reg_count t)
  else ret SENSOR_K_SUCCESS.

(** [SENSOR_I2C_T]: the slave address, the count and the user bytes. *)
Record sensor_i2c := mk_sensor_i2c { slave_addr : Z; i2c_count : Z; i2c_data : list Z }.

(** One write message on the adapter of the current client. *)
Definition send_bytes (addr cnt : Z) (bytes : list Z) : M Z :=
  let* m := get_mod in
  match cur_i2c_client m with
  | None => fault ;; ret SENSOR_K_FAIL
  | Some _ =>
    let* r := i2c_transfer [mk_i2c_msg addr 0 cnt bytes] in
    if negb (r.1 =? 1) then ret r.1 else ret SENSOR_K_SUCCESS
  end.

(** [_sensor_k_wr_i2c] (lines 1283-1323). *)
Definition _sensor_k_wr_i2c (t : sensor_i2c) : M Z :=
  SENSOR_CHECK_ZERO (
    let cnt := i2c_count t in
    let* ok := _sensor_k_kmalloc cnt in
    if negb ok then ret SENSOR_K_FAIL else
    let* c := copy_from_user_buf cnt (i2c_data t) in
    if negb (c =? 0) then ret SENSOR_K_FAIL else
    let* m := get_mod in
    send_bytes (slave_addr t) cnt (buf_bytes m cnt)).

(** [sensor_k_write] (lines 1383-1431): a write of fewer than 64
    bytes goes through a buffer on the stack. *)
Definition sensor_k_write (ubuf : list Z) (cnt : Z) : M Z :=
  SENSOR_CHECK_ZERO (
    let* m := get_mod in
    let addr := match cur_i2c_client m with Some a => a | None => 0 end in
    if cnt <? 64 then
      let k := Nat.min (Z.to_nat cnt) (length ubuf) in
      if negb (cnt - Z.of_nat k =? 0) then ret SENSOR_K_FAIL
      else send_bytes addr cnt (map u8 (firstn k ubuf))
    else
      let* ok := _sensor_k_kmalloc cnt in
      if negb ok then ret SENSOR_K_FAIL else
      let* c := copy_from_user_buf cnt ubuf in
      if negb (c =? 0) then ret SENSOR_K_FAIL else
      let* m := get_mod in
      send_bytes addr cnt (buf_bytes m cnt)).

(** ** What the device sees *)

(** The big-endian number a sequence of bytes on the bus spells. *)
Definition be_combine (l : list Z) : Z := fold_left (fun acc b => acc * 256 + b) l 0.

(** The width in bytes of an address or a value. *)
Definition cmd_width (b : bool) : nat := if b then 2%nat else 1%nat.

(** How a device decodes a register write of the given [reg_bits]:
    the address bytes, then the value bytes. *)
Definition decode_write (bits : Z) (bytes : list Z) : option (Z * Z) :=
  let na := cmd_width (reg_16bit bits) in
  let nv := cmd_width (val_16bit bits) in
  if (length bytes =? na + nv)%nat
  then Some (be_combine (firstn na bytes), be_combine (skipn na bytes)) else None.

(** The first of [n] answers from [t] on that is [good], counted from 0. *)
Fixpoint first_ok (ans : nat -> Z) (good : Z) (t : nat) (n : nat) : option nat :=
  match n with
  | O => None
  | S n' => if ans t =? good then Some 0%nat else option_map S (first_ok ans good (S t) n')
  end.

(** The number of transfers a retry loop of [n] tries makes. *)
Definition tries_made (ans : nat -> Z) (good : Z) (t n : nat) : nat :=
  match first_ok ans good t n with Some k => S k | None => n end.

(** ** Register access: round trips and retries *)

Lemma u16_split x :
  u8 ((x >> 8) .& SENSOR_LOW_EIGHT_BIT) * 256 + u8 (x .& SENSOR_LOW_EIGHT_BIT) = x mod 2 ^ 16.
Proof.
  unfold u8, SENSOR_LOW_EIGHT_BIT.
  change 0xff with (Z.ones 8). rewrite !Z.land_ones by lia. rewrite Z.shiftr_div_pow2 by lia.
  rewrite !Z.mod_mod by lia.
  change (2 ^ 8) with 256. change (2 ^ 16) with (256 * 256).
  rewrite Z.rem_mul_r by lia. lia.
Qed.

Lemma u8_u8 x : u8 (u8 x) = u8 x.
Proof. unfold u8. apply Z.mod_mod. lia. Qed.

(** C25: The bytes _Sensor_K_WriteReg sends, the address then the value,
    each in one or two big-endian bytes as reg_bits says, decode back to
    the address and the value truncated to 8 or 16 bits. *)
Theorem reg_cmd_roundtrip bits addr value :
  decode_write bits (reg_addr_cmd bits addr ++ reg_value_cmd bits value) =
  Some (addr mod 2 ^ (if reg_16bit bits then 16 else 8),
        value mod 2 ^ (if val_16bit bits then 16 else 8)).
Proof.
  unfold decode_write, reg_addr_cmd, reg_value_cmd.
  destruct (reg_16bit bits), (val_16bit bits); cbn [cmd_width app length Nat.add Nat.eqb firstn skipn];
  unfold be_combine; cbn [fold_left]; rewrite ?Z.mul_0_l, ?Z.add_0_l, ?u16_split; unfold u8; reflexivity.
Qed.

(** C26: The retry loop of _Sensor_K_WriteReg stops at the first
    acknowledged transfer and otherwise after its SENSOR_I2C_OP_TRY_NUM
    tries: it sends the same message exactly as many times as it tries,
    changes nothing else, and succeeds exactly when one answer is 1. *)
Theorem write_reg_loop_spec n a cmd w :
  let ev := Xfer [mk_i2c_msg a 0 (Z.of_nat (length cmd)) cmd] in
  let k := tries_made (w_ans w) 1 (w_t w) n in
  write_reg_loop n a cmd w =
  (match first_ok (w_ans w) 1 (w_t w) n with Some _ => SENSOR_K_SUCCESS | None => SENSOR_K_FAIL end,
   mk_w (w_valid w) (w_mod w) (w_reg w) (w_clk w) (w_gpio w) (w_held w)
     (w_io w ++ repeat ev k) (w_ans w) (w_rd w) (w_t w + k) (w_fault w)).
Proof.
  unfold tries_made. revert w. induction n as [|n IH]; intros w; cbn -[i2c_transfer].
  - destruct w; cbn. by rewrite app_nil_r, Nat.add_0_r.
  - unfold i2c_transfer, bind, emit, modify, ret. cbn.
    destruct (w_ans w (w_t w) =? 1) eqn:E; cbn.
    + destruct w; cbn in *. by rewrite Nat.add_1_r.
    + rewrite IH. cbn. destruct (first_ok _ _ _ _); cbn; destruct w; cbn;
        (f_equal; f_equal; [by rewrite <- app_assoc | lia]).
Qed.

Theorem read_reg_roundtrip w reg v a :
  w_valid w = true -> cur_i2c_client (w_mod w) = Some a -> w_ans w (w_t w) = 2 ->
  (forall k, w_rd w (w_t w) k = nth k (reg_value_cmd (reg_bits reg) v) 0) ->
  (_Sensor_K_ReadReg reg w).1 =
  (SENSOR_K_SUCCESS,
   mk_reg_bits (reg_addr reg) (v mod 2 ^ (if val_16bit (reg_bits reg) then 16 else 8)) (reg_bits reg)).
Proof.
  intros Hv Hc H2 Hrd.
  unfold _Sensor_K_ReadReg, read_reg_loop, i2c_transfer. sn_unfold. rewrite Hv. cbn. rewrite Hc. cbn.
  rewrite H2, !Hrd. cbn. unfold reg_value_cmd.
  destruct (val_16bit (reg_bits reg)); cbn -[u8 Z.pow Z.shiftl].
  - assert (Hu : forall x, u8 x mod 256 = u8 x) by (intros; unfold u8; apply Z.mod_mod; lia).
    rewrite !Hu, Z.shiftl_mul_pow2 by lia. change (2 ^ 8) with 256.
    rewrite u16_split, Z.mod_mod by lia. reflexivity.
  - unfold u8. rewrite Z.mod_mod by lia. reflexivity.
Qed.

(** ** Stray accesses to the table buffer *)

Lemma kf_write_reg_loop n addr cmd : keeps_fault (write_reg_loop n addr cmd).
Proof. induction n as [|n IH]; cbn [write_reg_loop]; pres_solve. Qed.
#[export] Hint Resolve kf_write_reg_loop : pres.

Lemma kf_WriteReg reg : keeps_fault (_Sensor_K_WriteReg reg).
Proof. unfold _Sensor_K_WriteReg, SENSOR_CHECK_ZERO, get_mod. pres_solve. Qed.
#[export] Hint Resolve kf_WriteReg : pres.

Lemma kf_regtab_loop n : forall i bits r, keeps_fault (regtab_loop n i bits r).
Proof.
  induction n as [|n IH]; intros i bits r; cbn [regtab_loop]; [apply pres_ret; typeclasses eauto|].
  unfold read_entry, get_mod. pres_solve.
Qed.
#[export] Hint Resolve kf_regtab_loop : pres.

Lemma kf_burst_loop n : forall i a st, keeps_fault (burst_loop n i a st).
Proof.
  induction n as [|n IH]; intros i a st; cbn [burst_loop]; [apply pres_ret; typeclasses eauto|].
  unfold read_entry, burst_store, get_mod. pres_solve.
Qed.
#[export] Hint Resolve kf_burst_loop : pres.

Lemma read_entry_oob i w :
  mem_size (w_mod w) < Z.of_nat (4 * i + 4) -> w_fault (read_entry i w).2 = true.
Proof.
  intros Hlt. unfold read_entry, bind, get_mod, gets. cbv beta iota.
  replace (Z.of_nat (4 * i + 4) <=? mem_size (w_mod w)) with false
    by (symmetry; apply Z.leb_gt; lia).
  reflexivity.
Qed.

Lemma regtab_loop_oob n i bits r w :
  mem_size (w_mod w) < Z.of_nat (4 * i + 4) -> w_fault (regtab_loop (S n) i bits r w).2 = true.
Proof. intros Hlt. cbn [regtab_loop]. apply fault_bind; [by apply read_entry_oob|]. pres_solve. Qed.

(** The size of the module buffer is kept. *)
Definition mem_kept : relation world := fun w w' => mem_size (w_mod w') = mem_size (w_mod w).

#[export] Instance mem_kept_preorder : PreOrder mem_kept.
Proof. split; [by intros w | intros a b c H1 H2; unfold mem_kept in *; congruence]. Qed.

Lemma mk_write_reg_loop n addr cmd : preserves mem_kept (write_reg_loop n addr cmd).
Proof. induction n as [|n IH]; cbn [write_reg_loop]; pres_solve. Qed.
#[local] Hint Resolve mk_write_reg_loop : pres.

Lemma mk_WriteReg reg : preserves mem_kept (_Sensor_K_WriteReg reg).
Proof. unfold _Sensor_K_WriteReg, SENSOR_CHECK_ZERO, get_mod. pres_solve. Qed.

Lemma mk_read_entry i : preserves mem_kept (read_entry i).
Proof. unfold read_entry, get_mod. pres_solve. Qed.

(** The loop of [_sensor_k_wr_regtab] reaches entry [i + k] when it has
    more than [k] entries left, and faults there when that entry lies
    past the buffer. *)
Lemma regtab_loop_reaches_oob k : forall n i bits r w,
  (k <= n)%nat -> mem_size (w_mod w) < Z.of_nat (4 * (i + k) + 4) ->
  w_fault (regtab_loop (S n) i bits r w).2 = true.
Proof.
  induction k as [|k IH]; intros n i bits r w Hk Hlt.
  { apply regtab_loop_oob. rewrite Nat.add_0_r in Hlt. exact Hlt. }
  destruct n as [|n]; [lia|]. cbn [regtab_loop]. unfold bind at 1.
  pose proof (mk_read_entry i w) as M1. destruct (read_entry i w) as [e w1].
  unfold bind. pose proof (mk_WriteReg (mk_reg_bits e.1 e.2 bits) w1) as M2.
  destruct (_Sensor_K_WriteReg _ w1) as [x w2]. cbn in M1, M2.
  apply (IH n (S i)); [lia|]. unfold mem_kept in *. rewrite M2, M1.
  replace (4 * (S i + k) + 4)%nat with (4 * (i + S k) + 4)%nat by lia. exact Hlt.
Qed.

(** C29: A reg_count whose product with sizeof(SENSOR_REG_T) wraps to 0
    in uint32_t (2^30 for example) makes _sensor_k_wr_regtab, when the
    module already holds a buffer smaller than the table, reuse it (0
    bytes fit), copy nothing and read table entries past the buffer. *)
Theorem sensor_k_wr_regtab_size_wrap t w :
  w_valid w = true -> mem_buf (w_mod w) = true -> 0 <= mem_size (w_mod w) < 4 * reg_count t ->
  burst_mode t = 0 -> (reg_count t * 4) mod 2 ^ 32 = 0 ->
  w_fault (_sensor_k_wr_regtab t w).2 = true.
Proof.
  intros Hv Hb Hs Hm Hsz. unfold _sensor_k_wr_regtab, _sensor_k_kmalloc, copy_from_user_buf.
  rewrite Hsz. unfold bind, ret, gets, modify, modify_mod, get_mod.
  assert (Hle : (0 <=? mem_size (w_mod w)) = true) by (apply Z.leb_le; lia).
  repeat progress (rewrite ?Hv, ?Hb, ?Hm, ?Hle; cbn -[upd regtab_loop]).
  destruct (Z.to_nat (reg_count t)) as [|n] eqn:Hn; [lia|].
  apply (regtab_loop_reaches_oob (Z.to_nat (mem_size (w_mod w) / 4))); cbn.
  - apply Nat.lt_succ_r, (Nat.lt_le_trans _ (Z.to_nat (reg_count t))); [|lia].
    apply Z2Nat.inj_lt; [apply Z.div_pos|..]; [lia..|]. apply Z.div_lt_upper_bound; lia.
  - pose proof (Z.mod_pos_bound (mem_size (w_mod w)) 4).
    pose proof (Z.div_mod (mem_size (w_mod w)) 4).
    assert (0 <= mem_size (w_mod w) / 4) by (apply Z.div_pos; lia). lia.
Qed.

(** ** Examples *)

(** A table of 2^30 entries: [cnt * sizeof(SENSOR_REG_T)] is 0. *)

(** The module holding the 2-byte buffer an earlier
    [SENSOR_IO_I2C_WRITE_EXT] of two bytes left. *)
Definition mod_small_buf : sensor_module := set_mem_buf true (set_mem_size 2 mod0).

Lemma sensor_k_wr_regtab_size_wrap_witness :
  w_fault (_sensor_k_wr_regtab (mk_reg_tab (2 ^ 30) 0 0 [])
             (world0 mod_small_buf clkfw0 (fun _ => 0))).2 = true.
Proof. apply sensor_k_wr_regtab_size_wrap; cbn; try reflexivity; lia. Defined.

End SensorI2c.
