(* ===== verification/SensorBurst.v ===== *)
(** * The burst register-table writer of the camera sensor driver

    [_sensor_burst_write_init] (src/drivers/media/sprd_sensor/
    sensor_drv_k.c, lines 1438-1527, KIRAN build) sends a table of
    (subaddress, value) pairs to the sensor.  Entries between a
    [BURST_REG] marker with a non-zero value and a [BURST_REG] entry of
    value 0 are gathered in the 255-byte stack buffer [burstmode_data]
    and go out as one I2C write that the sensor applies to consecutive
    registers; [DELAY_REG] entries sleep; any other entry is one
    two-byte write.

    This file gives the device's side of the bus ([dev_apply]: a write
    message sets consecutive registers from its first byte on) and the
    reference meaning of a table ([burst_ref]: every entry that is not
    a marker or a delay sets its register), and proves:
    - [sensor_burst_write_refines]: on a well-formed table (bursts of
      consecutive addresses, at most 254 values, every burst closed)
      whose transfers are acknowledged, the writer succeeds, touches
      nothing but the bus, and leaves the device as the reference does;
    - [sensor_burst_write_overflow]: a burst of 255 values writes past
      [burstmode_data];
    - [sensor_burst_write_unterminated]: a burst still open at the end
      of the table is never sent, and the writer reports success. *)

From S2P Require Import Prelude SensorDrv SensorI2c.

Module SensorBurst.
Import SensorDrv SensorI2c.
Open Scope Z_scope. Open Scope sn_scope.

(** ** The device and the reference *)

(** A sensor applying the value bytes [vs] of a write from register
    [a] on: one register after the other, with an 8-bit address. *)
Fixpoint dev_write_from (regs : Z -> Z) (a : Z) (vs : list Z) : Z -> Z :=
  match vs with
  | [] => regs
  | v :: vs => dev_write_from (upd regs (u8 a) v) (a + 1) vs
  end.

(** A write message: the first byte is the register address. *)
Definition dev_write (regs : Z -> Z) (bytes : list Z) : Z -> Z :=
  match bytes with [] => regs | a :: vs => dev_write_from regs a vs end.

(** The registers after the bus traffic [evs]: every single-message
    write transfer is applied; reads, delays and the rest leave them. *)
Fixpoint dev_apply (regs : Z -> Z) (evs : list io_ev) : Z -> Z :=
  match evs with
  | [] => regs
  | Xfer [m] :: rest => dev_apply (if msg_flags m =? 0 then dev_write regs (msg_buf m) else regs) rest
  | _ :: rest => dev_apply regs rest
  end.

(** What a table means: every entry that is neither a [BURST_REG]
    marker nor, outside a burst, a [DELAY_REG] entry sets its register. *)
Fixpoint burst_ref (regs : Z -> Z) (in_burst : bool) (tab : list (Z * Z)) : Z -> Z :=
  match tab with
  | [] => regs
  | (a, v) :: rest =>
    if negb in_burst then
      if a =? BURST_REG then burst_ref regs (negb (v =? 0)) rest
      else if a =? DELAY_REG then burst_ref regs false rest
      else burst_ref (upd regs (u8 a) (u8 v)) false rest
    else if (a =? BURST_REG) && (v =? 0) then burst_ref regs false rest
    else burst_ref (upd regs (u8 a) (u8 v)) true rest
  end.

(** The tables the burst writer is made for: each burst is closed,
    holds at most 254 values, and its entries have consecutive
    addresses, [start] being the first and [len] the count so far. *)
Fixpoint burst_wf (in_burst : bool) (start : Z) (len : nat) (tab : list (Z * Z)) : bool :=
  match tab with
  | [] => negb in_burst
  | (a, v) :: rest =>
    if negb in_burst then
      if a =? BURST_REG then burst_wf (negb (v =? 0)) 0 0 rest
      else burst_wf false 0 0 rest
    else if (a =? BURST_REG) && (v =? 0) then burst_wf false 0 0 rest
    else (if (len =? 0)%nat then true else u8 a =? u8 (start + Z.of_nat len)) && (len <? 254)%nat &&
         burst_wf true (if (len =? 0)%nat then a else start) (S len) rest
  end.

(** The module buffer holds the table [tab] of [SENSOR_REG_T]
    entries (two little-endian [uint16_t] each). *)
Definition table_in_buffer (m : sensor_module) (tab : list (Z * Z)) : Prop :=
  Z.of_nat (4 * length tab) <= mem_size m /\
  forall i e, tab !! i = Some e -> (buf_u16 m (4 * i), buf_u16 m (4 * i + 2)) = e.

(** The loop's state against the reference: outside a burst the
    device is as the reference; inside one the buffer holds the start
    address and the values [vs] so far, whose write finishes the
    reference's work. *)
Definition burst_rel (in_burst : bool) (start : Z) (vs : list Z) (st : burst_state) (impl ref : Z -> Z) : Prop :=
  if in_burst then
    b_flag st = 1 /\ (length vs <= 254)%nat /\
    match vs with
    | [] => b_idx st = 0 /\ impl = ref
    | _ => b_idx st = Z.of_nat (length vs) + 1 /\
           map (b_data st) (seq 0 (Z.to_nat (b_idx st))) = u8 start :: vs /\
           dev_write_from impl (u8 start) vs = ref
    end
  else b_flag st = 0 /\ b_idx st = 0 /\ impl = ref.

(** The loop succeeded, did not fault, left the module as it was and
    only added bus traffic, which takes the device from [impl] to
    [target]. *)
Definition loop_ok (w : world) (impl target : Z -> Z) (res : Z * world) : Prop :=
  res.1 = 0 /\ w_fault res.2 = w_fault w /\ w_mod res.2 = w_mod w /\
  exists evs, w_io res.2 = w_io w ++ evs /\ dev_apply impl evs = target.

(** An entry that does not close a burst. *)
Definition nonterm (e : Z * Z) : bool := negb ((e.1 =? BURST_REG) && (e.2 =? 0)).

(** ** The writer against the reference *)

Lemma dev_apply_app regs l1 l2 : dev_apply regs (l1 ++ l2) = dev_apply (dev_apply regs l1) l2.
Proof.
  revert regs. induction l1 as [|e l1 IH]; intros regs; [done|].
  destruct e as [[|m [|m' ms]]| | | | | | | | | |]; cbn; auto.
Qed.

Lemma dev_write_from_snoc regs a vs v :
  dev_write_from regs a (vs ++ [v]) = upd (dev_write_from regs a vs) (u8 (a + Z.of_nat (length vs))) v.
Proof.
  revert regs a. induction vs as [|x vs IH]; intros regs a; cbn.
  - by rewrite Z.add_0_r.
  - rewrite IH. do 2 f_equal. lia.
Qed.

Lemma read_entry_tab w tab i e :
  table_in_buffer (w_mod w) tab -> tab !! i = Some e -> read_entry i w = (e, w).
Proof.
  intros [Hsz Htab] He. unfold read_entry, bind, get_mod, gets. cbv beta iota.
  pose proof (lookup_lt_Some _ _ _ He).
  replace (Z.of_nat (4 * i + 4) <=? mem_size (w_mod w)) with true by (symmetry; apply Z.leb_le; lia).
  unfold ret. cbv beta iota. rewrite (Htab i e He). by destruct w.
Qed.

Lemma i2c_transfer_ack w msgs :
  w_ans w (w_t w) = 1 ->
  exists rd, i2c_transfer msgs w = ((1, rd), map_t S (map_io (fun l => l ++ [Xfer msgs]) w)).
Proof. intros H. unfold i2c_transfer. sn_unfold. rewrite H. by eexists. Qed.

Lemma map_upd_seq_snoc (f : nat -> Z) n x :
  map (upd f n x) (seq 0 (S n)) = map f (seq 0 n) ++ [x].
Proof.
  rewrite seq_S, map_app. cbn. rewrite upd_hit. f_equal.
  apply map_ext_in. intros j Hj. apply in_seq in Hj. rewrite upd_miss by lia. done.
Qed.

Lemma loop_ok_prefix w w1 impl impl1 target evs0 res :
  w_mod w1 = w_mod w -> w_fault w1 = w_fault w -> w_io w1 = w_io w ++ evs0 ->
  dev_apply impl evs0 = impl1 -> loop_ok w1 impl1 target res -> loop_ok w impl target res.
Proof.
  intros Hm Hf Hio Hd (Hr & Hf' & Hm' & evs & Hio' & Hd').
  split_and!; try congruence. exists (evs0 ++ evs).
  by rewrite Hio', Hio, app_assoc, dev_apply_app, Hd.
Qed.

(** A byte pushed on the burst buffer, the store's in-bounds branch. *)
Lemma burst_store_ok st x w :
  b_idx st < BURST_MODE_BUFFER_MAX_SIZE ->
  burst_store st x w =
  (mk_burst (b_idx st + 1) (b_flag st) (b_cnt st) (upd (b_data st) (Z.to_nat (b_idx st)) (u8 x)), w).
Proof. intros Hlt. unfold burst_store. apply Z.ltb_lt in Hlt. by rewrite Hlt. Qed.

(** The buffer of an open burst, sent as one message, does what the
    reference did so far. *)
Lemma burst_rel_flush start vs st impl ref :
  burst_rel true start vs st impl ref ->
  dev_write impl (map (b_data st) (seq 0 (Z.to_nat (b_idx st)))) = ref.
Proof.
  intros (_ & _ & Hrest). destruct vs as [|v0 vs0]; destruct Hrest as [Hi Hm]; rewrite Hi.
  - by subst.
  - destruct Hm as [Hmap Hd]. rewrite <- Hi, Hmap. exact Hd.
Qed.

(** The first entry of a burst: its subaddress and its value. *)
Lemma burst_rel_first ea ev st ref :
  b_flag st = 1 -> b_idx st = 0 ->
  burst_rel true ea [u8 ev]
    (mk_burst (0 + 1 + 1) (b_flag st) (b_cnt st)
       (upd (upd (b_data st) (Z.to_nat 0) (u8 ea)) (Z.to_nat (0 + 1)) (u8 ev)))
    ref (upd ref (u8 ea) (u8 ev)).
Proof.
  intros Hfl Hi. cbn. split_and!; [done|lia|done| |].
  - unfold upd. cbn. done.
  - by rewrite u8_u8.
Qed.

(** A further value of a burst, at the next address. *)
Lemma burst_rel_next start v0 vs0 st impl ref ea ev :
  burst_rel true start (v0 :: vs0) st impl ref ->
  u8 ea = u8 (start + Z.of_nat (S (length vs0))) -> (length vs0 <= 252)%nat ->
  burst_rel true start (v0 :: vs0 ++ [u8 ev])
    (mk_burst (b_idx st + 1) (b_flag st) (b_cnt st) (upd (b_data st) (Z.to_nat (b_idx st)) (u8 ev)))
    impl (upd ref (u8 ea) (u8 ev)).
Proof.
  intros (Hfl & _ & Hi & Hmap & Hd) Hadr Hlen.
  cbn [burst_rel length b_idx b_flag b_data] in *. rewrite length_app, Nat.add_1_r.
  split_and!; [done|lia|lia| |].
  - replace (Z.to_nat (b_idx st + 1)) with (S (Z.to_nat (b_idx st))) by lia.
    rewrite map_upd_seq_snoc, Hmap. done.
  - rewrite app_comm_cons, dev_write_from_snoc, Hd. f_equal.
    rewrite Hadr. unfold u8. rewrite Z.add_mod_idemp_l by lia. done.
Qed.

(** The induction step of [burst_loop_refines]: the rest of the table,
    from the state the entry leaves. *)
Local Ltac next IH Htab Hdrop' Hans b s vs :=
  eapply (IH _ _ _ b s vs); [exact Htab|exact Hdrop'|exact Hans| |].

Lemma burst_loop_refines rest : forall i st w in_burst start vs impl ref a tab,
  table_in_buffer (w_mod w) tab -> drop i tab = rest -> (forall n, w_ans w n = 1) ->
  burst_rel in_burst start vs st impl ref ->
  burst_wf in_burst start (length vs) rest = true ->
  loop_ok w impl (burst_ref ref in_burst rest) (burst_loop (length rest) i a st w).
Proof.
  induction rest as [|[ea ev] rest IH];
    intros i st w in_burst start vs impl ref a tab Htab Hdrop Hans Hrel Hwf.
  - cbn. destruct in_burst; [done|]. destruct Hrel as (_ & _ & ->).
    split_and!; auto. exists []. by rewrite app_nil_r.
  - assert (He : tab !! i = Some (ea, ev)).
    { rewrite <- (Nat.add_0_r i), <- lookup_drop, Hdrop. done. }
    assert (Hdrop' : drop (S i) tab = rest).
    { rewrite (drop_S tab (ea, ev) i He) in Hdrop. by injection Hdrop. }
    cbn [length burst_loop]. unfold bind at 1. rewrite (read_entry_tab w tab i (ea, ev) Htab He).
    cbn [fst snd]. destruct in_burst; cbn [burst_ref burst_wf negb] in Hwf |- *.
    + pose proof Hrel as (Hfl & Hlen & Hrest). rewrite Hfl. cbn [Z.eqb Pos.eqb].
      destruct ((ea =? BURST_REG) && (ev =? 0)) eqn:Hterm; unfold bind.
      * (* the terminator: the burst buffer goes out in one message *)
        destruct (i2c_transfer_ack w [mk_i2c_msg a 0 (b_idx st)
          (map (b_data st) (seq 0 (Z.to_nat (b_idx st))))] (Hans _)) as [rd ->].
        cbn [fst snd negb Z.eqb Pos.eqb].
        eapply (loop_ok_prefix _ _ _ _ _ [_]); last first.
        { next IH Htab Hdrop' Hans false 0 (@nil Z); [done|exact Hwf]. }
        all: try reflexivity. exact (burst_rel_flush _ _ _ _ _ Hrel).
      * (* a subaddress or a value, stored into the burst buffer *)
        destruct vs as [|v0 vs0].
        -- destruct Hrest as [Hi ->]. rewrite Hi. cbn [Z.eqb] in Hwf |- *.
           rewrite burst_store_ok by (rewrite Hi; done). cbv beta iota.
           rewrite burst_store_ok by (cbn; rewrite Hi; done). cbv beta iota. cbn [b_idx b_flag b_cnt b_data].
           rewrite Hi. next IH Htab Hdrop' Hans true ea [u8 ev]; [by apply burst_rel_first|exact Hwf].
        -- destruct Hrest as (Hi & _). cbn [length] in Hi, Hwf.
           apply andb_true_iff in Hwf as [[Hadr%Z.eqb_eq Hlt%Nat.leb_le]%andb_true_iff Hwf].
           replace (b_idx st =? 0) with false by (symmetry; apply Z.eqb_neq; lia). cbv beta iota.
           unfold ret. rewrite burst_store_ok by (unfold BURST_MODE_BUFFER_MAX_SIZE; cbn in Hlen; lia).
           next IH Htab Hdrop' Hans true start (v0 :: vs0 ++ [u8 ev]); [apply burst_rel_next; [exact Hrel|exact Hadr|lia]|].
           cbn [length Nat.eqb] in Hwf |- *. rewrite length_app, Nat.add_1_r. exact Hwf.
    + destruct Hrel as (Hfl & Hi & ->). destruct st as [idx fl cnt data].
      cbn in Hfl, Hi. subst idx fl. cbn [b_flag Z.eqb].
      destruct (ea =? BURST_REG) eqn:Hb; [|destruct (ea =? DELAY_REG) eqn:Hdl]; unfold bind.
      * (* the burst marker: opens a burst when its value is not zero *)
        next IH Htab Hdrop' Hans (negb (ev =? 0)) 0 (@nil Z); [|exact Hwf]. destruct (ev =? 0); cbn; split_and!; auto with lia.
      * (* the delay entry *)
        destruct (negb (ev =? DELAY_REG)); unfold msleep, emit, modify, ret; cbn.
        -- eapply (loop_ok_prefix _ _ _ _ _ [_]); last first.
           { next IH Htab Hdrop' Hans false 0 (@nil Z); [done|exact Hwf]. }
           all: try reflexivity. all: reflexivity.
        -- next IH Htab Hdrop' Hans false 0 (@nil Z); [done|exact Hwf].
      * (* a single register write *)
        destruct (i2c_transfer_ack w [mk_i2c_msg a 0 2 [u8 ea; u8 ev]] (Hans _)) as [rd ->].
        eapply (loop_ok_prefix _ _ _ _ _ [_]); last first.
        { next IH Htab Hdrop' Hans false 0 (@nil Z); [done|exact Hwf]. }
        all: try done. cbn. by rewrite u8_u8.
Qed.

Lemma burst_loop_overflow n : forall m i st w a tab,
  table_in_buffer (w_mod w) tab ->
  (forall k, (k < n)%nat -> exists e, tab !! (i + k)%nat = Some e /\ nonterm e = true) ->
  b_flag st = 1 -> 0 < b_idx st <= 255 -> 255 < b_idx st + Z.of_nat n ->
  w_fault (burst_loop (n + m) i a st w).2 = true.
Proof.
  induction n as [|n IH]; intros m i st w a tab Htab Hk Hfl Hi Hn; [lia|].
  destruct (Hk 0%nat ltac:(lia)) as [[ea ev] [He Hnt]]. rewrite Nat.add_0_r in He.
  cbn [Nat.add burst_loop]. unfold bind at 1. rewrite (read_entry_tab w tab i _ Htab He).
  cbv beta iota. cbn [fst snd]. unfold nonterm in Hnt. cbn [fst snd] in Hnt.
  apply negb_true_iff in Hnt. rewrite Hfl, Hnt. cbn [Z.eqb Pos.eqb].
  replace (b_idx st =? 0) with false by (symmetry; apply Z.eqb_neq; lia).
  unfold bind, ret, burst_store, BURST_MODE_BUFFER_MAX_SIZE. cbv beta iota.
  destruct (b_idx st <? 255) eqn:Hlt.
  - apply Z.ltb_lt in Hlt. apply (IH m (S i) _ w a tab Htab); cbn; [|done|lia|lia].
    intros k Hk'. replace (S (i + k)) with (i + S k)%nat by lia. apply Hk. lia.
  - apply kf_burst_loop. reflexivity.
Qed.

Lemma burst_write_init_client w a n :
  w_valid w = true -> cur_i2c_client (w_mod w) = Some a ->
  _sensor_burst_write_init n w = burst_loop (Z.to_nat n) 0 a (mk_burst 0 0 0 (fun _ => 0)) w.
Proof.
  intros Hv Ha. unfold _sensor_burst_write_init, SENSOR_CHECK_ZERO, bind, gets, get_mod.
  cbv beta iota. rewrite Hv. unfold gets. cbv beta iota. rewrite Ha. done.
Qed.

(** C19: On a table in the module buffer whose bursts hold consecutive
    addresses, at most 254 values and are all closed, and with every
    transfer acknowledged, _sensor_burst_write_init returns 0, does not
    fault, leaves the module state as it was and only appends to the bus
    log, and its write messages take the sensor to the registers of the
    reference semantics, in which every entry that is not a BURST_REG
    marker or an out-of-burst DELAY_REG entry sets its register. *)
Theorem sensor_burst_write_refines w a tab regs :
  w_valid w = true -> cur_i2c_client (w_mod w) = Some a -> table_in_buffer (w_mod w) tab ->
  (forall n, w_ans w n = 1) -> burst_wf false 0 0 tab = true ->
  loop_ok w regs (burst_ref regs false tab) (_sensor_burst_write_init (Z.of_nat (length tab)) w).
Proof.
  intros Hv Ha Htab Hans Hwf. rewrite (burst_write_init_client w a _ Hv Ha), Nat2Z.id.
  apply (burst_loop_refines tab 0 _ w false 0 [] regs regs a tab); auto.
  by split_and!.
Qed.

Lemma burst_loop_open n i a st w tab v :
  table_in_buffer (w_mod w) tab -> tab !! i = Some (BURST_REG, v) -> b_flag st = 0 ->
  burst_loop (S n) i a st w =
  burst_loop n (S i) a (if negb (v =? 0) then mk_burst (b_idx st) 1 (b_cnt st + 1) (b_data st) else st) w.
Proof.
  intros Htab He Hfl. cbn [burst_loop]. unfold bind at 1. rewrite (read_entry_tab w tab i _ Htab He).
  cbv beta iota. cbn [fst snd]. rewrite Hfl, Z.eqb_refl. done.
Qed.

Lemma burst_loop_first n i a st w tab e :
  table_in_buffer (w_mod w) tab -> tab !! i = Some e -> nonterm e = true ->
  b_flag st = 1 -> b_idx st = 0 ->
  burst_loop (S n) i a st w =
  burst_loop n (S i) a (mk_burst 2 1 (b_cnt st) (upd (upd (b_data st) 0%nat (u8 e.1)) 1%nat (u8 e.2))) w.
Proof.
  intros Htab He Hnt Hfl Hi. destruct e as [ea ev]. cbn [burst_loop]. unfold bind at 1.
  rewrite (read_entry_tab w tab i _ Htab He). cbv beta iota. cbn [fst snd].
  apply negb_true_iff in Hnt. cbn [fst snd] in Hnt. rewrite Hfl, Hnt, Hi. cbn [Z.eqb].
  unfold bind, burst_store, ret. rewrite Hi. unfold BURST_MODE_BUFFER_MAX_SIZE. cbn. rewrite Hfl. done.
Qed.

(** C24: A burst of 255 values (a BURST_REG marker followed by 255
    entries that do not close it) makes _sensor_burst_write_init write
    past the 255-byte burstmode_data buffer on its stack. *)
Theorem sensor_burst_write_overflow w a tab v :
  w_valid w = true -> cur_i2c_client (w_mod w) = Some a -> table_in_buffer (w_mod w) tab ->
  tab !! 0%nat = Some (BURST_REG, v) -> v <> 0 ->
  (forall k, (1 <= k <= 255)%nat -> exists e, tab !! k = Some e /\ nonterm e = true) ->
  w_fault (_sensor_burst_write_init (Z.of_nat (length tab)) w).2 = true.
Proof.
  intros Hv Ha Htab H0 Hv0 Hk. rewrite (burst_write_init_client w a _ Hv Ha), Nat2Z.id.
  destruct (Hk 255%nat ltac:(lia)) as [e255 [H255 _]].
  pose proof (lookup_lt_Some _ _ _ H255) as Hlen.
  destruct (Hk 1%nat ltac:(lia)) as [e1 [H1 Hnt]].
  replace (length tab) with (S (S (254 + (length tab - 256))))%nat by lia.
  rewrite (burst_loop_open _ _ _ (mk_burst 0 0 0 (fun _ => 0)) w tab v Htab H0 eq_refl).
  replace (negb (v =? 0)) with true by (symmetry; apply negb_true_iff, Z.eqb_neq; done).
  rewrite (burst_loop_first _ _ _ (mk_burst 0 1 (0 + 1) (fun _ => 0)) w tab e1 Htab H1 Hnt eq_refl eq_refl).
  apply (burst_loop_overflow 254 _ 2 _ w a tab Htab); [|reflexivity|cbn [b_idx]; lia|cbn [b_idx]; lia].
  intros k Hk'. apply Hk. lia.
Qed.

(** C32: A burst still open at the end of the table is never sent: on a
    table of a BURST_REG marker and one register entry,
    _sensor_burst_write_init returns 0 with nothing written. *)
Theorem sensor_burst_write_unterminated w a v r x :
  w_valid w = true -> cur_i2c_client (w_mod w) = Some a ->
  table_in_buffer (w_mod w) [(BURST_REG, v); (r, x)] -> v <> 0 -> nonterm (r, x) = true ->
  _sensor_burst_write_init 2 w = (0, w).
Proof.
  intros Hv Ha Htab Hv0 Hnt. rewrite (burst_write_init_client w a _ Hv Ha).
  change (Z.to_nat 2) with 2%nat.
  rewrite (burst_loop_open _ 0 _ (mk_burst 0 0 0 (fun _ => 0)) w _ v Htab eq_refl eq_refl).
  replace (negb (v =? 0)) with true by (symmetry; apply negb_true_iff, Z.eqb_neq; done).
  rewrite (burst_loop_first _ 1 _ (mk_burst 0 1 (0 + 1) (fun _ => 0)) w _ (r, x) Htab eq_refl Hnt eq_refl eq_refl).
  done.
Qed.

(** ** Tables laid out in the buffer, for the examples *)

(** The bytes of a table of [SENSOR_REG_T] entries. *)
Definition tab_bytes (tab : list (Z * Z)) (k : nat) : Z :=
  match tab !! (k / 4)%nat with
  | Some (a, v) =>
    let x := if (k mod 4 <? 2)%nat then a else v in
    if (k mod 2 =? 0)%nat then x mod 256 else x / 256
  | None => 0
  end.

Definition u16_entries (tab : list (Z * Z)) : bool :=
  forallb (fun e => (0 <=? e.1) && (e.1 <? 65536) && (0 <=? e.2) && (e.2 <? 65536)) tab.

Lemma tab_bytes_u16 tab i k e x :
  tab !! i = Some e -> (k = 0 \/ k = 2)%nat -> x = (if (k <? 2)%nat then e.1 else e.2) ->
  0 <= x < 65536 ->
  tab_bytes tab (4 * i + k) + 256 * tab_bytes tab (S (4 * i + k)) = x.
Proof.
  intros He Hk -> Hx. unfold tab_bytes.
  replace ((4 * i + k) / 4)%nat with i by (apply Nat.div_unique with k; lia).
  replace (S (4 * i + k) / 4)%nat with i by (apply Nat.div_unique with (S k); lia).
  replace ((4 * i + k) mod 4)%nat with k by (apply Nat.mod_unique with i; lia).
  replace (S (4 * i + k) mod 4)%nat with (S k) by (apply Nat.mod_unique with i; lia).
  replace ((4 * i + k) mod 2)%nat with 0%nat
    by (apply Nat.mod_unique with (2 * i + (if (k =? 0)%nat then 0 else 1))%nat; destruct Hk; subst; cbn; lia).
  replace (S (4 * i + k) mod 2)%nat with 1%nat
    by (apply Nat.mod_unique with (2 * i + (if (k =? 0)%nat then 0 else 1))%nat; destruct Hk; subst; cbn; lia).
  rewrite He. destruct e as [a v].
  destruct Hk; subst; cbn in *; rewrite Z.add_comm, <- Z.div_mod; lia.
Qed.

Lemma tab_bytes_in_buffer m tab :
  mem_bytes m = tab_bytes tab -> Z.of_nat (4 * length tab) <= mem_size m ->
  u16_entries tab = true -> table_in_buffer m tab.
Proof.
  intros Hb Hs Hu. split; [exact Hs|]. intros i [a v] He.
  unfold u16_entries in Hu. rewrite forallb_forall in Hu.
  specialize (Hu _ (proj1 (list_elem_of_In _ _) (list_elem_of_lookup_2 _ _ _ He))). cbn in Hu.
  rewrite !andb_true_iff, !Z.leb_le, !Z.ltb_lt in Hu.
  unfold buf_u16. rewrite Hb. f_equal.
  - rewrite <- (Nat.add_0_r (4 * i)). apply (tab_bytes_u16 _ _ _ (a, v)); cbn; auto; lia.
  - apply (tab_bytes_u16 _ _ _ (a, v)); cbn; auto; lia.
Qed.

(** The sensor at address 0x3c acknowledging every transfer, with the
    table [tab] in the module buffer. *)
Definition burst_world (tab : list (Z * Z)) : world :=
  mk_w true (set_mem_bytes (tab_bytes tab) (set_mem_size (Z.of_nat (4 * length tab))
    (set_mem_buf true (set_cur_i2c_client (Some 0x3c) mod0))))
    regfw0 clkfw0 (fun _ => 0) [] [] (fun _ => 1) (fun _ _ => 0) 0 false.

(** A write, a burst of three registers and a delay. *)
Definition demo_tab : list (Z * Z) :=
  [(0x10, 1); (BURST_REG, 1); (0x20, 5); (0x21, 6); (0x22, 7); (BURST_REG, 0); (DELAY_REG, 1)].

(** A burst of 255 values. *)
Definition long_burst_tab : list (Z * Z) :=
  (BURST_REG, 1) :: map (fun k => (Z.of_nat k, 7)) (seq 0 255).

Lemma burst_world_buffer tab :
  u16_entries tab = true -> table_in_buffer (w_mod (burst_world tab)) tab.
Proof. intros Hu. apply tab_bytes_in_buffer; [reflexivity | cbn; lia | exact Hu]. Qed.

(** ** Examples *)

Lemma sensor_burst_write_refines_witness :
  loop_ok (burst_world demo_tab) (fun _ => 0) (burst_ref (fun _ => 0) false demo_tab)
    (_sensor_burst_write_init (Z.of_nat (length demo_tab)) (burst_world demo_tab)).
Proof.
  apply (sensor_burst_write_refines _ 0x3c); [reflexivity | reflexivity | | | reflexivity].
  - apply burst_world_buffer. reflexivity.
  - intros n. reflexivity.
Defined.

Lemma sensor_burst_write_overflow_witness :
  w_fault (_sensor_burst_write_init (Z.of_nat (length long_burst_tab)) (burst_world long_burst_tab)).2 = true.
Proof.
  apply (sensor_burst_write_overflow _ 0x3c _ 1); [reflexivity | reflexivity | | reflexivity | lia |].
  - apply burst_world_buffer. vm_compute. reflexivity.
  - intros [|k] Hk; [lia|]. unfold long_burst_tab.
    change ((_ :: ?l) !! S k) with (l !! k). rewrite list_lookup_fmap, lookup_seq_lt by lia.
    eexists. split; [reflexivity|]. unfold nonterm. cbn. by rewrite andb_false_r.
Defined.

Lemma sensor_burst_write_unterminated_witness :
  _sensor_burst_write_init 2 (burst_world [(BURST_REG, 1); (0x10, 0x20)]) =
  (0, burst_world [(BURST_REG, 1); (0x10, 0x20)]).
Proof.
  apply (sensor_burst_write_unterminated _ 0x3c 1 0x10 0x20); [reflexivity | reflexivity | | lia | reflexivity].
  apply burst_world_buffer. reflexivity.
Defined.

End SensorBurst.
