(* ===== verification/SensorIoctl.v ===== *)
(** * The camera sensor driver's file operations and module life cycle

    [sensor_k_open] and [sensor_k_release] (lines 1335-1376),
    [sensor_k_read] (1378-1381), the ioctl dispatcher [sensor_k_ioctl]
    (1611-1871), the platform driver's [sensor_k_probe] and
    [sensor_k_remove] (1889-1992), the sysfs attributes of the camera
    class (2049-2112), the cpuidle notifier (2125-2142) and
    [sensor_k_init] / [sensor_k_exit] (2150-2275) of
    src/drivers/media/sprd_sensor/sensor_drv_k.c, on the KIRAN board.

    The kernel objects the driver registers and frees (the module
    memory, the misc device, the platform and I2C drivers, the GPIOs,
    the camera class, its devices and attribute files, the cpuidle
    notifier) are the list [w_held] of the world: a registration
    appends, an unregistration removes one occurrence.  The ioctl's
    user argument is the value the [copy_from_user] would read,
    decoded by command; [copy_from_user] itself returns the number of
    bytes it could not copy, any number from 0 to the size. *)

From S2P Require Import Prelude SensorDrv SensorPower SensorI2c.

Module SensorIoctl.
Import SensorDrv SensorPower SensorI2c.

Local Open Scope Z_scope.
Local Open Scope sn_scope.

(** ** Kernel objects *)

Definition acquire (r : sres) : M unit := modify (map_held (fun l => l ++ [r])).

Fixpoint remove_one (r : sres) (l : list sres) : list sres :=
  match l with
  | [] => []
  | x :: l => if decide (x = r) then l else x :: remove_one r l
  end.

Definition release (r : sres) : M unit := modify (map_held (remove_one r)).

(** A registration call: success (0) takes the object. *)
Definition register (r : sres) : M Z :=
  let* a := ask in if a =? 0 then acquire r ;; ret 0 else ret a.

(** A creation call returning a pointer ([class_create],
    [device_create]): [ERR_PTR] of a negative answer. *)
Definition create (r : sres) : M Z :=
  let* a := ask in if a <? 0 then ret a else acquire r ;; ret 0.

(** [clk_mm_i_eb] (parse_hwinfo, not under src/): the gate of the
    multimedia AHB clock, counted as the clock [MM_CLK]. *)
Definition MM_CLK : string := "clk_mm_i".

Definition clk_mm_i_eb (on : bool) : M Z :=
  if on then
    let* a := ask in
    if a =? 0 then
      modify (map_clk (fun k => set_c_en (upd (c_en k) MM_CLK (c_en k MM_CLK + 1)) k)) ;; ret 0
    else ret a
  else
    let* u := gets (fun w => c_en (w_clk w) MM_CLK) in
    if 0 <? u then modify (map_clk (fun k => set_c_en (upd (c_en k) MM_CLK (u - 1)) k)) ;; ret 0
    else modify (map_clk (fun k => set_c_unbal (c_unbal k ++ [MM_CLK]) k)) ;; ret 0.

(** The driver dereferences [s_p_sensor_mod] without checking it. *)
Definition with_mod (k : M Z) : M Z :=
  let* v := gets w_valid in if v then k else fault ;; ret 0.

(** ** Open, release, read (lines 1335-1381) *)

Definition sensor_k_open : M Z :=
  with_mod (
    modify_mod (fun m => set_open_count (open_count m + 1) m) ;;
    let* m := get_mod in
    if open_count m =? 1 then
      let* r := clk_mm_i_eb true in
      let* p := clk_get SENSOR_CLK in
      modify_mod (set_ccir_clk p) ;;
      ret r
    else ret 0).

(** The block of [sensor_k_release] run by the last close
    (lines 1360-1373). *)
Definition sensor_k_release_close : M Z :=
  sensor_k_set_voltage_cammot SENSOR_VDD_CLOSED ;;
  sensor_k_set_voltage_avdd SENSOR_VDD_CLOSED ;;
  sensor_k_set_voltage_dvdd SENSOR_VDD_CLOSED SENSOR_MAIN ;;
  sensor_k_set_voltage_dvdd SENSOR_VDD_CLOSED SENSOR_SUB ;;
  sensor_k_set_voltage_iovdd SENSOR_VDD_CLOSED ;;
  sensor_k_set_mclk 0 ;;
  let* m := get_mod in
  clk_put (ccir_clk m) ;;
  modify_mod (set_ccir_clk KNull) ;;
  clk_mm_i_eb false.

Definition sensor_k_release : M Z :=
  with_mod (
    modify_mod (fun m => set_open_count (open_count m - 1) m) ;;
    let* m := get_mod in
    if open_count m =? 0 then sensor_k_release_close else ret 0).

Definition sensor_k_read : M Z := ret 0.

(** ** The ioctl commands (lines 1611-1871) *)

(** [SENSOR_IO_*] with the value its argument points to. *)
Inductive sensor_ioctl :=
  | SENSOR_IO_PD (power_level : Z)
  | SENSOR_IO_SET_CAMMOT (vdd_val : sensor_vdd)
  | SENSOR_IO_SET_AVDD (vdd_val : sensor_vdd)
  | SENSOR_IO_SET_DVDD (vdd_val : sensor_vdd) (sensor_id : Z)
  | SENSOR_IO_SET_IOVDD (vdd_val : sensor_vdd)
  | SENSOR_IO_SET_MCLK (mclk : Z)
  | SENSOR_IO_RST (level width : Z)
  | SENSOR_IO_I2C_INIT (sensor_id : Z)
  | SENSOR_IO_I2C_DEINIT (sensor_id : Z)
  | SENSOR_IO_SET_ID (sensor_id : Z)
  | SENSOR_IO_RST_LEVEL (level : Z)
  | SENSOR_IO_I2C_ADDR (i2c_addr : Z)
  | SENSOR_IO_I2C_READ (reg : sensor_reg_bits)
  | SENSOR_IO_I2C_WRITE (reg : sensor_reg_bits)
  | SENSOR_IO_I2C_WRITE_REGS (tab : sensor_reg_tab)
  | SENSOR_IO_SET_I2CCLOCK (clock : Z)
  | SENSOR_IO_I2C_WRITE_EXT (tab : sensor_i2c)
  | SENSOR_IO_GET_FLASH_LEVEL
  | SENSOR_IO_GET_SOCID
  | SENSOR_IO_IF_CFG (is_open : bool) (if_mipi : bool) (bps_per_lane phy_id lane_num : Z)
  | SENSOR_IO_POWER_CFG (is_on : bool) (op_sensor_id : Z)
  | SENSOR_IO_OTHER.

(** The sizes of the argument structures ([BOOLEAN] is a byte,
    [SENSOR_REG_BITS_T] three [uint16_t], [SENSOR_REG_TAB_T] and
    [SENSOR_I2C_T] hold pointers, [SENSOR_FLASH_LEVEL_T] and
    [SENSOR_SOCID_T] two words). *)
Definition SZ_BOOLEAN : Z := 1.
Definition SZ_U16 : Z := 2.
Definition SZ_U32 : Z := 4.
Definition SZ_REG_BITS : Z := 6.
Definition SZ_REG_TAB : Z := 16.
Definition SZ_I2C : Z := 12.
Definition SZ_PAIR : Z := 8.
Definition SZ_IF_CFG : Z := 24.
Definition SZ_POWER_CFG : Z := 40.

(** [copy_from_user] of [size] bytes, then [k] when all were copied;
    otherwise the number not copied is the result. *)
Definition copy_then (size : Z) (k : M Z) : M Z :=
  let* c := copy_user size in if c =? 0 then k else ret c.

(** [copy_from_user] straight into [sensor_id]: the bytes copied,
    the rest zeroed. *)
Definition copy_into_sensor_id (v : Z) : M Z :=
  let* c := copy_user SZ_U32 in
  modify_mod (set_sensor_id (v mod 2 ^ (8 * (SZ_U32 - c)))) ;;
  ret c.

(** The low byte of [cur_i2c_client->addr], an [unsigned short]. *)
Definition set_i2c_addr (i2c_addr : Z) : M Z :=
  let* m := get_mod in
  match cur_i2c_client m with
  | None => fault ;; ret 0
  | Some a =>
    modify_mod (set_cur_i2c_client (Some (Z.lor (Z.land a (Z.lnot 0xFF)) i2c_addr mod 2 ^ 16))) ;;
    ret 0
  end.

(** [_sensor_k_set_i2c_clk] (lines 1275-1281). *)
Definition _sensor_k_set_i2c_clk (clock : Z) : M Z :=
  emit (I2cClk clock) ;; ret SENSOR_K_SUCCESS.

(** [_sensor_k_get_flash_level] (lines 1204-1212). *)
Definition _sensor_k_get_flash_level : M Z := ret SENSOR_K_SUCCESS.

(** The [SENSOR_IO_IF_CFG] case (lines 1813-1850). *)
Definition if_cfg (is_open if_mipi : bool) (bps phy lanes : Z) : M Z :=
  let* m := get_mod in
  (if negb if_mipi then ret tt
   else if is_open then
     if mipi_on m =? 0 then
       _sensor_k_mipi_clk_en ;; emit (Udelay 1) ;; emit (CsiInit bps phy) ;; emit CsiStart ;;
       emit (CsiLanes lanes) ;; modify_mod (set_mipi_on 1)
     else ret tt
   else if mipi_on m =? 1 then
     emit (CsiClose phy) ;; _sensor_k_mipi_clk_dis ;; modify_mod (set_mipi_on 0)
   else ret tt) ;;
  ret 0.

(** [sensor_power_on] and [sensor_power_off] (power/sensor_power.c,
    not under src/): their result is the kernel's answer. *)
Definition sensor_power_cfg (is_on : bool) (id : Z) : M Z :=
  emit (if is_on then PowerOn id else PowerOff id) ;; ask.

Definition sensor_k_ioctl (cmd : sensor_ioctl) : M Z :=
  SENSOR_CHECK_ZERO (
    match cmd with
    | SENSOR_IO_PD l => copy_then SZ_BOOLEAN (sensor_k_set_pd_level l)
    | SENSOR_IO_SET_CAMMOT v => copy_then SZ_U32 (sensor_k_set_voltage_cammot v)
    | SENSOR_IO_SET_AVDD v => copy_then SZ_U32 (sensor_k_set_voltage_avdd v)
    | SENSOR_IO_SET_DVDD v id => copy_then SZ_PAIR (sensor_k_set_voltage_dvdd v id)
    | SENSOR_IO_SET_IOVDD v => copy_then SZ_U32 (sensor_k_set_voltage_iovdd v)
    | SENSOR_IO_SET_MCLK c => copy_then SZ_U32 (sensor_k_set_mclk c)
    | SENSOR_IO_RST l wd => copy_then SZ_PAIR (_sensor_k_reset l wd)
    | SENSOR_IO_I2C_INIT id => copy_then SZ_U32 (sensor_k_sensor_sel id)
    | SENSOR_IO_I2C_DEINIT id => copy_then SZ_U32 (sensor_k_sensor_desel id)
    | SENSOR_IO_SET_ID id => copy_into_sensor_id id
    | SENSOR_IO_RST_LEVEL l => copy_then SZ_U32 (sensor_k_set_rst_level l)
    | SENSOR_IO_I2C_ADDR a => copy_then SZ_U16 (set_i2c_addr a)
    | SENSOR_IO_I2C_READ reg =>
      copy_then SZ_REG_BITS (
        let* r := _Sensor_K_ReadReg reg in
        if r.1 =? SENSOR_K_FAIL then ret r.1 else copy_user SZ_REG_BITS)
    | SENSOR_IO_I2C_WRITE reg => copy_then SZ_REG_BITS (_Sensor_K_WriteReg reg)
    | SENSOR_IO_I2C_WRITE_REGS t => copy_then SZ_REG_TAB (_sensor_k_wr_regtab t)
    | SENSOR_IO_SET_I2CCLOCK c => copy_then SZ_U32 (_sensor_k_set_i2c_clk c ;; ret 0)
    | SENSOR_IO_I2C_WRITE_EXT t => copy_then SZ_I2C (_sensor_k_wr_i2c t)
    | SENSOR_IO_GET_FLASH_LEVEL =>
      copy_then SZ_PAIR (
        let* r := _sensor_k_get_flash_level in
        if r =? SENSOR_K_FAIL then ret r else copy_user SZ_PAIR)
    | SENSOR_IO_GET_SOCID => copy_user SZ_PAIR
    | SENSOR_IO_IF_CFG o mp bps phy n => copy_then SZ_IF_CFG (if_cfg o mp bps phy n)
    | SENSOR_IO_POWER_CFG on id => copy_then SZ_POWER_CFG (sensor_power_cfg on id)
    | SENSOR_IO_OTHER => ret 0
    end).

(** ** The platform driver (lines 1889-1992) *)

(** The pins [of_get_gpio] reads from the device tree. *)
Record sensor_pins := mk_pins { dt_main_reset : Z; dt_main_pd : Z; dt_sub_reset : Z; dt_sub_pd : Z }.

(** A [gpio_request]; on failure the probe jumps to [gpio_err_exit]. *)
Definition gpio_request (pin : Z) (k : M Z) : M Z :=
  let* r := register (Gpio pin) in if r =? 0 then k else ret r.

Definition sensor_k_probe (pins : sensor_pins) : M Z :=
  SENSOR_CHECK_ZERO (
    let* r := register MiscDev in
    if negb (r =? 0) then ret r else
    modify_mod (fun m => set_pin_main_reset (dt_main_reset pins) (set_pin_main_pd (dt_main_pd pins)
      (set_pin_sub_reset (dt_sub_reset pins) (set_pin_sub_pd (dt_sub_pd pins) m)))) ;;
    gpio_request (dt_main_reset pins) (
    gpio_request (dt_main_pd pins) (
    (if dt_sub_reset pins =? dt_main_reset pins then fun k => k
     else gpio_request (dt_sub_reset pins)) (
    (if dt_sub_pd pins =? dt_main_pd pins then fun k => k
     else gpio_request (dt_sub_pd pins)) (
    gpio_direction_output (dt_main_reset pins) 1 ;;
    let* r := register I2cDriver in
    if negb (r =? 0) then ret SENSOR_K_FAIL else ret 0))))).

Definition sensor_k_remove : M Z :=
  let* m := get_mod in
  (if pin_sub_reset m =? pin_main_reset m then ret tt else release (Gpio (pin_sub_reset m))) ;;
  (if pin_sub_pd m =? pin_main_pd m then ret tt else release (Gpio (pin_sub_pd m))) ;;
  release (Gpio (pin_main_reset m)) ;;
  release (Gpio (pin_main_pd m)) ;;
  release MiscDev ;;
  ret 0.

(** ** The camera class and its attributes (lines 2009-2120) *)

Definition REAR_SENSOR_NAME : string := "SR352
".
Definition FRONT_SENSOR_NAME : string := "SR030PC50
".
Definition SENSOR_TYPE : string := "SOC
".

(** A show method: the text [sprintf] writes and its length. *)
Definition show (s : string) : string * Z := (s, Z.of_nat (String.length s)).

Definition Rear_Cam_Sensor_ID : string * Z := show REAR_SENSOR_NAME.
Definition Cam_Sensor_TYPE : string * Z := show SENSOR_TYPE.
Definition Front_Cam_Sensor_ID : string * Z := show FRONT_SENSOR_NAME.

(** The four store methods ignore the text and return 0. *)
Definition Cam_Store (size : Z) : Z := 0.

(** ** The cpuidle notifier (lines 2125-2142) *)

Definition SC_CPUIDLE_PREPARE : Z := 1.
Definition NOTIFY_OK : Z := 1.
Definition NOTIFY_BAD : Z := 32771.

Definition scxx30_Cam_sensor_cpuidle_notify (event : Z) : M Z :=
  if event =? SC_CPUIDLE_PREPARE then
    with_mod (let* m := get_mod in ret (if negb (open_count m =? 0) then NOTIFY_BAD else NOTIFY_OK))
  else ret 0.

(** ** Module init and exit (lines 2150-2275) *)

(** The error path of [sensor_k_init] from [err_make_rear_camfw_file]
    on (lines 2255-2259). *)
Definition init_unwind_rear : M unit :=
  modify (map_valid (fun _ => false)) ;; release ModMem ;;
  release (Device "rear") ;; release CameraClass ;; release PlatDriver.

(** A [device_create_file]; on failure, the undo [k] and the error. *)
Definition create_file (name : string) (undo : M unit) (k : M Z) : M Z :=
  let* e := register (DevFile name) in if e =? 0 then k else undo ;; ret e.

(** [sizeof(struct sensor_module)]: [vzalloc] only tells a zero size
    from the others, so any positive value stands for the real size
    (a few hundred bytes). *)
Definition SZ_SENSOR_MODULE : Z := 1.

Definition sensor_k_init : M Z :=
  let* ok := vzalloc SZ_SENSOR_MODULE in
  modify (map_valid (fun _ => ok)) ;;
  SENSOR_CHECK_ZERO (
    acquire ModMem ;;
    modify_mod (set_sensor_id SENSOR_ID_MAX) ;;
    let* r := register PlatDriver in
    if negb (r =? 0) then ret SENSOR_K_FAIL else
    let* e := create CameraClass in
    if negb (e =? 0) then release PlatDriver ;; ret e else
    let* e := create (Device "rear") in
    if negb (e =? 0) then release PlatDriver ;; release CameraClass ;; ret e else
    create_file "rear_camfw" init_unwind_rear (
    create_file "rear_type" (release (DevFile "rear_camfw") ;; init_unwind_rear) (
    let* e := create (Device "front") in
    if negb (e =? 0) then
      release (DevFile "rear_type") ;; release (DevFile "rear_camfw") ;; init_unwind_rear ;; ret e
    else
    create_file "front_camfw"
      (release (Device "front") ;; release (DevFile "rear_type") ;;
       release (DevFile "rear_camfw") ;; init_unwind_rear) (
    create_file "front_type"
      (release (DevFile "front_camfw") ;; release (Device "front") ;; release (DevFile "rear_type") ;;
       release (DevFile "rear_camfw") ;; init_unwind_rear) (
    register CpuidleNotifier ;;
    ret 0))))).

Definition sensor_k_exit : M unit :=
  release PlatDriver ;;
  let* v := gets w_valid in
  if v then release ModMem ;; modify (map_valid (fun _ => false)) else ret tt.

(** ** Release and the camera supplies *)

Lemma bind_eq {A B} (c : M A) (f : A -> M B) w a w1 :
  c w = (a, w1) -> bind c f w = f a w1.
Proof. intros E. unfold bind. by rewrite E. Qed.

Lemma upd_noop {A B} `{EqDecision A} (f : A -> B) a x : upd f a (f a) x = f x.
Proof. unfold upd. case_decide; by subst. Qed.

(** Closing a rail that is off and holds no pointer changes no use
    count and no count of another rail. *)
Lemma close_idle_rail w rl name :
  w_valid w = true -> services_ok w -> regulator (w_mod w) rl = KNull ->
  power_on_count (w_mod w) rl = 0 ->
  let w' := (set_voltage_rail rl name 0 w).2 in
  w_valid w' = true /\ w_ans w' = w_ans w /\
  (forall rl', power_on_count (w_mod w') rl' = power_on_count (w_mod w) rl') /\
  (forall s, r_use (w_reg w') s = r_use (w_reg w) s) /\ r_unbal (w_reg w') = r_unbal (w_reg w) /\
  (forall rl', rl' <> rl -> regulator (w_mod w') rl' = regulator (w_mod w) rl').
Proof.
  intros Hv Hok Hn Hc. cbn zeta.
  pose proof (set_voltage_rail_ok w rl name 0 Hv Hok (or_introl Hn) ltac:(lia) ltac:(lia)) as H.
  destruct (set_voltage_rail rl name 0 w) as [r w'].
  destruct H as (_ & Hv' & Ha & Hcnt & Huse & Hoth & _ & _ & _ & Hub). cbn [snd].
  rewrite Hc in Hcnt, Huse. cbn in Hcnt, Huse. rewrite ?Z.add_0_r in Huse.
  split_and!; auto.
  - intros rl'. rewrite Hcnt, <- Hc. apply upd_noop.
  - intros s. rewrite Huse. apply upd_noop.
Qed.

(** The end of [sensor_k_release_close] after the supplies. *)
Lemma kr_release_clocks : keeps_reg (sensor_k_set_mclk 0 ;; let* m := get_mod in
  clk_put (ccir_clk m) ;; modify_mod (set_ccir_clk KNull) ;; clk_mm_i_eb false).
Proof.
  apply pres_bind; [typeclasses eauto | apply kr_sensor_k_set_mclk |].
  unfold clk_put, clk_mm_i_eb, get_mod, modify_mod. pres_solve.
Qed.

Lemma release_close_sub_dvdd w :
  w_valid w = true -> services_ok w ->
  (forall rl, rl <> CAMDVDD -> power_on_count (w_mod w) rl = 0 /\ regulator (w_mod w) rl = KNull) ->
  power_on_count (w_mod w) CAMDVDD = 1 -> r_use (w_reg w) REGU_NAME_CAMDVDD = 0 ->
  let w' := (sensor_k_release_close w).2 in
  (forall s, r_use (w_reg w') s = r_use (w_reg w) s) /\
  r_unbal (w_reg w') = r_unbal (w_reg w) ++ [REGU_NAME_CAMDVDD].
Proof.
  intros Hv Hok Hidle Hd Hm. cbn zeta. unfold sensor_k_release_close.
  destruct (Hidle CAMMOT ltac:(done)) as [Hc1 Hn1].
  destruct (close_idle_rail w CAMMOT REGU_NAME_CAMMOT Hv Hok Hn1 Hc1) as (Hv1 & Ha1 & Hcnt1 & Hu1 & Hb1 & Ho1).
  destruct (set_voltage_rail CAMMOT REGU_NAME_CAMMOT 0 w) as [r1 w1] eqn:E1.
  rewrite (bind_eq (sensor_k_set_voltage_cammot SENSOR_VDD_CLOSED) _ w r1 w1 E1). cbn [snd] in *.
  assert (Hok1 : services_ok w1) by (intros n; rewrite Ha1; apply Hok).
  destruct (Hidle CAMAVDD ltac:(done)) as [Hc2 Hn2].
  rewrite <- Hcnt1 in Hc2. rewrite <- (Ho1 CAMAVDD ltac:(done)) in Hn2.
  destruct (close_idle_rail w1 CAMAVDD REGU_NAME_CAMAVDD Hv1 Hok1 Hn2 Hc2) as (Hv2 & Ha2 & Hcnt2 & Hu2 & Hb2 & Ho2).
  destruct (set_voltage_rail CAMAVDD REGU_NAME_CAMAVDD 0 w1) as [r2 w2] eqn:E2.
  rewrite (bind_eq (sensor_k_set_voltage_avdd SENSOR_VDD_CLOSED) _ w1 r2 w2 E2). cbn [snd] in *.
  assert (Hok2 : services_ok w2) by (intros n; rewrite Ha2; apply Hok1).
  pose proof (set_voltage_dvdd_ok w2 SENSOR_VDD_CLOSED SENSOR_MAIN Hv2 Hok2) as H3.
  cbv zeta in H3.
  assert (Hm2 : r_use (w_reg w2) (dvdd_name SENSOR_MAIN) = 0) by (rewrite Hu2, Hu1; exact Hm).
  rewrite Hcnt2, Hcnt1, Hd, Hm2 in H3. cbn -[sensor_k_set_voltage_dvdd upd] in H3. rewrite Z.sub_diag in H3.
  destruct (sensor_k_set_voltage_dvdd SENSOR_VDD_CLOSED SENSOR_MAIN w2) as [r3 w3] eqn:E3.
  destruct (H3 ltac:(lia)) as (_ & Hv3 & Ha3 & Hcnt3 & Hu3 & Hb3 & Ho3 & _).
  rewrite (bind_eq _ _ w2 r3 w3 E3).
  assert (Hok3 : services_ok w3) by (intros n; rewrite Ha3; apply Hok2).
  pose proof (set_voltage_dvdd_ok w3 SENSOR_VDD_CLOSED SENSOR_SUB Hv3 Hok3) as H4.
  cbv zeta in H4. rewrite Hcnt3, upd_hit in H4. cbn -[sensor_k_set_voltage_dvdd upd] in H4. rewrite ?Z.sub_diag in H4. cbn -[sensor_k_set_voltage_dvdd upd] in H4.
  destruct (sensor_k_set_voltage_dvdd SENSOR_VDD_CLOSED SENSOR_SUB w3) as [r4 w4] eqn:E4.
  destruct (H4 ltac:(lia)) as (_ & Hv4 & Ha4 & Hcnt4 & Hu4 & Hb4 & Ho4 & _).
  rewrite (bind_eq _ _ w3 r4 w4 E4).
  assert (Hok4 : services_ok w4) by (intros n; rewrite Ha4; apply Hok3).
  destruct (Hidle CAMVIO ltac:(done)) as [Hc5 Hn5].
  rewrite <- Hcnt1, <- Hcnt2 in Hc5.
  assert (Hc5' : power_on_count (w_mod w4) CAMVIO = 0)
    by (rewrite Hcnt4, upd_miss, Hcnt3, upd_miss by done; exact Hc5).
  rewrite <- (Ho1 CAMVIO ltac:(done)), <- (Ho2 CAMVIO ltac:(done)), <- (Ho3 CAMVIO ltac:(done)),
    <- (Ho4 CAMVIO ltac:(done)) in Hn5.
  destruct (close_idle_rail w4 CAMVIO REGU_NAME_CAMVIO Hv4 Hok4 Hn5 Hc5') as (_ & _ & _ & Hu5 & Hb5 & _).
  destruct (set_voltage_rail CAMVIO REGU_NAME_CAMVIO 0 w4) as [r5 w5] eqn:E5.
  rewrite (bind_eq (sensor_k_set_voltage_iovdd SENSOR_VDD_CLOSED) _ w4 r5 w5 E5). cbn [snd] in *.
  rewrite (kr_release_clocks w5). split.
  - intros x. rewrite Hu5, Hu4, Z.add_0_r, upd_noop, Hu3, Hu2, Hu1. reflexivity.
  - rewrite Hb5, Hb4, Hb3, Hb2, Hb1, app_nil_r. reflexivity.
Qed.

(** C22: When the last user closes the device while only the sub camera
    DVDD is on (vddwifipa used once, the DVDD count 1), sensor_k_release
    leaves every supply use count as it was, so vddwifipa stays on, and
    records an unbalanced regulator_disable of vddcamio: the first of
    its two DVDD calls, for SENSOR_MAIN, takes the shared count down on
    the wrong supply and the second finds it at 0. *)
Theorem sensor_k_release_sub_dvdd_left_on w :
  w_valid w = true -> services_ok w -> open_count (w_mod w) = 1 ->
  (forall rl, rl <> CAMDVDD -> power_on_count (w_mod w) rl = 0 /\ regulator (w_mod w) rl = KNull) ->
  power_on_count (w_mod w) CAMDVDD = 1 -> r_use (w_reg w) REGU_NAME_CAMDVDD = 0 ->
  r_use (w_reg w) REGU_NAME_SUB_CAMDVDD = 1 ->
  let w' := (sensor_k_release w).2 in
  r_use (w_reg w') REGU_NAME_SUB_CAMDVDD = 1 /\
  (forall s, r_use (w_reg w') s = r_use (w_reg w) s) /\
  r_unbal (w_reg w') = r_unbal (w_reg w) ++ [REGU_NAME_CAMDVDD].
Proof.
  intros Hv Hok Hoc Hidle Hd Hm Hs. cbn zeta.
  unfold sensor_k_release, with_mod, bind, gets, modify_mod, modify, get_mod.
  cbn -[sensor_k_release_close upd]. rewrite Hv, Hoc, Z.sub_diag. cbn -[sensor_k_release_close upd].
  match goal with |- context [sensor_k_release_close ?w0] =>
    destruct (release_close_sub_dvdd w0) as [Hu Hb]; cbn; auto end.
  split; [rewrite Hu; exact Hs|]. split; assumption.
Qed.

(** ** The ioctl's results *)

Theorem sensor_k_ioctl_partial_copy w mclk :
  w_valid w = true -> 0 < w_ans w (w_t w) <= SZ_U32 ->
  sensor_k_ioctl (SENSOR_IO_SET_MCLK mclk) w = (w_ans w (w_t w), map_t S w).
Proof.
  intros Hv Ha. unfold sensor_k_ioctl, copy_then, copy_user. sn_unfold. rewrite Hv. cbn.
  replace ((0 <=? w_ans w (w_t w)) && (w_ans w (w_t w) <=? SZ_U32)) with true
    by (symmetry; apply andb_true_iff; split; apply Z.leb_le; lia).
  replace (w_ans w (w_t w) =? 0) with false by (symmetry; apply Z.eqb_neq; lia).
  reflexivity.
Qed.

Theorem sensor_k_ioctl_i2c_addr_null w a :
  w_valid w = true -> cur_i2c_client (w_mod w) = None -> w_ans w (w_t w) = 0 ->
  w_fault (sensor_k_ioctl (SENSOR_IO_I2C_ADDR a) w).2 = true.
Proof.
  intros Hv Hc Ha. unfold sensor_k_ioctl, copy_then, copy_user, set_i2c_addr.
  sn_unfold. sn_exec ltac:(rewrite ?Hv, ?Ha, ?Hc). reflexivity.
Qed.

Theorem sensor_k_probe_gpio_leak w pins :
  w_valid w = true -> w_ans w (w_t w) = 0 -> w_ans w (S (w_t w)) = 0 ->
  w_ans w (S (S (w_t w))) <> 0 ->
  let '(r, w') := sensor_k_probe pins w in
  r = w_ans w (S (S (w_t w))) /\ w_held w' = w_held w ++ [MiscDev; Gpio (dt_main_reset pins)].
Proof.
  intros Hv H0 H1 H2. apply Z.eqb_neq in H2.
  unfold sensor_k_probe, gpio_request, register, acquire.
  sn_unfold. sn_exec ltac:(rewrite ?Hv, ?H0, ?H1, ?H2).
  split; [done|]. by rewrite <- app_assoc.
Qed.

(** C28: When every call succeeds, sensor_k_init registers everything
    and returns 0, and sensor_k_exit then frees the module but leaves
    the camera class, its two devices, their four attribute files and
    the cpuidle notifier registered, and the next SC_CPUIDLE_PREPARE
    event makes the notifier dereference the NULL s_p_sensor_mod. *)
Theorem sensor_k_exit_cpuidle_fault w :
  services_ok w -> w_held w = [] ->
  let w1 := (sensor_k_init w).2 in
  let w2 := (sensor_k_exit w1).2 in
  (sensor_k_init w).1 = 0 /\
  w_held w2 = [CameraClass; Device "rear"; DevFile "rear_camfw"; DevFile "rear_type";
               Device "front"; DevFile "front_camfw"; DevFile "front_type"; CpuidleNotifier] /\
  w_fault (scxx30_Cam_sensor_cpuidle_notify SC_CPUIDLE_PREPARE w2).2 = true.
Proof.
  intros Hok Hh. cbn zeta.
  unfold sensor_k_init, sensor_k_exit, scxx30_Cam_sensor_cpuidle_notify, with_mod, create_file,
    register, create, acquire, release, vzalloc, init_unwind_rear.
  sn_unfold. sn_exec ltac:(rewrite ?Hok, ?Hh).
  split_and!; reflexivity.
Qed.

(** ** Examples *)

(** The device open once, only the sub camera's DVDD on. *)
Definition sub_dvdd_open_world : world :=
  mk_w true (set_open_count 1 sub_dvdd_mod) sub_dvdd_reg clkfw0 (fun _ => 0) [] []
    (fun _ => 0) (fun _ _ => 0) 0 false.

Lemma sensor_k_release_sub_dvdd_left_on_witness :
  let w' := (sensor_k_release sub_dvdd_open_world).2 in
  r_use (w_reg w') REGU_NAME_SUB_CAMDVDD = 1 /\
  (forall s, r_use (w_reg w') s = r_use (w_reg sub_dvdd_open_world) s) /\
  r_unbal (w_reg w') = r_unbal (w_reg sub_dvdd_open_world) ++ [REGU_NAME_CAMDVDD].
Proof.
  apply sensor_k_release_sub_dvdd_left_on; try reflexivity.
  - intros n. reflexivity.
  - intros [] H; try congruence; split; reflexivity.
Defined.

Lemma sensor_k_exit_cpuidle_fault_witness :
  let w := world0 mod0 clkfw0 (fun _ => 0) in
  let w1 := (sensor_k_init w).2 in
  let w2 := (sensor_k_exit w1).2 in
  (sensor_k_init w).1 = 0 /\
  w_held w2 = [CameraClass; Device "rear"; DevFile "rear_camfw"; DevFile "rear_type";
               Device "front"; DevFile "front_camfw"; DevFile "front_type"; CpuidleNotifier] /\
  w_fault (scxx30_Cam_sensor_cpuidle_notify SC_CPUIDLE_PREPARE w2).2 = true.
Proof. apply sensor_k_exit_cpuidle_fault; [intros n; reflexivity | reflexivity]. Defined.

Lemma sensor_k_ioctl_partial_copy_witness :
  sensor_k_ioctl (SENSOR_IO_SET_MCLK 24) (world0 mod0 clkfw0 (fun _ => 2)) =
  (2, map_t S (world0 mod0 clkfw0 (fun _ => 2))).
Proof. apply sensor_k_ioctl_partial_copy; [reflexivity | cbn; unfold SZ_U32; lia]. Defined.

Lemma sensor_k_ioctl_i2c_addr_null_witness :
  w_fault (sensor_k_ioctl (SENSOR_IO_I2C_ADDR 0x3c) (world0 mod0 clkfw0 (fun _ => 0))).2 = true.
Proof. apply sensor_k_ioctl_i2c_addr_null; reflexivity. Defined.

Lemma sensor_k_probe_gpio_leak_witness :
  let w := world0 mod0 clkfw0 (fun k => if (k =? 2)%nat then - EINVAL else 0) in
  let '(r, w') := sensor_k_probe (mk_pins 1 2 3 4) w in
  r = w_ans w (S (S (w_t w))) /\ w_held w' = w_held w ++ [MiscDev; Gpio 1].
Proof. apply sensor_k_probe_gpio_leak; try reflexivity. cbn. unfold EINVAL. lia. Defined.

End SensorIoctl.
